(* ===== verification/_CoqProject ===== *)
-Q . S2P
Prelude.v
Reader.v
Msgpuck.v
MsgpuckFacts.v
MsgpackC.v
Sha1.v
Sha1Facts.v
Base64.v
Net.v
NetFacts.v
Threads.v
ThreadsFacts.v
Cstr.v
CstrFacts.v
Iproto.v
IprotoFacts.v
MpReader.v
WireSpec.v
Breaker.v
OpenSips.v
OpenSipsWire.v
OpenSipsFacts.v
OpenSipsProps.v
OpenSipsPool.v
OpenSipsUrl.v
OpenSipsSpec.v
Rtpe.v
RtpeRestore.v
RtpeFacts.v
RtpeInv.v
RtpeRestoreFacts.v
RtpeRun.v
RtpeTrip.v
RtpeSpec.v
Kamailio.v
KamFacts.v
KamRun.v
KamInv.v
KamSpec.v
KamConfig.v
AstMsgpuck.v
AstMsgpuckFacts.v
Asterisk.v
AstRealtime.v
AstApps.v
AstText.v
AstLocks.v
AstInv.v
AstThreads.v
AstFacts.v
AstSpec.v
AstConfig.v
KamModule.v
OsModule.v
Sessions.v
SessionFacts.v
Proxy.v
Containers.v
RtpeDaemon.v
ProxyFacts.v
ProxySpec.v
Lua.v
Box.v
Backend.v
Procedures.v
Billing.v
BackendFacts.v
ExpiryFacts.v
BackendRun.v
BackendSpec.v
RtpePerm.v
Failover.v
KamServer.v
AstServer.v
OsServer.v
Bench.v
Fibers.v
BillingSpec.v
CallPath.v
KamSettings.v
