(* ===== verification/Prelude.v ===== *)
(** * The Tarantool drivers of the VoIP servers: model and correctness

    The repository connects four VoIP servers to a Tarantool database: OpenSIPS (a CacheDB
    backend), rtpengine (storage of the calls in progress), Kamailio (remote procedure calls)
    and Asterisk (realtime configuration, dialplan functions and call records over a shared
    resource). Each driver is a client of the IPROTO protocol: it opens a TCP connection,
    reads the greeting of 128 bytes, answers its salt with a CHAP-SHA1 scramble (Asterisk does
    not authenticate), and then exchanges frames, a five-byte length prefix followed by two
    MessagePack maps, the header and the body. Around the connection the first three keep a
    circuit breaker: consecutive failures are counted, and enough of them make the driver
    refuse work for a while; Asterisk has a pool of connections shared by threads instead.
    The drivers share no code: OpenSIPS, rtpengine and Asterisk each carry a MessagePack
    header, the first two a copy of SHA-1 and of a Base64 decoder; Kamailio uses msgpack-c and
    the functions of the Kamailio core. Under [docker/] three programs run the first three
    drivers in containers: two SIP proxies and a daemon in place of rtpengine. The database
    itself serves them with stored procedures in Lua, under [tarantool_backend/].

    ** The files and what they model

    Foundations.
    - [Prelude] (this file): machine integers with their wrap-around, byte strings, readers
      of a buffer through a moving pointer ([R]), lemmas and tactics for all files. [Reader]:
      rules for readers and for loops of readers over encoded items.
    - [Msgpuck], [MsgpuckFacts]: [opensips_tarantool/cachedb_tarantool/msgpuck.h] (and the
      same text in [rtpengine_tarantool/include/]). An encoder is the list of bytes it
      stores; a decoder is a reader, which has no result when it reads outside its buffer.
      [mp] is the abstract syntax of MessagePack with the width of every length and number,
      [mp_bytes] its encoding. [MpReader]: the readers of encoded values and of the entries
      of maps.
    - [Sha1], [Sha1Facts], [Base64]: the embedded digest and decoder of
      [cachedb_tarantool_dbase.c] (the same text is in [rtpengine_tarantool/src/tarantool.c]),
      beside FIPS 180-4 and RFC 4648.
    - [Net], [NetFacts]: the operating system. A [world] holds the sockets, and for each the
      events still to come: bytes that arrive in any segmentation, interruptions, errors,
      time-outs, silence, the end of the stream; partial acceptance of what is sent; and the
      results of the clock, of allocation, of name resolution and of connecting. An operation
      is a function of the monad [M] on the driver's state and the world; it returns ([Ret]),
      waits for ever ([Hang]) or leaves its buffers ([Undef]). Theorems quantify over the
      world, so they hold whatever the network does.
    - [Threads], [ThreadsFacts]: programs that take and release mutexes around operations of
      [M]. The same program runs alone ([alone], a function into [M]) or beside others, one
      step of any thread at a time ([step], a relation on the threads, the owners of the
      mutexes, the shared state and the world). [recursive] says whether a mutex can be taken
      twice by its owner, as the mutexes of Asterisk can; theorems hold for both unless they
      say otherwise. A thread is [disciplined] when it waits for mutexes in an order, releases
      what it took, and its operations touch, or at least write, only what the mutexes it
      holds guard (its [strictness]); such threads have no races and some of them can always
      go on.
    - [Cstr], [CstrFacts]: the functions of [string.h], [stdlib.h] and [stdio.h] in use.
    - [Iproto], [IprotoFacts]: the frame prefix, the constants, the scramble and the abstract
      requests and responses; and the check the server makes of a scramble.
    - [WireSpec]: the properties of the codecs and the transfer loops.
    - [Breaker]: the circuit breaker as an abstract machine, the relation [attempt] of one
      step, with the failures that are counted, its invariant, and the class [IsBreaker] by which the connection of a driver
      shows its breaker.

    OpenSIPS, [cachedb_tarantool_dbase.c], its header and [cachedb_tarantool.c].
    - [OpenSips]: the handle [tnt_cluster_con] with its pool of [tnt_single_conn], named by
      index; each C function is the definition of the same name ([tnt_connect_single],
      [tnt_get_conn], [tarantool_get], [tarantool_set], ...).
    - [OpenSipsWire]: the bytes of requests and the readers of responses.
    - [OpenSipsFacts], [OpenSipsPool], [OpenSipsProps], [OpenSipsUrl]: the operations one by
      one; connections under every behaviour of the network and the invariant of the pool;
      whole operations; the URL parser of the standalone build.
    - [OpenSipsSpec]: the properties. [OsModule]: the registration of the engine, the start of
      workers and the table of parameters, over the class of the CacheDB core.

    rtpengine, [rtpengine_tarantool/src/tarantool.c] and [include/tarantool.h].
    - [Rtpe]: the client, connecting, packing, saving and deleting; [RtpeRestore]: restoring,
      whose nested loops over a response are readers of the frame. Callbacks are an argument
      that gives the answer of the callback; the calls delivered are part of the result.
    - [RtpeFacts], [RtpeInv], [RtpeRestoreFacts], [RtpeRun], [RtpeTrip]: packets and
      connecting; the invariant; restoring against the abstract response; operations end to
      end; the round trip.
    - [RtpeSpec]: the properties.

    Kamailio, [ndb_tarantool/tarantool_client.c], its header, [tarantool_kemi.c] and
    [ndb_tarantool_mod.c].
    - [MsgpackC]: the class of the msgpack-c functions the driver calls, the class of the laws
      their documentation gives, and an executable instance that satisfies them. [KamCore]
      (in [Kamailio]) is the class of the Base64 and SHA-1 functions of the Kamailio core.
    - [Kamailio]: the list of servers and the configuration strings, the connection, calls and
      evaluations, the wrappers, the workers, and the functions for scripts.
    - [KamFacts], [KamRun], [KamInv]: the connection; requests; the invariant.
    - [KamSpec], [KamConfig]: the properties. [KamModule]: the start of workers by rank, the
      script functions and the tables of parameters and functions, over the class of the core.
      [KamSettings]: configurations, line by line.

    Asterisk, [asterisk_tarantool/]: [res/res_tarantool.c], [res/res_config_tarantool.c],
    [funcs/func_tarantool.c], [cdr/cdr_tarantool.c] and [include/asterisk/].
    - [AstMsgpuck], [AstMsgpuckFacts]: the third MessagePack header, and its comparison with
      [Msgpuck].
    - [Asterisk]: profiles, their pools of sockets, acquiring and releasing a connection, raw
      requests, calls and evaluations, the configuration, loading and unloading. The classes
      [AstCore] and [AstCoreLaws] stand for the functions of the Asterisk core;
      [AstLocks] has an instance and a pool for the examples.
    - [AstRealtime]: the realtime engine. [AstApps]: the dialplan functions and call records.
    - [AstLocks], [AstInv], [AstThreads]: the mutexes each operation holds and their order;
      what an operation may change; threads in any interleaving.
    - [AstFacts], [AstSpec], [AstText], [AstConfig]: requests against the abstract response
      and the properties; the texts built in arrays; the configuration.

    The containers, [docker/kamailio_entrypoint.c], [docker/opensips_entrypoint.c] and
    [docker/rtpengine_entrypoint.c].
    - [Sessions], [SessionFacts]: the table of the calls in progress, an open-addressing hash
      table, and the Call-ID of a SIP message. The two proxies have the same text with tables
      of 32768 and 65536 slots; the size is an argument.
    - [Proxy]: the loop of the proxies, with what differs as arguments; [Containers]: their
      main functions over the drivers. [RtpeDaemon]: the daemon.
    - [ProxyFacts], [ProxySpec]: routing, and the properties. The request a proxy makes of the
      database for each INVITE is an argument; [serves] says that the next ones are answered,
      and the witnesses use the requests of the drivers on a network.

    The server, [tarantool_backend/init.lua] and [tarantool_backend/app/].
    - [Lua]: the values of Lua, with the doubles of IEEE 754, and the class by which Tarantool turns them into MessagePack.
      [Box]: spaces, indexes and tuples, the class of the operations of [box], the class of the
      laws of their documentation, and an instance over finite maps.
    - [Backend]: the schema ([schema.lua]), and the calls and nodes ([rtpe_service.lua]).
      [Procedures]: the expiry worker ([ttl_worker.lua]), the tables and call records of
      Asterisk ([asterisk_service.lua]), and the names a client can call ([init.lua]). A
      procedure is a function of the database, which returns a value or raises an error.
      A write yields until the log has it, so one that writes once is one step; [sweep] and
      [finalize_cdr], which write more than once, are their runs with no other fiber in
      between, and have machines of small steps in [Fibers] and [BillingSpec].
    - [BackendFacts], [ExpiryFacts], [BackendRun]: each procedure against a finite map of
      calls; what the worker removes; sequences of requests. [BackendSpec]: the properties.
    - [Fibers]: the worker as a machine of small steps, with requests of clients in between.
    - [Billing]: the rating of calls ([billing_service.lua]) and the procedures of statistics
      and routing ([init.lua]); they are the argument [other_procedures] of [procedure].
      [BillingSpec]: rules for what holds after a procedure, the service as small steps (the
      requests, the parts of each [finalize_cdr], the steps of the worker) and the properties.

    Drivers and server together.
    - [RtpePerm], [Failover]: the rtpengine driver saves, the server stores, another driver
      restores. [CallPath]: the same from the INVITE that a proxy receives.
    - [KamServer], [AstServer], [OsServer]: what the server makes of the requests of Kamailio,
      Asterisk and OpenSIPS.

    - [Bench]: [docker/benchmark_tarantool_c_vs_custom.c], its loops and the allocations they
      count.

    ** What the theorems show

    - Codecs: MessagePack numbers, strings, arrays and maps are read back; [mp_next] moves
      over exactly one value, and ends on every input; the digest is that of FIPS 180-4; the
      Base64 decoder inverts the encoder and stays in its destination; the transfer loops
      return exactly the bytes of the stream, in any segmentation; the codec of Asterisk
      agrees with the other one where both know a value.
    - Operations end to end: on a connected driver and for every well-formed response, in any
      segmentation and behind any stale bytes, each operation sends one frame, which is the
      intended MessagePack request, and its result is what the response holds: the payload
      of a get, the success of a set, remove, save or delete, the calls restored, the data of
      a procedure call, the variables of a look-up. Calls saved by [rtpe_tarantool_save_call]
      come back from [rtpe_tarantool_restore_calls] field by field.
    - Connections: connecting refines one [attempt] of the abstract breaker in the three
      drivers that have one; enough consecutive failures make a driver refuse without touching
      the network; the pool hands out its connections in turn; the invariants (authenticated
      exactly with a descriptor, breaker open exactly at the threshold, settings in range)
      hold after every sequence of operations on every network.
    - Threads: in every interleaving of the operations of Asterisk the profiles stay
      well-formed and each write is made under the mutexes that guard what it changes; all
      operations but realtime look-ups can always go on, and two look-ups can block each other.
    - Authentication: the scramble passes the check of the server.
    - Containers: the table of calls is a finite map as long as calls are stored once; answers
      return to the caller; an INVITE makes the daemon send the request that saves its Call-ID.
    - Server: any sequence of upserts, deletes, gets, restores and turns of the worker answers
      as a finite map with times of expiry; the worker removes the expired rows and no others,
      ends, and its whole turns are not seen by a restore; in every interleaving of its small
      steps with requests, a call that never expires is never lost, while one refreshed after
      its expiry can be; the node selected is the least loaded
      of those that are online.
    - Billing: whatever is requested, interleaved and fails, no subscriber has more calls than
      it was allowed, or a balance below zero that no request gave it; an authorized call is charged to its caller at the
      price it was authorized at; a number has the tariff of its longest prefix.
    - The system: the calls a driver saved, that were not deleted and are not expired, are those
      that the driver of another node restores; a value OpenSIPS sets is the value it gets; a
      call that was hung up at a proxy is restored nevertheless, no call of Kamailio is stored,
      the realtime engine of Asterisk changes nothing, and its records are stored as one text.
    - Settings: the lines of a Kamailio configuration take effect in their order.
    - Errors and bounds: missing keys, small destination buffers, time-outs and an optional
      database; and, where the code leaves its buffers, misses an error or does not do what
      its documentation says, a theorem that says so.

    ** Bounds and fuel

    The transfer loops have the number of events left on the socket as fuel: each turn
    consumes an event or ends, and [recv_all_exact] and [send_all_prefix] show that nothing
    else stops them. [mp_next] has the length of the buffer: each turn moves the pointer over
    a byte or counts down ([mp_next_terminates]). The loops over maps and arrays run through
    readers that stop at the end of the buffer, and the loops over strings are structural.
    The restore loop spends at least one event for each frame; the decoding of a realtime
    value has the length of the string. The probes of the table of calls are bounded by 1024
    in the code; the loops of the containers run over the packets that arrive. A drain of the
    worker has one turn more than the space has rows, and every turn but the last takes one at
    least ([drain_rounds_ok]); [worker_alone_sweeps] needs no fuel. Integers are
    [Z] with the conversions of the code written out ([u8], [u32], [u64], [i32]). Texts given
    to [snprintf] are shorter than 2^31 bytes.

    ** What is not modelled

    The contents of freed memory, the zeroing of secrets and the text of log messages. The
    socket options: their effect is that a [recv] may fail with [EAGAIN] after a time.
    Threads outside Asterisk: a handle is used by one of them at a time, and the mutex of the
    OpenSIPS pool, which guards the round-robin index, is no step of the model. Name
    resolution is a list of answers. The tables by which the Asterisk modules register; in the
    containers, the stubs of the Kamailio core. The tests, and the load generator under
    [benchmarks/]. The copies of [msgpuck.h], SHA-1 and the Base64 decoder in
    [rtpengine_tarantool/] have the text of those of OpenSIPS and no model of their own.

    Of the server: users and permissions, the log and its failure; the switch [is_running] of
    the worker, which is set once; the nil of MessagePack as a value of Lua, and the passage of
    doubles into MessagePack, since no driver calls the procedures that answer with them; the
    conversion of strings that Lua makes in arithmetic. A response of the server is the value
    of the procedure in any frame that the protocol allows. *)
From Stdlib Require Export ZArith Lia.
From stdpp Require Export prelude gmap strings.

#[global] Open Scope Z_scope.
#[global] Set Default Goal Selector "!".

(** * Machine integers *)

Definition u8 (z : Z) : Z := z mod 2 ^ 8.
Definition u32 (z : Z) : Z := z mod 2 ^ 32.
Definition u64 (z : Z) : Z := z mod 2 ^ 64.

(** Conversion to a 32-bit two's complement [int]. *)
Definition i32 (z : Z) : Z := (z + 2 ^ 31) mod 2 ^ 32 - 2 ^ 31.

(** * Byte strings and C string literals *)

Definition len {A} (l : list A) : Z := Z.of_nat (length l).

Definition is_byte (b : Z) : Prop := 0 <= b < 256.
Definition bytes_ok (bs : list Z) : Prop := Forall is_byte bs.

Fixpoint lit (s : string) : list Z :=
  match s with
  | EmptyString => []
  | String c s' => Z.of_N (Ascii.N_of_ascii c) :: lit s'
  end.

(** [take]/[drop] indexed by a C integer. *)
Definition ztake {A} (n : Z) (l : list A) : list A := take (Z.to_nat n) l.
Definition zdrop {A} (n : Z) (l : list A) : list A := drop (Z.to_nat n) l.

(** * Reading a buffer through a moving pointer

    A buffer is the list of its bytes; a C pointer into it is an offset. A read
    outside the buffer has no result; moving the pointer is never checked, as
    in C. *)

Definition rd (buf : list Z) (off : Z) : option Z :=
  if (0 <=? off) && (off <? len buf) then buf !! Z.to_nat off else None.

Definition R (A : Type) : Type := list Z -> Z -> option (A * Z).

#[export] Instance R_ret : MRet R := fun A a _ off => Some (a, off).
#[export] Instance R_bind : MBind R := fun A B k m buf off =>
  match m buf off with
  | Some (a, off') => k a buf off'
  | None => None
  end.

(** [*p++], [p[k]], [p += n] and the pointer itself. *)
Definition getb : R Z := fun buf off =>
  match rd buf off with Some b => Some (b, off + 1) | None => None end.
Definition peek (k : Z) : R Z := fun buf off =>
  match rd buf (off + k) with Some b => Some (b, off) | None => None end.
Definition skip (n : Z) : R unit := fun _ off => Some (tt, off + n).
Definition tell : R Z := fun _ off => Some (off, off).
Definition seek (n : Z) : R unit := fun _ _ => Some (tt, n).

(** The bytes [bs] are stored in [buf] from offset [off] on. *)
Fixpoint at_ (buf : list Z) (off : Z) (bs : list Z) : Prop :=
  match bs with
  | [] => True
  | b :: bs' => rd buf off = Some b /\ at_ buf (off + 1) bs'
  end.

(** [copy off n]: the [n] bytes a [memcpy] of length [n] reads at [off]. *)
Definition copy (buf : list Z) (off n : Z) : option (list Z) :=
  if n <=? 0 then Some []
  else if (0 <=? off) && (off + n <=? len buf)
       then Some (ztake n (zdrop off buf)) else None.

(** The bytes at [p]; the pointer stays. *)
Definition bytes_at (p n : Z) : R (list Z) := fun buf off =>
  match copy buf p n with Some bs => Some (bs, off) | None => None end.

(** * Lemmas *)

Lemma len_nil {A} : len (@nil A) = 0.
Proof. done. Qed.
Lemma len_cons {A} (x : A) l : len (x :: l) = 1 + len l.
Proof. unfold len. cbn [length]. lia. Qed.
Lemma len_app {A} (l k : list A) : len (l ++ k) = len l + len k.
Proof. unfold len. rewrite length_app. lia. Qed.
Lemma len_nonneg {A} (l : list A) : 0 <= len l.
Proof. unfold len. lia. Qed.
Lemma len_fmap {A B} (f : A -> B) l : len (f <$> l) = len l.
Proof. unfold len. by rewrite length_fmap. Qed.
Lemma len_zero {A} (l : list A) : len l = 0 -> l = [].
Proof. destruct l; [done|]. rewrite len_cons. pose proof (len_nonneg l). lia. Qed.
Lemma len_take {A} n (l : list A) : len (ztake n l) = Z.max 0 (Z.min n (len l)).
Proof. unfold len, ztake. rewrite length_take. lia. Qed.
Lemma len_drop {A} n (l : list A) : 0 <= n -> len (zdrop n l) = Z.max 0 (len l - n).
Proof. unfold len, zdrop. intros. rewrite length_drop. lia. Qed.
Lemma ztake_app_len {A} (l k : list A) : ztake (len l) (l ++ k) = l.
Proof. unfold ztake, len. rewrite Nat2Z.id. by apply take_app_length. Qed.
Lemma zdrop_app_len {A} (l k : list A) : zdrop (len l) (l ++ k) = k.
Proof. unfold zdrop, len. rewrite Nat2Z.id. by apply drop_app_length. Qed.
Lemma ztake_all {A} n (l : list A) : len l <= n -> ztake n l = l.
Proof. unfold ztake, len. intros. apply take_ge. lia. Qed.
Lemma zdrop_0 {A} (l : list A) : zdrop 0 l = l.
Proof. done. Qed.
Lemma ztake_zdrop {A} n (l : list A) : ztake n l ++ zdrop n l = l.
Proof. apply take_drop. Qed.

Create Rewrite HintDb lenz.
#[export] Hint Rewrite @len_nil @len_cons @len_app @len_fmap : lenz.

(** [lens]: simplify lengths; [lensia]: then linear arithmetic. *)
Ltac lens := autorewrite with lenz in *.
Ltac lensia := lens; repeat match goal with
  | |- context [len ?l] => lazymatch goal with
      | H : 0 <= len l |- _ => fail | _ => pose proof (len_nonneg l) end
  end; lia.

(** ** Machine integers *)

Lemma u8_range z : 0 <= u8 z < 256.
Proof. unfold u8. change 256 with (2 ^ 8). apply Z.mod_pos_bound. lia. Qed.
Lemma u32_range z : 0 <= u32 z < 2 ^ 32.
Proof. unfold u32. apply Z.mod_pos_bound. lia. Qed.
Lemma u64_range z : 0 <= u64 z < 2 ^ 64.
Proof. unfold u64. apply Z.mod_pos_bound. lia. Qed.
Lemma u8_id z : 0 <= z < 256 -> u8 z = z.
Proof. intros. unfold u8. apply Z.mod_small. lia. Qed.
Lemma u32_id z : 0 <= z < 2 ^ 32 -> u32 z = z.
Proof. intros. unfold u32. by apply Z.mod_small. Qed.
Lemma u64_id z : 0 <= z < 2 ^ 64 -> u64 z = z.
Proof. intros. unfold u64. by apply Z.mod_small. Qed.
Lemma i32_id z : - 2 ^ 31 <= z < 2 ^ 31 -> i32 z = z.
Proof. intros. unfold i32. rewrite Z.mod_small; lia. Qed.

(** Joining a high part and a low field: the bitwise or of disjoint fields is their sum. *)
Lemma lor_shiftl_add a b k :
  0 <= k -> 0 <= b < 2 ^ k -> Z.lor (Z.shiftl a k) b = a * 2 ^ k + b.
Proof.
  intros Hk Hb. rewrite <- Z.add_nocarry_lor.
  - by rewrite Z.shiftl_mul_pow2.
  - rewrite <- (Z.mod_small b (2 ^ k)), <- Z.land_ones by done.
    rewrite (Z.land_comm b), Z.land_assoc, Z.land_ones by done.
    rewrite Z.shiftl_mul_pow2, Z.mod_mul by lia. done.
Qed.

Lemma shiftr_div a k : 0 <= k -> Z.shiftr a k = a / 2 ^ k.
Proof. apply Z.shiftr_div_pow2. Qed.

(** ** Big-endian words, as the encoders write and the decoders read them *)

Lemma be16_join n : 0 <= n < 2 ^ 16 ->
  Z.lor (Z.shiftl (u8 (Z.shiftr n 8)) 8) (u8 n) = n.
Proof.
  intros. rewrite lor_shiftl_add by (pose proof (u8_range n); lia).
  unfold u8. rewrite shiftr_div by lia. Z.div_mod_to_equations. lia.
Qed.

Lemma be32_join n : 0 <= n < 2 ^ 32 ->
  Z.lor (Z.lor (Z.lor (Z.shiftl (u8 (Z.shiftr n 24)) 24)
                      (Z.shiftl (u8 (Z.shiftr n 16)) 16))
               (Z.shiftl (u8 (Z.shiftr n 8)) 8)) (u8 n) = n.
Proof.
  intros. pose proof (u8_range n). pose proof (u8_range (Z.shiftr n 8)).
  pose proof (u8_range (Z.shiftr n 16)).
  rewrite <- !Z.lor_assoc.
  rewrite (lor_shiftl_add _ (u8 n)) by lia.
  rewrite (lor_shiftl_add _ _ 16) by lia.
  rewrite (lor_shiftl_add _ _ 24) by lia.
  unfold u8. rewrite !shiftr_div by lia. Z.div_mod_to_equations. lia.
Qed.

(** ** The store predicate *)

Lemma at_app buf off xs ys :
  at_ buf off (xs ++ ys) <-> at_ buf off xs /\ at_ buf (off + len xs) ys.
Proof.
  revert off. induction xs as [|x xs IH]; intros off; cbn [at_ app].
  - rewrite len_nil, Z.add_0_r. tauto.
  - rewrite IH, len_cons, Z.add_assoc. tauto.
Qed.

Lemma rd_app_r pre b post : rd (pre ++ b :: post) (len pre) = Some b.
Proof.
  unfold rd. pose proof (len_nonneg pre).
  assert ((0 <=? len pre) && (len pre <? len (pre ++ b :: post)) = true) as ->.
  { rewrite len_app, len_cons. pose proof (len_nonneg post). lia. }
  unfold len. rewrite Nat2Z.id. by apply list_lookup_middle.
Qed.

Lemma at_intro pre bs post : at_ (pre ++ bs ++ post) (len pre) bs.
Proof.
  revert pre. induction bs as [|b bs IH]; intros pre; cbn [at_]; [done|].
  split; [apply rd_app_r|].
  specialize (IH (pre ++ [b])). rewrite <- app_assoc, len_app in IH. apply IH.
Qed.

Lemma at_start bs post : at_ (bs ++ post) 0 bs.
Proof. apply (at_intro [] bs post). Qed.

Lemma at_whole bs : at_ bs 0 bs.
Proof. pose proof (at_start bs []) as H. by rewrite app_nil_r in H. Qed.

Lemma rd_range buf off b : rd buf off = Some b -> 0 <= off < len buf.
Proof. unfold rd. destruct (_ && _) eqn:E; [lia|done]. Qed.

Lemma at_range buf off bs : at_ buf off bs -> bs <> [] -> 0 <= off /\ off + len bs <= len buf.
Proof.
  revert off. induction bs as [|b bs IH]; intros off; [done|]. intros [Hr Ht] Hne.
  apply rd_range in Hr. rewrite len_cons. destruct bs as [|c bs]; [lensia|].
  destruct (IH _ Ht) as [? ?]; [done|]. lia.
Qed.

Lemma at_copy buf off bs : at_ buf off bs -> copy buf off (len bs) = Some bs.
Proof.
  intros H. unfold copy. destruct bs as [|b bs]; [done|].
  pose proof (at_range _ _ _ H ltac:(done)) as [H0 H1].
  destruct (_ <=? 0) eqn:E; [rewrite len_cons in E; pose proof (len_nonneg bs); lia|].
  assert ((0 <=? off) && (off + len (b :: bs) <=? len buf) = true) as -> by lia.
  f_equal. clear E. revert off H H0 H1. generalize (b :: bs). clear.
  induction l as [|b l IH]; intros off H H0 H1; [done|].
  destruct H as [Hb Hl].
  unfold rd in Hb. destruct (_ && _) eqn:E; [|done].
  unfold ztake, zdrop, len in *. rewrite Nat2Z.id in *. cbn [length] in *.
  rewrite (drop_S _ b) by done. cbn [take]. f_equal.
  specialize (IH (off + 1) Hl ltac:(lia) ltac:(lia)).
  by replace (S (Z.to_nat off)) with (Z.to_nat (off + 1)) by lia.
Qed.

(** ** Running readers *)

Lemma R_bind_eq {A B} (m : R A) (k : A -> R B) buf off a off' :
  m buf off = Some (a, off') -> (m ≫= k) buf off = k a buf off'.
Proof. unfold mbind, R_bind. by intros ->. Qed.

Lemma getb_at buf off b bs : at_ buf off (b :: bs) -> getb buf off = Some (b, off + 1).
Proof. intros [H _]. unfold getb. by rewrite H. Qed.

Lemma peek_at buf off k b : rd buf (off + k) = Some b -> peek k buf off = Some (b, off).
Proof. unfold peek. by intros ->. Qed.

Lemma peek_step buf off k b bs :
  at_ buf (off + k) (b :: bs) -> peek k buf off = Some (b, off).
Proof. intros [H _]. by apply peek_at. Qed.

(** Decide the closed comparisons of a goal and reduce the conditionals on them. *)
Ltac ztest := repeat (match goal with
  | |- context [?a <=? ?b] => let v := eval vm_compute in (a <=? b) in
      match v with true => idtac | false => idtac end; change (a <=? b) with v
  | |- context [?a <? ?b] => let v := eval vm_compute in (a <? b) in
      match v with true => idtac | false => idtac end; change (a <? b) with v
  | |- context [?a =? ?b] => let v := eval vm_compute in (a =? b) in
      match v with true => idtac | false => idtac end; change (a =? b) with v
  end; cbn [orb andb negb]; cbv iota).

(** A boolean test over a finite range of integers. *)
Lemma range_forall (P : Z -> bool) lo n :
  forallb P (seqZ lo n) = true -> forall z, lo <= z < lo + n -> P z = true.
Proof.
  intros H z Hz. rewrite forallb_forall in H. apply H.
  apply list_elem_of_In, elem_of_seqZ. lia.
Qed.

(** Prove [P z] for every [z] of a small range by evaluation of the boolean [b]. *)
Ltac by_range b lo n z Hz :=
  let H := fresh in
  assert (H : b z = true) by (apply (range_forall b lo n); [vm_compute; reflexivity|lia]);
  cbv beta in H.

(** Byte strings by evaluation. *)
Lemma bytes_dec bs : forallb (fun b => (0 <=? b) && (b <? 256)) bs = true -> bytes_ok bs.
Proof.
  intros H. apply Forall_forall. intros b Hb. rewrite forallb_forall in H.
  apply list_elem_of_In, H in Hb. unfold is_byte. lia.
Qed.

Create HintDb rd.
