(* ===== verification/Reader.v ===== *)
(** Loops of readers: a C loop over the items of a container, and what it computes when
    the buffer holds the items. *)
From S2P Require Export Prelude.

(** A read outside the frame. *)
Definition overread {A} : R A := fun _ _ => None.

(** [for (i = 0; i < n; i++) body]: every turn of the loops below reads at least one byte,
    so the frame's length bounds the turns that stay inside it. *)
Fixpoint rloop {A} (fuel : nat) (n : Z) (body : A -> R A) (a : A) : R A :=
  if n <=? 0 then mret a
  else match fuel with
       | O => overread
       | S f => a' ← body a; rloop f (n - 1) body a'
       end.

Definition rfor {A} (n : Z) (body : A -> R A) (a : A) : R A := fun buf off =>
  rloop (S (length buf)) n body a buf off.

(** * Lemmas *)

Lemma rloop_list {A X} (bytes : X -> list Z) (P : X -> Prop) (body : A -> R A) (spec : A -> X -> A) buf :
  (forall x a p, P x -> 0 <= p -> at_ buf p (bytes x) ->
     body a buf p = Some (spec a x, p + len (bytes x))) ->
  forall xs f a p, Forall P xs -> 0 <= p -> at_ buf p (flat_map bytes xs) -> (length xs <= f)%nat ->
  rloop f (len xs) body a buf p = Some (foldl spec a xs, p + len (flat_map bytes xs)).
Proof.
  intros Hbody xs. induction xs as [|x xs IH]; intros f a p HP Hp Hat Hf.
  { cbn [flat_map foldl]. rewrite Z.add_0_r. by destruct f. }
  apply Forall_cons in HP as [Hx HP]. cbn [flat_map] in *. apply at_app in Hat as [Hax Har].
  destruct f as [|f]; [cbn in Hf; lia|]. cbn [rloop foldl]. rewrite len_cons, len_app.
  pose proof (len_nonneg xs). pose proof (len_nonneg (bytes x)).
  destruct (1 + len xs <=? 0) eqn:E; [lia|].
  rewrite (R_bind_eq _ _ _ _ _ _ (Hbody x a p Hx Hp Hax)).
  replace (1 + len xs - 1) with (len xs) by lia. cbn in Hf.
  rewrite IH by (done || lia). by rewrite Z.add_assoc.
Qed.

(** Items of at least one byte: the buffer bounds their number. *)
Lemma items_length {X} (bytes : X -> list Z) xs :
  (forall x, (0 < length (bytes x))%nat) -> (length xs <= length (flat_map bytes xs))%nat.
Proof.
  intros H. induction xs as [|x xs IH]; [done|]. cbn. rewrite length_app. specialize (H x). lia.
Qed.

Lemma at_length buf p bs : at_ buf p bs -> 0 <= p -> (length bs <= length buf)%nat.
Proof.
  intros H Hp. destruct bs as [|b bs]; [cbn; lia|].
  destruct (at_range _ _ _ H ltac:(done)). unfold len in *. lia.
Qed.

Lemma rfor_list {A X} (bytes : X -> list Z) (P : X -> Prop) (body : A -> R A) (spec : A -> X -> A) buf xs a p :
  (forall x a p, P x -> 0 <= p -> at_ buf p (bytes x) ->
     body a buf p = Some (spec a x, p + len (bytes x))) ->
  (forall x, (0 < length (bytes x))%nat) -> Forall P xs -> 0 <= p -> at_ buf p (flat_map bytes xs) ->
  rfor (len xs) body a buf p = Some (foldl spec a xs, p + len (flat_map bytes xs)).
Proof.
  intros Hbody Hpos HP Hp Hat. apply (rloop_list bytes P); try done.
  pose proof (items_length bytes xs Hpos). pose proof (at_length _ _ _ Hat Hp). lia.
Qed.
