(* ===== verification/Msgpuck.v ===== *)
(** MessagePack encoder and decoder of [opensips_tarantool/.../msgpuck.h], which
    [rtpengine_tarantool/include/msgpuck.h] repeats: the encoders produce the
    bytes the C code stores from [data] on, the decoders are readers of a buffer
    through the moving pointer [*data] ([None] is a read outside the buffer). *)
From S2P Require Export Prelude.

(** * Format descriptors *)

Definition MP_FIXMAP := 0x80.
Definition MP_FIXARRAY := 0x90.
Definition MP_FIXSTR := 0xa0.
Definition MP_NIL := 0xc0.
Definition MP_FALSE := 0xc2.
Definition MP_TRUE := 0xc3.
Definition MP_BIN8 := 0xc4.
Definition MP_BIN16 := 0xc5.
Definition MP_BIN32 := 0xc6.
Definition MP_UINT8 := 0xcc.
Definition MP_UINT16 := 0xcd.
Definition MP_UINT32 := 0xce.
Definition MP_UINT64 := 0xcf.
Definition MP_INT8 := 0xd0.
Definition MP_INT16 := 0xd1.
Definition MP_INT32 := 0xd2.
Definition MP_INT64 := 0xd3.
Definition MP_STR8 := 0xd9.
Definition MP_STR16 := 0xda.
Definition MP_STR32 := 0xdb.
Definition MP_ARRAY16 := 0xdc.
Definition MP_ARRAY32 := 0xdd.
Definition MP_MAP16 := 0xde.
Definition MP_MAP32 := 0xdf.

(** * Encoders *)

Definition mp_encode_nil : list Z := [MP_NIL].

Definition mp_encode_bool (val : bool) : list Z :=
  [if val then MP_TRUE else MP_FALSE].

(** The [w]-byte big-endian store the encoders write out byte by byte. *)
Fixpoint be_bytes (w : nat) (num : Z) : list Z :=
  match w with
  | O => []
  | S w' => u8 (Z.shiftr num (8 * Z.of_nat w')) :: be_bytes w' num
  end.

Definition mp_encode_uint (num : Z) : list Z :=
  if num <=? 0x7f then [u8 num]
  else if num <=? 0xff then [MP_UINT8; u8 num]
  else if num <=? 0xffff then [MP_UINT16; u8 (Z.shiftr num 8); u8 num]
  else if num <=? 0xffffffff then
    [MP_UINT32; u8 (Z.shiftr num 24); u8 (Z.shiftr num 16); u8 (Z.shiftr num 8); u8 num]
  else MP_UINT64 :: be_bytes 8 num.

(** The bytes of a length-prefixed payload: [memcpy] of [n] bytes of a non-null pointer. *)
Definition mp_payload (p : option (list Z)) (n : Z) : list Z :=
  match p with
  | Some bs => if 0 <? n then ztake n bs else []
  | None => []
  end.

Definition mp_encode_str (str : option (list Z)) (n : Z) : list Z :=
  (if n <=? 31 then [u8 (Z.lor MP_FIXSTR n)]
   else if n <=? 0xff then [MP_STR8; u8 n]
   else if n <=? 0xffff then [MP_STR16; u8 (Z.shiftr n 8); u8 n]
   else [MP_STR32; u8 (Z.shiftr n 24); u8 (Z.shiftr n 16); u8 (Z.shiftr n 8); u8 n])
  ++ mp_payload str n.

Definition mp_encode_bin (bin : option (list Z)) (n : Z) : list Z :=
  (if n <=? 0xff then [MP_BIN8; u8 n]
   else if n <=? 0xffff then [MP_BIN16; u8 (Z.shiftr n 8); u8 n]
   else [MP_BIN32; u8 (Z.shiftr n 24); u8 (Z.shiftr n 16); u8 (Z.shiftr n 8); u8 n])
  ++ mp_payload bin n.

Definition mp_encode_array (size : Z) : list Z :=
  if size <=? 15 then [u8 (Z.lor MP_FIXARRAY size)]
  else if size <=? 0xffff then [MP_ARRAY16; u8 (Z.shiftr size 8); u8 size]
  else [MP_ARRAY32; u8 (Z.shiftr size 24); u8 (Z.shiftr size 16);
        u8 (Z.shiftr size 8); u8 size].

Definition mp_encode_map (size : Z) : list Z :=
  if size <=? 15 then [u8 (Z.lor MP_FIXMAP size)]
  else if size <=? 0xffff then [MP_MAP16; u8 (Z.shiftr size 8); u8 size]
  else [MP_MAP32; u8 (Z.shiftr size 24); u8 (Z.shiftr size 16);
        u8 (Z.shiftr size 8); u8 size].

(** A string whose pointer and length describe the bytes [s]. *)
Definition mp_str (s : list Z) : list Z := mp_encode_str (Some s) (u32 (len s)).

(** * Decoders *)

(** [p[0] << 8 | p[1]; p += 2] and its 32-bit form. *)
Definition get_be16 : R Z :=
  p0 ← peek 0; p1 ← peek 1;
  _ ← skip 2;
  mret (Z.lor (Z.shiftl p0 8) p1).

Definition get_be32 : R Z :=
  p0 ← peek 0; p1 ← peek 1; p2 ← peek 2; p3 ← peek 3;
  _ ← skip 4;
  mret (Z.lor (Z.lor (Z.lor (Z.shiftl p0 24) (Z.shiftl p1 16)) (Z.shiftl p2 8)) p3).

(** [for (i = 0; i < n; i++) val = (val << 8) | *p++] on a [uint64_t]. *)
Fixpoint shift_in (n : nat) (val : Z) : R Z :=
  match n with
  | O => mret val
  | S n' => b ← getb; shift_in n' (Z.lor (u64 (Z.shiftl val 8)) b)
  end.

Definition mp_decode_uint : R Z :=
  c ← getb;
  if c <=? 0x7f then mret c
  else if c =? MP_UINT8 then getb
  else if c =? MP_UINT16 then get_be16
  else if c =? MP_UINT32 then get_be32
  else if c =? MP_UINT64 then shift_in 8 0
  else mret 0.

(** The result is the position of the first byte of the string and its length. *)
Definition mp_decode_str : R (Z * Z) :=
  c ← getb;
  l ← (if Z.land c 0xe0 =? MP_FIXSTR then mret (Z.land c 0x1f)
       else if c =? MP_STR8 then getb
       else if c =? MP_STR16 then get_be16
       else if c =? MP_STR32 then get_be32
       else mret 0);
  s ← tell;
  _ ← skip l;
  mret (s, l).

Definition mp_decode_array : R Z :=
  c ← getb;
  if Z.land c 0xf0 =? MP_FIXARRAY then mret (Z.land c 0x0f)
  else if c =? MP_ARRAY16 then get_be16
  else if c =? MP_ARRAY32 then get_be32
  else mret 0.

Definition mp_decode_map : R Z :=
  c ← getb;
  if Z.land c 0xf0 =? MP_FIXMAP then mret (Z.land c 0x0f)
  else if c =? MP_MAP16 then get_be16
  else if c =? MP_MAP32 then get_be32
  else mret 0.

(** [mp_next] up to its recursive loops: the pointer moves past the tag, the
    lengths and the payload of a scalar; the result is the number of values the
    loop of a container then skips ([0] for a scalar). Lengths and counts are
    [uint32_t]. *)
Definition mp_next_head : R Z :=
  c ← getb;
  if (c <=? 0x7f) || (0xe0 <=? c) then mret 0
  else if Z.land c 0xe0 =? MP_FIXSTR then _ ← skip (Z.land c 0x1f); mret 0
  else if Z.land c 0xf0 =? MP_FIXARRAY then mret (Z.land c 0x0f)
  else if Z.land c 0xf0 =? MP_FIXMAP then mret (Z.land c 0x0f * 2)
  else if (c =? MP_NIL) || (c =? MP_FALSE) || (c =? MP_TRUE) then mret 0
  else if (c =? MP_UINT8) || (c =? MP_INT8) then _ ← skip 1; mret 0
  else if (c =? MP_UINT16) || (c =? MP_INT16) then _ ← skip 2; mret 0
  else if (c =? MP_UINT32) || (c =? MP_INT32) then _ ← skip 4; mret 0
  else if (c =? MP_UINT64) || (c =? MP_INT64) then _ ← skip 8; mret 0
  else if (c =? MP_STR8) || (c =? MP_BIN8) then p0 ← peek 0; _ ← skip (1 + p0); mret 0
  else if (c =? MP_STR16) || (c =? MP_BIN16) then
    p0 ← peek 0; p1 ← peek 1;
    _ ← skip (u32 (2 + Z.lor (Z.shiftl p0 8) p1)); mret 0
  else if (c =? MP_STR32) || (c =? MP_BIN32) then
    p0 ← peek 0; p1 ← peek 1; p2 ← peek 2; p3 ← peek 3;
    _ ← skip (u32 (4 + Z.lor (Z.lor (Z.lor (Z.shiftl p0 24) (Z.shiftl p1 16))
                                    (Z.shiftl p2 8)) p3)); mret 0
  else if c =? MP_ARRAY16 then get_be16
  else if c =? MP_ARRAY32 then get_be32
  else if c =? MP_MAP16 then n ← get_be16; mret (n * 2)
  else if c =? MP_MAP32 then n ← get_be32; mret (u32 (n * 2))
  else mret 0.

(** [for (i = 0; i < count; i++) mp_next(data)], unfolding [mp_next] into its
    head and its own loop. Every value read moves the pointer by at least one
    byte inside the buffer, so the buffer's length bounds the recursion. *)
Fixpoint mp_skip (fuel : nat) (count : Z) : R unit :=
  if count <=? 0 then mret tt
  else match fuel with
       | O => fun _ _ => None
       | S f => n ← mp_next_head; _ ← mp_skip f n; mp_skip f (count - 1)
       end.

Definition mp_next : R unit := fun buf off => mp_skip (S (length buf)) 1 buf off.

(** * Specification: MessagePack values on the wire *)

(** The format of a length or count header. *)
Inductive mpfmt := FFix | F8 | F16 | F32.
#[export] Instance mpfmt_eq_dec : EqDecision mpfmt.
Proof. solve_decision. Defined.
(** The width of a number. *)
Inductive mpw := W8 | W16 | W32 | W64.

Definition wbytes (w : mpw) : nat :=
  match w with W8 => 1 | W16 => 2 | W32 => 4 | W64 => 8 end.

#[local] Set Warnings "-register-all".

(** Values, but for floats and extensions: the codec writes none, and [mp_next] fails on them
    ([mp_next_floats_desynchronise] of [WireSpec]). *)
Inductive mp :=
| MNil | MBool (b : bool)
| MFix (n : Z)                       (* positive or negative fixint *)
| MUint (w : mpw) (n : Z) | MInt (w : mpw) (n : Z)
| MStr (f : mpfmt) (s : list Z) | MBin (f : mpfmt) (s : list Z)
| MArr (f : mpfmt) (xs : list mp)
| MMap (f : mpfmt) (kvs : list (mp * mp)).

Definition hdr (fix_tag t8 t16 t32 : Z) (f : mpfmt) (n : Z) : list Z :=
  match f with
  | FFix => [fix_tag + n]
  | F8 => t8 :: be_bytes 1 n
  | F16 => t16 :: be_bytes 2 n
  | F32 => t32 :: be_bytes 4 n
  end.

Definition uint_tag (w : mpw) : Z :=
  match w with W8 => MP_UINT8 | W16 => MP_UINT16 | W32 => MP_UINT32 | W64 => MP_UINT64 end.
Definition int_tag (w : mpw) : Z :=
  match w with W8 => MP_INT8 | W16 => MP_INT16 | W32 => MP_INT32 | W64 => MP_INT64 end.

Fixpoint mp_bytes (v : mp) : list Z :=
  match v with
  | MNil => [MP_NIL]
  | MBool b => [if b then MP_TRUE else MP_FALSE]
  | MFix n => [u8 n]
  | MUint w n => uint_tag w :: be_bytes (wbytes w) n
  | MInt w n => int_tag w :: be_bytes (wbytes w) n
  | MStr f s => hdr MP_FIXSTR MP_STR8 MP_STR16 MP_STR32 f (len s) ++ s
  | MBin f s => hdr MP_BIN8 MP_BIN8 MP_BIN16 MP_BIN32 f (len s) ++ s
  | MArr f xs => hdr MP_FIXARRAY MP_ARRAY16 MP_ARRAY16 MP_ARRAY32 f (len xs)
                 ++ flat_map mp_bytes xs
  | MMap f kvs => hdr MP_FIXMAP MP_MAP16 MP_MAP16 MP_MAP32 f (len kvs)
                  ++ flat_map (fun kv => mp_bytes kv.1 ++ mp_bytes kv.2) kvs
  end.

(** The header format can hold the count [n]: the formats a type has, and their ranges. *)
Definition fmt_ok (has8 : bool) (fixmax : Z) (f : mpfmt) (n : Z) : Prop :=
  match f with
  | FFix => n <= fixmax
  | F8 => has8 = true /\ n < 2 ^ 8
  | F16 => n < 2 ^ 16
  | F32 => n < 2 ^ 32
  end.

Fixpoint mp_wf (v : mp) : Prop :=
  match v with
  | MNil | MBool _ => True
  | MFix n => - 32 <= n <= 127
  | MUint w n => 0 <= n < 2 ^ (8 * Z.of_nat (wbytes w))
  | MInt w n => True
  | MStr f s => fmt_ok true 31 f (len s) /\ len s < 2 ^ 32 - 4
  | MBin f s => f <> FFix /\ fmt_ok true 0 f (len s) /\ len s < 2 ^ 32 - 4
  | MArr f xs => fmt_ok false 15 f (len xs) /\ (fix all l := match l with
                   | [] => True | x :: l' => mp_wf x /\ all l' end) xs
  | MMap f kvs => fmt_ok false 15 f (len kvs) /\ len kvs < 2 ^ 31 /\ (fix all l := match l with
                   | [] => True | kv :: l' => mp_wf kv.1 /\ mp_wf kv.2 /\ all l' end) kvs
  end.

