(* ===== verification/MsgpuckFacts.v ===== *)
(** Lemmas on the MessagePack encoders and decoders of [Msgpuck]: the encoders
    produce the specified wire bytes, the decoders and [mp_next] read them back. *)
From S2P Require Export Msgpuck.

(** * Lemmas: the encoders produce the specified bytes *)

Lemma be_bytes_1 n : be_bytes 1 n = [u8 n].
Proof. reflexivity. Qed.
Lemma be_bytes_2 n : be_bytes 2 n = [u8 (Z.shiftr n 8); u8 n].
Proof. reflexivity. Qed.
Lemma be_bytes_4 n :
  be_bytes 4 n = [u8 (Z.shiftr n 24); u8 (Z.shiftr n 16); u8 (Z.shiftr n 8); u8 n].
Proof. reflexivity. Qed.
Lemma len_be_bytes w n : len (be_bytes w n) = Z.of_nat w.
Proof. induction w; cbn [be_bytes]; lens; lia. Qed.
#[export] Hint Rewrite len_be_bytes : lenz.

Lemma lor_fixstr n : 0 <= n <= 31 -> u8 (Z.lor MP_FIXSTR n) = MP_FIXSTR + n.
Proof.
  intros. replace (Z.lor MP_FIXSTR n) with (MP_FIXSTR + n).
  - apply u8_id. unfold MP_FIXSTR. lia.
  - symmetry. apply (lor_shiftl_add 5 n 5); lia.
Qed.
Lemma lor_fixarray n : 0 <= n <= 15 -> u8 (Z.lor MP_FIXARRAY n) = MP_FIXARRAY + n.
Proof.
  intros. replace (Z.lor MP_FIXARRAY n) with (MP_FIXARRAY + n).
  - apply u8_id. unfold MP_FIXARRAY. lia.
  - symmetry. apply (lor_shiftl_add 9 n 4); lia.
Qed.
Lemma lor_fixmap n : 0 <= n <= 15 -> u8 (Z.lor MP_FIXMAP n) = MP_FIXMAP + n.
Proof.
  intros. replace (Z.lor MP_FIXMAP n) with (MP_FIXMAP + n).
  - apply u8_id. unfold MP_FIXMAP. lia.
  - symmetry. apply (lor_shiftl_add 8 n 4); lia.
Qed.

(** The value and format each encoder chooses: the shortest one. *)
Definition uint_mp (n : Z) : mp :=
  if n <=? 0x7f then MFix n else if n <=? 0xff then MUint W8 n
  else if n <=? 0xffff then MUint W16 n else if n <=? 0xffffffff then MUint W32 n
  else MUint W64 n.
Definition str_fmt (n : Z) : mpfmt :=
  if n <=? 31 then FFix else if n <=? 0xff then F8 else if n <=? 0xffff then F16 else F32.
Definition bin_fmt (n : Z) : mpfmt :=
  if n <=? 0xff then F8 else if n <=? 0xffff then F16 else F32.
Definition cnt_fmt (n : Z) : mpfmt :=
  if n <=? 15 then FFix else if n <=? 0xffff then F16 else F32.

Lemma mp_payload_all s : mp_payload (Some s) (len s) = s.
Proof.
  unfold mp_payload. destruct (0 <? len s) eqn:E; [by apply ztake_all|].
  symmetry. apply len_zero. pose proof (len_nonneg s). lia.
Qed.

Lemma mp_encode_uint_bytes n : mp_encode_uint n = mp_bytes (uint_mp n).
Proof. unfold mp_encode_uint, uint_mp. by repeat case_match. Qed.

Lemma mp_str_bytes s : len s < 2 ^ 32 -> mp_str s = mp_bytes (MStr (str_fmt (len s)) s).
Proof.
  intros H. pose proof (len_nonneg s). unfold mp_str. rewrite u32_id by lia.
  unfold mp_encode_str, str_fmt. cbn [mp_bytes]. rewrite mp_payload_all. f_equal.
  repeat case_match; try done. cbn [hdr]. rewrite lor_fixstr by lia. done.
Qed.

Lemma mp_encode_bin_bytes s : len s < 2 ^ 32 ->
  mp_encode_bin (Some s) (len s) = mp_bytes (MBin (bin_fmt (len s)) s).
Proof.
  intros H. unfold mp_encode_bin, bin_fmt. cbn [mp_bytes]. rewrite mp_payload_all.
  f_equal. by repeat case_match.
Qed.

Lemma mp_encode_array_bytes n : 0 <= n ->
  mp_encode_array n = hdr MP_FIXARRAY MP_ARRAY16 MP_ARRAY16 MP_ARRAY32 (cnt_fmt n) n.
Proof.
  intros. unfold mp_encode_array, cnt_fmt. repeat case_match; try done.
  cbn [hdr]. rewrite lor_fixarray by lia. done.
Qed.

Lemma mp_encode_map_bytes n : 0 <= n ->
  mp_encode_map n = hdr MP_FIXMAP MP_MAP16 MP_MAP16 MP_MAP32 (cnt_fmt n) n.
Proof.
  intros. unfold mp_encode_map, cnt_fmt. repeat case_match; try done.
  cbn [hdr]. rewrite lor_fixmap by lia. done.
Qed.

(** * Lemmas: the decoders read the specified bytes *)

(** [reads m buf off bs a]: from [off], where [bs] is stored, [m] returns [a] and stops
    just after [bs]. *)
Definition reads {A} (m : R A) (buf : list Z) (off : Z) (bs : list Z) (a : A) : Prop :=
  at_ buf off bs -> m buf off = Some (a, off + len bs).

Lemma get_be16_at buf off n : 0 <= n < 2 ^ 16 -> reads get_be16 buf off (be_bytes 2 n) n.
Proof.
  intros Hn (H1 & H0 & _). unfold get_be16, mbind, R_bind, peek, skip, mret, R_ret.
  rewrite Z.add_0_r, H1, H0. do 2 f_equal.
  cbn [Z.of_nat Z.mul]. by rewrite Z.shiftr_0_r, be16_join.
Qed.

Lemma get_be32_at buf off n : 0 <= n < 2 ^ 32 -> reads get_be32 buf off (be_bytes 4 n) n.
Proof.
  intros Hn (H3 & H2 & H1 & H0 & _).
  unfold get_be32, mbind, R_bind, peek, skip, mret, R_ret.
  rewrite Z.add_0_r, H3, H2.
  replace (off + 2) with (off + 1 + 1) by lia. rewrite H1.
  replace (off + 3) with (off + 1 + 1 + 1) by lia. rewrite H0.
  do 2 f_equal. cbn [Z.of_nat Z.mul]. by rewrite Z.shiftr_0_r, be32_join.
Qed.

Lemma shift_in_step m : 0 <= m < 2 ^ 64 ->
  Z.lor (u64 (Z.shiftl (Z.shiftr m 8) 8)) (u8 m) = m.
Proof.
  intros Hm. pose proof (u8_range m). rewrite u64_id.
  - rewrite lor_shiftl_add, shiftr_div by lia. unfold u8. Z.div_mod_to_equations. lia.
  - rewrite Z.shiftl_mul_pow2, shiftr_div by lia. Z.div_mod_to_equations. lia.
Qed.

Lemma shift_in_at w n buf off : 0 <= n < 2 ^ 64 ->
  reads (shift_in w (Z.shiftr n (8 * Z.of_nat w))) buf off (be_bytes w n) n.
Proof.
  intros Hn. revert off. induction w as [|w IH]; intros off Hat.
  - cbn. by rewrite Z.shiftr_0_r, Z.add_0_r.
  - cbn [be_bytes] in *. cbn [shift_in].
    rewrite (R_bind_eq _ _ _ _ _ _ (getb_at _ _ _ _ Hat)).
    replace (8 * Z.of_nat (S w)) with (8 * Z.of_nat w + 8) by lia.
    rewrite <- Z.shiftr_shiftr by lia. rewrite shift_in_step.
    + destruct Hat as [_ Hat]. rewrite (IH _ Hat). do 2 f_equal. lens. lia.
    + rewrite shiftr_div by lia. split; [apply Z.div_pos; lia|].
      apply Z.le_lt_trans with n; [|lia]. apply Z.div_le_upper_bound; nia.
Qed.

(** Run the head of a reader: the next byte is the first of the stored bytes. *)
Ltac rhead H :=
  rewrite (R_bind_eq _ _ _ _ _ _ (getb_at _ _ _ _ H)); ztest.

Definition uint_ok (v : mp) (n : Z) : Prop :=
  match v with
  | MFix m => m = n /\ 0 <= n <= 127
  | MUint w m => m = n /\ 0 <= n < 2 ^ (8 * Z.of_nat (wbytes w))
  | _ => False
  end.

(** The decoder reads a non-negative integer in every width the format has. *)
Lemma mp_decode_uint_at buf off v n :
  uint_ok v n -> reads mp_decode_uint buf off (mp_bytes v) n.
Proof.
  intros Hv Hat. unfold mp_decode_uint. destruct v as [|b|m|w m|w m|f s|f s|f xs|f kvs]; try done.
  - destruct Hv as [-> Hn]. cbn [mp_bytes] in *. rhead Hat. rewrite (u8_id n) by lia.
    destruct (n <=? 127) eqn:E; [done|lia].
  - destruct Hv as [-> Hn]. cbn [mp_bytes] in *.
    assert (0 <= n < 2 ^ 64) by (destruct w; cbn in Hn; lia).
    pose proof Hat as [_ Hat'].
    destruct w; cbn [uint_tag wbytes] in *; rhead Hat.
    + destruct Hat' as [Hb _]. unfold getb. rewrite Hb. do 2 f_equal; [apply u8_id; lia|].
      lens. lia.
    + rewrite (get_be16_at _ _ n) by (done || lia). do 2 f_equal. lens. lia.
    + rewrite (get_be32_at _ _ n) by (done || lia). do 2 f_equal. lens. lia.
    + replace 0 with (Z.shiftr n (8 * Z.of_nat 8)).
      * rewrite (shift_in_at 8 n) by done. do 2 f_equal. lens. lia.
      * rewrite shiftr_div by lia. by apply Z.div_small.
Qed.

Lemma uint_mp_ok n : 0 <= n < 2 ^ 64 -> uint_ok (uint_mp n) n.
Proof. intros. unfold uint_mp. repeat case_match; cbn; lia. Qed.

Lemma mp_decode_encode_uint buf off n : 0 <= n < 2 ^ 64 ->
  reads mp_decode_uint buf off (mp_encode_uint n) n.
Proof. intros. rewrite mp_encode_uint_bytes. by apply mp_decode_uint_at, uint_mp_ok. Qed.

(** A mask test on a tag byte of a small range, by evaluation. *)
Lemma fixstr_tag n : 0 <= n <= 31 ->
  Z.land (MP_FIXSTR + n) 0xe0 = MP_FIXSTR /\ Z.land (MP_FIXSTR + n) 0x1f = n.
Proof.
  intros. by_range (fun n => (Z.land (MP_FIXSTR + n) 0xe0 =? MP_FIXSTR)
                             && (Z.land (MP_FIXSTR + n) 0x1f =? n)) 0 32 n H. lia.
Qed.
Lemma fixarray_tag n : 0 <= n <= 15 ->
  Z.land (MP_FIXARRAY + n) 0xf0 = MP_FIXARRAY /\ Z.land (MP_FIXARRAY + n) 0x0f = n.
Proof.
  intros. by_range (fun n => (Z.land (MP_FIXARRAY + n) 0xf0 =? MP_FIXARRAY)
                             && (Z.land (MP_FIXARRAY + n) 0x0f =? n)) 0 16 n H. lia.
Qed.
Lemma fixmap_tag n : 0 <= n <= 15 ->
  Z.land (MP_FIXMAP + n) 0xf0 = MP_FIXMAP /\ Z.land (MP_FIXMAP + n) 0x0f = n.
Proof.
  intros. by_range (fun n => (Z.land (MP_FIXMAP + n) 0xf0 =? MP_FIXMAP)
                             && (Z.land (MP_FIXMAP + n) 0x0f =? n)) 0 16 n H. lia.
Qed.

Definition count_ok (v : Z) (f : mpfmt) : Prop := 0 <= v /\ fmt_ok false 15 f v.

Lemma mp_decode_array_at buf off f n : count_ok n f ->
  reads mp_decode_array buf off (hdr MP_FIXARRAY MP_ARRAY16 MP_ARRAY16 MP_ARRAY32 f n) n.
Proof.
  intros [H0 Hf] Hat. unfold mp_decode_array. pose proof Hat as Hat'.
  destruct f; cbn [hdr fmt_ok] in *; [|by destruct Hf| |]; destruct Hat' as [_ Hat'].
  - destruct (fixarray_tag n) as [E1 E2]; [lia|].
    rewrite (R_bind_eq _ _ _ _ _ _ (getb_at _ _ _ _ Hat)).
    rewrite E1, E2, Z.eqb_refl. done.
  - rhead Hat. rewrite (get_be16_at _ _ n) by (done || lia). do 2 f_equal. lens. lia.
  - rhead Hat. rewrite (get_be32_at _ _ n) by (done || lia). do 2 f_equal. lens. lia.
Qed.

Lemma mp_decode_map_at buf off f n : count_ok n f ->
  reads mp_decode_map buf off (hdr MP_FIXMAP MP_MAP16 MP_MAP16 MP_MAP32 f n) n.
Proof.
  intros [H0 Hf] Hat. unfold mp_decode_map. pose proof Hat as Hat'.
  destruct f; cbn [hdr fmt_ok] in *; [|by destruct Hf| |]; destruct Hat' as [_ Hat'].
  - destruct (fixmap_tag n) as [E1 E2]; [lia|].
    rewrite (R_bind_eq _ _ _ _ _ _ (getb_at _ _ _ _ Hat)).
    rewrite E1, E2, Z.eqb_refl. done.
  - rhead Hat. rewrite (get_be16_at _ _ n) by (done || lia). do 2 f_equal. lens. lia.
  - rhead Hat. rewrite (get_be32_at _ _ n) by (done || lia). do 2 f_equal. lens. lia.
Qed.

Lemma cnt_fmt_ok n : 0 <= n < 2 ^ 32 -> count_ok n (cnt_fmt n).
Proof. intros. unfold cnt_fmt. split; [lia|]. repeat case_match; cbn; lia. Qed.

Lemma mp_decode_encode_array buf off n : 0 <= n < 2 ^ 32 ->
  reads mp_decode_array buf off (mp_encode_array n) n.
Proof.
  intros. rewrite mp_encode_array_bytes by lia. by apply mp_decode_array_at, cnt_fmt_ok.
Qed.
Lemma mp_decode_encode_map buf off n : 0 <= n < 2 ^ 32 ->
  reads mp_decode_map buf off (mp_encode_map n) n.
Proof.
  intros. rewrite mp_encode_map_bytes by lia. by apply mp_decode_map_at, cnt_fmt_ok.
Qed.

Lemma mp_decode_str_at buf off f s :
  mp_wf (MStr f s) -> at_ buf off (mp_bytes (MStr f s)) ->
  mp_decode_str buf off = Some ((off + len (mp_bytes (MStr f s)) - len s, len s),
                                off + len (mp_bytes (MStr f s)))
  /\ at_ buf (off + len (mp_bytes (MStr f s)) - len s) s.
Proof.
  intros [Hf Hl] Hat. pose proof (len_nonneg s) as H0. cbn [mp_bytes] in *.
  pose proof Hat as Hat'. apply at_app in Hat' as [Hh Hs]. split.
  2:{ rewrite len_app. by replace (off + (_ + _) - _) with
        (off + len (hdr MP_FIXSTR MP_STR8 MP_STR16 MP_STR32 f (len s))) by lia. }
  unfold mp_decode_str. rewrite len_app.
  destruct f; cbn [hdr fmt_ok app] in *.
  - destruct (fixstr_tag (len s)) as [E1 E2]; [lia|].
    rewrite (R_bind_eq _ _ _ _ _ _ (getb_at _ _ _ _ Hat)). rewrite E1, E2, Z.eqb_refl.
    unfold mbind, R_bind, mret, R_ret, tell, skip. cbn. do 2 f_equal; [f_equal|]; lens; lia.
  - rhead Hat. destruct Hh as [_ [Hb _]]. unfold getb at 1, mbind, R_bind. rewrite Hb.
    unfold mret, R_ret, tell, skip. rewrite Z.shiftr_0_r, u8_id by lia.
    do 2 f_equal; [f_equal|]; lens; lia.
  - rhead Hat. destruct Hh as [_ Hh].
    rewrite (R_bind_eq _ _ _ _ _ _ (get_be16_at _ _ (len s) ltac:(lia) Hh)).
    unfold mbind, R_bind, mret, R_ret, tell, skip. do 2 f_equal; [f_equal|]; lens; lia.
  - rhead Hat. destruct Hh as [_ Hh].
    rewrite (R_bind_eq _ _ _ _ _ _ (get_be32_at _ _ (len s) ltac:(lia) Hh)).
    unfold mbind, R_bind, mret, R_ret, tell, skip. do 2 f_equal; [f_equal|]; lens; lia.
Qed.

Lemma str_fmt_ok s : len s < 2 ^ 32 - 4 -> mp_wf (MStr (str_fmt (len s)) s).
Proof.
  intros. pose proof (len_nonneg s). unfold str_fmt.
  split; [|lia]. repeat case_match; cbn; lia.
Qed.

Lemma mp_decode_encode_str buf off s :
  len s < 2 ^ 32 - 4 -> at_ buf off (mp_str s) ->
  exists p, mp_decode_str buf off = Some ((p, len s), off + len (mp_str s)) /\ at_ buf p s.
Proof.
  intros Hl Hat. rewrite mp_str_bytes in * by lia.
  destruct (mp_decode_str_at buf off _ s (str_fmt_ok s Hl) Hat) as [H1 H2]. eauto.
Qed.

(** ** [mp_next] *)

Definition buf_ok (buf : list Z) := Forall (fun b => 0 <= b) buf.

Lemma bytes_buf_ok bs : bytes_ok bs -> buf_ok bs.
Proof. intros H. eapply Forall_impl; [exact H|]. unfold is_byte. lia. Qed.

Lemma rd_nonneg buf off b : buf_ok buf -> rd buf off = Some b -> 0 <= b.
Proof.
  intros Hb. unfold rd. destruct (_ && _); [|done]. intros H.
  by apply (Forall_lookup_1 _ _ _ _ Hb) in H.
Qed.

(** [forward P m]: [m] never moves back, and its results satisfy [P]. *)
Definition forward {A} (P : A -> Prop) (m : R A) : Prop := forall buf off a off',
  buf_ok buf -> m buf off = Some (a, off') -> off <= off' /\ P a.

Lemma forward_bind {A B} (P : A -> Prop) (Q : B -> Prop) (m : R A) k :
  forward P m -> (forall a, P a -> forward Q (k a)) -> forward Q (m ≫= k).
Proof.
  intros Hm Hk buf off b off' Hb. unfold mbind, R_bind.
  destruct (m buf off) as [[a o]|] eqn:E; [|done]. intros E'.
  apply Hm in E as [? Ha]; [|done]. apply (Hk a Ha) in E' as [? ?]; [|done]. split; [lia|done].
Qed.
Lemma forward_ret {A} (P : A -> Prop) a : P a -> forward P (mret a).
Proof. intros Ha buf off b off' _ [=]. subst. split; [lia|done]. Qed.
Lemma forward_skip n : 0 <= n -> forward (fun _ => True) (skip n).
Proof. intros Hn buf off b off' _ [=]. split; [lia|done]. Qed.
Lemma forward_peek k : forward (fun b => 0 <= b) (peek k).
Proof.
  intros buf off b off' Hb. unfold peek. destruct (rd _ _) eqn:E; [|done].
  intros [=]. subst. split; [lia|]. by eapply rd_nonneg.
Qed.
Lemma forward_getb : forward (fun b => 0 <= b) getb.
Proof.
  intros buf off b off' Hb. unfold getb. destruct (rd _ _) eqn:E; [|done].
  intros [=]. subst. split; [lia|]. by eapply rd_nonneg.
Qed.

Create HintDb forward.
#[export] Hint Resolve forward_ret forward_skip forward_peek forward_getb : forward.

Ltac forward_step := repeat first
  [ match goal with |- forward _ (if ?b then _ else _) => destruct b end
  | eapply forward_bind; [solve [eauto with forward]|intros; cbv beta in *] ].

Lemma forward_be16 : forward (fun _ => True) get_be16.
Proof.
  unfold get_be16. forward_step. eapply forward_bind; [apply forward_skip; lia|]. auto with forward.
Qed.
Lemma forward_be32 : forward (fun _ => True) get_be32.
Proof.
  unfold get_be32. forward_step. eapply forward_bind; [apply forward_skip; lia|]. auto with forward.
Qed.
#[export] Hint Resolve forward_be16 forward_be32 : forward.

(** Any tag: the head of [mp_next] reads a byte of the buffer and moves past it. *)
Lemma mp_next_head_move buf off n off' : buf_ok buf ->
  mp_next_head buf off = Some (n, off') -> 0 <= off < len buf /\ off < off'.
Proof.
  intros Hb. unfold mp_next_head. unfold mbind at 1, R_bind at 1.
  unfold getb at 1. destruct (rd buf off) as [c|] eqn:Hc; [|done].
  apply rd_range in Hc as Hr. pose proof (rd_nonneg _ _ _ Hb Hc) as Hc0.
  intros H. split; [done|]. enough (off + 1 <= off') by lia. revert H.
  match goal with |- ?m buf (off + 1) = _ -> _ =>
    enough (forward (fun _ => True) m) as Hf by (intros H; by apply Hf in H as [? _]) end.
  forward_step; eauto with forward;
    (eapply forward_bind; [apply forward_skip|auto with forward]);
    first [lia | apply u32_range | apply Z.land_nonneg; lia].
Qed.

Lemma mp_skip_move f : forall c buf off off', buf_ok buf ->
  mp_skip f c buf off = Some (tt, off') -> off <= off'.
Proof.
  induction f as [|f IH]; intros c buf off off' Hb; cbn [mp_skip];
    destruct (c <=? 0); try (intros [=]; lia).
  unfold mbind, R_bind. destruct (mp_next_head buf off) as [[n o1]|] eqn:E1; [|done].
  apply mp_next_head_move in E1 as [_ E1]; [|done].
  destruct (mp_skip f n buf o1) as [[[] o2]|] eqn:E2; [|done].
  intros E3. apply IH in E2; [|done]. apply IH in E3; [|done]. lia.
Qed.

(** The buffer's length is enough fuel: more never changes the result. *)
Lemma mp_skip_enough f1 : forall f2 c buf off, buf_ok buf ->
  len buf - off < Z.of_nat f1 -> len buf - off < Z.of_nat f2 ->
  mp_skip f1 c buf off = mp_skip f2 c buf off.
Proof.
  induction f1 as [|f1 IH]; intros f2 c buf off Hb H1 H2;
    destruct f2 as [|f2]; cbn [mp_skip]; destruct (c <=? 0); try done;
    unfold mbind, R_bind;
    (destruct (mp_next_head buf off) as [[n o1]|] eqn:E; [|done]);
    (apply mp_next_head_move in E as [? ?]; [|done]); try lia.
  rewrite (IH f2) by (done || lia).
  destruct (mp_skip f2 n buf o1) as [[[] o2]|] eqn:E2; [|done].
  apply mp_skip_move in E2; [|done]. apply IH; (done || lia).
Qed.

(** Induction on values that gives the hypothesis for the members of a container. *)
Section mp_ind2.
  Context (P : mp -> Prop).
  Hypothesis HNil : P MNil.
  Hypothesis HBool : forall b, P (MBool b).
  Hypothesis HFix : forall n, P (MFix n).
  Hypothesis HUint : forall w n, P (MUint w n).
  Hypothesis HInt : forall w n, P (MInt w n).
  Hypothesis HStr : forall f s, P (MStr f s).
  Hypothesis HBin : forall f s, P (MBin f s).
  Hypothesis HArr : forall f xs, Forall P xs -> P (MArr f xs).
  Hypothesis HMap : forall f kvs, Forall (fun kv => P kv.1 /\ P kv.2) kvs -> P (MMap f kvs).

Fixpoint mp_ind2 (v : mp) : P v :=
    match v with
    | MNil => HNil | MBool b => HBool b | MFix n => HFix n
    | MUint w n => HUint w n | MInt w n => HInt w n
    | MStr f s => HStr f s | MBin f s => HBin f s
    | MArr f xs => HArr f xs
        ((fix go l : Forall P l := match l with
          | [] => Forall_nil_2 _ | x :: l' => Forall_cons_2 _ _ _ (mp_ind2 x) (go l') end) xs)
    | MMap f kvs => HMap f kvs
        ((fix go l : Forall (fun kv => P kv.1 /\ P kv.2) l := match l with
          | [] => Forall_nil_2 _
          | kv :: l' => Forall_cons_2 _ _ _ (conj (mp_ind2 kv.1) (mp_ind2 kv.2)) (go l') end) kvs)
    end.
End mp_ind2.

Lemma mp_wf_arr f xs :
  mp_wf (MArr f xs) <-> fmt_ok false 15 f (len xs) /\ Forall mp_wf xs.
Proof.
  cbn [mp_wf]. apply and_iff_compat_l. clear f.
  induction xs as [|x xs IH]; [by split|]. rewrite Forall_cons, <- IH. done.
Qed.

Lemma mp_wf_map f kvs :
  mp_wf (MMap f kvs) <-> fmt_ok false 15 f (len kvs) /\ len kvs < 2 ^ 31
    /\ Forall (fun kv => mp_wf kv.1 /\ mp_wf kv.2) kvs.
Proof.
  cbn [mp_wf]. do 2 apply and_iff_compat_l. clear f.
  induction kvs as [|x xs IH]; [by split|]. rewrite Forall_cons, <- IH. tauto.
Qed.

(** Skipping one value that is stored at the current position, with enough fuel. *)
Definition skips (v : mp) : Prop := forall buf off f,
  buf_ok buf -> mp_wf v -> at_ buf off (mp_bytes v) -> len buf - off < Z.of_nat f ->
  forall c, 0 < c -> mp_skip f c buf off = mp_skip f (c - 1) buf (off + len (mp_bytes v)).

Lemma mp_bytes_pos v : 0 < len (mp_bytes v).
Proof.
  destruct v as [|b|m|w m|w m|f s|f s|f xs|f kvs]; cbn [mp_bytes]; lensia ||
  (destruct f; cbn [hdr app]; lensia).
Qed.

Lemma skips_head v n :
  (forall buf off, buf_ok buf -> mp_wf v -> at_ buf off (mp_bytes v) -> exists off',
     mp_next_head buf off = Some (n, off') /\
     forall f, len buf - off' < Z.of_nat f ->
       mp_skip f n buf off' = Some (tt, off + len (mp_bytes v))) -> skips v.
Proof.
  intros Hh buf off f Hb Hw Hat Hf c Hc.
  destruct (Hh buf off Hb Hw Hat) as (off' & E & Hs).
  apply mp_next_head_move in E as Hm; [|done].
  destruct f as [|f]; [lia|]. cbn [mp_skip].
  assert ((c <=? 0) = false) as -> by lia.
  rewrite (R_bind_eq _ _ _ _ _ _ E).
  rewrite (R_bind_eq _ _ _ _ _ _ (Hs f ltac:(lia))).
  pose proof (mp_bytes_pos v). apply (mp_skip_enough f (S f)); (done || lia).
Qed.

Lemma mp_skip_0 f buf off : mp_skip f 0 buf off = Some (tt, off).
Proof. by destruct f. Qed.

(** A scalar: the head alone moves past the value. *)
Lemma skips_scalar v :
  (forall buf off, buf_ok buf -> mp_wf v -> at_ buf off (mp_bytes v) ->
     mp_next_head buf off = Some (0, off + len (mp_bytes v))) -> skips v.
Proof.
  intros Hh. apply (skips_head _ 0). intros buf off Hb Hw Hat.
  exists (off + len (mp_bytes v)). split; [by apply Hh|]. intros. apply mp_skip_0.
Qed.

Lemma skips_list xs : Forall skips xs -> Forall mp_wf xs -> forall buf off f,
  buf_ok buf -> at_ buf off (flat_map mp_bytes xs) -> len buf - off < Z.of_nat f ->
  mp_skip f (len xs) buf off = Some (tt, off + len (flat_map mp_bytes xs)).
Proof.
  induction 1 as [|x xs Hx Hxs IH]; intros Hw buf off f Hb Hat Hf.
  - rewrite !len_nil, Z.add_0_r. apply mp_skip_0.
  - apply Forall_cons in Hw as [Hwx Hwxs]. cbn [flat_map] in *.
    apply at_app in Hat as [H1 H2]. pose proof (mp_bytes_pos x). pose proof (len_nonneg xs).
    rewrite (Hx buf off f Hb Hwx H1 Hf) by lensia.
    replace (len (x :: xs) - 1) with (len xs) by lensia.
    rewrite IH by (done || lia). do 2 f_equal. lens. lia.
Qed.

(** A map skips its keys and values in turn: twice as many values. *)
Definition flat (kvs : list (mp * mp)) : list mp := flat_map (fun kv => [kv.1; kv.2]) kvs.
Lemma flat_bytes kvs :
  flat_map mp_bytes (flat kvs) = flat_map (fun kv => mp_bytes kv.1 ++ mp_bytes kv.2) kvs.
Proof.
  unfold flat. induction kvs as [|kv kvs IH]; [done|]. cbn [flat_map app].
  rewrite IH. by rewrite app_assoc.
Qed.
Lemma len_flat kvs : len (flat kvs) = len kvs * 2.
Proof. unfold flat. induction kvs; cbn [flat_map app]; lens; lia. Qed.
Lemma flat_Forall (P : mp -> Prop) kvs :
  Forall (fun kv => P kv.1 /\ P kv.2) kvs -> Forall P (flat kvs).
Proof. unfold flat. induction 1 as [|kv kvs [H1 H2] H IH]; cbn [flat_map app]; auto. Qed.

(** Run the head of [mp_next] on a known tag. *)
Ltac next_head Hat := unfold mp_next_head; rhead Hat.

Lemma next_head_sized (two : bool) buf off n s t :
  at_ buf off (be_bytes (if two then 2 else 4) n ++ s) -> 0 <= n ->
  n < (if two then 2 ^ 16 else 2 ^ 32 - 4) -> t = off + len (be_bytes (if two then 2 else 4) n) + n ->
  (if two
   then p0 ← peek 0; p1 ← peek 1;
        _ ← skip (u32 (2 + Z.lor (Z.shiftl p0 8) p1)); mret 0
   else p0 ← peek 0; p1 ← peek 1; p2 ← peek 2; p3 ← peek 3;
        _ ← skip (u32 (4 + Z.lor (Z.lor (Z.lor (Z.shiftl p0 24) (Z.shiftl p1 16))
                                    (Z.shiftl p2 8)) p3)); mret 0) buf off = Some (0, t).
Proof.
  intros Hat H0 Hn ->. apply at_app in Hat as [Hat _].
  destruct two; cbn [be_bytes] in *; unfold mbind, R_bind, peek, skip, mret, R_ret;
    rewrite Z.add_0_r.
  - destruct Hat as (H1 & H2 & _). rewrite H1, H2. cbn [Z.of_nat Z.mul].
    rewrite Z.shiftr_0_r, be16_join by lia. rewrite u32_id by lia. do 2 f_equal. lens. lia.
  - destruct Hat as (H1 & H2 & H3 & H4 & _). rewrite H1, H2.
    replace (off + 2) with (off + 1 + 1) by lia. rewrite H3.
    replace (off + 3) with (off + 1 + 1 + 1) by lia. rewrite H4. cbn [Z.of_nat Z.mul].
    rewrite Z.shiftr_0_r, be32_join by lia. rewrite u32_id by lia. do 2 f_equal. lens. lia.
Qed.

Lemma skips_fix n : skips (MFix n).
Proof.
  apply skips_scalar. intros buf off Hb Hw Hat. cbn [mp_bytes mp_wf] in *.
  unfold mp_next_head. rewrite (R_bind_eq _ _ _ _ _ _ (getb_at _ _ _ _ Hat)).
  assert ((u8 n <=? 127) || (224 <=? u8 n) = true) as ->; [|done].
  unfold u8. Z.div_mod_to_equations. lia.
Qed.

Lemma skips_str f s : skips (MStr f s).
Proof.
  apply skips_scalar. intros buf off Hb [Hf Hl] Hat. pose proof (len_nonneg s) as H0.
  cbn [mp_bytes] in *. rewrite len_app. destruct f; cbn [hdr fmt_ok app] in *.
  - destruct (fixstr_tag (len s)) as [E1 E2]; [lia|]. unfold mp_next_head.
    rewrite (R_bind_eq _ _ _ _ _ _ (getb_at _ _ _ _ Hat)). rewrite E1, E2, Z.eqb_refl.
    assert ((MP_FIXSTR + len s <=? 127) || (224 <=? MP_FIXSTR + len s) = false) as ->
      by (unfold MP_FIXSTR; lia).
    unfold mbind, R_bind, skip, mret, R_ret. do 2 f_equal. lens. lia.
  - next_head Hat. destruct Hat as [_ [Hp _]]. unfold mbind, R_bind, peek, skip, mret, R_ret.
    rewrite Z.add_0_r, Hp. cbn [Z.of_nat Z.mul]. rewrite Z.shiftr_0_r, u8_id by lia.
    do 2 f_equal. lens. lia.
  - next_head Hat. destruct Hat as [_ Hat].
    apply (next_head_sized true _ _ (len s) s); [done|lia..|]. lens. lia.
  - next_head Hat. destruct Hat as [_ Hat].
    apply (next_head_sized false _ _ (len s) s); [done|lia..|]. lens. lia.
Qed.

Lemma skips_bin f s : skips (MBin f s).
Proof.
  apply skips_scalar. intros buf off Hb (Hff & Hf & Hl) Hat. pose proof (len_nonneg s) as H0.
  cbn [mp_bytes] in *. rewrite len_app. destruct f; cbn [hdr fmt_ok app] in *; [done|..].
  - next_head Hat. destruct Hat as [_ [Hp _]]. unfold mbind, R_bind, peek, skip, mret, R_ret.
    rewrite Z.add_0_r, Hp. cbn [Z.of_nat Z.mul]. rewrite Z.shiftr_0_r, u8_id by lia.
    do 2 f_equal. lens. lia.
  - next_head Hat. destruct Hat as [_ Hat].
    apply (next_head_sized true _ _ (len s) s); [done|lia..|]. lens. lia.
  - next_head Hat. destruct Hat as [_ Hat].
    apply (next_head_sized false _ _ (len s) s); [done|lia..|]. lens. lia.
Qed.

Lemma skips_arr f xs : Forall skips xs -> skips (MArr f xs).
Proof.
  intros IH. apply (skips_head _ (len xs)). intros buf off Hb Hw Hat.
  apply mp_wf_arr in Hw as [Hf Hw]. cbn [mp_bytes] in *. pose proof (len_nonneg xs).
  apply at_app in Hat as [Hh Hx].
  exists (off + len (hdr MP_FIXARRAY MP_ARRAY16 MP_ARRAY16 MP_ARRAY32 f (len xs))). split.
  - destruct f; cbn [hdr fmt_ok] in *; [|by destruct Hf|..].
    + destruct (fixarray_tag (len xs)) as [E1 E2]; [lia|].
      by_range (fun n => Z.land (MP_FIXARRAY + n) 0xe0 =? 128) 0 16 (len xs) H.
      unfold mp_next_head. rewrite (R_bind_eq _ _ _ _ _ _ (getb_at _ _ _ _ Hh)).
      rewrite E1, E2, Z.eqb_refl.
      assert ((MP_FIXARRAY + len xs <=? 127) || (224 <=? MP_FIXARRAY + len xs) = false) as ->
        by (unfold MP_FIXARRAY; lia).
      replace (Z.land (MP_FIXARRAY + len xs) 224) with 128 by lia. ztest. done.
    + next_head Hh. destruct Hh as [_ Hh]. rewrite (get_be16_at _ _ (len xs)) by (done || lia).
      do 2 f_equal. lens. lia.
    + next_head Hh. destruct Hh as [_ Hh]. rewrite (get_be32_at _ _ (len xs)) by (done || lia).
      do 2 f_equal. lens. lia.
  - intros g Hg. rewrite (skips_list xs) by done. do 2 f_equal. lens. lia.
Qed.

Lemma skips_map f kvs : Forall (fun kv => skips kv.1 /\ skips kv.2) kvs -> skips (MMap f kvs).
Proof.
  intros IH. apply (skips_head _ (len kvs * 2)). intros buf off Hb Hw Hat.
  apply mp_wf_map in Hw as (Hf & Hn & Hw). cbn [mp_bytes] in *. pose proof (len_nonneg kvs).
  apply at_app in Hat as [Hh Hx].
  exists (off + len (hdr MP_FIXMAP MP_MAP16 MP_MAP16 MP_MAP32 f (len kvs))). split.
  - destruct f; cbn [hdr fmt_ok] in *; [|by destruct Hf|..].
    + destruct (fixmap_tag (len kvs)) as [E1 E2]; [lia|].
      by_range (fun n => Z.land (MP_FIXMAP + n) 0xe0 =? 128) 0 16 (len kvs) H.
      unfold mp_next_head. rewrite (R_bind_eq _ _ _ _ _ _ (getb_at _ _ _ _ Hh)).
      rewrite E1, E2.
      assert ((MP_FIXMAP + len kvs <=? 127) || (224 <=? MP_FIXMAP + len kvs) = false) as ->
        by (unfold MP_FIXMAP; lia).
      replace (Z.land (MP_FIXMAP + len kvs) 224) with 128 by lia. ztest. done.
    + next_head Hh. destruct Hh as [_ Hh].
      rewrite (R_bind_eq _ _ _ _ _ _ (get_be16_at _ _ (len kvs) ltac:(lia) Hh)).
      unfold mret, R_ret. do 2 f_equal. lens. lia.
    + next_head Hh. destruct Hh as [_ Hh].
      rewrite (R_bind_eq _ _ _ _ _ _ (get_be32_at _ _ (len kvs) ltac:(lia) Hh)).
      unfold mret, R_ret. rewrite u32_id by lia. do 2 f_equal. lens. lia.
  - intros g Hg. rewrite <- len_flat, <- flat_bytes in *.
    rewrite (skips_list (flat kvs)) by (done || by apply flat_Forall). do 2 f_equal. lens. lia.
Qed.

(** [mp_next] skips exactly one value, whatever its type, format and nesting. *)
Lemma mp_next_at v buf off :
  buf_ok buf -> mp_wf v -> 0 <= off -> at_ buf off (mp_bytes v) ->
  mp_next buf off = Some (tt, off + len (mp_bytes v)).
Proof.
  intros Hb Hw H0 Hat.
  assert (skips v) as Hv.
  { clear. induction v using mp_ind2; eauto using skips_fix, skips_str, skips_bin, skips_arr, skips_map.
    - apply skips_scalar. intros buf off Hb Hw Hat. cbn [mp_bytes] in *. by next_head Hat.
    - apply skips_scalar. intros buf off Hb Hw Hat. cbn [mp_bytes] in *.
      destruct b; by next_head Hat.
    - apply skips_scalar. intros buf off Hb Hw Hat. cbn [mp_bytes] in *.
      destruct w; cbn [uint_tag] in Hat; next_head Hat;
        unfold mbind, R_bind, skip, mret, R_ret; do 2 f_equal; lens; cbn [wbytes]; lia.
    - apply skips_scalar. intros buf off Hb Hw Hat. cbn [mp_bytes] in *.
      destruct w; cbn [int_tag] in Hat; next_head Hat;
        unfold mbind, R_bind, skip, mret, R_ret; do 2 f_equal; lens; cbn [wbytes]; lia. }
  unfold mp_next. rewrite (Hv buf off _ Hb Hw Hat) by (unfold len in *; lia).
  apply mp_skip_0.
Qed.
