(* ===== verification/MsgpackC.v ===== *)
(** The interface of the msgpack-c library that the Kamailio driver uses, as a class of
    operations and a class of the laws its documentation gives them: packers produce the
    MessagePack encoding, the unpacker reads one value. At the end an executable instance,
    built on the codec of [Msgpuck], that satisfies the laws. *)
From S2P Require Export MsgpuckFacts.

(** * Objects *)

#[local] Set Warnings "-register-all".

(** [msgpack_object]: the tag [type] and the union [via]. *)
Inductive msgpack_object :=
| MSGPACK_OBJECT_NIL
| MSGPACK_OBJECT_BOOLEAN (b : bool)
| MSGPACK_OBJECT_POSITIVE_INTEGER (u64 : Z)
| MSGPACK_OBJECT_NEGATIVE_INTEGER (i64 : Z)
| MSGPACK_OBJECT_FLOAT (bits : Z)
| MSGPACK_OBJECT_STR (s : list Z)
| MSGPACK_OBJECT_BIN (s : list Z)
| MSGPACK_OBJECT_EXT (type : Z) (s : list Z)
| MSGPACK_OBJECT_ARRAY (xs : list msgpack_object)
| MSGPACK_OBJECT_MAP (kvs : list (msgpack_object * msgpack_object)).

(** An integer by its sign. *)
Definition int_object (n : Z) : msgpack_object :=
  if 0 <=? n then MSGPACK_OBJECT_POSITIVE_INTEGER n else MSGPACK_OBJECT_NEGATIVE_INTEGER n.

(** The [w]-byte two's complement integer of the low bytes of [n]. *)
Definition signed (w : nat) (n : Z) : Z :=
  let b := 8 * Z.of_nat w in (n + 2 ^ (b - 1)) mod 2 ^ b - 2 ^ (b - 1).

(** The object a MessagePack value stands for. *)
Fixpoint object_of (v : mp) : msgpack_object :=
  match v with
  | MNil => MSGPACK_OBJECT_NIL
  | MBool b => MSGPACK_OBJECT_BOOLEAN b
  | MFix n => int_object n
  | MUint _ n => MSGPACK_OBJECT_POSITIVE_INTEGER n
  | MInt w n => int_object (signed (wbytes w) n)
  | MStr _ s => MSGPACK_OBJECT_STR s
  | MBin _ s => MSGPACK_OBJECT_BIN s
  | MArr _ xs => MSGPACK_OBJECT_ARRAY (map object_of xs)
  | MMap _ kvs => MSGPACK_OBJECT_MAP (map (fun kv => (object_of kv.1, object_of kv.2)) kvs)
  end.

(** * The interface *)

(** The packers append the bytes they return to the buffer. [unpack_next buf off] is the
    object at [off] and the offset after it, [None] for every result but
    [MSGPACK_UNPACK_SUCCESS]. [via_u64] reads the union as an unsigned integer, whatever
    the tag. [print_buffer cap o] is what [msgpack_object_print_buffer] writes. *)
Class MsgpackC := {
  pack_map : Z -> list Z;
  pack_array : Z -> list Z;
  pack_uint8 : Z -> list Z;
  pack_uint64 : Z -> list Z;
  pack_int : Z -> list Z;
  pack_str : Z -> list Z;
  pack_str_body : list Z -> list Z;
  pack_bin : Z -> list Z;
  pack_bin_body : list Z -> list Z;
  unpack_next : list Z -> Z -> option (msgpack_object * Z);
  via_u64 : msgpack_object -> Z;
  print_buffer : Z -> msgpack_object -> list Z
}.

Class MsgpackCSpec `{!MsgpackC} : Prop := {
  pack_map_ok n : 0 <= n < 2 ^ 31 -> exists f, fmt_ok false 15 f n /\
    pack_map n = hdr MP_FIXMAP MP_MAP16 MP_MAP16 MP_MAP32 f n;
  pack_array_ok n : 0 <= n < 2 ^ 31 -> exists f, fmt_ok false 15 f n /\
    pack_array n = hdr MP_FIXARRAY MP_ARRAY16 MP_ARRAY16 MP_ARRAY32 f n;
  pack_uint8_ok n : 0 <= n < 2 ^ 8 -> exists v, uint_ok v n /\ pack_uint8 n = mp_bytes v;
  pack_uint64_ok n : 0 <= n < 2 ^ 64 -> exists v, uint_ok v n /\ pack_uint64 n = mp_bytes v;
  pack_int_ok n : - 2 ^ 31 <= n < 2 ^ 31 -> exists v, mp_wf v /\ object_of v = int_object n /\
    pack_int n = mp_bytes v;
  pack_str_ok s : len s < 2 ^ 31 -> exists f, mp_wf (MStr f s) /\
    pack_str (len s) ++ pack_str_body s = mp_bytes (MStr f s);
  pack_bin_ok s : len s < 2 ^ 31 -> exists f, mp_wf (MBin f s) /\
    pack_bin (len s) ++ pack_bin_body s = mp_bytes (MBin f s);
  unpack_ok v buf off : bytes_ok buf -> 0 <= off -> mp_wf v -> at_ buf off (mp_bytes v) ->
    unpack_next buf off = Some (object_of v, off + len (mp_bytes v));
  via_u64_ok n : via_u64 (MSGPACK_OBJECT_POSITIVE_INTEGER n) = n;
  print_bounded cap o : 0 <= cap -> len (print_buffer cap o) <= cap
}.

(** * An instance *)

Module Ref.

(** [n] values in a row; each takes a byte at least. *)
Fixpoint read_n {A} (fuel : nat) (n : Z) (one : R A) : R (list A) :=
  if n <=? 0 then mret []
  else match fuel with
       | O => fun _ _ => None
       | S f => x ← one; xs ← read_n f (n - 1) one; mret (x :: xs)
       end.

Definition read_int (w : nat) : R msgpack_object :=
  _ ← getb; n ← shift_in w 0; mret (int_object (signed w n)).

Definition read_bin (lenr : R Z) : R msgpack_object :=
  _ ← getb; n ← lenr; p ← tell; bs ← bytes_at p n; _ ← skip n; mret (MSGPACK_OBJECT_BIN bs).

(** What a tag announces. *)
Inductive kind := KNil | KBool | KNeg | KUint | KInt (w : nat) | KBin8 | KBin16 | KBin32 | KStr | KArr | KMap | KBad.
#[export] Instance kind_eq_dec : EqDecision kind.
Proof. solve_decision. Defined.

Definition kind_of (c : Z) : kind :=
  if c =? MP_NIL then KNil
  else if (c =? MP_FALSE) || (c =? MP_TRUE) then KBool
  else if 0xe0 <=? c then KNeg
  else if (c <=? 0x7f) || ((MP_UINT8 <=? c) && (c <=? MP_UINT64)) then KUint
  else if c =? MP_INT8 then KInt 1
  else if c =? MP_INT16 then KInt 2
  else if c =? MP_INT32 then KInt 4
  else if c =? MP_INT64 then KInt 8
  else if c =? MP_BIN8 then KBin8
  else if c =? MP_BIN16 then KBin16
  else if c =? MP_BIN32 then KBin32
  else if (Z.land c 0xe0 =? MP_FIXSTR) || ((MP_STR8 <=? c) && (c <=? MP_STR32)) then KStr
  else if (Z.land c 0xf0 =? MP_FIXARRAY) || (c =? MP_ARRAY16) || (c =? MP_ARRAY32) then KArr
  else if (Z.land c 0xf0 =? MP_FIXMAP) || (c =? MP_MAP16) || (c =? MP_MAP32) then KMap
  else KBad.

Fixpoint unpack (fuel : nat) : R msgpack_object :=
  match fuel with
  | O => fun _ _ => None
  | S f =>
      c ← peek 0;
      match kind_of c with
      | KNil => _ ← getb; mret MSGPACK_OBJECT_NIL
      | KBool => _ ← getb; mret (MSGPACK_OBJECT_BOOLEAN (c =? MP_TRUE))
      | KNeg => _ ← getb; mret (int_object (c - 256))
      | KUint => n ← mp_decode_uint; mret (MSGPACK_OBJECT_POSITIVE_INTEGER n)
      | KInt w => read_int w
      | KBin8 => read_bin getb
      | KBin16 => read_bin get_be16
      | KBin32 => read_bin get_be32
      | KStr => '(p, n) ← mp_decode_str; bs ← bytes_at p n; mret (MSGPACK_OBJECT_STR bs)
      | KArr => n ← mp_decode_array; xs ← read_n f n (unpack f); mret (MSGPACK_OBJECT_ARRAY xs)
      | KMap =>
          n ← mp_decode_map;
          kvs ← read_n f n (k ← unpack f; v ← unpack f; mret (k, v)); mret (MSGPACK_OBJECT_MAP kvs)
      | KBad => fun _ _ => None
      end
  end.

(** ** The unpacker reads what it should *)

Definition reads_obj (v : mp) : Prop := forall f buf off, bytes_ok buf -> mp_wf v ->
  (length (mp_bytes v) <= f)%nat -> reads (unpack f) buf off (mp_bytes v) (object_of v).

Lemma read_n_ok {A X} (bytes : X -> list Z) (val : X -> A) (one : R A) buf :
  forall xs, Forall (fun x => forall p, at_ buf p (bytes x) -> one buf p = Some (val x, p + len (bytes x))) xs ->
  forall f p, (length xs <= f)%nat -> at_ buf p (flat_map bytes xs) ->
  read_n f (len xs) one buf p = Some (map val xs, p + len (flat_map bytes xs)).
Proof.
  induction 1 as [|x xs Hx _ IH]; intros f p Hf Hat.
  { cbn [flat_map]. rewrite Z.add_0_r. by destruct f. }
  cbn [flat_map] in *. apply at_app in Hat as [Hax Har]. destruct f as [|f]; [cbn in Hf; lia|].
  cbn [read_n]. rewrite len_cons, len_app. pose proof (len_nonneg xs).
  destruct (1 + len xs <=? 0) eqn:E; [lia|]. rewrite (R_bind_eq _ _ _ _ _ _ (Hx _ Hax)).
  replace (1 + len xs - 1) with (len xs) by lia. cbn in Hf.
  rewrite (R_bind_eq _ _ _ _ _ _ (IH f _ ltac:(lia) Har)). by rewrite Z.add_assoc.
Qed.

(** The bytes of an integer depend on its residue only. *)
Lemma be_bytes_mod w b n : 8 * Z.of_nat w <= b -> be_bytes w (n mod 2 ^ b) = be_bytes w n.
Proof.
  induction w as [|w IH]; intros Hw; [done|]. cbn [be_bytes]. rewrite IH by lia. f_equal.
  unfold u8. apply Z.bits_inj'. intros k Hk. destruct (decide (k < 8)).
  - rewrite !Z.mod_pow2_bits_low, !Z.shiftr_spec by lia. by rewrite Z.mod_pow2_bits_low by lia.
  - by rewrite !Z.mod_pow2_bits_high by lia.
Qed.

Lemma signed_mod w n : (0 < w)%nat -> signed w (n mod 2 ^ (8 * Z.of_nat w)) = signed w n.
Proof.
  intros Hw. unfold signed. cbv zeta. f_equal. apply Z.add_mod_idemp_l. lia.
Qed.

Lemma read_int_ok w t buf off n : (0 < w <= 8)%nat ->
  reads (read_int w) buf off (t :: be_bytes w n) (int_object (signed w n)).
Proof.
  intros Hw Hat. unfold read_int. rewrite (R_bind_eq _ _ _ _ _ _ (getb_at _ _ _ _ Hat)).
  destruct Hat as [_ Hat]. set (m := n mod 2 ^ (8 * Z.of_nat w)).
  assert (0 <= m < 2 ^ (8 * Z.of_nat w)) as Hm by (apply Z.mod_pos_bound; lia).
  assert (2 ^ (8 * Z.of_nat w) <= 2 ^ 64) by (apply Z.pow_le_mono_r; lia).
  rewrite <- (be_bytes_mod w (8 * Z.of_nat w)) in Hat by lia. fold m in Hat.
  assert (Z.shiftr m (8 * Z.of_nat w) = 0) as Hz by (rewrite shiftr_div by lia; by apply Z.div_small).
  pose proof (shift_in_at w m buf (off + 1) ltac:(lia) Hat) as Hs. rewrite Hz in Hs.
  rewrite (R_bind_eq _ _ _ _ _ _ Hs). unfold m at 1. rewrite signed_mod by lia.
  unfold mret, R_ret. do 2 f_equal. rewrite len_cons, !len_be_bytes. lia.
Qed.

Lemma read_bin_ok lenr buf off t hb s : reads lenr buf (off + 1) hb (len s) ->
  reads (read_bin lenr) buf off (t :: hb ++ s) (MSGPACK_OBJECT_BIN s).
Proof.
  intros Hl Hat. unfold read_bin. rewrite (R_bind_eq _ _ _ _ _ _ (getb_at _ _ _ _ Hat)).
  destruct Hat as [_ Hat]. apply at_app in Hat as [Hh Hs]. rewrite (R_bind_eq _ _ _ _ _ _ (Hl Hh)).
  unfold mbind, R_bind, tell, skip, bytes_at. rewrite (at_copy _ _ _ Hs).
  unfold mret, R_ret. do 2 f_equal. lens. lia.
Qed.

Lemma peek_head buf off c bs : at_ buf off (c :: bs) -> peek 0 buf off = Some (c, off).
Proof. intros [H _]. apply peek_at. by rewrite Z.add_0_r. Qed.

(** The kinds of the tags with a count in them, by evaluation. *)
Definition kind_is (k : kind) (c : Z) : bool := bool_decide (kind_of c = k).
Lemma kind_range k base n z : forallb (fun i => kind_is k (base + i)) (seqZ 0 n) = true ->
  0 <= z < n -> kind_of (base + z) = k.
Proof.
  intros H Hz. pose proof (range_forall (fun i => kind_is k (base + i)) 0 n H z ltac:(lia)) as Hk.
  by apply bool_decide_eq_true_1 in Hk.
Qed.

Lemma kind_fixstr n : 0 <= n <= 31 -> kind_of (MP_FIXSTR + n) = KStr.
Proof. intros. by apply (kind_range KStr MP_FIXSTR 32); [vm_compute|lia]. Qed.
Lemma kind_fixarray n : 0 <= n <= 15 -> kind_of (MP_FIXARRAY + n) = KArr.
Proof. intros. by apply (kind_range KArr MP_FIXARRAY 16); [vm_compute|lia]. Qed.
Lemma kind_fixmap n : 0 <= n <= 15 -> kind_of (MP_FIXMAP + n) = KMap.
Proof. intros. by apply (kind_range KMap MP_FIXMAP 16); [vm_compute|lia]. Qed.

(** The first byte of an encoding announces its kind. *)
Definition kind_of_value (v : mp) : kind :=
  match v with
  | MNil => KNil | MBool _ => KBool | MFix n => if 0 <=? n then KUint else KNeg
  | MUint _ _ => KUint | MInt w _ => KInt (wbytes w)
  | MStr _ _ => KStr
  | MBin F16 _ => KBin16 | MBin F32 _ => KBin32 | MBin _ _ => KBin8
  | MArr _ _ => KArr | MMap _ _ => KMap
  end.

Lemma kind_head v : mp_wf v -> exists c bs, mp_bytes v = c :: bs /\ kind_of c = kind_of_value v.
Proof.
  intros Hwf. destruct v as [|b|n|w n|w n|f s|f s|f xs|f kvs]; cbn [mp_bytes kind_of_value].
  - by eexists _, _.
  - eexists _, _. split; [done|]. by destruct b.
  - eexists _, _. split; [done|]. cbn in Hwf. destruct (0 <=? n) eqn:E.
    + rewrite u8_id by lia. rewrite <- (Z.add_0_l n). apply (kind_range KUint 0 128); [by vm_compute|lia].
    + assert (u8 n = 224 + (n + 32)) as -> by (unfold u8; Z.div_mod_to_equations; lia).
      apply (kind_range KNeg 224 32); [by vm_compute|lia].
  - eexists _, _. split; [done|]. by destruct w.
  - eexists _, _. split; [done|]. by destruct w.
  - destruct Hwf as [Hf _]. pose proof (len_nonneg s). destruct f; cbn [hdr app fmt_ok] in *; eexists _, _;
      (split; [done|]); try done. apply kind_fixstr. lia.
  - destruct Hwf as (Hne & _). destruct f; cbn [hdr app]; [done|..]; by eexists _, _.
  - apply mp_wf_arr in Hwf as [Hf _]. pose proof (len_nonneg xs). destruct f; cbn [hdr app fmt_ok] in *; eexists _, _;
      (split; [done|]); try done. apply kind_fixarray. lia.
  - apply mp_wf_map in Hwf as [Hf _]. pose proof (len_nonneg kvs). destruct f; cbn [hdr app fmt_ok] in *; eexists _, _;
      (split; [done|]); try done. apply kind_fixmap. lia.
Qed.

Lemma unpack_kind (buf : list Z) off v : mp_wf v -> at_ buf off (mp_bytes v) ->
  exists c, (exists bs, mp_bytes v = c :: bs) /\ peek 0 buf off = Some (c, off) /\ kind_of c = kind_of_value v.
Proof.
  intros Hwf Hat. destruct (kind_head v Hwf) as (c & bs & E & Hk). exists c. split; [by exists bs|].
  rewrite E in Hat. by rewrite (peek_head _ _ _ _ Hat).
Qed.

Lemma reads_bin f s : reads_obj (MBin f s).
Proof.
  intros [|fl] buf off Hbuf Hwf Hf Hat; [pose proof (mp_bytes_pos (MBin f s)); unfold len in *; lia|].
  destruct (unpack_kind buf off _ Hwf Hat) as (c & _ & Hp & Hk).
  cbn [unpack]. rewrite (R_bind_eq _ _ _ _ _ _ Hp), Hk. destruct Hwf as (Hne & Hf' & Hl).
  pose proof (len_nonneg s). destruct f; cbn [kind_of_value mp_bytes hdr app fmt_ok object_of] in *; [done|..].
  - apply (read_bin_ok getb buf off _ (be_bytes 1 (len s)) s); [|exact Hat].
    intros Hh. rewrite be_bytes_1, u8_id in * by lia. by rewrite (getb_at _ _ _ _ Hh).
  - apply (read_bin_ok get_be16 buf off _ (be_bytes 2 (len s)) s); [|exact Hat]. apply get_be16_at. lia.
  - apply (read_bin_ok get_be32 buf off _ (be_bytes 4 (len s)) s); [|exact Hat]. apply get_be32_at. lia.
Qed.

Lemma reads_str f s : reads_obj (MStr f s).
Proof.
  intros [|fl] buf off Hbuf Hwf Hf Hat; [pose proof (mp_bytes_pos (MStr f s)); unfold len in *; lia|].
  destruct (unpack_kind buf off _ Hwf Hat) as (c & _ & Hp & Hk).
  cbn [unpack]. rewrite (R_bind_eq _ _ _ _ _ _ Hp), Hk. cbn [kind_of_value].
  destruct (mp_decode_str_at buf off f s Hwf Hat) as [Hd Hs].
  rewrite (R_bind_eq _ _ _ _ _ _ Hd). cbv beta iota.
  unfold mbind, R_bind, bytes_at. by rewrite (at_copy _ _ _ Hs).
Qed.

(** The members of a container have fewer bytes than it has. *)
Lemma flat_map_member {X} (bytes : X -> list Z) x xs : x ∈ xs ->
  (length (bytes x) <= length (flat_map bytes xs))%nat.
Proof.
  induction 1 as [x xs|x y xs _ IH]; cbn [flat_map]; rewrite length_app; lia.
Qed.
Lemma flat_map_count {X} (bytes : X -> list Z) xs : (forall x, (0 < length (bytes x))%nat) ->
  (length xs <= length (flat_map bytes xs))%nat.
Proof.
  intros H. induction xs as [|x xs IH]; [done|]. cbn [flat_map length]. rewrite length_app.
  specialize (H x). lia.
Qed.
Lemma hdr_pos a b c d f n : (0 < length (hdr a b c d f n))%nat.
Proof. destruct f; cbn; lia. Qed.
Lemma mp_len_pos v : (0 < length (mp_bytes v))%nat.
Proof. pose proof (mp_bytes_pos v). unfold len in *. lia. Qed.

Lemma reads_arr f xs : Forall reads_obj xs -> reads_obj (MArr f xs).
Proof.
  intros IH [|fl] buf off Hbuf Hwf Hf Hat; [pose proof (mp_len_pos (MArr f xs)); lia|].
  destruct (unpack_kind buf off _ Hwf Hat) as (c & _ & Hp & Hk).
  cbn [unpack]. rewrite (R_bind_eq _ _ _ _ _ _ Hp), Hk. cbn [kind_of_value].
  apply mp_wf_arr in Hwf as [Hfm Hwf]. cbn [mp_bytes object_of] in *.
  apply at_app in Hat as [Hh Hb]. rewrite length_app in Hf.
  pose proof (hdr_pos MP_FIXARRAY MP_ARRAY16 MP_ARRAY16 MP_ARRAY32 f (len xs)).
  pose proof (flat_map_count mp_bytes xs mp_len_pos).
  rewrite (R_bind_eq _ _ _ _ _ _ (mp_decode_array_at _ _ _ _ (conj (len_nonneg xs) Hfm) Hh)).
  assert (Forall (fun x => forall p, at_ buf p (mp_bytes x) ->
    unpack fl buf p = Some (object_of x, p + len (mp_bytes x))) xs) as Hall.
  { apply Forall_forall. intros x Hx p Hxp. rewrite Forall_forall in IH, Hwf.
    pose proof (flat_map_member mp_bytes x xs Hx). apply (IH x Hx); (done || lia || by apply Hwf). }
  rewrite (R_bind_eq _ _ _ _ _ _ (read_n_ok mp_bytes object_of _ buf xs Hall fl _ ltac:(lia) Hb)).
  unfold mret, R_ret. do 2 f_equal. lens. lia.
Qed.

Lemma reads_map f kvs : Forall (fun kv => reads_obj kv.1 /\ reads_obj kv.2) kvs -> reads_obj (MMap f kvs).
Proof.
  intros IH [|fl] buf off Hbuf Hwf Hf Hat; [pose proof (mp_len_pos (MMap f kvs)); lia|].
  destruct (unpack_kind buf off _ Hwf Hat) as (c & _ & Hp & Hk).
  cbn [unpack]. rewrite (R_bind_eq _ _ _ _ _ _ Hp), Hk. cbn [kind_of_value].
  apply mp_wf_map in Hwf as (Hfm & _ & Hwf). cbn [mp_bytes object_of] in *.
  set (bytes := fun kv : mp * mp => mp_bytes kv.1 ++ mp_bytes kv.2) in *.
  apply at_app in Hat as [Hh Hb]. rewrite length_app in Hf.
  pose proof (hdr_pos MP_FIXMAP MP_MAP16 MP_MAP16 MP_MAP32 f (len kvs)).
  assert (forall kv, (0 < length (bytes kv))%nat) as Hpos.
  { intros kv. unfold bytes. rewrite length_app. pose proof (mp_len_pos kv.1). lia. }
  pose proof (flat_map_count bytes kvs Hpos).
  rewrite (R_bind_eq _ _ _ _ _ _ (mp_decode_map_at _ _ _ _ (conj (len_nonneg kvs) Hfm) Hh)).
  assert (Forall (fun kv => forall p, at_ buf p (bytes kv) ->
    (k ← unpack fl; v ← unpack fl; mret (k, v)) buf p =
      Some ((object_of kv.1, object_of kv.2), p + len (bytes kv))) kvs) as Hall.
  { apply Forall_forall. intros kv Hx p Hxp. rewrite Forall_forall in IH, Hwf.
    pose proof (flat_map_member bytes kv kvs Hx) as Hm. unfold bytes in Hm at 1. rewrite length_app in Hm.
    destruct (IH kv Hx) as [IH1 IH2]. destruct (Hwf kv Hx) as [W1 W2]. apply at_app in Hxp as [A1 A2].
    rewrite (R_bind_eq _ _ _ _ _ _ (IH1 fl buf p Hbuf W1 ltac:(lia) A1)).
    rewrite (R_bind_eq _ _ _ _ _ _ (IH2 fl buf _ Hbuf W2 ltac:(lia) A2)).
    unfold mret, R_ret. do 2 f_equal. unfold bytes. lens. lia. }
  rewrite (R_bind_eq _ _ _ _ _ _ (read_n_ok bytes _ _ buf kvs Hall fl _ ltac:(lia) Hb)).
  unfold mret, R_ret. do 2 f_equal. lens. lia.
Qed.

Lemma unpack_value v : reads_obj v.
Proof.
  induction v as [|b|n|w n|w n|f s|f s|f xs IH|f kvs IH] using mp_ind2;
    try (by apply reads_str); try (by apply reads_bin); try (by apply reads_arr); try (by apply reads_map);
    (intros [|fl] buf off Hbuf Hwf Hf Hat; [cbn in Hf; lia|];
     destruct (unpack_kind buf off _ Hwf Hat) as (c & (bs & Ec) & Hp & Hk);
     cbn [unpack]; rewrite (R_bind_eq _ _ _ _ _ _ Hp), Hk; cbn [kind_of_value]).
  - cbn [mp_bytes] in *. by rewrite (R_bind_eq _ _ _ _ _ _ (getb_at _ _ _ _ Hat)).
  - cbn [mp_bytes] in *. rewrite (R_bind_eq _ _ _ _ _ _ (getb_at _ _ _ _ Hat)).
    injection Ec as <- _. by destruct b.
  - cbn [object_of]. cbn in Hwf. unfold int_object. destruct (0 <=? n) eqn:E.
    + by rewrite (R_bind_eq _ _ _ _ _ _ (mp_decode_uint_at buf off (MFix n) n ltac:(cbn; lia) Hat)).
    + cbn [mp_bytes] in *. rewrite (R_bind_eq _ _ _ _ _ _ (getb_at _ _ _ _ Hat)).
      injection Ec as <- _. assert (u8 n - 256 = n) as -> by (unfold u8; Z.div_mod_to_equations; lia).
      by rewrite E.
  - by rewrite (R_bind_eq _ _ _ _ _ _ (mp_decode_uint_at buf off (MUint w n) n (conj eq_refl Hwf) Hat)).
  - cbn [object_of mp_bytes] in *. apply read_int_ok; [by destruct w; cbn; lia|done].
Qed.

(** A printer of strings and arrays of them. *)
Fixpoint show (o : msgpack_object) : list Z :=
  match o with
  | MSGPACK_OBJECT_STR s => [34] ++ s ++ [34]
  | MSGPACK_OBJECT_ARRAY xs => [91] ++ concat (map show xs) ++ [93]
  | _ => [63]
  end.

Definition ops : MsgpackC := {|
  pack_map := mp_encode_map; pack_array := mp_encode_array;
  pack_uint8 := mp_encode_uint; pack_uint64 := mp_encode_uint;
  pack_int := fun n => if 0 <=? n then mp_encode_uint n else MP_INT32 :: be_bytes 4 n;
  pack_str := mp_encode_str None; pack_str_body := fun s => s;
  pack_bin := mp_encode_bin None; pack_bin_body := fun s => s;
  unpack_next := fun buf off => unpack (S (length buf)) buf off;
  via_u64 := fun o => match o with MSGPACK_OBJECT_POSITIVE_INTEGER n => n | _ => 0 end;
  print_buffer := fun cap o => ztake cap (show o)
|}.

Lemma encode_str_split s : mp_encode_str None (len s) ++ s = mp_encode_str (Some s) (len s).
Proof. unfold mp_encode_str. rewrite mp_payload_all. change (mp_payload None (len s)) with (@nil Z). by rewrite app_nil_r. Qed.
Lemma encode_bin_split s : mp_encode_bin None (len s) ++ s = mp_encode_bin (Some s) (len s).
Proof. unfold mp_encode_bin. rewrite mp_payload_all. change (mp_payload None (len s)) with (@nil Z). by rewrite app_nil_r. Qed.

Lemma ops_spec : MsgpackCSpec (H := ops).
Proof.
  split; cbn [pack_map pack_array pack_uint8 pack_uint64 pack_int pack_str pack_str_body pack_bin
              pack_bin_body unpack_next via_u64 print_buffer ops].
  - intros n Hn. exists (cnt_fmt n). split; [apply cnt_fmt_ok; lia|]. apply mp_encode_map_bytes. lia.
  - intros n Hn. exists (cnt_fmt n). split; [apply cnt_fmt_ok; lia|]. apply mp_encode_array_bytes. lia.
  - intros n Hn. exists (uint_mp n). split; [apply uint_mp_ok; lia|]. apply mp_encode_uint_bytes.
  - intros n Hn. exists (uint_mp n). split; [by apply uint_mp_ok|]. apply mp_encode_uint_bytes.
  - intros n Hn. destruct (0 <=? n) eqn:E.
    + exists (uint_mp n). split; [unfold uint_mp; repeat case_match; cbn; lia|].
      split; [|apply mp_encode_uint_bytes]. unfold uint_mp. repeat case_match; cbn [object_of];
        try done; unfold int_object; by rewrite E.
    + exists (MInt W32 n). split; [done|]. split; [|done]. cbn [object_of]. f_equal.
      unfold signed. cbn -[Z.modulo Z.pow]. rewrite Z.mod_small by lia. lia.
  - intros s Hs. exists (str_fmt (len s)). split; [apply str_fmt_ok; lia|].
    rewrite encode_str_split. pose proof (mp_str_bytes s ltac:(lia)) as E. unfold mp_str in E.
    rewrite u32_id in E by (pose proof (len_nonneg s); lia). exact E.
  - intros s Hs. exists (bin_fmt (len s)). split.
    + pose proof (len_nonneg s). unfold bin_fmt. repeat case_match; cbn; (split; [done|]); lia.
    + rewrite encode_bin_split. apply mp_encode_bin_bytes. lia.
  - intros v buf off Hbuf Hoff Hwf Hat. apply unpack_value; try done.
    pose proof (mp_bytes_pos v). destruct (at_range _ _ _ Hat) as [_ Hr].
    { intros E. rewrite E in *. unfold len in *. cbn in *. lia. }
    unfold len in *. lia.
  - done.
  - intros cap o Hc. rewrite len_take. pose proof (len_nonneg (show o)). lia.
Qed.

End Ref.
