(* ===== verification/Sha1.v ===== *)
(** SHA-1 as the drivers embed it ([cachedb_tarantool_dbase.c] lines 42-150, repeated in
    [rtpengine_tarantool/src/tarantool.c]): a streaming context fed by
    [tnt_sha1_update] and closed by [tnt_sha1_final]; and the one-shot
    definition of FIPS 180-4 it is to compute. *)
From S2P Require Export Prelude.
From S2P Require Import Msgpuck.

(** * The streaming implementation *)

Definition TNT_SHA1_ROL (value bits : Z) : Z :=
  Z.lor (u32 (Z.shiftl value bits)) (Z.shiftr value (32 - bits)).

(** [uint32_t state[5]]. *)
Record sha1_state := St5 { s_a : Z; s_b : Z; s_c : Z; s_d : Z; s_e : Z }.

Record tnt_sha1_ctx_t := Ctx {
  state : sha1_state;
  count0 : Z;
  count1 : Z;
  buffer : list Z
}.

(** [block[i]] for [i < 16]: big-endian words of the 64-byte buffer. *)
Definition block_word (buf : list Z) (i : nat) : Z :=
  Z.lor (Z.lor (Z.lor (Z.shiftl (buf !!! (i * 4)%nat) 24) (Z.shiftl (buf !!! (i * 4 + 1)%nat) 16))
               (Z.shiftl (buf !!! (i * 4 + 2)%nat) 8)) (buf !!! (i * 4 + 3)%nat).

(** The loop of [block[16]] to [block[79]]; the array grows by one word per turn. *)
Definition expand_step (block : list Z) (i : nat) : list Z :=
  block ++ [TNT_SHA1_ROL
    (Z.lxor (Z.lxor (Z.lxor (block !!! (i - 3)%nat) (block !!! (i - 8)%nat))
                    (block !!! (i - 14)%nat)) (block !!! (i - 16)%nat)) 1].

Definition sha1_block (buf : list Z) : list Z :=
  foldl expand_step (block_word buf <$> seq 0 16) (seq 16 64).

(** One turn of the four round loops: [g] is the loop's boolean function, [k] its constant. *)
Definition round_step (g : Z -> Z -> Z -> Z) (k : Z) (block : list Z) (s : sha1_state) (i : nat)
  : sha1_state :=
  let temp := u32 (TNT_SHA1_ROL (s_a s) 5 + g (s_b s) (s_c s) (s_d s) + s_e s + block !!! i + k) in
  St5 temp (s_a s) (TNT_SHA1_ROL (s_b s) 30) (s_c s) (s_d s).

Definition round_ch (b c d : Z) : Z := Z.lor (Z.land b c) (Z.land (u32 (Z.lnot b)) d).
Definition round_parity (b c d : Z) : Z := Z.lxor (Z.lxor b c) d.
Definition round_maj (b c d : Z) : Z :=
  Z.lor (Z.lor (Z.land b c) (Z.land b d)) (Z.land c d).

Definition tnt_sha1_transform (st : sha1_state) (buf : list Z) : sha1_state :=
  let block := sha1_block buf in
  let s1 := foldl (round_step round_ch 0x5a827999 block) st (seq 0 20) in
  let s2 := foldl (round_step round_parity 0x6ed9eba1 block) s1 (seq 20 20) in
  let s3 := foldl (round_step round_maj 0x8f1bbcdc block) s2 (seq 40 20) in
  let s4 := foldl (round_step round_parity 0xca62c1d6 block) s3 (seq 60 20) in
  St5 (u32 (s_a st + s_a s4)) (u32 (s_b st + s_b s4)) (u32 (s_c st + s_c s4))
      (u32 (s_d st + s_d s4)) (u32 (s_e st + s_e s4)).

Definition tnt_sha1_init (context : tnt_sha1_ctx_t) : tnt_sha1_ctx_t :=
  Ctx (St5 0x67452301 0xefcdab89 0x98badcfe 0x10325476 0xc3d2e1f0) 0 0 (buffer context).

(** [memcpy(&buffer[j], src, n)] for a source of [n] bytes that fits. *)
Definition buf_store (buf : list Z) (j : Z) (src : list Z) : list Z :=
  ztake j buf ++ src ++ zdrop (j + len src) buf.

(** [for (; i + 63 < len; i += 64) tnt_sha1_transform(state, &data[i])]: the state and the
    final [i]; a turn consumes 64 bytes of the data. *)
Fixpoint update_blocks (fuel : nat) (st : sha1_state) (data : list Z) (i : Z) : sha1_state * Z :=
  match fuel with
  | O => (st, i)
  | S f => if i + 63 <? len data
           then update_blocks f (tnt_sha1_transform st (ztake 64 (zdrop i data))) data (i + 64)
           else (st, i)
  end.

(** [data] holds exactly the [len] bytes the caller passes. *)
Definition tnt_sha1_update (context : tnt_sha1_ctx_t) (data : list Z) : tnt_sha1_ctx_t :=
  let n := len data in
  let j := Z.land (Z.shiftr (count0 context) 3) 63 in
  let c0 := u32 (count0 context + u32 (Z.shiftl n 3)) in
  let c1 := if c0 <? u32 (Z.shiftl n 3) then u32 (count1 context + 1) else count1 context in
  let c1 := u32 (c1 + Z.shiftr n 29) in
  if 63 <? u32 (j + n) then
    let buf := buf_store (buffer context) j (ztake (64 - j) data) in
    let st := tnt_sha1_transform (state context) buf in
    let '(st, i) := update_blocks (length data) st data (64 - j) in
    Ctx st c0 c1 (buf_store buf 0 (zdrop i data))
  else Ctx (state context) c0 c1 (buf_store (buffer context) j data).

(** [while ((count[0] & 504) != 448) tnt_sha1_update(context, "\0", 1)]. *)
Fixpoint pad_loop (fuel : nat) (context : tnt_sha1_ctx_t) : option tnt_sha1_ctx_t :=
  if Z.land (count0 context) 504 =? 448 then Some context
  else match fuel with
       | O => None
       | S f => pad_loop f (tnt_sha1_update context [0])
       end.

Definition finalcount (context : tnt_sha1_ctx_t) : list Z :=
  (fun i : nat => Z.land (Z.shiftr (if (4 <=? i)%nat then count0 context else count1 context)
                                   ((3 - Z.land (Z.of_nat i) 3) * 8)) 255) <$> seq 0 8.

Definition state_word (s : sha1_state) (i : Z) : Z :=
  if i =? 0 then s_a s else if i =? 1 then s_b s else if i =? 2 then s_c s
  else if i =? 3 then s_d s else s_e s.

Definition digest_bytes (s : sha1_state) : list Z :=
  (fun i : nat => Z.land (Z.shiftr (state_word s (Z.shiftr (Z.of_nat i) 2))
                                   ((3 - Z.land (Z.of_nat i) 3) * 8)) 255) <$> seq 0 20.

(** What [tnt_memzero_explicit] leaves of the context. *)
Definition zero_ctx : tnt_sha1_ctx_t := Ctx (St5 0 0 0 0 0) 0 0 (repeat 0 64).

(** The digest and the wiped context; the loop needs at most 63 turns. *)
Definition tnt_sha1_final (context : tnt_sha1_ctx_t) : option (list Z * tnt_sha1_ctx_t) :=
  let fc := finalcount context in
  c ← pad_loop 64 (tnt_sha1_update context [0x80]);
  let c := tnt_sha1_update c fc in
  Some (digest_bytes (state c), zero_ctx).

(** The context on the stack, with whatever its buffer held before. *)
Definition tnt_sha1_on (ctx : tnt_sha1_ctx_t) (data : list Z) : option (list Z) :=
  fst <$> tnt_sha1_final (tnt_sha1_update (tnt_sha1_init ctx) data).

Definition tnt_sha1 (data : list Z) : list Z :=
  default [] (tnt_sha1_on zero_ctx data).

(** * FIPS 180-4 *)

Module Fips.

Definition rotl (n x : Z) : Z := (x * 2 ^ n) mod 2 ^ 32 + x / 2 ^ (32 - n).

Definition f (t : nat) (x y z : Z) : Z :=
  if (t <? 20)%nat then Z.lxor (Z.land x y) (Z.land (Z.lxor x (Z.ones 32)) z)
  else if (t <? 40)%nat then Z.lxor x (Z.lxor y z)
  else if (t <? 60)%nat then Z.lxor (Z.land x y) (Z.lxor (Z.land x z) (Z.land y z))
  else Z.lxor x (Z.lxor y z).

Definition K (t : nat) : Z :=
  if (t <? 20)%nat then 0x5a827999 else if (t <? 40)%nat then 0x6ed9eba1
  else if (t <? 60)%nat then 0x8f1bbcdc else 0xca62c1d6.

(** Big-endian value of a byte string. *)
Definition be_val (bs : list Z) : Z := foldl (fun a b => a * 256 + b) 0 bs.

(** The message schedule W_0, ..., W_(15+n) of a block. *)
Fixpoint W (M : list Z) (n : nat) : list Z :=
  match n with
  | O => (fun i : nat => be_val (take 4 (drop (4 * i) M))) <$> seq 0 16
  | S n' => let w := W M n' in
      let t := (16 + n')%nat in
      w ++ [rotl 1 (Z.lxor (w !!! (t - 3)%nat) (Z.lxor (w !!! (t - 8)%nat)
             (Z.lxor (w !!! (t - 14)%nat) (w !!! (t - 16)%nat))))]
  end.

Definition step (w : list Z) (s : sha1_state) (t : nat) : sha1_state :=
  let '(St5 a b c d e) := s in
  St5 ((rotl 5 a + f t b c d + e + K t + w !!! t) mod 2 ^ 32) a (rotl 30 b) c d.

Definition compress (h : sha1_state) (M : list Z) : sha1_state :=
  let '(St5 a b c d e) := h in
  let '(St5 a' b' c' d' e') := foldl (step (W M 64)) h (seq 0 80) in
  St5 ((a + a') mod 2 ^ 32) ((b + b') mod 2 ^ 32) ((c + c') mod 2 ^ 32)
      ((d + d') mod 2 ^ 32) ((e + e') mod 2 ^ 32).

Definition H0 : sha1_state := St5 0x67452301 0xefcdab89 0x98badcfe 0x10325476 0xc3d2e1f0.

(** Compress the whole 64-byte blocks of [m]; the rest is what is left of [m]. *)
Fixpoint absorb (fuel : nat) (h : sha1_state) (m : list Z) : sha1_state * list Z :=
  match fuel with
  | O => (h, m)
  | S f => if (64 <=? length m)%nat then absorb f (compress h (take 64 m)) (drop 64 m) else (h, m)
  end.

Definition pad (m : list Z) : list Z :=
  m ++ [0x80] ++ repeat 0 (Z.to_nat ((55 - len m) mod 64)) ++ be_bytes 8 (8 * len m).

Definition out (h : sha1_state) : list Z :=
  be_bytes 4 (s_a h) ++ be_bytes 4 (s_b h) ++ be_bytes 4 (s_c h) ++ be_bytes 4 (s_d h)
  ++ be_bytes 4 (s_e h).

Definition sha1 (m : list Z) : list Z := out (absorb (length (pad m)) H0 (pad m)).1.

End Fips.
