(* ===== verification/Sha1Facts.v ===== *)
(** The streaming SHA-1 of [Sha1] computes FIPS 180-4: the block transform is the
    standard's compression function, the context always holds the compression of
    the whole blocks received so far and the bytes left over, and the padding loop
    of [tnt_sha1_final] appends the standard's padding. *)
From S2P Require Export Sha1.
From S2P Require Import Msgpuck MsgpuckFacts.

(** * Words *)

Definition w32 (x : Z) : Prop := 0 <= x < 2 ^ 32.
Definition st_ok (s : sha1_state) : Prop :=
  w32 (s_a s) /\ w32 (s_b s) /\ w32 (s_c s) /\ w32 (s_d s) /\ w32 (s_e s).

Lemma w32_u32 z : w32 (u32 z).
Proof. apply u32_range. Qed.
Lemma w32_mod z : w32 (z mod 2 ^ 32).
Proof. apply u32_range. Qed.
Lemma land_255 z : Z.land z 255 = u8 z.
Proof. change 255 with (Z.ones 8). rewrite Z.land_ones by lia. done. Qed.

Lemma rol_rotl x n : w32 x -> 0 < n < 32 -> TNT_SHA1_ROL x n = Fips.rotl n x.
Proof.
  intros Hx Hn. unfold TNT_SHA1_ROL, Fips.rotl, w32 in *. rewrite shiftr_div by lia.
  assert (0 < 2 ^ n) by (apply Z.pow_pos_nonneg; lia).
  assert (0 < 2 ^ (32 - n)) by (apply Z.pow_pos_nonneg; lia).
  assert (E : 2 ^ 32 = 2 ^ (32 - n) * 2 ^ n) by (rewrite <- Z.pow_add_r by lia; f_equal; lia).
  assert (u32 (Z.shiftl x n) = Z.shiftl (x mod 2 ^ (32 - n)) n) as ->.
  { unfold u32. rewrite !Z.shiftl_mul_pow2 by lia. rewrite E.
    rewrite Z.mul_mod_distr_r by lia. done. }
  rewrite lor_shiftl_add.
  - f_equal. rewrite E. rewrite Z.mul_mod_distr_r by lia. done.
  - lia.
  - split; [apply Z.div_pos; lia|]. apply Z.div_lt_upper_bound; [lia|]. rewrite <- E. lia.
Qed.

Lemma rotl_w32 n x : w32 x -> 0 < n < 32 -> w32 (Fips.rotl n x).
Proof.
  intros Hx Hn. rewrite <- rol_rotl by done. unfold TNT_SHA1_ROL, w32 in *.
  pose proof (u32_range (Z.shiftl x n)). rewrite shiftr_div by lia.
  assert (0 <= x / 2 ^ (32 - n) < 2 ^ 32).
  { assert (0 < 2 ^ (32 - n)) by (apply Z.pow_pos_nonneg; lia).
    split; [apply Z.div_pos; lia|].
    apply Z.le_lt_trans with x; [|lia]. apply Z.div_le_upper_bound; nia. }
  split; [apply Z.lor_nonneg; lia|].
  destruct (Z.eq_dec (Z.lor (u32 (Z.shiftl x n)) (x / 2 ^ (32 - n))) 0) as [->|]; [lia|].
  apply Z.log2_lt_pow2; [|].
  { pose proof (proj2 (Z.lor_nonneg (u32 (Z.shiftl x n)) (x / 2 ^ (32 - n))) ltac:(lia)). lia. }
  rewrite Z.log2_lor by lia.
  assert (Hlog : forall y, 0 <= y < 2 ^ 32 -> Z.log2 y < 32).
  { intros y Hy. destruct (Z.eq_dec y 0) as [->|]; [done|]. apply Z.log2_lt_pow2; lia. }
  apply Z.max_lub_lt; apply Hlog; lia.
Qed.

(** Bitwise operators keep a word a word. *)
Lemma w32_bits x : w32 x <-> 0 <= x /\ forall i, 32 <= i -> Z.testbit x i = false.
Proof.
  unfold w32. split.
  - intros Hx. split; [lia|]. intros i Hi. rewrite <- (Z.mod_small x (2 ^ 32)) by lia.
    apply Z.mod_pow2_bits_high. lia.
  - intros [H0 Hb]. split; [done|]. assert (x = x mod 2 ^ 32) as ->.
    { apply Z.bits_inj'. intros i Hi. destruct (Z.lt_ge_cases i 32).
      - rewrite Z.mod_pow2_bits_low by lia. done.
      - rewrite Z.mod_pow2_bits_high by lia. by apply Hb. }
    apply Z.mod_pos_bound. lia.
Qed.

Lemma w32_lxor x y : w32 x -> w32 y -> w32 (Z.lxor x y).
Proof.
  rewrite !w32_bits. intros [Hx Bx] [Hy By]. split.
  - apply Z.lxor_nonneg. tauto.
  - intros i Hi. by rewrite Z.lxor_spec, Bx, By.
Qed.

(** [~b] of a [uint32_t] is the complement of its 32 bits. *)
Lemma u32_lnot b : w32 b -> u32 (Z.lnot b) = Z.lxor b (Z.ones 32).
Proof.
  intros Hb. apply w32_bits in Hb as [_ Hb]. apply Z.bits_inj'. intros i Hi. unfold u32.
  rewrite Z.lxor_spec. destruct (Z.lt_ge_cases i 32).
  - rewrite Z.mod_pow2_bits_low, Z.lnot_spec, Z.ones_spec_low by lia. destruct (Z.testbit b i); reflexivity.
  - rewrite Z.mod_pow2_bits_high, Z.ones_spec_high, Hb by lia. done.
Qed.

Ltac bitwise := apply Z.bits_inj'; intros i Hi;
  rewrite ?Z.lor_spec, ?Z.lxor_spec, ?Z.land_spec, ?Z.lxor_spec, ?Z.land_spec;
  repeat match goal with |- context [Z.testbit ?x ?i] => destruct (Z.testbit x i) end; done.

Lemma round_ch_f t b c d : w32 b -> (t < 20)%nat -> round_ch b c d = Fips.f t b c d.
Proof.
  intros Hb Ht. unfold round_ch, Fips.f. rewrite u32_lnot by done.
  destruct (_ <? _)%nat eqn:E; [|apply Nat.ltb_ge in E; lia]. apply w32_bits in Hb as [_ Hb].
  apply Z.bits_inj'. intros i Hi. rewrite Z.lor_spec, Z.lxor_spec, !Z.land_spec, Z.lxor_spec.
  destruct (Z.lt_ge_cases i 32).
  - rewrite Z.ones_spec_low by lia. by destruct (Z.testbit b i), (Z.testbit c i), (Z.testbit d i).
  - by rewrite Hb, Z.ones_spec_high by lia.
Qed.
Lemma round_maj_f t b c d : (40 <= t < 60)%nat -> round_maj b c d = Fips.f t b c d.
Proof.
  intros Ht. unfold round_maj, Fips.f.
  do 3 (destruct (_ <? _)%nat eqn:? in |- *; rewrite ?Nat.ltb_lt, ?Nat.ltb_ge in *; try lia).
  bitwise.
Qed.
Lemma round_parity_f t b c d : (20 <= t < 40)%nat \/ (60 <= t)%nat ->
  round_parity b c d = Fips.f t b c d.
Proof.
  intros Ht. unfold round_parity, Fips.f.
  repeat (destruct (_ <? _)%nat eqn:? in |- *; rewrite ?Nat.ltb_lt, ?Nat.ltb_ge in *; try lia);
  bitwise.
Qed.

(** * The block transform *)

Lemma lookup_total_nth (l : list Z) i d : (i < length l)%nat -> l !!! i = nth i l d.
Proof.
  intros H. rewrite list_lookup_total_alt. rewrite (nth_lookup l i d).
  by destruct (lookup_lt_is_Some_2 l i H) as [x ->].
Qed.

Lemma take4 (l : list Z) k : (k + 4 <= length l)%nat ->
  take 4 (drop k l) = [l !!! k; l !!! (k + 1)%nat; l !!! (k + 2)%nat; l !!! (k + 3)%nat].
Proof.
  intros H.
  assert (E : forall j, (j < length l)%nat -> drop j l = l !!! j :: drop (S j) l).
  { intros j Hj. apply drop_S. by apply list_lookup_lookup_total_lt. }
  rewrite (E k), (E (S k)), (E (S (S k))), (E (S (S (S k)))) by lia. cbn [take].
  by rewrite !Nat.add_succ_r, Nat.add_0_r.
Qed.

Lemma bytes_lookup buf i : bytes_ok buf -> (i < length buf)%nat -> is_byte (buf !!! i).
Proof.
  intros Hb Hi. eapply Forall_lookup_1; [exact Hb|]. by apply list_lookup_lookup_total_lt.
Qed.

Lemma block_word_be buf i : bytes_ok buf -> length buf = 64%nat -> (i < 16)%nat ->
  block_word buf i = Fips.be_val (take 4 (drop (4 * i) buf)) /\ w32 (block_word buf i).
Proof.
  intros Hb Hl Hi. rewrite take4 by lia. replace (4 * i)%nat with (i * 4)%nat by lia.
  unfold block_word, Fips.be_val. cbn [foldl].
  assert (H : forall j, (j < 64)%nat -> is_byte (buf !!! j)) by (intros; apply bytes_lookup; [done|lia]).
  pose proof (H (i * 4)%nat ltac:(lia)) as H0. pose proof (H (i * 4 + 1)%nat ltac:(lia)) as H1.
  pose proof (H (i * 4 + 2)%nat ltac:(lia)) as H2. pose proof (H (i * 4 + 3)%nat ltac:(lia)) as H3.
  unfold is_byte, w32 in *. rewrite <- !Z.lor_assoc.
  rewrite (lor_shiftl_add _ (buf !!! (i * 4 + 3)%nat)) by lia.
  rewrite (lor_shiftl_add _ _ 16) by lia. rewrite (lor_shiftl_add _ _ 24) by lia. lia.
Qed.

Lemma W_length M n : length (Fips.W M n) = (16 + n)%nat.
Proof.
  induction n; cbn [Fips.W]; [by rewrite length_fmap, length_seq|].
  rewrite length_app, IHn. cbn [length]. lia.
Qed.

Lemma W_w32 M n : bytes_ok M -> length M = 64%nat -> Forall w32 (Fips.W M n).
Proof.
  intros Hb Hl. induction n as [|n IH]; cbn [Fips.W].
  - apply Forall_fmap, Forall_forall. intros i Hi. apply elem_of_seq in Hi. cbn.
    destruct (block_word_be M i) as [E Hw]; [done..|lia|]. rewrite E in Hw. exact Hw.
  - apply Forall_app. split; [done|]. apply Forall_singleton.
    assert (H : forall j, (j < 16 + n)%nat -> w32 (Fips.W M n !!! j)).
    { intros j Hj. eapply Forall_lookup_1; [exact IH|].
      apply list_lookup_lookup_total_lt. rewrite W_length. lia. }
    apply rotl_w32; [|lia]. repeat apply w32_lxor; apply H; lia.
Qed.

Lemma sha1_block_W M n : bytes_ok M -> length M = 64%nat ->
  foldl expand_step (block_word M <$> seq 0 16) (seq 16 n) = Fips.W M n.
Proof.
  intros Hb Hl. induction n as [|n IH].
  - change (block_word M <$> seq 0 16 = Fips.W M 0). cbn [Fips.W].
    apply list_fmap_ext. intros i j Hij.
    apply lookup_seq in Hij as [-> ?]. by apply block_word_be.
  - rewrite (seq_S n 16), foldl_app, IH. cbn [foldl Fips.W]. unfold expand_step.
    do 2 f_equal.
    assert (H : forall j, (j < 16 + n)%nat -> w32 (Fips.W M n !!! j)).
    { intros j Hj. eapply Forall_lookup_1; [by apply W_w32|].
      apply list_lookup_lookup_total_lt. rewrite W_length. lia. }
    rewrite <- !Z.lxor_assoc. apply rol_rotl; [|lia]. rewrite !Z.lxor_assoc.
    repeat apply w32_lxor; apply H; lia.
Qed.

(** One turn of a round loop is a step of the standard, and keeps words words. *)
Lemma step_ok w s t : st_ok s -> st_ok (Fips.step w s t).
Proof.
  destruct s as [a b c d e]. intros (Ha & Hb & Hc & Hd & He). cbn in *.
  repeat split; try apply w32_mod; try apply Ha; try apply Hc; try apply Hd;
    apply rotl_w32; (done || lia).
Qed.

Lemma round_step_fips g k w s t : st_ok s ->
  (forall b c d, w32 b -> g b c d = Fips.f t b c d) -> k = Fips.K t ->
  round_step g k w s t = Fips.step w s t.
Proof.
  destruct s as [a b c d e]. intros (Ha & Hb & Hc & Hd & He) Hg ->. cbn in *.
  unfold round_step, Fips.step. cbn. rewrite !rol_rotl by (done || lia).
  rewrite Hg by done. f_equal. unfold u32. f_equal. lia.
Qed.

Lemma rounds_fips g k w l : forall s, st_ok s ->
  (forall t, t ∈ l -> forall b c d, w32 b -> g b c d = Fips.f t b c d) ->
  (forall t, t ∈ l -> k = Fips.K t) ->
  foldl (round_step g k w) s l = foldl (Fips.step w) s l /\ st_ok (foldl (Fips.step w) s l).
Proof.
  induction l as [|t l IH]; intros s Hs Hg Hk; [done|]. cbn [foldl].
  rewrite (round_step_fips _ _ _ _ t) by (done || apply Hg + apply Hk; left).
  apply IH; [by apply step_ok|intros; apply Hg; [by right|done]|intros; apply Hk; by right].
Qed.

Lemma K_eq t : Fips.K t = if (t <? 20)%nat then 0x5a827999 else if (t <? 40)%nat then 0x6ed9eba1
  else if (t <? 60)%nat then 0x8f1bbcdc else 0xca62c1d6.
Proof. done. Qed.

Ltac in_seq := intros ? Hseq; apply elem_of_seq in Hseq.
Ltac ksel := rewrite K_eq; repeat (destruct (_ <? _)%nat eqn:? in |- *;
  rewrite ?Nat.ltb_lt, ?Nat.ltb_ge in *; try lia).

(** Each of the four loops runs the standard's steps of its twenty rounds. *)
Definition loop_fips g k lo : Prop := forall w s, st_ok s ->
  foldl (round_step g k w) s (seq lo 20) = foldl (Fips.step w) s (seq lo 20)
  /\ st_ok (foldl (Fips.step w) s (seq lo 20)).

Lemma loop_intro g k lo :
  (forall t b c d, (lo <= t < lo + 20)%nat -> w32 b -> g b c d = Fips.f t b c d) ->
  (forall t, (lo <= t < lo + 20)%nat -> k = Fips.K t) -> loop_fips g k lo.
Proof.
  intros Hg Hk w s Hs. apply rounds_fips; [done|..]; in_seq; [by intros; apply Hg|by apply Hk].
Qed.

Lemma loop_ch : loop_fips round_ch 0x5a827999 0.
Proof. apply loop_intro; [intros; apply round_ch_f; [done|lia]|intros; ksel]. Qed.
Lemma loop_parity1 : loop_fips round_parity 0x6ed9eba1 20.
Proof. apply loop_intro; [intros; apply round_parity_f; lia|intros; ksel]. Qed.
Lemma loop_maj : loop_fips round_maj 0x8f1bbcdc 40.
Proof. apply loop_intro; [intros; apply round_maj_f; lia|intros; ksel]. Qed.
Lemma loop_parity2 : loop_fips round_parity 0xca62c1d6 60.
Proof. apply loop_intro; [intros; apply round_parity_f; lia|intros; ksel]. Qed.

Lemma transform_compress st M : st_ok st -> bytes_ok M -> length M = 64%nat ->
  tnt_sha1_transform st M = Fips.compress st M.
Proof.
  intros Hs Hb Hl. unfold tnt_sha1_transform, sha1_block. rewrite sha1_block_W by done.
  unfold Fips.compress.
  change (seq 0 80) with (seq 0 20 ++ seq 20 20 ++ seq 40 20 ++ seq 60 20).
  rewrite !foldl_app. generalize (Fips.W M 64) as w. intros w.
  destruct (loop_ch w st Hs) as [-> S1].
  destruct (loop_parity1 w _ S1) as [-> S2].
  destruct (loop_maj w _ S2) as [-> S3].
  destruct (loop_parity2 w _ S3) as [-> S4].
  destruct st. by destruct (foldl _ _ (seq 60 20)).
Qed.

Lemma compress_ok st M : st_ok (Fips.compress st M).
Proof.
  unfold Fips.compress. destruct st. destruct (foldl _ _ _).
  repeat split; apply w32_mod.
Qed.

(** * Streaming *)

Lemma compress_take (m : list Z) : bytes_ok m -> (64 <= length m)%nat ->
  bytes_ok (take 64 m) /\ length (take 64 m) = 64%nat /\ bytes_ok (drop 64 m).
Proof.
  intros Hb Hl. split_and!; [by apply Forall_take|rewrite length_take; lia|by apply Forall_drop].
Qed.

Lemma absorb_fuel f1 : forall f2 h m, (length m <= f1)%nat -> (length m <= f2)%nat ->
  Fips.absorb f1 h m = Fips.absorb f2 h m.
Proof.
  induction f1 as [|f1 IH]; intros f2 h m H1 H2; destruct f2 as [|f2]; cbn [Fips.absorb]; try done.
  1-2: by (destruct (64 <=? length m)%nat eqn:E; [apply Nat.leb_le in E; lia|]).
  destruct (64 <=? length m)%nat eqn:E; [|done]. apply Nat.leb_le in E.
  apply IH; rewrite length_drop; lia.
Qed.

(** The compression of the whole blocks of [m] from [h], and the bytes left over. *)
Definition absorbs (h : sha1_state) (m : list Z) := Fips.absorb (length m) h m.

Lemma absorbs_short h m : (length m < 64)%nat -> absorbs h m = (h, m).
Proof.
  intros H. unfold absorbs. rewrite (absorb_fuel _ (S (length m))) by lia.
  cbn [Fips.absorb]. destruct (64 <=? length m)%nat eqn:E; [apply Nat.leb_le in E; lia|done].
Qed.

Lemma absorbs_block h m : (64 <= length m)%nat ->
  absorbs h m = absorbs (Fips.compress h (take 64 m)) (drop 64 m).
Proof.
  intros H. unfold absorbs. rewrite (absorb_fuel (length m) (S (length m))) by lia.
  cbn [Fips.absorb]. destruct (64 <=? length m)%nat eqn:E; [|apply Nat.leb_gt in E; lia].
  apply absorb_fuel; [|done]. rewrite length_drop. lia.
Qed.

Lemma absorbs_ind (P : sha1_state -> list Z -> Prop) :
  (forall h m, (length m < 64)%nat -> P h m) ->
  (forall h m, (64 <= length m)%nat -> P (Fips.compress h (take 64 m)) (drop 64 m) -> P h m) ->
  forall h m, P h m.
Proof.
  intros H1 H2 h m. remember (length m) as n eqn:Hn. revert h m Hn.
  induction (lt_wf n) as [n _ IH]. intros h m ->.
  destruct (Nat.lt_ge_cases (length m) 64); [by apply H1|]. apply H2; [done|].
  eapply IH; [|done]. rewrite length_drop. lia.
Qed.

Lemma absorbs_app h m d : absorbs h (m ++ d) = absorbs (absorbs h m).1 ((absorbs h m).2 ++ d).
Proof.
  revert h m. apply (absorbs_ind (fun h m =>
    absorbs h (m ++ d) = absorbs (absorbs h m).1 ((absorbs h m).2 ++ d))); intros h m Hl.
  - by rewrite (absorbs_short h m).
  - intros IH. rewrite (absorbs_block h m) by done. rewrite <- IH.
    rewrite absorbs_block by (rewrite length_app; lia).
    rewrite take_app_le, drop_app_le by lia. done.
Qed.

Lemma absorbs_rest h m :
  (length (absorbs h m).2 < 64)%nat /\ len (absorbs h m).2 = len m mod 64
  /\ (bytes_ok m -> bytes_ok (absorbs h m).2).
Proof.
  revert h m. apply absorbs_ind; intros h m Hl.
  - rewrite absorbs_short by done. cbn. split_and!; [done| |done].
    symmetry. apply Z.mod_small. unfold len. lia.
  - intros (H1 & H2 & H3). rewrite absorbs_block by done. split_and!; [done| |].
    + rewrite H2. unfold len. rewrite length_drop.
      replace (Z.of_nat (length m)) with (Z.of_nat (length m - 64) + 1 * 64) by lia.
      by rewrite Z.mod_add by lia.
    + intros Hb. apply H3. by apply Forall_drop.
Qed.

Lemma absorbs_ok h m : st_ok h -> st_ok (absorbs h m).1.
Proof.
  revert h m. apply (absorbs_ind (fun h m => st_ok h -> st_ok (absorbs h m).1)); intros h m Hl.
  - by rewrite absorbs_short.
  - intros IH _. rewrite absorbs_block by done. apply IH, compress_ok.
Qed.

(** The loop of [tnt_sha1_update] absorbs the data from [i] on. *)
Lemma update_blocks_absorbs f : forall st data i, st_ok st -> bytes_ok data -> 0 <= i <= len data ->
  (Z.to_nat (len data - i) <= f)%nat ->
  let '(st', i') := update_blocks f st data i in
  st' = (absorbs st (zdrop i data)).1 /\ zdrop i' data = (absorbs st (zdrop i data)).2.
Proof.
  induction f as [|f IH]; intros st data i Hs Hb Hi Hf; cbn [update_blocks].
  - rewrite absorbs_short; [done|]. unfold zdrop, len in *. rewrite length_drop. lia.
  - destruct (i + 63 <? len data) eqn:E.
    + assert (Hz : zdrop (i + 64) data = drop 64 (zdrop i data)).
      { unfold zdrop. rewrite drop_drop. f_equal. lia. }
      assert (Hl : (64 <= length (zdrop i data))%nat)
        by (unfold zdrop, len in *; rewrite length_drop; lia).
      assert (Hbz : bytes_ok (zdrop i data)) by by apply Forall_drop.
      destruct (compress_take _ Hbz Hl) as (B1 & L1 & B2).
      specialize (IH (tnt_sha1_transform st (ztake 64 (zdrop i data))) data (i + 64)).
      rewrite Hz in IH. rewrite (absorbs_block st) by done.
      change (ztake 64 (zdrop i data)) with (take 64 (zdrop i data)) in *.
      rewrite transform_compress in * by done.
      apply IH; [apply compress_ok|done|lia|lia].
    + rewrite absorbs_short; [done|]. unfold zdrop, len in *. rewrite length_drop. lia.
Qed.

(** The context after the bytes [m]. *)
Record Absorbed (c : tnt_sha1_ctx_t) (m : list Z) : Prop := {
  ab_state : state c = (absorbs Fips.H0 m).1;
  ab_rest : exists junk, buffer c = (absorbs Fips.H0 m).2 ++ junk;
  ab_len : length (buffer c) = 64%nat;
  ab_c0 : count0 c = u32 (8 * len m);
  ab_c1 : count1 c = u32 (8 * len m / 2 ^ 32);
  ab_bytes : bytes_ok m
}.

Lemma H0_ok : st_ok Fips.H0.
Proof. repeat split; done. Qed.

Lemma Absorbed_init c : length (buffer c) = 64%nat -> Absorbed (tnt_sha1_init c) [].
Proof.
  intros H. split; try done; [by exists (buffer c)|by apply Forall_nil_2].
Qed.

Lemma count0_index (m : list Z) : Z.land (Z.shiftr (u32 (8 * len m)) 3) 63 = len m mod 64.
Proof.
  change 63 with (Z.ones 6). rewrite Z.land_ones, shiftr_div by lia.
  unfold u32. pose proof (len_nonneg m). Z.div_mod_to_equations. lia.
Qed.

Lemma counts_update T n : 0 <= T -> 0 <= n < 2 ^ 32 ->
  u32 (u32 T + u32 (Z.shiftl n 3)) = u32 (T + 8 * n) /\
  u32 ((if u32 (u32 T + u32 (Z.shiftl n 3)) <? u32 (Z.shiftl n 3)
        then u32 (u32 (T / 2 ^ 32) + 1) else u32 (T / 2 ^ 32)) + Z.shiftr n 29)
  = u32 ((T + 8 * n) / 2 ^ 32).
Proof.
  intros HT Hn. rewrite Z.shiftl_mul_pow2, shiftr_div by lia. unfold u32. split.
  - rewrite <- Z.add_mod by lia. f_equal. lia.
  - destruct (_ <? _) eqn:E; [Z.div_mod_to_equations; lia|Z.div_mod_to_equations; lia].
Qed.

Lemma buf_store_length buf j src : 0 <= j -> j + len src <= len buf ->
  length (buf_store buf j src) = length buf.
Proof.
  intros Hj Hl. unfold buf_store, ztake, zdrop, len in *.
  rewrite !length_app, length_take, length_drop. lia.
Qed.

Lemma absorbed_counts c m d : Absorbed c m -> len d < 2 ^ 32 ->
  let c' := tnt_sha1_update c d in
  count0 c' = u32 (8 * len (m ++ d)) /\ count1 c' = u32 (8 * len (m ++ d) / 2 ^ 32).
Proof.
  intros Hc Hd c'. pose proof (len_nonneg m). pose proof (len_nonneg d).
  destruct (counts_update (8 * len m) (len d)) as [E0 E1]; [lia..|].
  rewrite <- (ab_c0 _ _ Hc) in E0, E1. rewrite <- (ab_c1 _ _ Hc) in E1.
  rewrite len_app, Z.mul_add_distr_l, <- E0, <- E1. subst c'. unfold tnt_sha1_update.
  destruct (63 <? _); [destruct (update_blocks _ _ _ _)|]; done.
Qed.

Lemma Absorbed_update c m d : Absorbed c m -> bytes_ok d -> len d < 2 ^ 32 - 64 ->
  Absorbed (tnt_sha1_update c d) (m ++ d).
Proof.
  intros Hc Hd Hn. pose proof (len_nonneg d) as Hd0.
  destruct (absorbed_counts c m d Hc ltac:(lia)) as [E0 E1].
  destruct (absorbs_rest Fips.H0 m) as (R1 & R2 & R3). specialize (R3 (ab_bytes _ _ Hc)).
  pose proof (absorbs_ok Fips.H0 m H0_ok) as Hok.
  pose proof (absorbs_app Fips.H0 m d) as Happ.
  destruct Hc as [Hs [junk Hj] Hl Hc0 Hc1 Hm].
  destruct (absorbs Fips.H0 m) as [h r]. cbn [fst snd] in *.
  assert (Hmd : bytes_ok (m ++ d)) by by apply Forall_app.
  assert (Hjl : (length r + length junk = 64)%nat) by (rewrite Hj, length_app in Hl; lia).
  assert (Ej : Z.land (Z.shiftr (count0 c) 3) 63 = len r) by (rewrite Hc0, count0_index; lia).
  unfold tnt_sha1_update in *. rewrite Ej, Hj, Hs in *.
  assert (Hr64 : 0 <= len r < 64) by (unfold len; lia).
  rewrite (u32_id (len r + len d)) in * by lia.
  destruct (63 <? len r + len d) eqn:E.
  - assert (Ebuf : buf_store (r ++ junk) (len r) (ztake (64 - len r) d) = take 64 (r ++ d)).
    { unfold buf_store. rewrite ztake_app_len, len_take.
      assert (zdrop (len r + Z.max 0 (Z.min (64 - len r) (len d))) (r ++ junk) = []) as ->.
      { unfold zdrop. apply drop_ge. rewrite length_app. unfold len in *. lia. }
      rewrite app_nil_r, take_app_ge by lia. f_equal. unfold ztake, len. f_equal. lia. }
    assert (Hrd : (64 <= length (r ++ d))%nat) by (rewrite length_app; unfold len in *; lia).
    assert (Hbrd : bytes_ok (r ++ d)) by by apply Forall_app.
    destruct (compress_take _ Hbrd Hrd) as (B1 & B2 & B3).
    rewrite (absorbs_block h) in Happ by done.
    assert (Edrop : drop 64 (r ++ d) = zdrop (64 - len r) d).
    { rewrite drop_app_ge by lia. unfold zdrop, len. f_equal. lia. }
    rewrite Edrop in Happ. rewrite Ebuf in *. rewrite transform_compress in * by done.
    pose proof (update_blocks_absorbs (length d) (Fips.compress h (take 64 (r ++ d))) d
      (64 - len r) (compress_ok _ _) Hd ltac:(lia) ltac:(unfold len; lia)) as Hu.
    destruct (update_blocks _ _ _ _) as [st i]. destruct Hu as [Hu1 Hu2].
    rewrite <- Happ in Hu1, Hu2. destruct (absorbs_rest Fips.H0 (m ++ d)) as (Q1 & _ & _).
    split; cbn [state buffer count0 count1] in *; try done.
    + unfold buf_store. rewrite Hu2. eauto.
    + rewrite buf_store_length; [done|lia|]. rewrite Hu2. unfold len. lia.
  - rewrite (absorbs_short h) in Happ by (rewrite length_app; unfold len in *; lia).
    split; cbn [state buffer count0 count1] in *; try done; rewrite ?Happ; try done.
    + cbn [snd]. unfold buf_store. rewrite ztake_app_len, app_assoc. eauto.
    + rewrite buf_store_length; [rewrite length_app; lia|lia|].
      unfold len in *. rewrite length_app. lia.
Qed.

(** * Padding and digest *)

Lemma land_504 (m : list Z) : Z.land (u32 (8 * len m)) 504 = 8 * (len m mod 64).
Proof.
  assert (u32 (8 * len m) = Z.shiftl (u32 (8 * len m) / 8) 3) as ->.
  { rewrite Z.shiftl_mul_pow2 by lia. unfold u32. Z.div_mod_to_equations. lia. }
  change 504 with (Z.shiftl 63 3). rewrite <- Z.shiftl_land, Z.shiftl_mul_pow2 by lia.
  pose proof (count0_index m) as E. rewrite shiftr_div in E by lia. change (2 ^ 3) with 8 in *. lia.
Qed.

Lemma pad_loop_ok f : forall c m, Absorbed c m -> (Z.to_nat ((56 - len m) mod 64) <= f)%nat ->
  exists c', pad_loop f c = Some c'
    /\ Absorbed c' (m ++ repeat 0 (Z.to_nat ((56 - len m) mod 64))).
Proof.
  induction f as [|f IH]; intros c m Hc Hf; cbn [pad_loop];
    rewrite (ab_c0 _ _ Hc), land_504;
    destruct (8 * (len m mod 64) =? 448) eqn:E.
  1,3: assert ((56 - len m) mod 64 = 0) as -> by (Z.div_mod_to_equations; lia);
    exists c; cbn [repeat Z.to_nat]; rewrite app_nil_r; done.
  - exfalso. Z.div_mod_to_equations. lia.
  - assert (Hc' : Absorbed (tnt_sha1_update c [0]) (m ++ [0])).
    { apply Absorbed_update; [done|by repeat constructor|done]. }
    assert (Ek : (56 - len m) mod 64 = 1 + (56 - len (m ++ [0])) mod 64).
    { rewrite len_app. change (len [0]) with 1. Z.div_mod_to_equations. lia. }
    destruct (IH _ _ Hc') as (c' & E1 & E2); [Z.div_mod_to_equations; lia|].
    exists c'. split; [done|]. rewrite Ek, Z2Nat.inj_add by (Z.div_mod_to_equations; lia).
    rewrite <- app_assoc in E2. exact E2.
Qed.

(** A byte of the low 32 bits of a counter, and of the 32 bits above them. *)
Lemma u8_u32_shift T k : 0 <= k <= 24 -> u8 (Z.shiftr (u32 T) k) = u8 (Z.shiftr T k).
Proof.
  intros Hk. unfold u8, u32. apply Z.bits_inj'. intros i Hi. destruct (Z.lt_ge_cases i 8).
  - rewrite !Z.mod_pow2_bits_low, !Z.shiftr_spec, Z.mod_pow2_bits_low by lia. done.
  - rewrite !Z.mod_pow2_bits_high by lia. done.
Qed.
Lemma u8_u32_shift_hi T k : 0 <= k <= 24 ->
  u8 (Z.shiftr (u32 (T / 2 ^ 32)) k) = u8 (Z.shiftr T (32 + k)).
Proof.
  intros Hk. rewrite u8_u32_shift, <- shiftr_div, Z.shiftr_shiftr by lia. done.
Qed.

Lemma finalcount_be c m : Absorbed c m -> finalcount c = be_bytes 8 (8 * len m).
Proof.
  intros Hc. unfold finalcount. rewrite (ab_c0 _ _ Hc), (ab_c1 _ _ Hc).
  cbn [seq fmap list_fmap be_bytes Nat.leb]. rewrite !land_255.
  repeat match goal with |- context [(3 - Z.land ?a 3) * 8] =>
    let v := eval vm_compute in ((3 - Z.land a 3) * 8) in
    change ((3 - Z.land a 3) * 8) with v end.
  rewrite !u8_u32_shift_hi, !u8_u32_shift by lia. reflexivity.
Qed.

Lemma digest_out s : digest_bytes s = Fips.out s.
Proof.
  unfold digest_bytes, Fips.out. cbn [be_bytes app]. rewrite <- !land_255. reflexivity.
Qed.

Lemma be_bytes_ok w n : bytes_ok (be_bytes w n).
Proof. induction w; cbn [be_bytes]; constructor; [apply u8_range|done]. Qed.

Lemma tnt_sha1_on_fips ctx data :
  length (buffer ctx) = 64%nat -> bytes_ok data -> len data < 2 ^ 32 - 64 ->
  tnt_sha1_on ctx data = Some (Fips.sha1 data).
Proof.
  intros Hl Hb Hn. unfold tnt_sha1_on, tnt_sha1_final.
  pose proof (Absorbed_update _ [] data (Absorbed_init ctx Hl) Hb Hn) as H1.
  cbn [app] in H1. rewrite (finalcount_be _ _ H1).
  pose proof (Absorbed_update _ _ [0x80] H1 ltac:(by repeat constructor) ltac:(done)) as H2.
  destruct (pad_loop_ok 64 _ _ H2) as (c & -> & H3); [Z.div_mod_to_equations; lia|].
  pose proof (Absorbed_update _ _ (be_bytes 8 (8 * len data)) H3 (be_bytes_ok _ _) ltac:(lens; lia))
    as H4.
  cbn [mbind option_bind fmap option_fmap option_map fst]. f_equal. rewrite digest_out.
  rewrite (ab_state _ _ H4). unfold Fips.sha1, Fips.pad, absorbs.
  rewrite len_app. change (len [128]) with 1.
  replace (56 - (len data + 1)) with (55 - len data) by lia. by rewrite <- !app_assoc.
Qed.

(** The function the drivers call on a fresh context. *)
Lemma tnt_sha1_fips data : bytes_ok data -> len data < 2 ^ 32 - 64 -> tnt_sha1 data = Fips.sha1 data.
Proof. intros. unfold tnt_sha1. by rewrite tnt_sha1_on_fips. Qed.

Lemma sha1_out_ok h : length (Fips.out h) = 20%nat /\ bytes_ok (Fips.out h).
Proof.
  split; [done|]. unfold Fips.out. repeat apply Forall_app_2; apply be_bytes_ok.
Qed.

Lemma tnt_sha1_length data : bytes_ok data -> len data < 2 ^ 32 - 64 ->
  len (tnt_sha1 data) = 20 /\ bytes_ok (tnt_sha1 data).
Proof.
  intros. rewrite tnt_sha1_fips by done. unfold Fips.sha1.
  destruct (sha1_out_ok (Fips.absorb (length (Fips.pad data)) Fips.H0 (Fips.pad data)).1) as [E ?].
  split; [unfold len; by rewrite E|done].
Qed.
