(* ===== verification/Base64.v ===== *)
(** The Base64 decoder the drivers embed to read the salt of the greeting
    ([cachedb_tarantool_dbase.c] lines 152-192, repeated in
    [rtpengine_tarantool/src/tarantool.c]), and the RFC 4648 encoder it inverts. *)
From S2P Require Export Prelude.

(** * The decoder *)

Definition tnt_b64_table : list Z :=
  [-1; -1; -1; -1; -1; -1; -1; -1; -1; -1; -1; -1; -1; -1; -1; -1;
   -1; -1; -1; -1; -1; -1; -1; -1; -1; -1; -1; -1; -1; -1; -1; -1;
   -1; -1; -1; -1; -1; -1; -1; -1; -1; -1; -1; 62; -1; -1; -1; 63;
   52; 53; 54; 55; 56; 57; 58; 59; 60; 61; -1; -1; -1; -1; -1; -1;
   -1; 0; 1; 2; 3; 4; 5; 6; 7; 8; 9; 10; 11; 12; 13; 14;
   15; 16; 17; 18; 19; 20; 21; 22; 23; 24; 25; -1; -1; -1; -1; -1;
   -1; 26; 27; 28; 29; 30; 31; 32; 33; 34; 35; 36; 37; 38; 39; 40;
   41; 42; 43; 44; 45; 46; 47; 48; 49; 50; 51; -1; -1; -1; -1; -1;
   -1; -1; -1; -1; -1; -1; -1; -1; -1; -1; -1; -1; -1; -1; -1; -1;
   -1; -1; -1; -1; -1; -1; -1; -1; -1; -1; -1; -1; -1; -1; -1; -1;
   -1; -1; -1; -1; -1; -1; -1; -1; -1; -1; -1; -1; -1; -1; -1; -1;
   -1; -1; -1; -1; -1; -1; -1; -1; -1; -1; -1; -1; -1; -1; -1; -1;
   -1; -1; -1; -1; -1; -1; -1; -1; -1; -1; -1; -1; -1; -1; -1; -1;
   -1; -1; -1; -1; -1; -1; -1; -1; -1; -1; -1; -1; -1; -1; -1; -1;
   -1; -1; -1; -1; -1; -1; -1; -1; -1; -1; -1; -1; -1; -1; -1; -1;
   -1; -1; -1; -1; -1; -1; -1; -1; -1; -1; -1; -1; -1; -1; -1; -1].

(** The locals of the loop: [buf], [bits] and the bytes stored in [dst] ([j] of them). *)
Record b64 := B64 { b_buf : Z; b_bits : Z; b_dst : list Z }.

(** The body of the loop on the character [c]. *)
Definition b64_step (dlen : Z) (s : b64) (c : Z) : b64 :=
  let val := default (-1) (tnt_b64_table !! Z.to_nat c) in
  if val <? 0 then s
  else
    let buf := Z.lor (u32 (Z.shiftl (b_buf s) 6)) val in
    let bits := b_bits s + 6 in
    if 8 <=? bits then
      let bits := bits - 8 in
      B64 buf bits
          (if len (b_dst s) <? dlen
           then b_dst s ++ [Z.land (Z.shiftr buf bits) 0xff] else b_dst s)
    else B64 buf bits (b_dst s).

(** [for (i = 0; i < slen && src[i] && src[i] != '='; i++)]; [src] holds [slen] bytes. *)
Fixpoint b64_loop (dlen : Z) (s : b64) (src : list Z) : b64 :=
  match src with
  | [] => s
  | c :: src' => if (c =? 0) || (c =? 61) then s else b64_loop dlen (b64_step dlen s c) src'
  end.

(** The bytes stored in [dst]; the returned [int] is their number. *)
Definition tnt_base64_decode (src : list Z) (dlen : Z) : list Z :=
  b_dst (b64_loop dlen (B64 0 0 []) src).

(** * RFC 4648 *)

Module Rfc4648.

(** The alphabet of Table 1. *)
Definition char_of (v : Z) : Z :=
  if v <? 26 then 65 + v else if v <? 52 then 97 + (v - 26)
  else if v <? 62 then 48 + (v - 52) else if v =? 62 then 43 else 47.

(** Three bytes make four characters; a last group of one or two bytes is padded. *)
Fixpoint encode (bs : list Z) : list Z :=
  match bs with
  | [] => []
  | [a] => [char_of (a / 4); char_of (a mod 4 * 16); 61; 61]
  | [a; b] => [char_of (a / 4); char_of (a mod 4 * 16 + b / 16); char_of (b mod 16 * 4); 61]
  | a :: b :: c :: bs' =>
      char_of (a / 4) :: char_of (a mod 4 * 16 + b / 16)
      :: char_of (b mod 16 * 4 + c / 64) :: char_of (c mod 64) :: encode bs'
  end.

End Rfc4648.

(** * Lemmas *)

Lemma char_of_spec v : 0 <= v < 64 ->
  default (-1) (tnt_b64_table !! Z.to_nat (Rfc4648.char_of v)) = v
  /\ Rfc4648.char_of v <> 0 /\ Rfc4648.char_of v <> 61.
Proof.
  intros Hv.
  by_range (fun v => (default (-1) (tnt_b64_table !! Z.to_nat (Rfc4648.char_of v)) =? v)
    && negb (Rfc4648.char_of v =? 0) && negb (Rfc4648.char_of v =? 61)) 0 64 v Hv. lia.
Qed.

(** Appending a 6-bit value to a 32-bit register. *)
Lemma b64_push buf v : 0 <= v < 64 -> Z.lor (u32 (Z.shiftl buf 6)) v = (buf * 64 + v) mod 2 ^ 32.
Proof.
  intros Hv. assert (u32 (Z.shiftl buf 6) = Z.shiftl (buf mod 2 ^ 26) 6) as ->.
  { unfold u32. rewrite !Z.shiftl_mul_pow2 by lia. Z.div_mod_to_equations. lia. }
  rewrite lor_shiftl_add by lia. Z.div_mod_to_equations. lia.
Qed.

(** One character of the alphabet: the register takes its value; a full byte leaves it. *)
Lemma b64_step_char dlen buf bits dst v : 0 <= v < 64 -> 0 <= bits ->
  b64_step dlen (B64 buf bits dst) (Rfc4648.char_of v) =
  let buf' := (buf * 64 + v) mod 2 ^ 32 in
  if 2 <=? bits
  then B64 buf' (bits - 2) (if len dst <? dlen then dst ++ [buf' / 2 ^ (bits - 2) mod 256] else dst)
  else B64 buf' (bits + 6) dst.
Proof.
  intros Hv Hb. destruct (char_of_spec v Hv) as (E & _). unfold b64_step.
  cbn [b_buf b_bits b_dst]. rewrite E, b64_push by done.
  destruct (v <? 0) eqn:?; [lia|]. cbv zeta.
  destruct (8 <=? bits + 6) eqn:E1; destruct (2 <=? bits) eqn:E2; try lia; [|done].
  replace (bits + 6 - 8) with (bits - 2) by lia. f_equal. destruct (len dst <? dlen); [|done].
  do 2 f_equal. rewrite shiftr_div by lia. change 255 with (Z.ones 8). by rewrite Z.land_ones.
Qed.

Lemma b64_loop_char dlen s v src : 0 <= v < 64 ->
  b64_loop dlen s (Rfc4648.char_of v :: src) = b64_loop dlen (b64_step dlen s (Rfc4648.char_of v)) src.
Proof.
  intros Hv. destruct (char_of_spec v Hv) as (_ & E1 & E2). cbn [b64_loop].
  destruct ((_ =? 0) || (_ =? 61)) eqn:E; [lia|done].
Qed.

Lemma b64_loop_pad dlen s src : b64_loop dlen s (61 :: src) = s.
Proof. done. Qed.

(** The three bytes that the four characters of a group put into the register. *)
Lemma group_bytes buf a b c : is_byte a -> is_byte b -> is_byte c ->
  let b1 := (buf * 64 + a / 4) mod 2 ^ 32 in
  let b2 := (b1 * 64 + (a mod 4 * 16 + b / 16)) mod 2 ^ 32 in
  let b3 := (b2 * 64 + (b mod 16 * 4 + c / 64)) mod 2 ^ 32 in
  let b4 := (b3 * 64 + c mod 64) mod 2 ^ 32 in
  b2 / 2 ^ 4 mod 256 = a /\ b3 / 2 ^ 2 mod 256 = b /\ b4 / 2 ^ 0 mod 256 = c.
Proof. unfold is_byte. cbv zeta. intros. Z.div_mod_to_equations. lia. Qed.

Ltac in64 := Z.div_mod_to_equations; lia.

(** A full step of the loop on a character that completes a byte. *)
Lemma b64_byte dlen buf bits dst v src x : 0 <= v < 64 -> 2 <= bits -> len dst < dlen ->
  (buf * 64 + v) mod 2 ^ 32 / 2 ^ (bits - 2) mod 256 = x ->
  b64_loop dlen (B64 buf bits dst) (Rfc4648.char_of v :: src) =
  b64_loop dlen (B64 ((buf * 64 + v) mod 2 ^ 32) (bits - 2) (dst ++ [x])) src.
Proof.
  intros Hv Hb Hd <-. rewrite b64_loop_char, b64_step_char by (done || lia). cbv zeta.
  destruct (2 <=? bits) eqn:?; [|lia]. destruct (len dst <? dlen) eqn:?; [done|lia].
Qed.

Lemma b64_first dlen buf dst v src : 0 <= v < 64 ->
  b64_loop dlen (B64 buf 0 dst) (Rfc4648.char_of v :: src) =
  b64_loop dlen (B64 ((buf * 64 + v) mod 2 ^ 32) 6 dst) src.
Proof. intros Hv. rewrite b64_loop_char, b64_step_char by (done || lia). done. Qed.

Lemma b64_loop_encode n : forall bs buf dst dlen, (length bs <= n)%nat -> bytes_ok bs ->
  len dst + len bs <= dlen ->
  b_dst (b64_loop dlen (B64 buf 0 dst) (Rfc4648.encode bs)) = dst ++ bs.
Proof.
  induction n as [|n IH]; intros bs buf dst dlen Hn Hb Hd.
  { destruct bs; cbn in *; [by rewrite app_nil_r|lia]. }
  destruct bs as [|a [|b [|c bs]]]; cbn [Rfc4648.encode].
  - by rewrite app_nil_r.
  - apply Forall_cons in Hb as [Ha _]. lens. unfold is_byte in *.
    destruct (group_bytes buf a 0 0) as (E1 & _); [unfold is_byte; lia..|].
    rewrite Zdiv_0_l, Z.add_0_r in E1.
    rewrite b64_first by in64. rewrite (b64_byte _ _ 6 _ _ _ a) by (done || in64).
    by rewrite b64_loop_pad.
  - apply Forall_cons in Hb as [Ha Hb]. apply Forall_cons in Hb as [Hb _]. lens.
    destruct (group_bytes buf a b 0) as (E1 & E2 & _); [done..|].
    rewrite Zdiv_0_l, Z.add_0_r in E2. unfold is_byte in *. pose proof (len_nonneg dst).
    rewrite b64_first by in64. rewrite (b64_byte _ _ 6 _ _ _ a) by (done || in64).
    rewrite (b64_byte _ _ 4 _ _ _ b) by (done || lensia || in64).
    rewrite b64_loop_pad. cbn [b_dst]. by rewrite <- app_assoc.
  - apply Forall_cons in Hb as [Ha Hb]. apply Forall_cons in Hb as [Hb Hbs].
    apply Forall_cons in Hbs as [Hc Hbs]. cbn [length] in Hn. pose proof (len_nonneg bs). lens.
    destruct (group_bytes buf a b c) as (E1 & E2 & E3); [done..|].
    unfold is_byte in *. pose proof (len_nonneg dst).
    rewrite b64_first by in64. rewrite (b64_byte _ _ 6 _ _ _ a) by (done || in64).
    rewrite (b64_byte _ _ 4 _ _ _ b) by (done || lensia || in64).
    rewrite (b64_byte _ _ 2 _ _ _ c) by (done || lensia || in64).
    rewrite IH; [by rewrite <- !app_assoc|lia|done|lensia].
Qed.

Lemma b64_decode_encode bs dlen : bytes_ok bs -> len bs <= dlen ->
  tnt_base64_decode (Rfc4648.encode bs) dlen = bs.
Proof.
  intros Hb Hd. unfold tnt_base64_decode.
  rewrite (b64_loop_encode (length bs)); [done..|]. lens. lia.
Qed.

(** ** Any input: bounds *)

Lemma b64_step_inv dlen s c :
  0 <= dlen -> len (b_dst s) <= dlen -> bytes_ok (b_dst s) -> 0 <= b_bits s < 8 ->
  let s' := b64_step dlen s c in
  len (b_dst s') <= dlen /\ bytes_ok (b_dst s') /\ 0 <= b_bits s' < 8
  /\ 8 * len (b_dst s') + b_bits s' <= 8 * len (b_dst s) + b_bits s + 6
  /\ exists t, b_dst s' = b_dst s ++ t.
Proof.
  intros H0 Hl Hb Hs s'. subst s'. unfold b64_step.
  destruct (_ <? 0); [split_and!; try done; [lia..|]; exists []; by rewrite app_nil_r|]. cbv zeta.
  destruct (8 <=? b_bits s + 6) eqn:E1; cbn [b_dst b_bits].
  - destruct (len (b_dst s) <? dlen) eqn:E2.
    + split_and!; try lensia; [|eauto]. apply Forall_app. split; [done|].
      apply Forall_singleton. unfold is_byte. change 255 with (Z.ones 8).
      rewrite Z.land_ones by lia. change (2 ^ 8) with 256. apply Z.mod_pos_bound. lia.
    + split_and!; try done; try lia. exists []. by rewrite app_nil_r.
  - split_and!; try done; try lia. exists []. by rewrite app_nil_r.
Qed.

Lemma b64_loop_inv dlen src : forall s,
  0 <= dlen -> len (b_dst s) <= dlen -> bytes_ok (b_dst s) -> 0 <= b_bits s < 8 ->
  let s' := b64_loop dlen s src in
  len (b_dst s') <= dlen /\ bytes_ok (b_dst s')
  /\ 8 * len (b_dst s') <= 8 * len (b_dst s) + b_bits s + 6 * len src.
Proof.
  induction src as [|c src IH]; intros s H0 Hl Hb Hs; cbn [b64_loop]; cbv zeta.
  - split_and!; [done..|]. lens. lia.
  - destruct (_ || _); [split_and!; try done; lensia|].
    destruct (b64_step_inv dlen s c H0 Hl Hb Hs) as (A & B & C & D & _).
    destruct (IH _ H0 A B C) as (A' & B' & D'). cbv zeta in D'. split_and!; try done.
    lens. lia.
Qed.

(** Whatever the input, the decoder stores bytes, at most [dlen] of them and at most three
    for every four characters. *)
Lemma b64_decode_bounds src dlen : 0 <= dlen ->
  let d := tnt_base64_decode src dlen in
  len d <= dlen /\ bytes_ok d /\ 4 * len d <= 3 * len src.
Proof.
  intros H0. destruct (b64_loop_inv dlen src (B64 0 0 []) H0) as (A & B & C);
    [done|by apply Forall_nil_2|done|].
  cbv zeta in C. unfold tnt_base64_decode. cbn [b_dst b_bits] in C. lens. split_and!; try done. lia.
Qed.
