(* ===== verification/Net.v ===== *)
(** The operating system as the drivers see it: sockets, the clock, memory
    allocation and name resolution, each answering from a script, and the monad
    the drivers' operations are written in. *)
From S2P Require Export Prelude.

(** * Sockets

    [rx] is what successive [recv] calls find: bytes that have arrived (delivered
    as far as the caller's buffer reaches), an error, or the end of the stream. A
    blocking [recv] on an empty script waits for ever. [tx] is what successive
    [send]/[writev] calls do: accept at most so many bytes, or fail; when the script
    is empty everything is accepted. [wire] is every byte accepted so far. *)

Inductive errno := EINTR | EAGAIN | EOTHER.
#[export] Instance errno_eq_dec : EqDecision errno.
Proof. solve_decision. Defined.

Inductive rx_ev := RxData (b : Z) (bs : list Z) | RxErr (e : errno) | RxEof.
Inductive tx_ev := TxSome (n : nat) | TxErr (e : errno).

Record sock := Sock { rx : list rx_ev; tx : list tx_ev; wire : list Z }.

(** [clock]: the results of successive [time(NULL)] calls, the last one repeated;
    [w_socket], [w_gai], [w_connect], [w_malloc]: the results of successive
    [socket], [getaddrinfo], [connect] (the peer reached, if any) and allocation
    calls; an exhausted script fails, except for allocation, which succeeds. *)
Record world := World {
  clock : list Z;
  socks : gmap Z sock;
  w_socket : list Z;
  w_gai : list bool;
  w_connect : list (option sock);
  w_malloc : list bool
}.

Definition set_socks (w : world) (m : gmap Z sock) : world :=
  World (clock w) m (w_socket w) (w_gai w) (w_connect w) (w_malloc w).

(** What a call to [recv] returns. *)
Inductive recv_res := Got (bs : list Z) | Closed | Failed (e : errno) | Waiting.

Definition recv_rx (dontwait : bool) (n : Z) (evs : list rx_ev) : recv_res * list rx_ev :=
  match evs with
  | [] => (if dontwait then Failed EAGAIN else Waiting, [])
  | RxData b bs :: r =>
      let all := b :: bs in
      (Got (ztake n all),
       match zdrop n all with [] => r | b' :: bs' => RxData b' bs' :: r end)
  | RxErr e :: r => (Failed e, r)
  | RxEof :: _ => (Closed, evs)
  end.

Definition sys_recv (dontwait : bool) (fd n : Z) (w : world) : recv_res * world :=
  match socks w !! fd with
  | None => (Failed EOTHER, w)
  | Some s => let '(r, evs) := recv_rx dontwait n (rx s) in
              (r, set_socks w (<[fd := Sock evs (tx s) (wire s)]> (socks w)))
  end.

(** [send] (or [writev] of the bytes [bs]): the number of bytes accepted, or an error. *)
Definition send_tx (bs : list Z) (s : sock) : (Z + errno) * sock :=
  match tx s with
  | [] => (inl (len bs), Sock (rx s) [] (wire s ++ bs))
  | TxSome n :: r => (inl (len (take n bs)), Sock (rx s) r (wire s ++ take n bs))
  | TxErr e :: r => (inr e, Sock (rx s) r (wire s))
  end.

Definition sys_send (fd : Z) (bs : list Z) (w : world) : (Z + errno) * world :=
  match socks w !! fd with
  | None => (inr EOTHER, w)
  | Some s => let '(r, s') := send_tx bs s in (r, set_socks w (<[fd := s']> (socks w)))
  end.

Definition sys_close (fd : Z) (w : world) : world := set_socks w (delete fd (socks w)).

Definition sys_time (w : world) : Z * world :=
  match clock w with
  | [] => (0, w)
  | [t] => (t, w)
  | t :: r => (t, World r (socks w) (w_socket w) (w_gai w) (w_connect w) (w_malloc w))
  end.

Definition sys_socket (w : world) : Z * world :=
  match w_socket w with
  | [] => (-1, w)
  | fd :: r => (fd, World (clock w) (socks w) r (w_gai w) (w_connect w) (w_malloc w))
  end.

Definition sys_gai (w : world) : bool * world :=
  match w_gai w with
  | [] => (false, w)
  | b :: r => (b, World (clock w) (socks w) (w_socket w) r (w_connect w) (w_malloc w))
  end.

(** A successful [connect] ties the descriptor to the peer. *)
Definition sys_connect (fd : Z) (w : world) : bool * world :=
  match w_connect w with
  | [] => (false, w)
  | o :: r =>
      (bool_decide (is_Some o),
       World (clock w) (match o with Some s => <[fd := s]> (socks w) | None => socks w end)
             (w_socket w) (w_gai w) r (w_malloc w))
  end.

Definition sys_malloc (w : world) : bool * world :=
  match w_malloc w with
  | [] => (true, w)
  | b :: r => (b, World (clock w) (socks w) (w_socket w) (w_gai w) (w_connect w) r)
  end.

(** * [inet_pton(AF_INET, ...)]: four decimal octets without leading zeros *)

Definition is_digit (c : Z) : bool := (48 <=? c) && (c <=? 57).

(** State: finished octets, the value and number of digits of the current one. *)
Fixpoint pton_loop (s : list Z) (octets cur digits : Z) : bool :=
  match s with
  | [] => (octets =? 3) && (0 <? digits)
  | c :: s' =>
      if is_digit c then
        if (0 <? digits) && (cur =? 0) then false
        else let v := cur * 10 + (c - 48) in
             if 255 <? v then false else pton_loop s' octets v (digits + 1)
      else if (c =? 46) && (0 <? digits) && (octets <? 3) then pton_loop s' (octets + 1) 0 0
      else false
  end.

Definition inet_pton4 (s : list Z) : bool := pton_loop s 0 0 0.

(** * The monad

    An operation runs on the driver's own state and the world. It returns, waits
    for ever on the network, or leaves the memory it owns ([Undef]). *)

Inductive outcome (D A : Type) := Ret (a : A) (d : D) (w : world) | Hang | Undef.
Arguments Ret {D A}. Arguments Hang {D A}. Arguments Undef {D A}.

Definition M (D A : Type) : Type := D -> world -> outcome D A.

#[export] Instance M_ret D : MRet (M D) := fun A a d w => Ret a d w.
#[export] Instance M_bind D : MBind (M D) := fun A B k m d w =>
  match m d w with
  | Ret a d' w' => k a d' w'
  | Hang => Hang
  | Undef => Undef
  end.

Definition get {D} : M D D := fun d w => Ret d d w.
Definition put {D} (d : D) : M D unit := fun _ w => Ret tt d w.
Definition modify {D} (f : D -> D) : M D unit := fun d w => Ret tt (f d) w.
Definition sys {D A} (f : world -> A * world) : M D A := fun d w =>
  let '(a, w') := f w in Ret a d w'.
Definition sys_ {D} (f : world -> world) : M D unit := fun d w => Ret tt d (f w).
Definition undef {D A} : M D A := fun _ _ => Undef.
Definition hang {D A} : M D A := fun _ _ => Hang.

(** The value of a read, which must stay inside its buffer. *)
Definition of_read {D A} (o : option A) : M D A :=
  match o with Some a => mret a | None => undef end.

(** A local buffer of [cap] bytes holds [bs]. *)
Definition in_buffer {D} (cap : Z) (bs : list Z) : M D unit :=
  if len bs <=? cap then mret tt else undef.

(** [malloc(n)]: whether it succeeds. *)
Definition malloc {D} : M D bool := sys sys_malloc.
Definition time_ {D} : M D Z := sys sys_time.
Definition close {D} (fd : Z) : M D unit := sys_ (sys_close fd).

(** * Transfer loops

    [retry e]: the loop continues after error [e]. A turn consumes an event of the
    script or finishes, so the script's length bounds the loop. *)

Definition rx_len (w : world) (fd : Z) : nat :=
  match socks w !! fd with Some s => length (rx s) | None => 0 end.
Definition tx_len (w : world) (fd : Z) : nat :=
  match socks w !! fd with Some s => length (tx s) | None => 0 end.

Section transfer.
Context {D : Type}.

(** [while (off < len) { n = recv(fd, buf + off, len - off, 0); ... }]: the bytes
    received, [None] for the result -1. *)
Fixpoint recv_loop (retry : errno -> bool) (fuel : nat) (fd n : Z) (acc : list Z)
  : M D (option (list Z)) :=
  if n <=? len acc then mret (Some acc)
  else match fuel with
       | O => hang
       | S f =>
           r ← sys (sys_recv false fd (n - len acc));
           match r with
           | Got bs => recv_loop retry f fd n (acc ++ bs)
           | Closed => mret None
           | Failed e => if retry e then recv_loop retry f fd n acc else mret None
           | Waiting => hang
           end
       end.

Definition recv_all (retry : errno -> bool) (fd n : Z) : M D (option (list Z)) :=
  fun d w => recv_loop retry (S (rx_len w fd)) fd n [] d w.

(** [recv(fd, buf, n, MSG_WAITALL)]: one call that waits for all the bytes, unless an error
    or the end of the stream comes first: the bytes received, [None] for the result -1. *)
Fixpoint waitall_loop (fuel : nat) (fd n : Z) (acc : list Z) : M D (option (list Z)) :=
  if n <=? len acc then mret (Some acc)
  else match fuel with
       | O => hang
       | S f =>
           r ← sys (sys_recv false fd (n - len acc));
           match r with
           | Got bs => waitall_loop f fd n (acc ++ bs)
           | Closed => mret (Some acc)
           | Failed _ => mret (match acc with [] => None | _ => Some acc end)
           | Waiting => hang
           end
       end.

Definition recv_waitall (fd n : Z) : M D (option (list Z)) :=
  fun d w => waitall_loop (S (rx_len w fd)) fd n [] d w.

(** [while (off < len) { n = send(fd, buf + off, len - off, ...); ... }]; [zero_fails]:
    the loop gives up when [send] accepts nothing. The result is whether everything
    was accepted. *)
Fixpoint send_loop (retry : errno -> bool) (zero_fails : bool) (fuel : nat) (fd : Z) (bs : list Z)
  : M D bool :=
  match bs with
  | [] => mret true
  | _ => match fuel with
         | O => hang
         | S f =>
             r ← sys (sys_send fd bs);
             match r with
             | inl n => if (n =? 0) && zero_fails then mret false
                        else send_loop retry zero_fails f fd (zdrop n bs)
             | inr e => if retry e then send_loop retry zero_fails f fd bs else mret false
             end
         end
  end.

Definition send_all (retry : errno -> bool) (zero_fails : bool) (fd : Z) (bs : list Z) : M D bool :=
  fun d w => send_loop retry zero_fails (S (tx_len w fd)) fd bs d w.

(** [while (recv(fd, drain_buf, 1024, MSG_DONTWAIT) > 0)]. *)
Fixpoint drain_loop (fuel : nat) (fd : Z) : M D unit :=
  match fuel with
  | O => hang
  | S f => r ← sys (sys_recv true fd 1024);
           match r with Got _ => drain_loop f fd | _ => mret tt end
  end.

End transfer.

(** The bytes and events queued on a descriptor bound the drain. *)
Definition rx_size (evs : list rx_ev) : nat :=
  foldr (fun e n => n + match e with RxData _ bs => S (length bs) | _ => 1 end)%nat 0%nat evs.

Definition socket_drain {D} (fd : Z) : M D unit := fun d w =>
  if fd <? 0 then Ret tt d w
  else drain_loop (S (match socks w !! fd with Some s => rx_size (rx s) | None => 0%nat end)) fd d w.

(** EWOULDBLOCK is EAGAIN on Linux. *)
Definition retry_all (e : errno) : bool :=
  match e with EINTR | EAGAIN => true | EOTHER => false end.
Definition retry_intr (e : errno) : bool :=
  match e with EINTR => true | _ => false end.
Definition retry_none (e : errno) : bool := false.
