(* ===== verification/NetFacts.v ===== *)
(** Lemmas on [Net]: running the monad, and what the transfer loops do to a
    socket whatever the segmentation of the byte stream and the interruptions. *)
From S2P Require Export Net.

(** * Running the monad *)

Lemma bind_ret {D A B} (m : M D A) (k : A -> M D B) d w a d' w' :
  m d w = Ret a d' w' -> (m ≫= k) d w = k a d' w'.
Proof. unfold mbind, M_bind. by intros ->. Qed.
Lemma bind_get {D B} (k : D -> M D B) d w : (get ≫= k) d w = k d d w.
Proof. done. Qed.
Lemma bind_put {D B} x (k : unit -> M D B) d w : (put x ≫= k) d w = k tt x w.
Proof. done. Qed.
Lemma bind_modify {D B} f (k : unit -> M D B) d w : (modify f ≫= k) d w = k tt (f d) w.
Proof. done. Qed.
Lemma bind_mret {D A B} (a : A) (k : A -> M D B) d w : (mret a ≫= k) d w = k a d w.
Proof. done. Qed.
Lemma bind_read {D A B} (o : option A) a (k : A -> M D B) d w :
  o = Some a -> (of_read o ≫= k) d w = k a d w.
Proof. by intros ->. Qed.
Lemma bind_buffer {D B} cap bs (k : unit -> M D B) d w :
  len bs <= cap -> (in_buffer cap bs ≫= k) d w = k tt d w.
Proof. intros H. unfold in_buffer. destruct (len bs <=? cap) eqn:E; [done|lia]. Qed.
Lemma bind_overflow {D B} cap bs (k : unit -> M D B) d w :
  cap < len bs -> (in_buffer cap bs ≫= k) d w = Undef.
Proof. intros H. unfold in_buffer. destruct (len bs <=? cap) eqn:E; [lia|done]. Qed.
Lemma bind_assoc {D A B C} (m : M D A) (k : A -> M D B) (h : B -> M D C) d w :
  ((m ≫= k) ≫= h) d w = (m ≫= (fun a => k a ≫= h)) d w.
Proof. unfold mbind, M_bind. by destruct (m d w). Qed.

(** An operation that returns was first one that returns. *)
Lemma bind_inv {D A B} (m : M D A) (k : A -> M D B) b d w d' w' :
  (m ≫= k) d w = Ret b d' w' -> exists a d1 w1, m d w = Ret a d1 w1 /\ k a d1 w1 = Ret b d' w'.
Proof. unfold mbind, M_bind. destruct (m d w) as [a d1 w1| |]; [eauto|done..]. Qed.

Lemma bind_undef {D A B} (m : M D A) (k : A -> M D B) d w : m d w = Undef -> (m ≫= k) d w = Undef.
Proof. unfold mbind, M_bind. by intros ->. Qed.

Lemma malloc_free {D} (d : D) w : w_malloc w = [] -> malloc d w = Ret true d w.
Proof. intros H. unfold malloc, sys, sys_malloc. by rewrite H. Qed.

(** Run the next action: a read or call whose result is known. *)
Ltac run H := first
  [ rewrite (bind_read _ _ _ _ _ H) | rewrite (bind_ret _ _ _ _ _ _ _ H) ]; cbv beta iota.

(** Safety and postconditions of the executions that return. *)
Definition wp {D A} (m : M D A) (Q : A -> D -> world -> Prop) (d : D) (w : world) : Prop :=
  match m d w with Ret a d' w' => Q a d' w' | Hang => True | Undef => True end.

Lemma wp_bind {D A B} (m : M D A) (k : A -> M D B) Q d w :
  wp m (fun a => wp (k a) Q) d w -> wp (m ≫= k) Q d w.
Proof. unfold wp, mbind, M_bind. by destruct (m d w). Qed.
Lemma wp_ret {D A} (a : A) (Q : A -> D -> world -> Prop) d w : Q a d w -> wp (mret a) Q d w.
Proof. done. Qed.
Lemma wp_mono {D A} (m : M D A) (P Q : A -> D -> world -> Prop) d w :
  wp m P d w -> (forall a d' w', P a d' w' -> Q a d' w') -> wp m Q d w.
Proof. unfold wp. destruct (m d w); auto. Qed.
Lemma wp_get {D} (Q : D -> D -> world -> Prop) d w : Q d d w -> wp get Q d w.
Proof. done. Qed.
Lemma wp_put {D} (x : D) (Q : unit -> D -> world -> Prop) d w : Q tt x w -> wp (put x) Q d w.
Proof. done. Qed.
Lemma wp_modify {D} (f : D -> D) (Q : unit -> D -> world -> Prop) d w :
  Q tt (f d) w -> wp (modify f) Q d w.
Proof. done. Qed.
Lemma wp_sys {D A} (f : world -> A * world) (Q : A -> D -> world -> Prop) d w :
  (forall a w', f w = (a, w') -> Q a d w') -> wp (sys f) Q d w.
Proof. unfold wp, sys. destruct (f w). auto. Qed.
Lemma wp_sys_ {D} (f : world -> world) (Q : unit -> D -> world -> Prop) d w :
  Q tt d (f w) -> wp (sys_ f) Q d w.
Proof. done. Qed.
Lemma wp_undef {D A} (Q : A -> D -> world -> Prop) d w : wp undef Q d w.
Proof. done. Qed.
Lemma wp_hang {D A} (Q : A -> D -> world -> Prop) d w : wp hang Q d w.
Proof. done. Qed.
Lemma wp_of_read {D A} (o : option A) (Q : A -> D -> world -> Prop) d w :
  (forall a, o = Some a -> Q a d w) -> wp (of_read o) Q d w.
Proof. destruct o; [intros H; by apply H|done]. Qed.
Lemma wp_in_buffer {D} cap bs (Q : unit -> D -> world -> Prop) d w :
  (len bs <= cap -> Q tt d w) -> wp (in_buffer cap bs) Q d w.
Proof. unfold in_buffer. destruct (len bs <=? cap) eqn:E; [intros H; apply H; lia|done]. Qed.

(** An operation on the world alone keeps the driver's state. *)
Definition keeps {D A} (m : M D A) : Prop := forall d w, wp m (fun _ d' _ => d' = d) d w.

Lemma keeps_bind {D A B} (m : M D A) (k : A -> M D B) :
  keeps m -> (forall a, keeps (k a)) -> keeps (m ≫= k).
Proof.
  intros Hm Hk d w. apply wp_bind. eapply wp_mono; [apply Hm|]. intros a d' w' ->. apply Hk.
Qed.
Lemma keeps_ret {D A} (a : A) : keeps (mret a : M D A). Proof. done. Qed.
Lemma keeps_sys {D A} (f : world -> A * world) : keeps (sys f : M D A).
Proof. intros d w. by apply wp_sys. Qed.
Lemma keeps_sys_ {D} (f : world -> world) : keeps (sys_ f : M D unit). Proof. done. Qed.
Lemma keeps_get {D} : keeps (get : M D D). Proof. done. Qed.
Lemma keeps_undef {D A} : keeps (undef : M D A). Proof. done. Qed.
Lemma keeps_hang {D A} : keeps (hang : M D A). Proof. done. Qed.
Lemma keeps_of_read {D A} (o : option A) : keeps (of_read o : M D A).
Proof. by destruct o. Qed.
Lemma keeps_in_buffer {D} cap bs : keeps (in_buffer cap bs : M D unit).
Proof. unfold in_buffer. by destruct (_ <=? _). Qed.
Lemma keeps_time {D} : keeps (time_ : M D Z).
Proof. apply keeps_sys. Qed.
Lemma keeps_malloc {D} : keeps (malloc : M D bool).
Proof. apply keeps_sys. Qed.

Create HintDb keeps.
#[export] Hint Resolve keeps_time keeps_malloc keeps_bind keeps_ret keeps_sys keeps_sys_ keeps_get keeps_undef keeps_hang
  keeps_of_read keeps_in_buffer : keeps.
#[export] Hint Extern 1 (keeps (if ?b then _ else _)) => destruct b : keeps.
#[export] Hint Extern 1 (keeps (match ?b with _ => _ end)) => destruct b : keeps.

Lemma keeps_recv_loop {D} retry f fd n : forall acc, keeps (recv_loop (D := D) retry f fd n acc).
Proof.
  induction f as [|f IH]; intros acc; cbn [recv_loop]; destruct (_ <=? _); auto with keeps.
Qed.
Lemma keeps_recv_all {D} retry fd n : keeps (recv_all (D := D) retry fd n).
Proof. intros d w. apply keeps_recv_loop. Qed.
Lemma keeps_send_loop {D} retry z f fd : forall bs, keeps (send_loop (D := D) retry z f fd bs).
Proof.
  induction f as [|f IH]; intros [|b bs]; cbn [send_loop]; auto with keeps.
Qed.
Lemma keeps_send_all {D} retry z fd bs : keeps (send_all (D := D) retry z fd bs).
Proof. intros d w. apply keeps_send_loop. Qed.
Lemma keeps_drain_loop {D} f fd : keeps (drain_loop (D := D) f fd).
Proof.
  induction f as [|f IH]; cbn [drain_loop]; auto with keeps.
Qed.
Lemma keeps_drain {D} fd : keeps (socket_drain (D := D) fd).
Proof.
  intros d w. unfold wp, socket_drain. destruct (_ <? 0); [done|]. apply keeps_drain_loop.
Qed.
#[export] Hint Resolve keeps_recv_all keeps_send_all keeps_drain : keeps.

(** * Byte streams

    [stream retry evs bs evs']: reading [evs] and retrying after the errors of
    [retry] yields the bytes [bs], however they are cut into chunks, and leaves [evs']. *)
Inductive stream (retry : errno -> bool) : list rx_ev -> list Z -> list rx_ev -> Prop :=
| stream_nil evs : stream retry evs [] evs
| stream_data b bs evs bs' evs' :
    stream retry evs bs' evs' -> stream retry (RxData b bs :: evs) ((b :: bs) ++ bs') evs'
| stream_split b bs b' bs' evs :
    stream retry (RxData b (bs ++ b' :: bs') :: evs) (b :: bs) (RxData b' bs' :: evs)
| stream_retry e evs bs evs' :
    retry e = true -> bs <> [] -> stream retry evs bs evs' -> stream retry (RxErr e :: evs) bs evs'.

Definition with_sock (w : world) (fd : Z) (s : sock) : world := set_socks w (<[fd := s]> (socks w)).

Lemma with_sock_lookup w fd s : socks (with_sock w fd s) !! fd = Some s.
Proof. cbn. apply lookup_insert_eq. Qed.
Lemma with_sock_twice w fd s s' : with_sock (with_sock w fd s) fd s' = with_sock w fd s'.
Proof. unfold with_sock, set_socks. cbn. by rewrite insert_insert_eq. Qed.
Lemma with_sock_id w fd s : socks w !! fd = Some s -> with_sock w fd s = w.
Proof. intros H. unfold with_sock, set_socks. rewrite insert_id by done. by destruct w. Qed.

Definition set_rx (s : sock) (evs : list rx_ev) : sock := Sock evs (tx s) (wire s).

Lemma sys_recv_eq {D} (d : D) w fd s n : socks w !! fd = Some s ->
  (sys (sys_recv false fd n) : M D _) d w =
  Ret (recv_rx false n (rx s)).1 d (with_sock w fd (set_rx s (recv_rx false n (rx s)).2)).
Proof. intros H. unfold sys, sys_recv. rewrite H. by destruct (recv_rx _ _ _). Qed.

Lemma recv_loop_ok {D} retry evs bs evs' : stream retry evs bs evs' ->
  forall f fd n acc (d : D) w s, socks w !! fd = Some s -> rx s = evs ->
  len acc + len bs = n -> (length evs < f)%nat ->
  recv_loop retry f fd n acc d w = Ret (Some (acc ++ bs)) d (with_sock w fd (set_rx s evs')).
Proof.
  induction 1 as [evs|b bs evs bs' evs' H IH|b bs b' bs' evs|e evs bs evs' Hr Hne H IH];
    intros f fd n acc d w s Hw Hrx Hn Hf; (destruct f as [|f]; [lia|]); cbn [recv_loop].
  - lens. destruct (n <=? len acc) eqn:E; [|lia]. rewrite app_nil_r. unfold set_rx. subst.
    destruct s; cbn. by rewrite with_sock_id.
  - pose proof (len_nonneg bs). pose proof (len_nonneg bs'). lens.
    destruct (n <=? len acc) eqn:E; [lia|].
    rewrite (bind_ret _ _ _ _ _ _ _ (sys_recv_eq d w fd s _ Hw)). rewrite Hrx. cbn [recv_rx fst snd].
    rewrite ztake_all by (lens; lia).
    assert (zdrop (n - len acc) (b :: bs) = []) as ->.
    { apply len_zero. rewrite len_drop by lia. lens. lia. }
    rewrite (IH f fd n (acc ++ b :: bs) d _ (set_rx s evs)); [|apply with_sock_lookup|done|lens; lia|cbn in Hf; lia].
    rewrite with_sock_twice. rewrite <- app_assoc. done.
  - pose proof (len_nonneg bs). lens. destruct (n <=? len acc) eqn:E; [lia|].
    rewrite (bind_ret _ _ _ _ _ _ _ (sys_recv_eq d w fd s _ Hw)). rewrite Hrx. cbn [recv_rx fst snd].
    replace (n - len acc) with (len (b :: bs)) by (lens; lia).
    change (b :: bs ++ b' :: bs') with ((b :: bs) ++ b' :: bs').
    rewrite ztake_app_len, zdrop_app_len.
    clear E. destruct f; cbn [recv_loop]; lens;
      (destruct (n <=? len acc + (1 + len bs)) eqn:E2; [done|lia]).
  - assert (0 < len bs) by (destruct bs; [done|lens; pose proof (len_nonneg bs); lia]).
    destruct (n <=? len acc) eqn:E; [lia|].
    rewrite (bind_ret _ _ _ _ _ _ _ (sys_recv_eq d w fd s _ Hw)). rewrite Hrx. cbn [recv_rx fst snd].
    rewrite Hr. rewrite (IH f fd n acc d _ (set_rx s evs)); [|apply with_sock_lookup|done|lia|cbn in Hf; lia].
    by rewrite with_sock_twice.
Qed.

(** Any segmentation, any interruptions: the loop returns the stream's first bytes. *)
Lemma recv_all_ok {D} retry fd n (d : D) w s bs evs' :
  socks w !! fd = Some s -> stream retry (rx s) bs evs' -> len bs = n ->
  recv_all retry fd n d w = Ret (Some bs) d (with_sock w fd (set_rx s evs')).
Proof.
  intros Hw Hs Hn. unfold recv_all, rx_len. rewrite Hw.
  by rewrite (recv_loop_ok retry _ _ _ Hs _ fd n [] d w s) by (done || lia).
Qed.

(** A stream can be read in two goes. *)
Lemma stream_app_inv retry evs bs evs' : stream retry evs bs evs' ->
  forall xs ys, bs = xs ++ ys -> exists mid, stream retry evs xs mid /\ stream retry mid ys evs'.
Proof.
  assert (forall evs' xs ys b bs b' bs', b :: bs = xs ++ ys -> exists mid,
    stream retry (RxData b (bs ++ b' :: bs') :: evs') xs mid /\
    stream retry mid ys (RxData b' bs' :: evs')) as Hcut.
  { intros evs0 [|x xs] ys b bs0 b' bs' E; simplify_eq/=.
    - eexists. split; [apply stream_nil|]. apply stream_split.
    - destruct ys as [|y ys].
      + rewrite app_nil_r. eexists. split; [apply stream_split|apply stream_nil].
      + rewrite <- app_assoc. cbn. eexists. split; apply stream_split. }
  induction 1 as [evs|b bs evs bs' evs' H IH|b bs b' bs' evs|e evs bs evs' Hr Hne H IH]; intros xs ys E.
  - symmetry in E. apply app_eq_nil in E as [-> ->]. exists evs. split; constructor.
  - apply app_eq_inv in E as [(k & E1 & E2)|(k & E1 & E2)].
    + destruct k as [|k0 k].
      * rewrite app_nil_r in E1. subst xs. cbn in E2. subst bs'. exists evs. split; [|done].
        rewrite <- (app_nil_r (b :: bs)). apply stream_data. constructor.
      * destruct xs as [|x xs]; cbn in E1; simplify_eq.
        -- eexists. split; [apply stream_nil|]. cbn in *. 
           by apply (stream_data retry k0 k).
        -- exists (RxData k0 k :: evs). split; [apply stream_split|].
           by apply (stream_data retry k0 k).
    + subst xs. destruct (IH k ys E2) as (mid & ? & ?). exists mid. split; [by apply stream_data|done].
  - by apply Hcut.
  - destruct xs as [|x xs].
    + cbn in E. subst. exists (RxErr e :: evs). split; constructor; done.
    + destruct (IH _ _ E) as (mid & ? & ?). exists mid. split; [|done].
      by constructor.
Qed.

Lemma ztake_full {A} m (l : list A) x l' : 0 <= m -> zdrop m l = x :: l' -> len (ztake m l) = m.
Proof.
  intros Hm Hd. assert (len (zdrop m l) = 1 + len l') as Hz by (rewrite Hd; by lens).
  rewrite len_drop in Hz by lia. rewrite len_take by lia. pose proof (len_nonneg l'). lia.
Qed.

(** What the loop returns is the stream's beginning; it never reads out of bounds. *)
Lemma recv_loop_sound {D} retry fd n : forall f acc (d : D) w s, socks w !! fd = Some s ->
  len acc <= n ->
  match recv_loop retry f fd n acc d w with
  | Ret r d' w' => d' = d /\ exists evs', w' = with_sock w fd (set_rx s evs') /\
      match r with
      | Some bs => len bs = n /\ exists bs', bs = acc ++ bs' /\ stream retry (rx s) bs' evs'
      | None => True
      end
  | Hang => (length (rx s) < f)%nat ->
      Forall (fun e => match e with RxData _ _ => True | RxErr e => retry e = true | RxEof => False end)
             (rx s)
  | Undef => False
  end.
Proof.
  intros f. induction f as [|f IH]; intros acc d w s Hw Hacc.
  { cbn [recv_loop]. destruct (n <=? len acc) eqn:E; cbn; [|intros; lia].
    split; [done|]. exists (rx s). split; [by destruct s; rewrite with_sock_id|].
    split; [lia|]. exists []. rewrite app_nil_r. split; constructor. }
  cbn [recv_loop]. destruct (n <=? len acc) eqn:E.
  { cbn. split; [done|]. exists (rx s). split; [by destruct s; rewrite with_sock_id|].
    split; [lia|]. exists []. rewrite app_nil_r. split; constructor. }
  rewrite (bind_ret _ _ _ _ _ _ _ (sys_recv_eq d w fd s _ Hw)).
  destruct (rx s) as [|[b bs|e|] evs] eqn:Hrx; cbn [recv_rx fst snd].
  - cbn. intros. constructor.
  - remember (n - len acc) as m eqn:Em. specialize (IH (acc ++ ztake m (b :: bs)) d).
    destruct (zdrop m (b :: bs)) as [|b' bs'] eqn:Hd.
    + pose proof (ztake_zdrop m (b :: bs)) as Ht. rewrite Hd, app_nil_r in Ht.
      specialize (IH _ (set_rx s evs) (with_sock_lookup w fd (set_rx s evs))).
      assert (len (acc ++ ztake m (b :: bs)) <= n) as Hle.
      { lens. rewrite len_take. lia. }
      specialize (IH Hle). revert IH. rewrite Ht.
      destruct (recv_loop _ f _ _ _ _ _) as [r d' w'| |]; [|intros IH Hf; constructor; [done|apply IH; cbn in *; lia]|done].
      intros (-> & evs' & -> & Hr). split; [done|]. exists evs'. rewrite with_sock_twice. split; [done|].
      destruct r as [r|]; [|done]. destruct Hr as (Hlen & bs2 & -> & Hs). split; [done|].
      exists ((b :: bs) ++ bs2). rewrite app_assoc. split; [done|]. by apply stream_data.
    + pose proof (ztake_zdrop m (b :: bs)) as Ht. rewrite Hd in Ht.
      pose proof (ztake_full m _ _ _ ltac:(lia) Hd) as Hm.
      assert ((n <=? len (acc ++ ztake m (b :: bs))) = true) as Hdone by (lens; rewrite Hm; lia).
      destruct f; cbn [recv_loop]; rewrite Hdone; cbn;
      (split; [done|]; exists (RxData b' bs' :: evs); split; [done|]; split; [lens; lia|];
       exists (ztake m (b :: bs)); split; [done|];
       destruct (ztake m (b :: bs)) as [|t0 ts] eqn:Hz; [unfold len in Hm; cbn in Hm; lia|];
       cbn in Ht; simplify_eq; apply stream_split).
  - destruct (retry e) eqn:Hr.
    + specialize (IH acc d _ (set_rx s evs) (with_sock_lookup w fd (set_rx s evs)) Hacc).
      destruct (recv_loop _ f _ _ _ _ _) as [r d' w'| |]; [|intros Hf; constructor; [done|apply IH; cbn in *; lia]|done].
      destruct IH as (-> & evs' & -> & HR). split; [done|]. exists evs'. rewrite with_sock_twice. split; [done|].
      destruct r as [r|]; [|done]. destruct HR as (Hlen & bs2 & -> & Hs). split; [done|].
      exists bs2. split; [done|]. apply stream_retry; [done| |done].
      intros ->. lens. lia.
    + cbn. split; [done|]. exists evs. done.
  - cbn. split; [done|]. exists (RxEof :: evs). done.
Qed.

Lemma recv_all_sound {D} retry fd n (d : D) w s : socks w !! fd = Some s -> 0 <= n ->
  match recv_all retry fd n d w with
  | Ret r d' w' => d' = d /\ exists evs', w' = with_sock w fd (set_rx s evs') /\
      match r with
      | Some bs => len bs = n /\ stream retry (rx s) bs evs'
      | None => True
      end
  | Hang =>
      Forall (fun e => match e with RxData _ _ => True | RxErr e => retry e = true | RxEof => False end)
             (rx s)
  | Undef => False
  end.
Proof.
  intros Hw Hn. unfold recv_all, rx_len. rewrite Hw.
  pose proof (recv_loop_sound retry fd n (S (length (rx s))) [] d w s Hw ltac:(lens; lia)) as H.
  destruct (recv_loop _ _ _ _ _ _ _) as [r d' w'| |]; [|apply H; lia|done].
  destruct H as (-> & evs' & -> & H). split; [done|]. exists evs'. split; [done|].
  destruct r; [|done]. destruct H as (? & ? & -> & ?). done.
Qed.

(** A waiting [recv] that is not interrupted returns the stream's first bytes. *)
Lemma waitall_loop_ok {D} evs bs evs' : stream retry_none evs bs evs' ->
  forall f fd n acc (d : D) w s, socks w !! fd = Some s -> rx s = evs ->
  len acc + len bs = n -> (length evs < f)%nat ->
  waitall_loop f fd n acc d w = Ret (Some (acc ++ bs)) d (with_sock w fd (set_rx s evs')).
Proof.
  intros Hs f fd n acc d w s Hw Hrx Hn Hf. pose proof (recv_loop_ok _ _ _ _ Hs f fd n acc d w s Hw Hrx Hn Hf) as Hr.
  assert (forall f acc w x d' w', recv_loop retry_none f fd n acc d w = Ret (Some x) d' w' ->
    waitall_loop f fd n acc d w = Ret (Some x) d' w') as Hsame; [|by apply Hsame].
  clear. intros f. induction f as [|f IH]; intros acc w x d' w'; cbn [recv_loop waitall_loop];
    destruct (n <=? len acc); try done.
  unfold mbind, M_bind, sys. destruct (sys_recv _ _ _ _) as [[bs| |e|] w1]; [apply IH|done..].
Qed.

Lemma recv_waitall_ok {D} fd n (d : D) w s bs evs' :
  socks w !! fd = Some s -> stream retry_none (rx s) bs evs' -> len bs = n ->
  recv_waitall fd n d w = Ret (Some bs) d (with_sock w fd (set_rx s evs')).
Proof.
  intros Hw Hs Hn. unfold recv_waitall, rx_len. rewrite Hw.
  by rewrite (waitall_loop_ok _ _ _ Hs _ fd n [] d w s) by (done || lia).
Qed.

Lemma keeps_waitall_loop {D} f fd n : forall acc, keeps (waitall_loop (D := D) f fd n acc).
Proof.
  induction f as [|f IH]; intros acc; cbn [waitall_loop]; destruct (_ <=? _); auto with keeps.
Qed.
Lemma keeps_waitall {D} fd n : keeps (recv_waitall (D := D) fd n).
Proof. intros d w. apply keeps_waitall_loop. Qed.
#[export] Hint Resolve keeps_waitall : keeps.

(** A descriptor that is not open: [recv] fails. *)
Lemma recv_all_closed {D} retry fd n (d : D) w : socks w !! fd = None -> retry EOTHER = false ->
  0 < n -> recv_all retry fd n d w = Ret None d w.
Proof.
  intros Hw Hr Hn. unfold recv_all, rx_len. rewrite Hw. cbn [recv_loop]. lens.
  destruct (n <=? 0) eqn:E; [lia|]. unfold mbind, M_bind, sys, sys_recv. rewrite Hw. by rewrite Hr.
Qed.

(** * Sending *)

Definition sent (s : sock) (evs : list tx_ev) (bs : list Z) : sock := Sock (rx s) evs (wire s ++ bs).

Lemma sys_send_eq {D} (d : D) w fd s bs : socks w !! fd = Some s ->
  (sys (sys_send fd bs) : M D _) d w = Ret (send_tx bs s).1 d (with_sock w fd (send_tx bs s).2).
Proof. intros H. unfold sys, sys_send. rewrite H. by destruct (send_tx _ _). Qed.

Lemma zdrop_len {A} (l : list A) : zdrop (len l) l = [].
Proof. apply len_zero. rewrite len_drop by lensia. lia. Qed.
Lemma zdrop_len_take {A} n (l : list A) : zdrop (len (take n l)) l = drop n l.
Proof.
  unfold zdrop, len. rewrite Nat2Z.id, length_take.
  destruct (decide (n <= length l)%nat).
  - by rewrite Nat.min_l by done.
  - rewrite Nat.min_r by lia. by rewrite !drop_ge by lia.
Qed.

(** The loop always returns; what reaches the wire is a prefix of the buffer, and the
    result says whether it is all of it. *)
Lemma send_loop_total {D} retry z fd : forall f bs (d : D) w s, socks w !! fd = Some s ->
  (length (tx s) < f)%nat ->
  exists done_ rest evs', bs = done_ ++ rest /\
    send_loop retry z f fd bs d w =
      Ret (bool_decide (rest = [])) d (with_sock w fd (sent s evs' done_)).
Proof.
  intros f. induction f as [|f IH]; intros bs d w s Hw Hf; [lia|].
  destruct bs as [|b bs].
  { exists [], [], (tx s). split; [done|]. cbn. unfold sent. rewrite app_nil_r.
    destruct s; cbn. by rewrite with_sock_id. }
  cbn [send_loop]. rewrite (bind_ret _ _ _ _ _ _ _ (sys_send_eq d w fd s _ Hw)).
  unfold send_tx. destruct (tx s) as [|[n|e] evs] eqn:Htx; cbn [fst snd].
  - exists (b :: bs), [], []. split; [by rewrite app_nil_r|].
    destruct (len (b :: bs) =? 0) eqn:E; [lensia|]. cbn [andb].
    rewrite zdrop_len. by destruct f.
  - destruct ((len (take n (b :: bs)) =? 0) && z) eqn:E.
    + exists [], (b :: bs), evs. split; [done|].
      assert (take n (b :: bs) = []) as -> by (apply len_zero; lia). done.
    + rewrite zdrop_len_take.
      destruct (IH (drop n (b :: bs)) d _ _
        (with_sock_lookup w fd (Sock (rx s) evs (wire s ++ take n (b :: bs)))))
        as (dn & rest & evs' & E1 & E2); [cbn in *; lia|].
      exists (take n (b :: bs) ++ dn), rest, evs'. split; [by rewrite <- app_assoc, <- E1, take_drop|].
      rewrite E2, with_sock_twice. unfold sent. cbn. by rewrite app_assoc.
  - destruct (retry e).
    + destruct (IH (b :: bs) d _ _ (with_sock_lookup w fd (Sock (rx s) evs (wire s))))
        as (dn & rest & evs' & E1 & E2); [cbn in *; lia|].
      exists dn, rest, evs'. split; [done|]. by rewrite E2, with_sock_twice.
    + exists [], (b :: bs), evs. split; [done|]. unfold sent. by rewrite app_nil_r.
Qed.

Lemma send_all_total {D} retry z fd bs (d : D) w s : socks w !! fd = Some s ->
  exists done_ rest evs', bs = done_ ++ rest /\
    send_all retry z fd bs d w =
      Ret (bool_decide (rest = [])) d (with_sock w fd (sent s evs' done_)).
Proof.
  intros Hw. unfold send_all, tx_len. rewrite Hw. apply send_loop_total; [done|lia].
Qed.

Lemma send_all_closed {D} retry z fd bs (d : D) w : socks w !! fd = None -> retry EOTHER = false ->
  bs <> [] -> send_all retry z fd bs d w = Ret false d w.
Proof.
  intros Hw Hr Hbs. unfold send_all, tx_len. rewrite Hw. destruct bs; [done|]. cbn [send_loop].
  unfold mbind, M_bind, sys, sys_send. rewrite Hw. by rewrite Hr.
Qed.

(** On a socket that accepts everything the whole buffer is sent in one call. *)
Lemma send_all_ok {D} retry z fd bs (d : D) w s : socks w !! fd = Some s -> tx s = [] ->
  send_all retry z fd bs d w = Ret true d (with_sock w fd (sent s [] bs)).
Proof.
  intros Hw Htx. unfold send_all, tx_len. rewrite Hw.
  destruct bs as [|b bs].
  { cbn. unfold sent. rewrite app_nil_r. destruct s; cbn in *. subst. by rewrite with_sock_id. }
  cbn [send_loop]. rewrite (bind_ret _ _ _ _ _ _ _ (sys_send_eq d w fd s _ Hw)).
  unfold send_tx. rewrite Htx. cbn [fst snd length].
  destruct (len (b :: bs) =? 0) eqn:E; [lensia|]. cbn [andb].
  by rewrite zdrop_len.
Qed.

(** * Draining *)

(** Arrived data goes, and so does the one error that ends the loop. *)
Fixpoint drained (evs : list rx_ev) : list rx_ev :=
  match evs with
  | RxData _ _ :: r => drained r
  | RxErr _ :: r => r
  | _ => evs
  end.

Lemma drain_loop_ok {D} fd : forall f (d : D) w s, socks w !! fd = Some s ->
  (rx_size (rx s) < f)%nat ->
  drain_loop f fd d w = Ret tt d (with_sock w fd (set_rx s (drained (rx s)))).
Proof.
  intros f. induction f as [|f IH]; intros d w s Hw Hf; [lia|]. cbn [drain_loop].
  unfold mbind, M_bind, sys, sys_recv. rewrite Hw.
  change (set_socks w (<[fd := ?x]> (socks w))) with (with_sock w fd x).
  destruct (rx s) as [|[b bs|e|] evs] eqn:Hrx; cbn [recv_rx drained]; try done.
  change (rx_size (RxData b bs :: evs)) with (rx_size evs + S (length bs))%nat in Hf.
  change (set_socks w (<[fd := ?x]> (socks w))) with (with_sock w fd x).
  destruct (zdrop 1024 (b :: bs)) as [|b' bs'] eqn:Hd.
  - erewrite IH; [|apply with_sock_lookup|cbn [rx]; lia]. by rewrite with_sock_twice.
  - erewrite IH; [|apply with_sock_lookup|].
    + by rewrite with_sock_twice.
    + cbn [rx]. change (rx_size (RxData b' bs' :: evs)) with (rx_size evs + S (length bs'))%nat.
      assert (length (zdrop 1024 (b :: bs)) = S (length bs')) as Hl by by rewrite Hd.
      unfold zdrop in Hl. rewrite length_drop in Hl. cbn [length] in Hl. lia.
Qed.

Lemma socket_drain_ok {D} fd (d : D) w s : socks w !! fd = Some s -> 0 <= fd ->
  socket_drain fd d w = Ret tt d (with_sock w fd (set_rx s (drained (rx s)))).
Proof.
  intros Hw Hfd. unfold socket_drain. destruct (fd <? 0) eqn:E; [lia|]. rewrite Hw.
  apply drain_loop_ok; [done|lia].
Qed.
