(* ===== verification/Threads.v ===== *)
(** Programs of several threads that share a state and mutexes: a thread is a tree of
    atomic steps (lock operations and operations on the shared state), run either alone or
    interleaved with others; and the discipline that makes a set of threads free of races
    and of deadlocks. *)
From S2P Require Export NetFacts.

#[local] Set Warnings "-register-all".

(** Which operations of a thread the discipline is about. *)
Inductive strictness := Touched | Written | Unchecked.

Section threads.
(** [L] names the mutexes, [D] is the shared data, [recursive] the kind of the mutexes:
    whether their owner can lock them again. *)
Context {L : Type} `{Countable L} {D : Type} (recursive : bool).

(** * Programs *)

(** [Atomic ls op k]: an operation on shared data that the mutexes [ls] guard. *)
Inductive prog (A : Type) : Type :=
| Done (a : A)
| Lock (l : L) (k : prog A)
| TryLock (l : L) (k : bool -> prog A)
| Unlock (l : L) (k : prog A)
| Atomic {X : Type} (ls : list L) (op : M D X) (k : X -> prog A).
#[global] Arguments Done {A} a.
#[global] Arguments Lock {A} l k.
#[global] Arguments TryLock {A} l k.
#[global] Arguments Unlock {A} l k.
#[global] Arguments Atomic {A X} ls op k.

Fixpoint pbind {A B} (p : prog A) (f : A -> prog B) : prog B :=
  match p with
  | Done a => f a
  | Lock l k => Lock l (pbind k f)
  | TryLock l k => TryLock l (fun b => pbind (k b) f)
  | Unlock l k => Unlock l (pbind k f)
  | Atomic ls op k => Atomic ls op (fun x => pbind (k x) f)
  end.

#[global] Instance prog_ret : MRet prog := @Done.
#[global] Instance prog_bind : MBind prog := fun A B f p => pbind p f.

Definition lock (l : L) : prog unit := Lock l (Done tt).
Definition trylock (l : L) : prog bool := TryLock l Done.
Definition unlock (l : L) : prog unit := Unlock l (Done tt).
Definition atomic {X} (ls : list L) (op : M D X) : prog X := Atomic ls op Done.

(** * Mutexes *)

(** The owner of each held mutex and how many times it has locked it. *)
#[local] Abbreviation mutexes := (gmap L (nat * nat)).

(** [me] takes [l]; [None]: it is held. *)
Definition take_mutex (me : nat) (l : L) (ms : mutexes) : option mutexes :=
  match ms !! l with
  | None => Some (<[l := (me, 1%nat)]> ms)
  | Some (o, n) => if recursive && bool_decide (o = me) then Some (<[l := (me, S n)]> ms) else None
  end.

(** The owner gives [l] back; for another thread it is an error without effect. *)
Definition drop_mutex (me : nat) (l : L) (ms : mutexes) : mutexes :=
  match ms !! l with
  | Some (o, S (S n)) => if bool_decide (o = me) then <[l := (o, S n)]> ms else ms
  | Some (o, _) => if bool_decide (o = me) then delete l ms else ms
  | None => ms
  end.

Record shared := Shared { data : D; held : mutexes }.

(** * One thread alone *)

(** A mutex that another thread holds is waited for for ever. *)
Fixpoint alone {A} (me : nat) (p : prog A) : M shared A :=
  match p with
  | Done a => mret a
  | Lock l k => fun s w =>
      match take_mutex me l (held s) with
      | Some ms => alone me k (Shared (data s) ms) w
      | None => Hang
      end
  | TryLock l k => fun s w =>
      match take_mutex me l (held s) with
      | Some ms => alone me (k true) (Shared (data s) ms) w
      | None => alone me (k false) s w
      end
  | Unlock l k => fun s w => alone me k (Shared (data s) (drop_mutex me l (held s))) w
  | Atomic _ op k => fun s w =>
      match op (data s) w with
      | Ret x d w' => alone me (k x) (Shared d (held s)) w'
      | Hang => Hang
      | Undef => Undef
      end
  end.

(** * Interleaving *)

(** The threads' remaining programs, the shared state and the world. *)
Record config (A : Type) := Config { threads : list (prog A); state : shared; net : world }.
#[global] Arguments Config {A} _ _ _.
#[global] Arguments threads {A} _.
#[global] Arguments state {A} _.
#[global] Arguments net {A} _.

(** The next atomic step of a thread; [None]: it has finished, or waits for a mutex or for
    the network, or has left its memory. *)
Definition advance {A} (me : nat) (p : prog A) (s : shared) (w : world) : option (prog A * shared * world) :=
  match p with
  | Done _ => None
  | Lock l k =>
      match take_mutex me l (held s) with
      | Some ms => Some (k, Shared (data s) ms, w)
      | None => None
      end
  | TryLock l k =>
      match take_mutex me l (held s) with
      | Some ms => Some (k true, Shared (data s) ms, w)
      | None => Some (k false, s, w)
      end
  | Unlock l k => Some (k, Shared (data s) (drop_mutex me l (held s)), w)
  | Atomic _ op k =>
      match op (data s) w with
      | Ret x d w' => Some (k x, Shared d (held s), w')
      | Hang => None
      | Undef => None
      end
  end.

Definition step_of {A} (i : nat) (c : config A) : option (config A) :=
  match threads c !! i with
  | Some p =>
      match advance i p (state c) (net c) with
      | Some (p', s', w') => Some (Config (<[i := p']> (threads c)) s' w')
      | None => None
      end
  | None => None
  end.

Inductive step {A} : config A -> config A -> Prop :=
| step_thread i c c' : step_of i c = Some c' -> step c c'.

(** A schedule: the threads that make the next steps. *)
Fixpoint run_schedule {A} (sched : list nat) (c : config A) : option (config A) :=
  match sched with
  | [] => Some c
  | i :: sched' => match step_of i c with Some c' => run_schedule sched' c' | None => None end
  end.

Definition finished {A} (p : prog A) : bool := match p with Done _ => true | _ => false end.

(** The thread waits for a mutex. *)
Definition waits_for {A} (me : nat) (p : prog A) (s : shared) : option L :=
  match p with
  | Lock l _ => match take_mutex me l (held s) with Some _ => None | None => Some l end
  | _ => None
  end.

(** The thread is inside an operation that does not return. *)
Definition in_operation {A} (p : prog A) : bool := match p with Atomic _ _ _ => true | _ => false end.

(** * Discipline

    [disciplined Q own p]: a thread that runs [p] holding the mutexes [own] (with
    repetitions) gives back only what it holds, and ends with [Q]; [grd] says which operations
    it does under the mutexes that guard what they touch (all of them; those that may write;
    or none in particular), and if [ord] it waits for mutexes in the order of [rank]. *)
Context (rank : L -> nat) (grd : strictness) (ord : bool).

Definition guards {X} (ls : list L) (op : M D X) (own : list L) : Prop :=
  match grd with Touched => ls ⊆ own | Written => ls ⊆ own \/ keeps op | Unchecked => True end.

Inductive disciplined {A} (Q : list L -> A -> Prop) : list L -> prog A -> Prop :=
| disc_done own a : Q own a -> disciplined Q own (Done a)
| disc_lock own l k :
    (ord = true -> forall l', l' ∈ own -> (rank l' < rank l)%nat) ->
    disciplined Q (l :: own) k -> disciplined Q own (Lock l k)
| disc_try own l k :
    disciplined Q (l :: own) (k true) -> disciplined Q own (k false) ->
    disciplined Q own (TryLock l k)
| disc_unlock own own' l k :
    own ≡ₚ l :: own' -> disciplined Q own' k -> disciplined Q own (Unlock l k)
| disc_atomic own X ls (op : M D X) k :
    guards ls op own -> (forall x, disciplined Q own (k x)) -> disciplined Q own (Atomic ls op k).

(** A whole thread gives every mutex back. *)
Definition well_behaved {A} (p : prog A) : Prop := disciplined (fun own _ => own = []) [] p.

End threads.

#[global] Arguments prog L D A : clear implicits.
#[global] Arguments shared L {_ _} D.
#[global] Arguments config L {_ _} D A.
