(* ===== verification/ThreadsFacts.v ===== *)
(** Disciplined threads: what the mutexes record, the absence of races, and progress. *)
From S2P Require Export Threads.

Section facts.
Context {L : Type} `{Countable L} {D : Type} (recursive : bool) (rank : L -> nat).

(** * Running a thread alone *)

Lemma alone_bind {A B} me (p : prog L D A) (f : A -> prog L D B) s w :
  alone recursive me (p ≫= f) s w = (alone recursive me p ≫= fun a => alone recursive me (f a)) s w.
Proof.
  unfold mbind at 1, prog_bind. unfold mbind, M_bind. revert s w.
  induction p as [a|l k IH|l k IH|l k IH|X ls op k IH]; intros s w; cbn [pbind alone].
  - done.
  - destruct (take_mutex _ _ _ _); [apply IH|done].
  - destruct (take_mutex _ _ _ _); apply IH.
  - apply IH.
  - destruct (op _ _); [apply IH|done..].
Qed.

(** The steps of a thread that runs alone. *)
Lemma alone_lock {A} me l (k : unit -> prog L D A) d h w : h !! l = None ->
  alone recursive me (lock l ≫= k) (Shared d h) w = alone recursive me (k tt) (Shared d (<[l := (me, 1%nat)]> h)) w.
Proof. intros Hl. cbn. unfold take_mutex. by rewrite Hl. Qed.
Lemma alone_trylock {A} me l (k : bool -> prog L D A) d h w :
  alone recursive me (trylock l ≫= k) (Shared d h) w =
    match take_mutex recursive me l h with
    | Some h' => alone recursive me (k true) (Shared d h') w
    | None => alone recursive me (k false) (Shared d h) w
    end.
Proof. done. Qed.
Lemma alone_unlock {A} me l (k : unit -> prog L D A) d h w : h !! l = Some (me, 1%nat) ->
  alone recursive me (unlock l ≫= k) (Shared d h) w = alone recursive me (k tt) (Shared d (delete l h)) w.
Proof. intros Hl. cbn. unfold drop_mutex. by rewrite Hl, bool_decide_eq_true_2. Qed.
Lemma alone_drop {A} me l (k : unit -> prog L D A) d h h' w : take_mutex recursive me l h = Some h' ->
  (forall o n, h !! l = Some (o, n) -> (0 < n)%nat) ->
  alone recursive me (unlock l ≫= k) (Shared d h') w = alone recursive me (k tt) (Shared d h) w.
Proof.
  intros Ht Hn. cbn. do 2 f_equal. unfold take_mutex in Ht. unfold drop_mutex. destruct (h !! l) as [[o n]|] eqn:E.
  - destruct (recursive && _) eqn:Er; [|done]. apply andb_true_iff in Er as [_ Eo%bool_decide_eq_true]. simplify_eq.
    rewrite lookup_insert_eq, bool_decide_eq_true_2 by done. destruct n as [|n]; [specialize (Hn _ _ eq_refl); lia|].
    by rewrite insert_insert_eq, insert_id.
  - simplify_eq. rewrite lookup_insert_eq, bool_decide_eq_true_2 by done. by rewrite delete_insert_id.
Qed.
Lemma take_mutex_other me (l l' : L) x h : l <> l' ->
  take_mutex recursive me l (<[l' := x]> h) = <[l' := x]> <$> take_mutex recursive me l h.
Proof.
  intros Hne. unfold take_mutex. rewrite lookup_insert_ne by done. destruct (h !! l) as [[o n]|].
  - destruct (_ && _); [|done]. cbn. by rewrite insert_insert_ne.
  - cbn. by rewrite insert_insert_ne.
Qed.
Lemma take_mutex_keeps me (l l' : L) h h' : l <> l' -> take_mutex recursive me l h = Some h' -> h' !! l' = h !! l'.
Proof.
  intros Hne Ht. unfold take_mutex in Ht. destruct (h !! l) as [[o n]|]; [destruct (_ && _)|]; simplify_eq;
    by rewrite lookup_insert_ne.
Qed.
Lemma alone_atomic {A X} me ls (op : M D X) (k : X -> prog L D A) d h w x d' w' : op d w = Ret x d' w' ->
  alone recursive me (atomic ls op ≫= k) (Shared d h) w = alone recursive me (k x) (Shared d' h) w'.
Proof. intros Ho. cbn. by rewrite Ho. Qed.

(** * Composing disciplined programs *)

Lemma disciplined_bind {A B} (grd : strictness) (ord : bool) (Q : list L -> A -> Prop) (Q' : list L -> B -> Prop)
    own (p : prog L D A) (f : A -> prog L D B) :
  disciplined rank grd ord Q own p -> (forall own' a, Q own' a -> disciplined rank grd ord Q' own' (f a)) ->
  disciplined rank grd ord Q' own (p ≫= f).
Proof.
  intros Hp Hf. change (p ≫= f) with (pbind p f). induction Hp; cbn [pbind].
  - by apply Hf.
  - by apply disc_lock.
  - by apply disc_try.
  - by eapply disc_unlock.
  - by apply disc_atomic.
Qed.

(** [grd] asks for at least what [grd'] asks for. *)
Definition stricter (grd grd' : strictness) : Prop :=
  forall X ls (op : M D X) own, guards (L := L) grd ls op own -> guards grd' ls op own.

Lemma unchecked_weakest grd : stricter grd Unchecked.
Proof. done. Qed.
Lemma stricter_refl grd : stricter grd grd.
Proof. by intros ????. Qed.
Lemma touched_strictest grd : stricter Touched grd.
Proof. intros X ls op own Hg. destruct grd; cbn in *; [done|by left|done]. Qed.

Lemma disciplined_weaken {A} (grd grd' : strictness) (ord ord' : bool) (Q : list L -> A -> Prop) own p :
  stricter grd grd' -> (ord' = true -> ord = true) ->
  disciplined rank grd ord Q own p -> disciplined rank grd' ord' Q own (p : prog L D A).
Proof.
  intros Hg Ho.
  induction 1; [by apply disc_done|apply disc_lock; auto|by apply disc_try|by eapply disc_unlock|apply disc_atomic; auto].
Qed.

Lemma disciplined_mono {A} grd ord (Q Q' : list L -> A -> Prop) own p :
  disciplined rank grd ord Q own p -> (forall own a, Q own a -> Q' own a) ->
  disciplined rank grd ord Q' own (p : prog L D A).
Proof.
  intros Hp HQ.
  induction Hp; [apply disc_done; auto|by apply disc_lock|by apply disc_try|by eapply disc_unlock|by apply disc_atomic].
Qed.

(** The steps of a program, one rule each. *)
Section rules.
Context {A B : Type} (grd : strictness) (ord : bool) (Q : list L -> B -> Prop) (own : list L).
#[local] Abbreviation D' := (disciplined rank grd ord Q).

Lemma d_ret a : Q own a -> D' own (mret a : prog L D B).
Proof. by constructor. Qed.
Lemma d_lock l (f : unit -> prog L D B) :
  (ord = true -> forall l', l' ∈ own -> (rank l' < rank l)%nat) -> D' (l :: own) (f tt) -> D' own (lock l ≫= f).
Proof. by constructor. Qed.
Lemma d_trylock l (f : bool -> prog L D B) :
  D' (l :: own) (f true) -> D' own (f false) -> D' own (trylock l ≫= f).
Proof. by constructor. Qed.
Lemma d_unlock own' l (f : unit -> prog L D B) : own ≡ₚ l :: own' -> D' own' (f tt) -> D' own (unlock l ≫= f).
Proof. by econstructor. Qed.
Lemma d_unlock_end own' l (Q' : list L -> unit -> Prop) : own ≡ₚ l :: own' -> Q' own' tt ->
  disciplined rank grd ord Q' own (unlock l : prog L D unit).
Proof. econstructor; [done|by constructor]. Qed.
Lemma d_atomic {X} ls (op : M D X) (f : X -> prog L D B) :
  ls ⊆ own -> (forall x, D' own (f x)) -> D' own (atomic ls op ≫= f).
Proof. intros Hl. apply disc_atomic. destruct grd; cbn; [done|by left|done]. Qed.
Lemma d_atomic_end {X} ls (op : M D X) (Q' : list L -> X -> Prop) :
  ls ⊆ own -> (forall x, Q' own x) -> disciplined rank grd ord Q' own (atomic ls op : prog L D X).
Proof. intros Hl. constructor; [destruct grd; cbn; [done|by left|done]|]. intros. by constructor. Qed.

(** What only looks needs no mutex if only writing is checked. *)
Lemma d_look {X} ls (op : M D X) (f : X -> prog L D B) :
  grd = Written -> keeps op -> (forall x, D' own (f x)) -> D' own (atomic ls op ≫= f).
Proof using. intros Hg Hk. apply disc_atomic. rewrite Hg. by right. Qed.
End rules.

(** * What the mutexes record *)

Definition times (l : L) (own : list L) : nat := length (filter (fun x => x = l) own).

Lemma times_cons l x own : times l (x :: own) = ((if decide (x = l) then 1 else 0) + times l own)%nat.
Proof. unfold times. rewrite filter_cons. by destruct (decide (x = l)). Qed.
Lemma times_elem l own : l ∈ own <-> (0 < times l own)%nat.
Proof.
  induction own as [|x own IH]; [split; [by intros ?%elem_of_nil|cbn; lia]|].
  rewrite elem_of_cons, IH, times_cons. destruct (decide (x = l)); split; intros; try lia; [by left|].
  destruct H0; [congruence|lia].
Qed.
Lemma times_perm l own own' : own ≡ₚ own' -> times l own = times l own'.
Proof. intros Hp. unfold times. by rewrite Hp. Qed.

(** The mutexes that thread [i] owns are those of its list, locked as often. *)
Definition recorded (ms : gmap L (nat * nat)) (owns : list (list L)) : Prop :=
  (forall i own l, owns !! i = Some own ->
     times l own = match ms !! l with Some (o, n) => if decide (o = i) then n else 0%nat | None => 0%nat end) /\
  (forall l o n, ms !! l = Some (o, n) -> (0 < n)%nat /\ is_Some (owns !! o)).

Lemma recorded_owner ms owns l o n : recorded ms owns -> ms !! l = Some (o, n) ->
  exists own, owns !! o = Some own /\ l ∈ own.
Proof.
  intros [Hr Hv] Hl. destruct (Hv _ _ _ Hl) as [Hn [own Ho]]. exists own. split; [done|].
  apply times_elem. rewrite (Hr _ _ _ Ho), Hl, decide_True by done. lia.
Qed.

Lemma recorded_unique ms owns l i j own own' : recorded ms owns -> owns !! i = Some own -> owns !! j = Some own' ->
  l ∈ own -> l ∈ own' -> i = j.
Proof.
  intros [Hr _] Hi Hj H1%times_elem H2%times_elem. rewrite (Hr _ _ _ Hi) in H1. rewrite (Hr _ _ _ Hj) in H2.
  destruct (ms !! l) as [[o n]|]; [|lia]. destruct (decide (o = i)), (decide (o = j)); (congruence || lia).
Qed.

Lemma recorded_take i l ms ms' owns own : recorded ms owns -> owns !! i = Some own ->
  take_mutex recursive i l ms = Some ms' -> recorded ms' (<[i := l :: own]> owns).
Proof.
  intros [Hr Hv] Hi Ht. assert (exists n, ms' = <[l := (i, S n)]> ms /\
    (match ms !! l with Some (o, m) => o = i /\ m = n | None => n = 0%nat end)) as (n & -> & Hn).
  { unfold take_mutex in Ht. destruct (ms !! l) as [[o m]|]; [|by exists 0%nat; simplify_eq].
    destruct recursive; [|done]. case_bool_decide; [|done]. simplify_eq/=. by exists m. }
  assert (times l own = n) as Hown.
  { rewrite (Hr _ _ _ Hi). destruct (ms !! l) as [[o m]|]; [|done]. destruct Hn as [-> ->]. by rewrite decide_True. }
  split.
  - intros j own' x Hj. destruct (decide (j = i)) as [->|Hne].
    + rewrite list_lookup_insert_eq in Hj by (by eapply lookup_lt_Some). simplify_eq. rewrite times_cons.
      destruct (decide (l = x)) as [->|Hx].
      * rewrite lookup_insert_eq, decide_True by done. lia.
      * rewrite lookup_insert_ne by done. by apply Hr.
    + rewrite list_lookup_insert_ne in Hj by done. rewrite (Hr _ _ x Hj). destruct (decide (l = x)) as [<-|Hx].
      * rewrite lookup_insert_eq, (decide_False (P := i = j)) by done.
        destruct (ms !! l) as [[o m]|]; [|done]. destruct Hn as [-> _]. by rewrite decide_False.
      * by rewrite lookup_insert_ne.
  - intros x o m Hx. rewrite list_lookup_insert_is_Some. destruct (decide (l = x)) as [<-|Hne].
    + rewrite lookup_insert_eq in Hx. simplify_eq. split; [lia|by exists own].
    + rewrite lookup_insert_ne in Hx by done. by apply Hv in Hx.
Qed.

Lemma recorded_drop i l ms owns own own' : recorded ms owns -> owns !! i = Some own -> own ≡ₚ l :: own' ->
  recorded (drop_mutex i l ms) (<[i := own']> owns).
Proof.
  intros [Hr Hv] Hi Hp.
  assert (ms !! l = Some (i, S (times l own'))) as Hl.
  { pose proof (Hr _ _ l Hi) as Ht. rewrite (times_perm _ _ _ Hp), times_cons, decide_True in Ht by done.
    destruct (ms !! l) as [[o n]|]; [|lia]. destruct (decide (o = i)) as [->|]; [|lia]. by rewrite <- Ht. }
  assert (drop_mutex i l ms = match times l own' with O => delete l ms | S n => <[l := (i, S n)]> ms end) as ->.
  { unfold drop_mutex. rewrite Hl. destruct (times l own'); by rewrite bool_decide_eq_true_2. }
  assert (forall x, x <> l -> match times l own' with O => delete l ms | S n => <[l := (i, S n)]> ms end !! x = ms !! x) as Hne.
  { intros x Hx. destruct (times l own'); [by rewrite lookup_delete_ne|by rewrite lookup_insert_ne]. }
  split.
  - intros j own2 x Hj. destruct (decide (j = i)) as [->|Hji].
    + rewrite list_lookup_insert_eq in Hj by (by eapply lookup_lt_Some). simplify_eq.
      destruct (decide (x = l)) as [->|Hx].
      * destruct (times l own2); [by rewrite lookup_delete_eq|]. by rewrite lookup_insert_eq, decide_True.
      * rewrite Hne by done. rewrite <- (Hr _ _ x Hi), (times_perm _ _ _ Hp), times_cons. by rewrite decide_False.
    + rewrite list_lookup_insert_ne in Hj by done. rewrite (Hr _ _ x Hj). destruct (decide (x = l)) as [->|Hx].
      * rewrite Hl, (decide_False (P := i = j)) by done.
        destruct (times l own'); [by rewrite lookup_delete_eq|]. by rewrite lookup_insert_eq, decide_False.
      * by rewrite Hne.
  - intros x o m Hx. rewrite list_lookup_insert_is_Some. destruct (decide (x = l)) as [->|Hxl].
    + destruct (times l own'); [by rewrite lookup_delete_eq in Hx|]. rewrite lookup_insert_eq in Hx. simplify_eq.
      split; [lia|by exists own].
    + rewrite Hne in Hx by done. by apply Hv in Hx.
Qed.

(** * Reachable configurations *)

(** What a disciplined thread holds when it is about to do an operation. *)
Lemma disciplined_next {A} grd ord (Q : list L -> A -> Prop) own X ls (op : M D X) k :
  disciplined rank grd ord Q own (Atomic ls op k) -> guards grd ls op own.
Proof.
  intros Hd. change (match Atomic ls op k with Atomic ls op _ => guards grd ls op own | _ => True end : Prop).
  by destruct Hd.
Qed.

(** The threads' lists of mutexes that make the configuration disciplined. *)
Definition config_ok (grd : strictness) (ord : bool) {A} (c : config L D A) : Prop := exists owns,
  recorded (held (state c)) owns /\ length owns = length (threads c) /\
  forall i p own, threads c !! i = Some p -> owns !! i = Some own ->
    disciplined rank grd ord (fun own _ => own = []) own p.

Lemma config_ok_init grd ord {A} (ps : list (prog L D A)) d w :
  Forall (well_behaved rank grd ord) ps -> config_ok grd ord (Config ps (Shared d ∅) w).
Proof.
  intros Hps. exists ((fun _ => []) <$> ps). split_and!.
  - split; [|done]. intros i own l [p [-> _]]%list_lookup_fmap_Some. done.
  - apply length_fmap.
  - intros i p own Hp [p' [-> _]]%list_lookup_fmap_Some. by eapply Forall_lookup_1 in Hps.
Qed.

Lemma advance_ok grd ord {A} i (p p' : prog L D A) s s' w w' owns own :
  advance recursive i p s w = Some (p', s', w') -> recorded (held s) owns -> owns !! i = Some own ->
  disciplined rank grd ord (fun own _ => own = []) own p ->
  exists own', recorded (held s') (<[i := own']> owns) /\ disciplined rank grd ord (fun own _ => own = []) own' p'.
Proof.
  intros Ha Hr Hi Hd. destruct Hd as [own a|own l k Hrank Hd|own l k Hd1 Hd2|own own' l k Hp Hd|own X ls op k Hls Hd];
    cbn [advance] in Ha; simplify_eq.
  - destruct (take_mutex _ _ _ _) as [ms|] eqn:Ht; simplify_eq. eexists. split; [|done].
    by eapply recorded_take.
  - destruct (take_mutex _ _ _ _) as [ms|] eqn:Ht; simplify_eq.
    + eexists. split; [|done]. by eapply recorded_take.
    + exists own. split; [|done]. by rewrite list_insert_id.
  - exists own'. split; [|done]. by eapply recorded_drop.
  - destruct (op _ _) as [x d w1| |]; simplify_eq. exists own. split; [|done]. by rewrite list_insert_id.
Qed.

Lemma step_keeps grd ord {A} (c c' : config L D A) : config_ok grd ord c -> step recursive c c' -> config_ok grd ord c'.
Proof.
  intros Hok Hst. destruct Hst as [i c0 c1 Hs]. destruct Hok as (owns & Hr & Hl & Hd). unfold step_of in Hs.
  destruct (threads c0 !! i) as [p|] eqn:Hp; [|done].
  destruct (advance _ _ _ _ _) as [[[p' s'] w']|] eqn:Ha; simplify_eq.
  destruct (owns !! i) as [own|] eqn:Hi.
  2: { apply lookup_ge_None in Hi. apply lookup_lt_Some in Hp. lia. }
  destruct (advance_ok _ _ _ _ _ _ _ _ _ _ _ Ha Hr Hi (Hd _ _ _ Hp Hi)) as (own' & Hr' & Hd').
  exists (<[i := own']> owns). cbn. split; [done|]. split; [by rewrite !length_insert|].
  intros j q o. destruct (decide (j = i)) as [->|Hne].
  - rewrite !list_lookup_insert_eq by (by eapply lookup_lt_Some). intros. by simplify_eq.
  - rewrite !list_lookup_insert_ne by done. apply Hd.
Qed.

Lemma reachable_ok grd ord {A} (c c' : config L D A) : config_ok grd ord c -> rtc (step recursive) c c' -> config_ok grd ord c'.
Proof. intros Hc Hs. induction Hs; [done|]. eauto using step_keeps. Qed.

Lemma run_schedule_rtc {A} sched (c c' : config L D A) : run_schedule recursive sched c = Some c' -> rtc (step recursive) c c'.
Proof.
  clear rank. revert c. induction sched as [|i sched IH]; intros c Hc; cbn in Hc; [by simplify_eq|].
  destruct (step_of _ _ _) as [c1|] eqn:E; [|done]. eapply rtc_l; [by econstructor|]. by apply IH.
Qed.

(** Two threads are never both about to work under the same mutex. *)
Lemma no_race ord {A} (c : config L D A) i j (X Y : Type) ls ls' (op : M D X) (op' : M D Y) k k' :
  config_ok Touched ord c -> i <> j -> threads c !! i = Some (Atomic ls op k) ->
  threads c !! j = Some (Atomic ls' op' k') -> forall l, l ∈ ls -> l ∉ ls'.
Proof.
  intros (owns & Hr & Hl & Hd) Hij Hi Hj l H1 H2.
  destruct (lookup_lt_is_Some_2 owns i) as [own Ho]; [rewrite Hl; by eapply lookup_lt_Some|].
  destruct (lookup_lt_is_Some_2 owns j) as [own' Ho']; [rewrite Hl; by eapply lookup_lt_Some|].
  pose proof (Hd _ _ _ Hi Ho) as D1. pose proof (Hd _ _ _ Hj Ho') as D2.
  apply Hij. eapply (recorded_unique _ _ l); [done..| |].
  - by apply (disciplined_next _ _ _ _ _ _ _ _ D1).
  - by apply (disciplined_next _ _ _ _ _ _ _ _ D2).
Qed.

(** * Progress *)

(** Who holds a mutex is not finished, and if it waits, it is for a mutex of higher rank. *)
Lemma waiting_rank {A} grd (c : config L D A) l o n : config_ok grd true c -> held (state c) !! l = Some (o, n) ->
  exists p, threads c !! o = Some p /\ finished p = false /\
    forall l', waits_for recursive o p (state c) = Some l' -> (rank l < rank l')%nat.
Proof.
  intros (owns & Hr & Hl & Hd) Hm. destruct (recorded_owner _ _ _ _ _ Hr Hm) as (own & Ho & Hin).
  destruct (lookup_lt_is_Some_2 (threads c) o) as [p Hp]; [rewrite <- Hl; by eapply lookup_lt_Some|].
  exists p. split; [done|]. pose proof (Hd _ _ _ Hp Ho) as Hdp. split.
  - destruct Hdp as [? ? ->| | | |]; try done. by apply elem_of_nil in Hin.
  - intros l' Hw. destruct Hdp as [|own l0 k Hrank Hdp| | |]; cbn in Hw; try done.
    destruct (take_mutex _ _ _ _); simplify_eq. by apply Hrank.
Qed.

Lemma waits_held {A} i (p : prog L D A) s l : waits_for recursive i p s = Some l ->
  exists o n, held s !! l = Some (o, n).
Proof.
  destruct p; cbn; try done. unfold take_mutex. destruct (held s !! l0) as [[o n]|] eqn:E; [|done].
  destruct (_ && _); [done|]. intros. simplify_eq. eauto.
Qed.

Lemma waits_stuck {A} (c : config L D A) i p : threads c !! i = Some p ->
  is_Some (waits_for recursive i p (state c)) -> step_of recursive i c = None.
Proof.
  clear rank. intros Hi [l Hw]. unfold step_of. rewrite Hi. destruct p; cbn in *; try done. by destruct (take_mutex _ _ _ _).
Qed.

(** A thread that cannot step has finished, waits for a mutex or is inside an operation. *)
Lemma stuck_thread {A} (c : config L D A) i p : threads c !! i = Some p -> step_of recursive i c = None ->
  finished p = true \/ is_Some (waits_for recursive i p (state c)) \/ in_operation p = true.
Proof.
  intros Hi Hs. unfold step_of in Hs. rewrite Hi in Hs.
  destruct p as [a|l k|l k|l k|X ls op k]; cbn [advance waits_for finished in_operation] in *; auto.
  - destruct (take_mutex _ _ _ _); [done|]. right; left. by eexists.
  - by destruct (take_mutex _ _ _ _).
  - done.
Qed.

(** Threads that wait in the order of a bounded rank never wait for each other in a circle:
    all have finished, or one can step, or one is inside an operation. *)
Lemma progress {A} grd (c : config L D A) bound : (forall l, (rank l < bound)%nat) -> config_ok grd true c ->
  (forall i p, threads c !! i = Some p -> finished p = true) \/ (exists i, is_Some (step_of recursive i c)) \/
  (exists i p, threads c !! i = Some p /\ in_operation p = true).
Proof.
  intros Hb Hok. destruct (decide (Exists (fun i => is_Some (step_of recursive i c)) (seq 0 (length (threads c))))) as [He|Hn].
  { right; left. apply Exists_exists in He as (i & _ & Hi). eauto. }
  assert (forall i p, threads c !! i = Some p -> step_of recursive i c = None) as Hstuck.
  { intros i p Hi. apply eq_None_not_Some. intros Hs. apply Hn, Exists_exists. exists i. split; [|done].
    apply elem_of_seq. apply lookup_lt_Some in Hi. lia. }
  destruct (decide (Exists (fun p => in_operation p = true) (threads c))) as [He|Hop].
  { right; right. apply Exists_exists in He as (p & [i Hi]%list_elem_of_lookup & Hp). eauto. }
  left. assert (forall k i p l, threads c !! i = Some p -> waits_for recursive i p (state c) = Some l ->
    (bound - rank l <= k)%nat -> False) as Hnone.
  { intros k. induction k as [|k IH]; intros i p l Hi Hw Hk; [pose proof (Hb l); lia|].
    destruct (waits_held _ _ _ _ Hw) as (o & n & Hm).
    destruct (waiting_rank _ _ _ _ _ Hok Hm) as (q & Hq & Hf & Hlt).
    destruct (stuck_thread _ _ _ Hq (Hstuck _ _ Hq)) as [?|[[l' Hw']|Hin]]; [congruence| |].
    - specialize (Hlt _ Hw'). eapply (IH _ _ l' Hq Hw'). pose proof (Hb l'). lia.
    - apply Hop, Exists_exists. exists q. split; [by eapply list_elem_of_lookup_2|done]. }
  intros i p Hi. destruct (stuck_thread _ _ _ Hi (Hstuck _ _ Hi)) as [?|[[l Hw]|Hin]]; [done| |].
  - by destruct (Hnone _ _ _ _ Hi Hw (le_n _)).
  - exfalso. apply Hop, Exists_exists. exists p. split; [by eapply list_elem_of_lookup_2|done].
Qed.

(** * Invariants *)

(** Every operation of the program satisfies [P]. *)
Fixpoint every_op (P : forall X, list L -> M D X -> Prop) {A} (p : prog L D A) : Prop :=
  match p with
  | Done _ => True
  | Lock _ k | Unlock _ k => every_op P k
  | TryLock _ k => every_op P (k true) /\ every_op P (k false)
  | Atomic ls op k => P _ ls op /\ forall x, every_op P (k x)
  end.

Lemma every_op_bind P {A B} (p : prog L D A) (f : A -> prog L D B) :
  every_op P p -> (forall a, every_op P (f a)) -> every_op P (p ≫= f).
Proof.
  change (p ≫= f) with (pbind p f). intros Hp Hf. revert Hp.
  induction p as [a|l k IH|l k IH|l k IH|X ls op k IH]; cbn; [done|auto|intros []; auto|auto|].
  intros [Hop Hk]. auto.
Qed.

(** What an operation may do to the shared data, whatever the network does: [R] relates the
    data before and after it. *)
Definition respects (R : D -> D -> Prop) {X} (m : M D X) : Prop := forall d w, wp m (fun _ d' _ => R d d') d w.

Lemma respects_bind (R : D -> D -> Prop) `{!PreOrder R} {X Y} (m : M D X) (k : X -> M D Y) :
  respects R m -> (forall x, respects R (k x)) -> respects R (m ≫= k).
Proof.
  intros Hm Hk d w. apply wp_bind. eapply wp_mono; [apply Hm|]. intros x d' w' Hd.
  eapply wp_mono; [apply Hk|]. intros y d2 w2 Hd2. by transitivity d'.
Qed.
Lemma respects_keeps (R : D -> D -> Prop) `{!PreOrder R} {X} (m : M D X) : keeps m -> respects R m.
Proof. intros Hm d w. eapply wp_mono; [apply Hm|]. by intros x d' w' ->. Qed.
Lemma respects_modify (R : D -> D -> Prop) (f : D -> D) : (forall d, R d (f d)) -> respects R (modify f).
Proof. intros Hf d w. apply Hf. Qed.

(** Steps, when every operation respects a relation of its mutexes. *)
Section relation.
Context (R : list L -> D -> D -> Prop) `{!forall ls, PreOrder (R ls)}.
Definition every_respects {A} : prog L D A -> Prop := every_op (fun X ls op => respects (R ls) op).

Lemma respects_step {A} i (c c' : config L D A) : Forall every_respects (threads c) ->
  step_of recursive i c = Some c' ->
  Forall every_respects (threads c') /\ exists ls, R ls (data (state c)) (data (state c')) /\
    (ls = [] \/ exists X (op : M D X) k, threads c !! i = Some (Atomic ls op k)).
Proof.
  clear rank. intros Hp Hs. unfold step_of in Hs. destruct (threads c !! i) as [p|] eqn:Hi; [|done].
  destruct (advance _ _ _ _ _) as [[[p' s'] w']|] eqn:Ha; simplify_eq. cbn [threads state].
  pose proof (Forall_lookup_1 _ _ _ _ Hp Hi) as Hk.
  assert (every_respects p' /\ exists ls, R ls (data (state c)) (data s') /\
    (ls = [] \/ exists X (op : M D X) k, p = Atomic ls op k)) as (Hk' & ls & Hr & Hls).
  { destruct p as [a|l k|l k|l k|X ls op k]; cbn in Ha, Hk; unfold every_respects in *; cbn in Hk; simplify_eq;
      repeat case_match; simplify_eq; try (split; [tauto|exists []; split; [done|by left]]).
    destruct Hk as [Hop Hk]. split; [done|]. exists ls. split; [|right; eauto].
    specialize (Hop (data (state c)) (net c)). unfold wp in Hop.
    match goal with H : op _ _ = _ |- _ => by rewrite H in Hop end. }
  split; [by apply Forall_insert|]. exists ls. split; [done|]. destruct Hls as [->|(X & op & k & ->)]; [by left|right; eauto].
Qed.

(** The relation [T] contains what every operation does: it holds between the data of a
    configuration and of all that are reached from it. *)
Lemma respects_reachable (T : D -> D -> Prop) `{!PreOrder T} {A} (c c' : config L D A) :
  (forall ls d d', R ls d d' -> T d d') -> Forall every_respects (threads c) -> rtc (step recursive) c c' ->
  T (data (state c)) (data (state c')) /\ Forall every_respects (threads c').
Proof.
  intros HT Hp Hs. induction Hs as [|c c1 c2 Hst _ IH]; [done|]. destruct Hst as [i c c1 Hs].
  destruct (respects_step _ _ _ Hp Hs) as (Hp' & ls & Hr & _). destruct (IH Hp') as [Ht Hp2].
  split; [|done]. transitivity (data (state c1)); [by eapply HT|done].
Qed.

(** A thread that changes what mutexes guard owns them. *)
Lemma owned_step ord {A} i (c c' : config L D A) : config_ok Written ord c -> Forall every_respects (threads c) ->
  step_of recursive i c = Some c' -> data (state c') = data (state c) \/
  exists ls, R ls (data (state c)) (data (state c')) /\
    forall l, l ∈ ls -> exists n, held (state c) !! l = Some (i, n).
Proof.
  intros (owns & Hrec & Hl & Hd) Hp Hs. destruct (respects_step _ _ _ Hp Hs) as (_ & ls & Hr & Hls).
  destruct Hls as [->|(X & op & k & Hi)].
  { right. exists []. split; [done|]. by intros l ?%not_elem_of_nil. }
  destruct (lookup_lt_is_Some_2 owns i) as [own Ho]; [rewrite Hl; by eapply lookup_lt_Some|].
  destruct (disciplined_next _ _ _ _ _ _ _ _ (Hd _ _ _ Hi Ho)) as [G1|Hk].
  2: { left. unfold step_of in Hs. rewrite Hi in Hs. cbn [advance] in Hs.
    specialize (Hk (data (state c)) (net c)). unfold wp in Hk.
    destruct (op _ _); simplify_eq. done. }
  right. exists ls. split; [done|]. intros l Hin.
  pose proof (G1 _ Hin) as Hown%times_elem. destruct Hrec as [Hrec _]. rewrite (Hrec _ _ _ Ho) in Hown.
  destruct (held (state c) !! l) as [[o n]|]; [|lia]. destruct (decide (o = i)) as [->|]; [eauto|lia].
Qed.
End relation.
End facts.
