(* ===== verification/Cstr.v ===== *)
(** The C string functions the drivers use, on the bytes before the terminating NUL. *)
From stdpp Require Import pretty.
From S2P Require Export Net.

(** The string that starts at the first byte of [bs]. *)
Fixpoint cstr (bs : list Z) : list Z :=
  match bs with
  | [] => []
  | b :: bs' => if b =? 0 then [] else b :: cstr bs'
  end.

(** [strncmp(p, pat, strlen(pat)) == 0]: the rest of the string after [pat]. *)
Fixpoint after_prefix (pat p : list Z) : option (list Z) :=
  match pat, p with
  | [], _ => Some p
  | a :: pat', b :: p' => if a =? b then after_prefix pat' p' else None
  | _ :: _, [] => None
  end.

(** [strchr(p, c)] for a non-null character: what precedes and what follows it. *)
Fixpoint strchr (p : list Z) (c : Z) : option (list Z * list Z) :=
  match p with
  | [] => None
  | b :: p' => if b =? c then Some ([], p')
               else match strchr p' c with
                    | Some (x, y) => Some (b :: x, y)
                    | None => None
                    end
  end.

(** [strstr(p, pat)], likewise. *)
Fixpoint strstr (p pat : list Z) : option (list Z * list Z) :=
  match after_prefix pat p with
  | Some y => Some ([], y)
  | None => match p with
            | [] => None
            | b :: p' => match strstr p' pat with
                         | Some (x, y) => Some (b :: x, y)
                         | None => None
                         end
            end
  end.

Definition isspace (c : Z) : bool := (c =? 32) || ((9 <=? c) && (c <=? 13)).

Fixpoint digits (p : list Z) (acc : Z) : Z :=
  match p with
  | c :: p' => if is_digit c then digits p' (acc * 10 + (c - 48)) else acc
  | [] => acc
  end.

Fixpoint skip_space (p : list Z) : list Z :=
  match p with
  | c :: p' => if isspace c then skip_space p' else p
  | [] => []
  end.

(** [atoi]: [(int) strtol(p, NULL, 10)], [strtol] clamping to 64 bits. *)
Definition atoi (p : list Z) : Z :=
  let clamp z := Z.max (- 2 ^ 63) (Z.min (2 ^ 63 - 1) z) in
  i32 (clamp (match skip_space p with
              | 45 :: p' => - digits p' 0
              | 43 :: p' => digits p' 0
              | p' => digits p' 0
              end)).

(** [strdup]: the copy, or a null pointer. *)
Definition strdup {D} (p : list Z) : M D (option (list Z)) :=
  ok ← malloc; mret (if ok : bool then Some p else None).

(** [strlen] of a possibly null pointer, as an [int]. *)
Definition strlen {D} (p : option (list Z)) : M D Z :=
  match p with Some bs => mret (len bs) | None => undef end.

(** [tolower] in the C locale, and [strcasecmp(a, b) == 0]. *)
Definition tolower (c : Z) : Z := if (65 <=? c) && (c <=? 90) then c + 32 else c.
Definition strcaseeq (a b : list Z) : bool := bool_decide (tolower <$> a = tolower <$> b).

(** The conversions [%ld] and, for a number that is not negative, [%06ld]. *)
Definition fmt_ld (n : Z) : list Z := lit (pretty n).
Definition fmt_06ld (n : Z) : list Z :=
  let s := fmt_ld n in replicate (6 - length s) 48 ++ s.
