(* ===== verification/CstrFacts.v ===== *)
(** Lemmas on the C string functions. *)
From S2P Require Export Cstr NetFacts.

Lemma cstr_id bs : 0 ∉ bs -> cstr bs = bs.
Proof.
  induction bs as [|b bs IH]; [done|]. rewrite not_elem_of_cons. intros [Hb Hbs]. cbn.
  destruct (b =? 0) eqn:E; [lia|]. by rewrite IH.
Qed.

Lemma after_prefix_app pat p : after_prefix pat (pat ++ p) = Some p.
Proof. induction pat as [|a pat IH]; [done|]. cbn. by rewrite Z.eqb_refl. Qed.

Lemma after_prefix_sound pat : forall p r, after_prefix pat p = Some r -> p = pat ++ r.
Proof.
  induction pat as [|a pat IH]; intros p r H; cbn in H; [by simplify_eq|].
  destruct p as [|b p]; [done|]. destruct (a =? b) eqn:E; [|done].
  apply IH in H as ->. by assert (b = a) as -> by lia.
Qed.

Lemma strchr_app a b c : c ∉ a -> strchr (a ++ c :: b) c = Some (a, b).
Proof.
  induction a as [|x a IH]; cbn; [by rewrite Z.eqb_refl|].
  rewrite not_elem_of_cons. intros [Hx Ha]. destruct (x =? c) eqn:E; [lia|]. by rewrite IH.
Qed.

Lemma strchr_none a c : c ∉ a -> strchr a c = None.
Proof.
  induction a as [|x a IH]; [done|]. rewrite not_elem_of_cons. intros [Hx Ha]. cbn.
  destruct (x =? c) eqn:E; [lia|]. by rewrite IH.
Qed.

(** The first occurrence of a pattern whose first character does not occur before it. *)
Lemma strstr_app a b c pat : c ∉ a -> strstr (a ++ (c :: pat) ++ b) (c :: pat) = Some (a, b).
Proof.
  induction a as [|x a IH].
  - intros _. cbn [app]. change (c :: pat ++ b) with ((c :: pat) ++ b).
    assert (after_prefix (c :: pat) ((c :: pat) ++ b) = Some b) as H by apply after_prefix_app.
    cbn [app strstr] in *. by rewrite H.
  - rewrite not_elem_of_cons. intros [Hx Ha]. cbn [app strstr after_prefix].
    destruct (c =? x) eqn:E; [lia|]. specialize (IH Ha). cbn [app] in IH. by rewrite IH.
Qed.

Lemma strchr_sound p c a b : strchr p c = Some (a, b) -> p = a ++ c :: b /\ c ∉ a.
Proof.
  revert a. induction p as [|x p IH]; intros a H; cbn in H; [done|].
  destruct (x =? c) eqn:E.
  - simplify_eq. assert (x = c) as -> by lia. split; [done|set_solver].
  - destruct (strchr p c) as [[a' b']|] eqn:Es; [|done]. simplify_eq.
    destruct (IH _ eq_refl) as [-> ?]. split; [done|]. set_unfold. intros [?|?]; [lia|done].
Qed.

(** * Numbers *)

Lemma digits_ge p : forall acc, Forall (fun c => is_digit c = true) p -> 0 <= acc -> acc <= digits p acc.
Proof.
  induction p as [|c p IH]; intros acc Hp H0; cbn; [lia|]. apply Forall_cons in Hp as [Hc Hp].
  rewrite Hc. unfold is_digit in Hc. etrans; [|apply IH; [done|lia]]. lia.
Qed.

Lemma atoi_digits p : Forall (fun c => is_digit c = true) p -> p <> [] -> digits p 0 < 2 ^ 31 ->
  atoi p = digits p 0.
Proof.
  intros Hp Hne Hlt. unfold atoi.
  pose proof (digits_ge p 0 Hp ltac:(done)).
  destruct p as [|c p]; [done|]. pose proof Hp as Hp'. apply Forall_cons in Hp' as [Hc _].
  unfold is_digit in Hc. cbn [skip_space]. unfold isspace.
  destruct ((c =? 32) || ((9 <=? c) && (c <=? 13))) eqn:E; [lia|].
  assert ((match c :: p with 45 :: p' => - digits p' 0 | 43 :: p' => digits p' 0
           | p' => digits p' 0 end) = digits (c :: p) 0) as ->.
  { assert (48 <= c <= 57) as Hr by lia. destruct c as [|c|c]; try lia.
    do 6 (destruct c as [c|c|]; try done; try lia). }
  rewrite i32_id; lia.
Qed.

(** * Allocation *)

Lemma strdup_ok {D} p (d : D) w : w_malloc w = [] -> strdup p d w = Ret (Some p) d w.
Proof. intros H. unfold strdup, malloc, mbind, M_bind, sys, sys_malloc. by rewrite H. Qed.
