(* ===== verification/Iproto.v ===== *)
(** What the OpenSIPS and rtpengine drivers share of the IPROTO protocol: the
    constants of [cachedb_tarantool_dbase.h], the five-byte frame prefix, the
    CHAP-SHA1 scramble and the bodies of requests; and the abstract view of requests
    and responses as MessagePack values. *)
From S2P Require Export Msgpuck Sha1 Base64.

(** * Constants *)

Definition IPROTO_REQUEST_TYPE := 0x00.
Definition IPROTO_SYNC := 0x01.
Definition IPROTO_SPACE_ID := 0x10.
Definition IPROTO_INDEX_ID := 0x11.
Definition IPROTO_LIMIT := 0x12.
Definition IPROTO_OFFSET := 0x13.
Definition IPROTO_ITERATOR := 0x14.
Definition IPROTO_KEY := 0x20.
Definition IPROTO_TUPLE := 0x21.
Definition IPROTO_FUNCTION_NAME := 0x22.
Definition IPROTO_USER_NAME := 0x23.
Definition IPROTO_EXPR := 0x27.
Definition IPROTO_DATA := 0x30.

Definition IPROTO_OK := 0x00.
Definition IPROTO_SELECT := 0x01.
Definition IPROTO_REPLACE := 0x03.
Definition IPROTO_DELETE := 0x05.
Definition IPROTO_CALL := 0x06.
Definition IPROTO_AUTH := 0x07.
Definition IPROTO_EVAL := 0x08.

Definition TNT_GREETING_SIZE := 128.
Definition TNT_SHA1_DIGEST_SIZE := 20.

(** * The OpenSIPS string: a pointer, possibly null, and a length *)

Record str := Str { chars : option (list Z); slen : Z }.

(** A string that describes the bytes [bs]. *)
Definition str_of (bs : list Z) : str := Str (Some bs) (len bs).

(** [mp_encode_str(p, x->s, (uint32_t)x->len)] *)
Definition mp_encode_string (x : str) : list Z := mp_encode_str (chars x) (u32 (slen x)).

(** [x.s && x.len > 0] *)
Definition str_set (x : str) : bool := bool_decide (is_Some (chars x)) && (0 <? slen x).

(** * Frames *)

(** [finalize_packet]: [payload] is what the encoders wrote from [buf + 5] on. *)
Definition finalize_packet (payload : list Z) : list Z :=
  let payload_len := u32 (len payload) in
  [MP_UINT32; u8 (Z.shiftr payload_len 24); u8 (Z.shiftr payload_len 16);
   u8 (Z.shiftr payload_len 8); u8 payload_len] ++ payload.

(** The length in the bytes 1 to 4 of a prefix. *)
Definition prefix_len (pfx : list Z) : option Z :=
  match pfx with
  | [_; a; b; c; d] =>
      Some (Z.lor (Z.lor (Z.lor (Z.shiftl a 24) (Z.shiftl b 16)) (Z.shiftl c 8)) d)
  | _ => None
  end.

(** * CHAP-SHA1 *)

(** The three digests and the exclusive or of the first and third one; [raw_salt]
    is the decoded salt, at least 20 bytes. *)
Definition chap_scramble (pass raw_salt : list Z) : list Z :=
  let h1 := tnt_sha1 pass in
  let h2 := tnt_sha1 h1 in
  let step3_in := ztake TNT_SHA1_DIGEST_SIZE raw_salt ++ h2 in
  let h3 := tnt_sha1 step3_in in
  zip_with Z.lxor h1 h3.

(** The AUTH request with its fixed sync 1. *)
Definition auth_payload (user : list Z) (scramble : list Z) : list Z :=
  mp_encode_map 2
  ++ mp_encode_uint IPROTO_REQUEST_TYPE ++ mp_encode_uint IPROTO_AUTH
  ++ mp_encode_uint IPROTO_SYNC ++ mp_encode_uint 1
  ++ mp_encode_map 2
  ++ mp_encode_uint IPROTO_USER_NAME ++ user
  ++ mp_encode_uint IPROTO_TUPLE ++ mp_encode_array 2
  ++ mp_encode_str (Some (lit "chap-sha1")) 9
  ++ mp_encode_bin (Some scramble) TNT_SHA1_DIGEST_SIZE.

(** * Abstract view *)

(** A request: a header map and a body map, in one frame. *)
Definition request (header body : list (mp * mp)) : list Z :=
  mp_bytes (MMap FFix header) ++ mp_bytes (MMap FFix body).

(** The number a MessagePack unsigned integer stands for. *)
Definition uint_val (v : mp) : option Z :=
  match v with
  | MFix n => if (0 <=? n) && (n <=? 127) then Some n else None
  | MUint w n => if (0 <=? n) && (n <? 2 ^ (8 * Z.of_nat (wbytes w))) then Some n else None
  | _ => None
  end.

(** How the server checks a scramble: it knows the salt it sent and the twice
    hashed password. *)
Definition server_accepts (hash2 salt scramble : list Z) : bool :=
  bool_decide (Fips.sha1 (zip_with Z.lxor scramble (Fips.sha1 (ztake 20 salt ++ hash2))) = hash2).
