(* ===== verification/IprotoFacts.v ===== *)
(** Lemmas on [Iproto]: frames and their prefix, requests as MessagePack values,
    and the CHAP-SHA1 computation against the server's check. *)
From S2P Require Export Iproto MsgpuckFacts Sha1Facts.

(** * Frames *)

Lemma len_finalize p : len (finalize_packet p) = 5 + len p.
Proof. unfold finalize_packet. lens. lia. Qed.

Lemma finalize_split p : len p < 2 ^ 32 ->
  finalize_packet p = (MP_UINT32 :: be_bytes 4 (len p)) ++ p.
Proof.
  intros H. unfold finalize_packet. rewrite u32_id by (pose proof (len_nonneg p); lia).
  by rewrite be_bytes_4.
Qed.

Lemma prefix_len_be n : 0 <= n < 2 ^ 32 -> prefix_len (MP_UINT32 :: be_bytes 4 n) = Some n.
Proof. intros H. rewrite be_bytes_4. cbn [prefix_len]. by rewrite be32_join. Qed.

(** * Numbers *)

Lemma uint_val_ok v n : uint_val v = Some n <-> uint_ok v n.
Proof.
  destruct v; cbn; try (split; [done|tauto]).
  - destruct (_ && _) eqn:E; split; intros H; simplify_eq; try lia. 
    + f_equal. lia.
  - destruct (_ && _) eqn:E; split; intros H; simplify_eq; try lia.
    + f_equal. lia.
Qed.

Lemma uint_val_mp n : 0 <= n < 2 ^ 64 -> uint_val (uint_mp n) = Some n.
Proof. intros. by apply uint_val_ok, uint_mp_ok. Qed.

(** * Requests *)

Lemma map_bytes kvs : len kvs <= 15 ->
  mp_bytes (MMap FFix kvs) =
  mp_encode_map (len kvs) ++ flat_map (fun kv => mp_bytes kv.1 ++ mp_bytes kv.2) kvs.
Proof.
  intros H. pose proof (len_nonneg kvs). rewrite mp_encode_map_bytes by done.
  unfold cnt_fmt. destruct (len kvs <=? 15) eqn:E; [done|lia].
Qed.

Lemma arr_bytes xs : len xs <= 15 ->
  mp_bytes (MArr FFix xs) = mp_encode_array (len xs) ++ flat_map mp_bytes xs.
Proof.
  intros H. pose proof (len_nonneg xs). rewrite mp_encode_array_bytes by done.
  unfold cnt_fmt. destruct (len xs <=? 15) eqn:E; [done|lia].
Qed.

(** A string argument as a MessagePack value. *)
Definition mstr (bs : list Z) : mp := MStr (str_fmt (len bs)) bs.

Lemma mp_encode_string_of bs : len bs < 2 ^ 32 -> mp_encode_string (str_of bs) = mp_bytes (mstr bs).
Proof. intros. by apply mp_str_bytes. Qed.

Lemma mp_encode_lit bs n : n = len bs -> len bs < 2 ^ 32 ->
  mp_encode_str (Some bs) n = mp_bytes (mstr bs).
Proof.
  intros -> H. rewrite <- mp_encode_string_of by done. unfold mp_encode_string.
  cbn [chars slen str_of]. by rewrite u32_id by (pose proof (len_nonneg bs); lia).
Qed.

(** Unfold the bytes of a request into the calls of the encoders. *)
Ltac request_bytes := unfold request, len;
  repeat (rewrite ?map_bytes, ?arr_bytes by (unfold len; cbn [length]; lia);
    cbn [flat_map fst snd app]; unfold len; cbn [length]);
  rewrite ?mp_encode_uint_bytes, <- ?app_assoc, ?app_nil_r.

(** * CHAP-SHA1 *)

Lemma bytes_ok_ztake n bs : bytes_ok bs -> bytes_ok (ztake n bs).
Proof. apply Forall_take. Qed.

Lemma xor_back a b : length a = length b ->
  zip_with Z.lxor (zip_with Z.lxor a b) b = a.
Proof.
  revert b. induction a as [|x a IH]; intros [|y b] H; try done. cbn in *.
  f_equal; [|apply IH; lia]. by rewrite Z.lxor_assoc, Z.lxor_nilpotent, Z.lxor_0_r.
Qed.

Lemma fips_length m : length (Fips.sha1 m) = 20%nat.
Proof. apply sha1_out_ok. Qed.
Lemma fips_bytes m : bytes_ok (Fips.sha1 m).
Proof. apply sha1_out_ok. Qed.

Lemma chap_scramble_fips pw salt : bytes_ok pw -> bytes_ok salt -> len pw < 2 ^ 32 - 64 ->
  chap_scramble pw salt =
  zip_with Z.lxor (Fips.sha1 pw)
    (Fips.sha1 (ztake 20 salt ++ Fips.sha1 (Fips.sha1 pw))).
Proof.
  intros Hp Hs Hn. unfold chap_scramble, TNT_SHA1_DIGEST_SIZE.
  assert (forall m, len (Fips.sha1 m) = 20) as Hl by (intros; unfold len; by rewrite fips_length).
  rewrite (tnt_sha1_fips pw) by done.
  rewrite (tnt_sha1_fips (Fips.sha1 pw)) by (apply fips_bytes || (rewrite Hl; lia)).
  rewrite tnt_sha1_fips; [done| |].
  - apply Forall_app_2; [by apply bytes_ok_ztake|apply fips_bytes].
  - rewrite len_app, Hl, len_take. lia.
Qed.

Lemma chap_scramble_accepted pw salt : bytes_ok pw -> bytes_ok salt -> len pw < 2 ^ 32 - 64 ->
  server_accepts (Fips.sha1 (Fips.sha1 pw)) salt (chap_scramble pw salt) = true.
Proof.
  intros. unfold server_accepts. rewrite chap_scramble_fips by done.
  rewrite xor_back by (by rewrite !fips_length). by apply bool_decide_eq_true.
Qed.

Lemma len_chap pw salt : bytes_ok pw -> bytes_ok salt -> len pw < 2 ^ 32 - 64 ->
  len (chap_scramble pw salt) = 20.
Proof.
  intros. rewrite chap_scramble_fips by done. unfold len.
  by rewrite length_zip_with, !fips_length.
Qed.

(** The lengths of the closed encodings in a sum. *)
Ltac len_closed := lens; repeat match goal with
  | |- context [len (mp_encode_uint ?k)] =>
      first [is_const k | lazymatch k with Zpos _ => idtac | Z0 => idtac end];
      let n := eval vm_compute in (len (mp_encode_uint k)) in change (len (mp_encode_uint k)) with n
  | |- context [len (mp_encode_map ?k)] => let n := eval vm_compute in (len (mp_encode_map k)) in
      change (len (mp_encode_map k)) with n
  | |- context [len (mp_encode_array ?k)] => let n := eval vm_compute in (len (mp_encode_array k)) in
      change (len (mp_encode_array k)) with n
  | |- context [len (mp_encode_str (Some (lit ?s)) ?k)] =>
      let n := eval vm_compute in (len (mp_encode_str (Some (lit s)) k)) in
      change (len (mp_encode_str (Some (lit s)) k)) with n
  end.
