(* ===== verification/MpReader.v ===== *)
(** Readers of encoded values: numbers, strings and the containers, and the loops over the
    entries of a map or the items of an array. *)
From S2P Require Export Reader IprotoFacts.

(** * Values *)

Lemma mp_decode_uint_val buf p v n : uint_val v = Some n -> at_ buf p (mp_bytes v) ->
  mp_decode_uint buf p = Some (n, p + len (mp_bytes v)).
Proof. intros Hn. apply mp_decode_uint_at. by apply uint_val_ok. Qed.

Lemma uint_step buf p v n rest : uint_val v = Some n -> at_ buf p (mp_bytes v ++ rest) ->
  mp_decode_uint buf p = Some (n, p + len (mp_bytes v)) /\ at_ buf (p + len (mp_bytes v)) rest.
Proof. intros Hv Hat. apply at_app in Hat as [Hs Hr]. by rewrite (mp_decode_uint_val _ _ _ _ Hv Hs). Qed.

Lemma str_step buf p f s rest : mp_wf (MStr f s) -> at_ buf p (mp_bytes (MStr f s) ++ rest) ->
  exists v, mp_decode_str buf p = Some ((v, len s), p + len (mp_bytes (MStr f s))) /\
    at_ buf v s /\ at_ buf (p + len (mp_bytes (MStr f s))) rest.
Proof.
  intros Hwf Hat. apply at_app in Hat as [Hs Hr].
  destruct (mp_decode_str_at buf p f s Hwf Hs) as [Hd Hv]. eauto.
Qed.

Lemma len_encode_uint n : 1 <= len (mp_encode_uint n) <= 9.
Proof. unfold mp_encode_uint. repeat (destruct (_ <=? _)); lens; rewrite ?len_be_bytes; lia. Qed.

(** * Maps *)

Definition kv_bytes (kvs : list (mp * mp)) : list Z :=
  flat_map (fun kv => mp_bytes kv.1 ++ mp_bytes kv.2) kvs.

Definition kv1 (kv : mp * mp) : list Z := mp_bytes kv.1 ++ mp_bytes kv.2.

Lemma kv1_pos kv : (0 < length (kv1 kv))%nat.
Proof.
  unfold kv1. rewrite length_app. pose proof (mp_bytes_pos kv.1). unfold len in *. lia.
Qed.

Lemma mp_length_pos v : (0 < length (mp_bytes v))%nat.
Proof. pose proof (mp_bytes_pos v). unfold len in *. lia. Qed.

(** The bytes of the map [kvs] in the buffer, and where they end. *)
Lemma map_at buf p f kvs : mp_wf (MMap f kvs) -> at_ buf p (mp_bytes (MMap f kvs)) ->
  exists q, mp_decode_map buf p = Some (len kvs, q) /\ p < q /\ at_ buf q (kv_bytes kvs) /\
            p + len (mp_bytes (MMap f kvs)) = q + len (kv_bytes kvs).
Proof.
  intros Hwf Hat. apply mp_wf_map in Hwf as (Hf & _ & _). cbn [mp_bytes] in *.
  apply at_app in Hat as [Hh Hb]. eexists. split.
  { apply mp_decode_map_at; [|exact Hh]. split; [apply len_nonneg|done]. }
  unfold kv_bytes. lens. split; [|split; [done|lia]].
  destruct f; cbn [hdr]; lens; lia.
Qed.

(** The tag of a map in the buffer. *)
Lemma map_tag buf p g kvs : mp_wf (MMap g kvs) -> at_ buf p (mp_bytes (MMap g kvs)) ->
  exists t, peek 0 buf p = Some (t, p) /\
    (Z.land t 0xf0 =? MP_FIXMAP) = bool_decide (g = FFix) /\
    (Z.land t 0xf0 =? MP_FIXMAP) || (t =? MP_MAP16) || (t =? MP_MAP32) = true.
Proof.
  intros Hwf Hat. apply mp_wf_map in Hwf as (Hf & _). cbn [mp_bytes] in Hat.
  apply at_app in Hat as [Hat _]. pose proof (len_nonneg kvs).
  assert (forall t bs, at_ buf p (t :: bs) -> peek 0 buf p = Some (t, p)) as Hpeek.
  { intros t bs [Ht _]. apply peek_at. by rewrite Z.add_0_r. }
  destruct g; cbn [hdr fmt_ok] in *; try (destruct Hf; discriminate).
  - eexists. split; [by eapply Hpeek|]. destruct (fixmap_tag (len kvs) ltac:(lia)) as [-> _].
    rewrite bool_decide_eq_true_2 by done. done.
  - eexists. split; [by eapply Hpeek|]. rewrite bool_decide_eq_false_2 by done. done.
  - eexists. split; [by eapply Hpeek|]. rewrite bool_decide_eq_false_2 by done. done.
Qed.

(** Decoding a map and folding over its entries. *)
Lemma fold_entries {A} (P : mp * mp -> Prop) (body : A -> R A) spec buf a p g kvs :
  (forall x a p, P x -> 0 <= p -> at_ buf p (kv1 x) -> body a buf p = Some (spec a x, p + len (kv1 x))) ->
  mp_wf (MMap g kvs) -> Forall P kvs -> 0 <= p -> at_ buf p (mp_bytes (MMap g kvs)) ->
  (n ← mp_decode_map; rfor n body a) buf p =
    Some (foldl spec a kvs, p + len (mp_bytes (MMap g kvs))).
Proof.
  intros Hbody Hwf HP Hp Hat.
  destruct (map_at buf p g kvs Hwf Hat) as (q & Hd & Hq & Hk & Hend).
  rewrite (R_bind_eq _ _ _ _ _ _ Hd). rewrite (rfor_list kv1 P body spec buf kvs a q Hbody kv1_pos HP ltac:(lia) Hk).
  unfold kv1, kv_bytes in *. by rewrite Hend.
Qed.

(** * Arrays *)

Lemma arr_at buf p g xs : mp_wf (MArr g xs) -> at_ buf p (mp_bytes (MArr g xs)) ->
  exists q, mp_decode_array buf p = Some (len xs, q) /\ p < q /\ at_ buf q (flat_map mp_bytes xs) /\
            p + len (mp_bytes (MArr g xs)) = q + len (flat_map mp_bytes xs).
Proof.
  intros Hwf Hat. apply mp_wf_arr in Hwf as [Hf _]. cbn [mp_bytes] in *.
  apply at_app in Hat as [Hh Hb]. eexists. split.
  { apply mp_decode_array_at; [|exact Hh]. split; [apply len_nonneg|done]. }
  lens. split; [|split; [done|lia]].
  destruct g; cbn [hdr]; lens; pose proof (len_nonneg (be_bytes 1 (len xs)));
    pose proof (len_nonneg (be_bytes 2 (len xs))); pose proof (len_nonneg (be_bytes 4 (len xs))); lia.
Qed.

Lemma arr_tag buf p g xs : mp_wf (MArr g xs) -> at_ buf p (mp_bytes (MArr g xs)) ->
  exists t, peek 0 buf p = Some (t, p) /\
    (Z.land t 0xf0 =? MP_FIXARRAY) || (t =? MP_ARRAY16) || (t =? MP_ARRAY32) = true.
Proof.
  intros Hwf Hat. apply mp_wf_arr in Hwf as [Hf _]. cbn [mp_bytes] in Hat.
  apply at_app in Hat as [Hat _]. pose proof (len_nonneg xs).
  assert (forall t bs, at_ buf p (t :: bs) -> peek 0 buf p = Some (t, p)) as Hpeek.
  { intros t bs [Ht _]. apply peek_at. by rewrite Z.add_0_r. }
  destruct g; cbn [hdr fmt_ok] in *; try (destruct Hf; discriminate);
    (eexists; split; [by eapply Hpeek|]); [|done..].
  by destruct (fixarray_tag (len xs) ltac:(lia)) as [-> _].
Qed.
