(* ===== verification/WireSpec.v ===== *)
(** The properties of the codecs and of the transfer loops: MessagePack, SHA-1, Base64,
    sending and receiving. *)
From S2P Require Export IprotoFacts NetFacts.

(** * MessagePack *)

(** C34: the decoders read back what the encoders write, at any place of any buffer, and leave
    the pointer right after it: unsigned integers of 64 bits, array and map sizes of
    32 bits, and strings. *)
Theorem mp_roundtrip buf off n cnt s
  (Hn : 0 <= n < 2 ^ 64) (Hc : 0 <= cnt < 2 ^ 32) (Hs : len s < 2 ^ 32 - 4) :
  (at_ buf off (mp_encode_uint n) ->
     mp_decode_uint buf off = Some (n, off + len (mp_encode_uint n))) /\
  (at_ buf off (mp_encode_array cnt) ->
     mp_decode_array buf off = Some (cnt, off + len (mp_encode_array cnt))) /\
  (at_ buf off (mp_encode_map cnt) ->
     mp_decode_map buf off = Some (cnt, off + len (mp_encode_map cnt))) /\
  (at_ buf off (mp_str s) -> exists p,
     mp_decode_str buf off = Some ((p, len s), off + len (mp_str s)) /\ copy buf p (len s) = Some s).
Proof.
  split; [by apply mp_decode_encode_uint|]. split; [by apply mp_decode_encode_array|].
  split; [by apply mp_decode_encode_map|]. intros H.
  destruct (mp_decode_encode_str buf off s Hs H) as (p & Hd & Hp). exists p. split; [done|].
  by apply at_copy.
Qed.

Lemma mp_roundtrip_witness : exists p,
  mp_decode_str (mp_str (lit "hello")) 0 = Some ((p, 5), 6) /\
  copy (mp_str (lit "hello")) p 5 = Some (lit "hello").
Proof.
  apply (mp_roundtrip (mp_str (lit "hello")) 0 70000 17 (lit "hello")).
  - vm_compute. split; [discriminate|reflexivity].
  - vm_compute. split; [discriminate|reflexivity].
  - reflexivity.
  - apply at_whole.
Defined.

(** C31: [mp_next] moves the pointer over exactly one well-formed value made of nil, booleans,
    integers, strings, binaries, arrays and maps, whatever the header formats and the nesting,
    and whatever surrounds it. Floats and extensions are not among these values: on a float
    the function loses its place ([mp_next_floats_desynchronise]). *)
Theorem mp_next_skips_one_value v buf off
  (Hb : bytes_ok buf) (Hwf : mp_wf v) (Hoff : 0 <= off) (Hat : at_ buf off (mp_bytes v)) :
  mp_next buf off = Some (tt, off + len (mp_bytes v)).
Proof. apply mp_next_at; try done. by apply bytes_buf_ok. Qed.

Definition ex_value : mp :=
  MMap F16 [(MStr F8 (lit "k"), MArr FFix [MNil; MInt W64 0; MBin F32 [1; 2]]); (MFix (-3), MBool true)].

Lemma mp_next_skips_one_value_witness :
  mp_next (7 :: mp_bytes ex_value ++ [0xc1]) 1 = Some (tt, 1 + len (mp_bytes ex_value)).
Proof.
  apply (mp_next_skips_one_value ex_value (7 :: mp_bytes ex_value ++ [0xc1]) 1).
  - vm_compute. repeat constructor; discriminate.
  - vm_compute. repeat split; (reflexivity || discriminate).
  - discriminate.
  - apply (at_intro [7] (mp_bytes ex_value) [0xc1]).
Defined.



(** A float (tags 0xca and 0xcb) is not skipped: [mp_next] moves over the tag alone, so
    that the four or eight bytes of the number are read as further values. *)
Theorem mp_next_floats_desynchronise buf off t (bs : list Z)
  (Ht : t = 0xca \/ t = 0xcb) (Hat : at_ buf off (t :: bs)) :
  mp_next buf off = Some (tt, off + 1).
Proof.
  unfold mp_next. cbn [mp_skip]. change (1 <=? 0) with false. cbv iota.
  assert (mp_next_head buf off = Some (0, off + 1)) as Hh.
  { unfold mp_next_head. rewrite (R_bind_eq _ _ _ _ _ _ (getb_at _ _ _ _ Hat)).
    by destruct Ht as [-> | ->]. }
  rewrite (R_bind_eq _ _ _ _ _ _ Hh). by destruct (length buf).
Qed.

Lemma mp_next_floats_desynchronise_witness :
  mp_next [0xcb; 0x3f; 0xf0; 0; 0; 0; 0; 0; 0] 0 = Some (tt, 1).
Proof.
  apply (mp_next_floats_desynchronise _ 0 0xcb [0x3f; 0xf0; 0; 0; 0; 0; 0; 0]).
  - right. reflexivity.
  - vm_compute. repeat split.
Defined.

(** * Digests and salts *)

(** C32: the embedded SHA-1 computes the digest of FIPS 180-4 for every input shorter than
    2^32 - 64 bytes, starting from any (uninitialised) context. *)
Theorem sha1_is_fips ctx data
  (Hctx : length (buffer ctx) = 64%nat) (Hb : bytes_ok data) (Hn : len data < 2 ^ 32 - 64) :
  tnt_sha1_on ctx data = Some (Fips.sha1 data).
Proof. by apply tnt_sha1_on_fips. Qed.

Lemma sha1_is_fips_witness :
  tnt_sha1_on (Ctx (St5 1 2 3 4 5) 99 99 (repeat 170 64)) (lit "abc") = Some (Fips.sha1 (lit "abc")) /\
  Fips.sha1 (lit "abc") = [0xa9; 0x99; 0x3e; 0x36; 0x47; 0x06; 0x81; 0x6a; 0xba; 0x3e;
                           0x25; 0x71; 0x78; 0x50; 0xc2; 0x6c; 0x9c; 0xd0; 0xd8; 0x9d].
Proof.
  split; [|vm_compute; reflexivity].
  apply (sha1_is_fips (Ctx (St5 1 2 3 4 5) 99 99 (repeat 170 64)) (lit "abc")).
  - reflexivity.
  - repeat constructor; discriminate.
  - reflexivity.
Defined.

(** C40: decoding the Base64 text of some bytes gives the bytes back; and on every text,
    however malformed, what is stored are bytes, fits the destination, and is at most
    three quarters of the text. *)
Theorem base64_roundtrip_and_bounds bs src dlen
  (Hb : bytes_ok bs) (Hl : len bs <= dlen) :
  tnt_base64_decode (Rfc4648.encode bs) dlen = bs /\
  len (tnt_base64_decode src dlen) <= dlen /\ bytes_ok (tnt_base64_decode src dlen) /\
  4 * len (tnt_base64_decode src dlen) <= 3 * len src.
Proof.
  split; [by apply b64_decode_encode|]. apply b64_decode_bounds.
  pose proof (len_nonneg bs). lia.
Qed.

Lemma base64_roundtrip_and_bounds_witness :
  tnt_base64_decode (Rfc4648.encode [1; 200; 3; 4]) 64 = [1; 200; 3; 4] /\
  len (tnt_base64_decode (lit "!!!QUJD===") 64) <= 64 /\
  bytes_ok (tnt_base64_decode (lit "!!!QUJD===") 64) /\
  4 * len (tnt_base64_decode (lit "!!!QUJD===") 64) <= 3 * len (lit "!!!QUJD===").
Proof.
  apply (base64_roundtrip_and_bounds [1; 200; 3; 4] (lit "!!!QUJD===") 64).
  - repeat constructor; discriminate.
  - vm_compute. discriminate.
Defined.

(** * Transfer loops *)

(** The receive loop never leaves its buffer; when it returns data, they are exactly the
    next [n] bytes of the stream, however they arrive and whatever interruptions are
    retried; and it only waits for ever when the script has no end of stream and no
    error that stops it. *)
Theorem recv_all_exact {D} retry fd n (d : D) w s0
  (Hs : socks w !! fd = Some s0) (Hn : 0 <= n) :
  match recv_all retry fd n d w with
  | Ret r d' w' => d' = d /\ exists evs', w' = with_sock w fd (set_rx s0 evs') /\
      match r with
      | Some bs => len bs = n /\ stream retry (rx s0) bs evs'
      | None => True
      end
  | Hang =>
      Forall (fun e => match e with RxData _ _ => True | RxErr e => retry e = true | RxEof => False end)
             (rx s0)
  | Undef => False
  end.
Proof. by apply recv_all_sound. Qed.

Lemma recv_all_exact_witness :
  match recv_all retry_intr 3 4 tt (World [] {[ 3 := Sock [RxData 1 [2]; RxErr EINTR; RxData 3 [4; 5]] [] [] ]}
                                          [] [] [] []) with
  | Ret r d' w' => d' = tt /\ exists evs',
      w' = with_sock (World [] {[ 3 := Sock [RxData 1 [2]; RxErr EINTR; RxData 3 [4; 5]] [] [] ]} [] [] [] [])
             3 (set_rx (Sock [RxData 1 [2]; RxErr EINTR; RxData 3 [4; 5]] [] []) evs') /\
      match r with
      | Some bs => len bs = 4 /\ stream retry_intr [RxData 1 [2]; RxErr EINTR; RxData 3 [4; 5]] bs evs'
      | None => True
      end
  | Hang => Forall (fun e => match e with RxData _ _ => True | RxErr e => retry_intr e = true
                             | RxEof => False end) [RxData 1 [2]; RxErr EINTR; RxData 3 [4; 5]]
  | Undef => False
  end.
Proof.
  apply (recv_all_exact retry_intr 3 4 tt _ (Sock [RxData 1 [2]; RxErr EINTR; RxData 3 [4; 5]] [] [])).
  - reflexivity.
  - discriminate.
Defined.

(** The send loop always ends; what it puts on the wire is a prefix of the buffer, and the
    whole buffer exactly when it reports success; with either treatment of an empty
    write and any set of retried errors. *)
Theorem send_all_prefix {D} retry z fd bs (d : D) w s0 (Hs : socks w !! fd = Some s0) :
  exists done_ rest evs', bs = done_ ++ rest /\
    send_all retry z fd bs d w =
      Ret (bool_decide (rest = [])) d (with_sock w fd (sent s0 evs' done_)).
Proof. by apply send_all_total. Qed.

Lemma send_all_prefix_witness :
  exists done_ rest evs', [1; 2; 3] = done_ ++ rest /\
    send_all retry_all false 3 [1; 2; 3] tt (World [] {[ 3 := Sock [] [TxSome 2; TxErr EOTHER] [] ]} [] [] [] []) =
      Ret (bool_decide (rest = [])) tt
        (with_sock (World [] {[ 3 := Sock [] [TxSome 2; TxErr EOTHER] [] ]} [] [] [] []) 3
           (sent (Sock [] [TxSome 2; TxErr EOTHER] []) evs' done_)).
Proof. apply (send_all_prefix retry_all false 3 [1; 2; 3] tt). reflexivity. Defined.
