(* ===== verification/Breaker.v ===== *)
(** The circuit breaker the drivers put around a server, abstractly: consecutive
    failures are counted, enough of them open the breaker for a while, and while it
    is open no attempt is made. A driver's connection implements the interface
    [IsBreaker]; its operations refine the steps. *)
From S2P Require Export Prelude.

(** [open]: the time until which attempts are refused. *)
Record breaker := Br { errs : Z; open : option Z }.

Record policy := Policy { threshold : Z; cooldown : Z }.

(** One more failure, noticed at [now]. *)
Definition fail (p : policy) (now : Z) (b : breaker) : breaker :=
  let n := errs b + 1 in
  Br n (if threshold p <=? n then Some (now + cooldown p) else open b).

Definition reset : breaker := Br 0 None.

(** An attempt at [now]: refused, or allowed from a state. *)
Definition allow (now : Z) (b : breaker) : option breaker :=
  match open b with
  | Some t => if now <? t then None else Some reset
  | None => Some b
  end.

(** What one attempt at [now] answers and does: it is refused, with -1; it succeeds, with 0; or
    it fails, with -1. Whether a failure counts is not the breaker's choice but given
    ([counted]); one that does is noticed at some time [later]. *)
Inductive attempt (p : policy) (now : Z) (counted : bool) (b : breaker) : Z -> breaker -> Prop :=
| a_refused : allow now b = None -> attempt p now counted b (-1) b
| a_success b' : allow now b = Some b' -> attempt p now counted b 0 reset
| a_failure b' later : allow now b = Some b' ->
    attempt p now counted b (-1) (if counted then fail p later b' else b').

(** A state reached from [reset]: open exactly when the threshold has been reached. *)
Definition breaker_inv (p : policy) (b : breaker) : Prop :=
  0 <= errs b /\ (open b = None -> errs b = 0 \/ errs b < threshold p)
  /\ (is_Some (open b) -> threshold p <= errs b /\ 0 < errs b).

Lemma reset_inv p : breaker_inv p reset.
Proof. split; [done|split; [by left|by intros [? ?]]]. Qed.

Lemma admit_inv p now b b' : breaker_inv p b -> allow now b = Some b' ->
  breaker_inv p b' /\ open b' = None.
Proof.
  unfold allow. intros Hi H. destruct (open b) as [t|] eqn:E.
  - destruct (now <? t); simplify_eq. split; [apply reset_inv|done].
  - by simplify_eq.
Qed.

Lemma fail_inv p now b : breaker_inv p b -> open b = None -> breaker_inv p (fail p now b).
Proof.
  intros (H0 & Hn & _) Ho. unfold breaker_inv, fail. cbn. rewrite Ho.
  destruct (threshold p <=? errs b + 1) eqn:E; (split; [lia|split]); try done; intros; try lia.
Qed.

Lemma attempt_inv p now k b r b' : breaker_inv p b -> attempt p now k b r b' -> breaker_inv p b'.
Proof.
  intros Hi [H|x H|x later H]; [done|apply reset_inv|].
  destruct (admit_inv _ _ _ _ Hi H). destruct k; [by apply fail_inv|done].
Qed.

(** A counted failure is not lost, and an uncounted one leaves no trace. *)
Lemma attempt_failed p now k b b' b0 : attempt p now k b (-1) b' -> allow now b = Some b0 ->
  exists later, b' = if k then fail p later b0 else b0.
Proof.
  intros H Hb. inversion H as [H0|x H0|x later H0]; simplify_eq. by exists later.
Qed.

(** [n] counted failures in a row, at the times [ts]. *)
Fixpoint fails (p : policy) (ts : list Z) (b : breaker) : breaker :=
  match ts with [] => b | t :: r => fails p r (fail p t b) end.

Lemma fails_errs p ts : forall b, errs (fails p ts b) = errs b + len ts.
Proof.
  induction ts as [|t ts IH]; intros b; cbn [fails]; [rewrite len_nil; lia|].
  rewrite IH, len_cons. cbn. lia.
Qed.

(** Failures open the breaker at the threshold, for the cooldown. *)
Lemma fails_open p ts t b : threshold p = errs b + len ts + 1 ->
  open (fails p (ts ++ [t]) b) = Some (t + cooldown p).
Proof.
  intros H. assert (forall xs b, fails p (xs ++ [t]) b = fail p t (fails p xs b)) as ->.
  { intros xs. induction xs as [|x xs IH]; intros b'; [done|]. apply IH. }
  unfold fail. cbn. rewrite fails_errs. destruct (_ <=? _) eqn:E; [done|lia].
Qed.

(** * Interface *)

(** A connection type whose breaker can be read off. *)
Class IsBreaker (C : Type) := {
  view : C -> breaker;
  refuses : Z -> C -> bool;
  refuses_spec : forall now c, refuses now c = true <-> allow now (view c) = None
}.

Section client.
Context {C : Type} `{IsBreaker C}.

(** Proved once for every driver: an open breaker refuses until its time has come,
    and the first attempt after that starts a new count. *)
Lemma refuses_while_open now c t : open (view c) = Some t -> refuses now c = (now <? t).
Proof.
  intros Ho. pose proof (refuses_spec now c) as Hs. unfold allow in Hs. rewrite Ho in Hs.
  destruct (refuses now c), (now <? t) eqn:E; try done.
  - by discriminate (proj1 Hs).
  - by discriminate (proj2 Hs).
Qed.

Lemma closed_admits now c : open (view c) = None -> refuses now c = false.
Proof.
  intros Ho. destruct (refuses now c) eqn:E; [|done]. apply refuses_spec in E.
  unfold allow in E. by rewrite Ho in E.
Qed.

(** From a closed breaker, [threshold] counted failures in a row make the driver
    refuse every attempt of the cooldown that follows the last of them. *)
Lemma refuses_after_failures p ts t c c' now :
  view c' = fails p (ts ++ [t]) (view c) -> threshold p = errs (view c) + len ts + 1 ->
  now < t + cooldown p -> refuses now c' = true.
Proof.
  intros Hv Hp Hn. rewrite (refuses_while_open now c' (t + cooldown p)).
  - lia.
  - rewrite Hv. by apply fails_open.
Qed.
End client.
