(* ===== verification/OpenSips.v ===== *)
(** The OpenSIPS CacheDB driver, [opensips_tarantool/cachedb_tarantool/]
    [cachedb_tarantool_dbase.c]: the connection pool, authentication, and the
    get, set, remove, raw query and call operations. The state of an operation is
    the cluster handle; a connection is named by its index in [conns]. *)
From S2P Require Export Iproto Cstr.

(** * State *)

Inductive tnt_conn_state :=
  TNT_STATE_DISCONNECTED | TNT_STATE_CONNECTING | TNT_STATE_CONNECTED
| TNT_STATE_AUTHENTICATED | TNT_STATE_ERROR | TNT_STATE_DISABLED.
#[export] Instance tnt_conn_state_eq_dec : EqDecision tnt_conn_state.
Proof. solve_decision. Defined.

Record tnt_single_conn := Conn {
  sock_fd : Z;
  state : tnt_conn_state;
  sync_counter : Z;
  last_activity : Z;
  disabled_until : Z;
  consecutive_errors : Z
}.

(** The part of [tnt_cluster_con_t] that is fixed when the handle is created. *)
Record tnt_cluster_cfg := Cfg {
  name : str; host : str; port : Z; user : str; pass : str; space : str;
  pool_size : Z;
  connect_timeout_ms : Z; query_timeout_ms : Z; disable_time_sec : Z; allowed_errors : Z;
  lazy_connect : Z; init_without_tarantool : Z; tcp_keepalive : Z
}.

(** The handle. [conns] is the array, [None] the null pointer. *)
Record tnt_cluster_con := Cluster {
  cfg : tnt_cluster_cfg;
  space_id : Z;
  current_idx : Z;
  conns : option (list tnt_single_conn)
}.

Definition set_fd (c : tnt_single_conn) (fd : Z) : tnt_single_conn :=
  Conn fd (state c) (sync_counter c) (last_activity c) (disabled_until c) (consecutive_errors c).
Definition set_state (c : tnt_single_conn) (st : tnt_conn_state) : tnt_single_conn :=
  Conn (sock_fd c) st (sync_counter c) (last_activity c) (disabled_until c) (consecutive_errors c).
Definition set_sync (c : tnt_single_conn) (n : Z) : tnt_single_conn :=
  Conn (sock_fd c) (state c) n (last_activity c) (disabled_until c) (consecutive_errors c).
Definition set_activity (c : tnt_single_conn) (t : Z) : tnt_single_conn :=
  Conn (sock_fd c) (state c) (sync_counter c) t (disabled_until c) (consecutive_errors c).
Definition set_until (c : tnt_single_conn) (t : Z) : tnt_single_conn :=
  Conn (sock_fd c) (state c) (sync_counter c) (last_activity c) t (consecutive_errors c).
Definition set_errors (c : tnt_single_conn) (n : Z) : tnt_single_conn :=
  Conn (sock_fd c) (state c) (sync_counter c) (last_activity c) (disabled_until c) n.

Definition set_cfg (t : tnt_cluster_con) (x : tnt_cluster_cfg) : tnt_cluster_con :=
  Cluster x (space_id t) (current_idx t) (conns t).
Definition set_space_id (t : tnt_cluster_con) (n : Z) : tnt_cluster_con :=
  Cluster (cfg t) n (current_idx t) (conns t).
Definition set_idx (t : tnt_cluster_con) (n : Z) : tnt_cluster_con :=
  Cluster (cfg t) (space_id t) n (conns t).
Definition set_conns (t : tnt_cluster_con) (cs : option (list tnt_single_conn)) : tnt_cluster_con :=
  Cluster (cfg t) (space_id t) (current_idx t) cs.

Notation "'MT'" := (M tnt_cluster_con) (only parsing).

(** [tcon->conns[i]], which must lie in the array. *)
Definition conn_at (t : tnt_cluster_con) (i : Z) : option tnt_single_conn :=
  cs ← conns t; if 0 <=? i then cs !! Z.to_nat i else None.
Definition conn (i : Z) : MT tnt_single_conn := t ← get; of_read (conn_at t i).

(** An assignment to a field of the connection. *)
Definition upd_at (i : Z) (f : tnt_single_conn -> tnt_single_conn) (t : tnt_cluster_con)
  : tnt_cluster_con :=
  set_conns t (alter f (Z.to_nat i) <$> conns t).
Definition upd (i : Z) (f : tnt_single_conn -> tnt_single_conn) : MT unit :=
  _ ← conn i; modify (upd_at i f).

(** * Sockets *)

Definition tnt_send_all (fd : Z) (buf : list Z) : MT bool := send_all retry_all false fd buf.
Definition tnt_recv_all (fd n : Z) : MT (option (list Z)) := recv_all retry_all fd n.
Definition tnt_socket_drain (fd : Z) : MT unit := socket_drain fd.

(** [iov[0].iov_base += n; iov[0].iov_len -= n] after the full buffers are dropped. *)
Fixpoint iov_advance (iov : list (list Z)) (n : Z) : list (list Z) :=
  match iov with
  | [] => []
  | b :: iov' => if len b <=? n then iov_advance iov' (n - len b) else zdrop n b :: iov'
  end.

Fixpoint writev_loop (fuel : nat) (fd : Z) (iov : list (list Z)) : MT bool :=
  match iov with
  | [] => mret true
  | _ => match fuel with
         | O => hang
         | S f =>
             r ← sys (sys_send fd (concat iov));
             match r with
             | inl n => if n =? 0 then mret false else writev_loop f fd (iov_advance iov n)
             | inr e => if retry_all e then writev_loop f fd iov else mret false
             end
         end
  end.

Definition tnt_writev_all (fd : Z) (iov : list (list Z)) : MT bool :=
  fun d w => writev_loop (S (tx_len w fd)) fd iov d w.

(** The frame's bytes; [None] for -1. [cap]: the size of the caller's buffer. *)
Definition tnt_read_frame (fd cap : Z) : MT (option (list Z)) :=
  pfx ← tnt_recv_all fd 5;
  match pfx with
  | None => mret None
  | Some pfx =>
      tag ← of_read (rd pfx 0);
      if negb (tag =? MP_UINT32) then mret None else
      blen ← of_read (prefix_len pfx);
      if (blen =? 0) || (16 * 1024 * 1024 <? blen) then mret None else
      tgt ← (if cap <? blen then malloc else mret true);
      if negb tgt then mret None else tnt_recv_all fd blen
  end.

(** * Errors *)

Definition tnt_conn_error (i : Z) : MT unit :=
  c ← conn i;
  _ ← (if 0 <=? sock_fd c
       then _ ← close (sock_fd c); upd i (fun c => set_fd c (-1))
       else mret tt);
  _ ← upd i (fun c => set_state c TNT_STATE_ERROR);
  _ ← upd i (fun c => set_errors c (consecutive_errors c + 1));
  c ← conn i;
  t ← get;
  if allowed_errors (cfg t) <=? consecutive_errors c then
    _ ← upd i (fun c => set_state c TNT_STATE_DISABLED);
    now ← time_;
    upd i (fun c => set_until c (now + disable_time_sec (cfg t)))
  else mret tt.

(** * Responses *)

(** The loop of [check_iproto_status] from the [i]-th key on, [n] keys left. *)
Fixpoint status_loop (fuel : nat) (n want_sync : Z) (body : list Z) (p : Z) : option Z :=
  if (0 <? n) && (p <? len body) then
    match fuel with
    | O => None
    | S f =>
        '(k, p) ← mp_decode_uint body p;
        if k =? IPROTO_REQUEST_TYPE then
          '(code, p) ← mp_decode_uint body p;
          if negb (code =? IPROTO_OK) then Some (-1) else status_loop f (n - 1) want_sync body p
        else if k =? IPROTO_SYNC then
          '(sync, p) ← mp_decode_uint body p;
          if negb (sync =? want_sync) then Some (-2) else status_loop f (n - 1) want_sync body p
        else
          '(_, p) ← mp_next body p;
          status_loop f (n - 1) want_sync body p
    end
  else Some 0.

(** [None]: a read outside the frame. *)
Definition check_iproto_status (body : option (list Z)) (want_sync : Z) : option Z :=
  match body with
  | None => Some (-1)
  | Some body =>
      if len body =? 0 then Some (-1) else
      '(h_map, p) ← mp_decode_map body 0;
      status_loop (S (length body)) h_map want_sync body p
  end.

(** * Authentication *)

(** [rc] *)
Definition tnt_auth_scramble (sock_fd : Z) (salt_b64 : list Z) : MT Z :=
  t ← get;
  let tcon := cfg t in
  if negb (str_set (user tcon)) || negb (str_set (pass tcon)) then mret 0 else
  let raw_salt := tnt_base64_decode salt_b64 64 in
  if len raw_salt <? TNT_SHA1_DIGEST_SIZE then mret (-1) else
  pw ← of_read (chars (pass tcon));
  let scramble := chap_scramble (ztake (slen (pass tcon)) pw) raw_salt in
  let packet_buf := finalize_packet (auth_payload (mp_encode_string (user tcon)) scramble) in
  _ ← in_buffer 512 packet_buf;
  sent ← tnt_send_all sock_fd packet_buf;
  if negb sent then mret (-1) else
  resp_hdr ← tnt_recv_all sock_fd 5;
  match resp_hdr with
  | None => mret (-1)
  | Some resp_hdr =>
      tag ← of_read (rd resp_hdr 0);
      if negb (tag =? MP_UINT32) then mret (-1) else
      resp_len ← of_read (prefix_len resp_hdr);
      if (resp_len =? 0) || (65536 <? resp_len) then mret (-1) else
      ok ← malloc;
      if negb ok then mret (-1) else
      resp_body ← tnt_recv_all sock_fd resp_len;
      match resp_body with
      | None => mret (-1)
      | Some resp_body =>
          b0 ← of_read (rd resp_body 0);
          if 0x80 <=? b0 then
            b1 ← of_read (rd resp_body 1);
            mret (if b1 =? 0x00 then 0 else -1)
          else mret (-1)
      end
  end.

(** * Request bodies *)

Definition pack_select_header (sync_id space_id : Z) : list Z :=
  mp_encode_map 2
  ++ mp_encode_uint IPROTO_REQUEST_TYPE ++ mp_encode_uint IPROTO_SELECT
  ++ mp_encode_uint IPROTO_SYNC ++ mp_encode_uint sync_id
  ++ mp_encode_map 6
  ++ mp_encode_uint IPROTO_SPACE_ID ++ mp_encode_uint space_id
  ++ mp_encode_uint IPROTO_INDEX_ID ++ mp_encode_uint 0
  ++ mp_encode_uint IPROTO_LIMIT ++ mp_encode_uint 1
  ++ mp_encode_uint IPROTO_OFFSET ++ mp_encode_uint 0
  ++ mp_encode_uint IPROTO_ITERATOR ++ mp_encode_uint 0
  ++ mp_encode_uint IPROTO_KEY ++ mp_encode_array 1.

Definition pack_delete_header (sync_id space_id : Z) : list Z :=
  mp_encode_map 2
  ++ mp_encode_uint IPROTO_REQUEST_TYPE ++ mp_encode_uint IPROTO_DELETE
  ++ mp_encode_uint IPROTO_SYNC ++ mp_encode_uint sync_id
  ++ mp_encode_map 3
  ++ mp_encode_uint IPROTO_SPACE_ID ++ mp_encode_uint space_id
  ++ mp_encode_uint IPROTO_INDEX_ID ++ mp_encode_uint 0
  ++ mp_encode_uint IPROTO_KEY ++ mp_encode_array 1.

(** The bytes [tarantool_set] encodes: a REPLACE of a seven-field tuple. *)
Definition set_payload (sync_id space_id : Z) (attr val : str) (now exp : Z) : list Z :=
  mp_encode_map 2
  ++ mp_encode_uint IPROTO_REQUEST_TYPE ++ mp_encode_uint IPROTO_REPLACE
  ++ mp_encode_uint IPROTO_SYNC ++ mp_encode_uint sync_id
  ++ mp_encode_map 2
  ++ mp_encode_uint IPROTO_SPACE_ID ++ mp_encode_uint space_id
  ++ mp_encode_uint IPROTO_TUPLE ++ mp_encode_array 7
  ++ mp_encode_string attr
  ++ mp_encode_str (Some (lit "opensips")) 8
  ++ mp_encode_str (Some (lit "active")) 6
  ++ mp_encode_uint (u64 now) ++ mp_encode_uint (u64 now) ++ mp_encode_uint exp
  ++ mp_encode_string val.

(** The EVAL request of [resolve_space_id]. *)
Definition resolve_payload (sync_id : Z) (space : str) : list Z :=
  mp_encode_map 2
  ++ mp_encode_uint IPROTO_REQUEST_TYPE ++ mp_encode_uint IPROTO_EVAL
  ++ mp_encode_uint IPROTO_SYNC ++ mp_encode_uint sync_id
  ++ mp_encode_map 2
  ++ mp_encode_uint IPROTO_EXPR ++ mp_encode_str (Some (lit "return box.space[...].id")) 24
  ++ mp_encode_uint IPROTO_TUPLE ++ mp_encode_array 1 ++ mp_encode_string space.

(** The EVAL request of [tarantool_raw_query]. *)
Definition query_payload (sync_id : Z) (query : str) : list Z :=
  mp_encode_map 2
  ++ mp_encode_uint IPROTO_REQUEST_TYPE ++ mp_encode_uint IPROTO_EVAL
  ++ mp_encode_uint IPROTO_SYNC ++ mp_encode_uint sync_id
  ++ mp_encode_map 2
  ++ mp_encode_uint IPROTO_EXPR ++ mp_encode_string query
  ++ mp_encode_uint IPROTO_TUPLE ++ mp_encode_array 0.

(** The CALL request of [tarantool_call_proc]. *)
Definition call_payload (sync_id : Z) (proc : str) (args : option str) : list Z :=
  mp_encode_map 2
  ++ mp_encode_uint IPROTO_REQUEST_TYPE ++ mp_encode_uint IPROTO_CALL
  ++ mp_encode_uint IPROTO_SYNC ++ mp_encode_uint sync_id
  ++ mp_encode_map 2
  ++ mp_encode_uint IPROTO_FUNCTION_NAME ++ mp_encode_string proc
  ++ mp_encode_uint IPROTO_TUPLE
  ++ match args with
     | Some a => if 0 <? slen a then mp_encode_array 1 ++ mp_encode_string a
                 else mp_encode_array 0
     | None => mp_encode_array 0
     end.

(** * Connecting *)

(** [++conn->sync_counter] on a [uint64_t]. *)
Definition next_sync (i : Z) : MT Z :=
  _ ← upd i (fun c => set_sync c (u64 (sync_counter c + 1)));
  c ← conn i; mret (sync_counter c).

(** The loop of [resolve_space_id] over the [n] remaining keys of the first map;
    the result is the last value stored in [space_id]. *)
Fixpoint resolve_loop (fuel : nat) (n : Z) (resp : list Z) (rptr : Z) (sid : Z) : option Z :=
  if n <=? 0 then Some sid
  else match fuel with
       | O => None
       | S f =>
           '(k, rptr) ← mp_decode_uint resp rptr;
           if k =? IPROTO_DATA then
             '(arr_len, rptr) ← mp_decode_array resp rptr;
             if 0 <? arr_len then
               '(v, rptr) ← mp_decode_uint resp rptr;
               resolve_loop f (n - 1) resp rptr (u32 v)
             else resolve_loop f (n - 1) resp rptr sid
           else
             '(_, rptr) ← mp_next resp rptr;
             resolve_loop f (n - 1) resp rptr sid
       end.

Definition resolve_space_id (i : Z) : MT Z :=
  sync_id ← next_sync i;
  c ← conn i;
  t ← get;
  let buf := finalize_packet (resolve_payload sync_id (space (cfg t))) in
  _ ← in_buffer 512 buf;
  sent ← tnt_send_all (sock_fd c) buf;
  if negb sent then mret (-1) else
  resp ← tnt_read_frame (sock_fd c) 1024;
  match resp with
  | None => mret (-1)
  | Some resp =>
      '(map_size, rptr) ← of_read (mp_decode_map resp 0);
      sid ← of_read (resolve_loop (S (length resp)) map_size resp rptr (space_id t));
      _ ← modify (fun t => set_space_id t sid);
      _ ← (if sid =? 0 then modify (fun t => set_space_id t 512) else mret tt);
      mret 0
  end.

(** A failure after the socket exists. *)
Definition connect_fail (i : Z) : MT Z :=
  c ← conn i;
  _ ← close (sock_fd c);
  _ ← upd i (fun c => set_fd c (-1));
  _ ← upd i (fun c => set_state c TNT_STATE_ERROR);
  mret (-1).

(** The address of the server: a dotted quad, or a name to resolve. *)
Definition resolve_host : MT bool :=
  t ← get;
  let h := host (cfg t) in
  let host_len := if slen h <? 255 then slen h else 255 in
  bs ← of_read (match chars h with Some bs => copy bs 0 host_len | None => None end);
  if inet_pton4 (cstr bs) then mret true else sys sys_gai.

Definition tnt_connect_single (i : Z) : MT Z :=
  now ← time_;
  c ← conn i;
  t ← get;
  let tcon := cfg t in
  if bool_decide (state c = TNT_STATE_DISABLED) && (now <? disabled_until c) then mret (-1) else
  _ ← (if bool_decide (state c = TNT_STATE_DISABLED) then
         _ ← upd i (fun c => set_state c TNT_STATE_DISCONNECTED);
         upd i (fun c => set_errors c 0)
       else mret tt);
  _ ← (if 0 <=? sock_fd c
       then _ ← close (sock_fd c); upd i (fun c => set_fd c (-1)) else mret tt);
  fd ← sys sys_socket;
  _ ← upd i (fun c => set_fd c fd);
  if fd <? 0 then _ ← upd i (fun c => set_state c TNT_STATE_ERROR); mret (-1) else
  found ← resolve_host;
  if negb found then connect_fail i else
  connected ← sys (sys_connect fd);
  if negb connected then
    _ ← connect_fail i;
    _ ← upd i (fun c => set_errors c (consecutive_errors c + 1));
    c ← conn i;
    _ ← (if allowed_errors tcon <=? consecutive_errors c then
           _ ← upd i (fun c => set_state c TNT_STATE_DISABLED);
           upd i (fun c => set_until c (now + disable_time_sec tcon))
         else mret tt);
    mret (-1)
  else
  greeting ← tnt_recv_all fd TNT_GREETING_SIZE;
  match greeting with
  | None => connect_fail i
  | Some greeting =>
      auth ← (if str_set (user tcon) && str_set (pass tcon) then
                salt ← of_read (copy greeting 64 44);
                tnt_auth_scramble fd salt
              else mret 0);
      if auth <? 0 then connect_fail i else
      _ ← upd i (fun c => set_state c TNT_STATE_AUTHENTICATED);
      _ ← upd i (fun c => set_errors c 0);
      now ← time_;
      _ ← upd i (fun c => set_activity c now);
      t ← get;
      _ ← (if space_id t =? 0 then resolve_space_id i else mret 0);
      mret 0
  end.

(** The index of the connection, [None] for the null pointer. *)
Definition tnt_get_conn : MT (option Z) :=
  t ← get;
  if pool_size (cfg t) <=? 0 then mret None else
  let idx := current_idx t in
  _ ← modify (fun t => set_idx t (current_idx t + 1));
  _ ← modify (fun t => if pool_size (cfg t) <=? current_idx t then set_idx t 0 else t);
  c ← conn idx;
  ready ← (if (sock_fd c <? 0) || negb (bool_decide (state c = TNT_STATE_AUTHENTICATED))
           then r ← tnt_connect_single idx; mret (0 <=? r) else mret true);
  if negb ready then mret None else
  c ← conn idx;
  _ ← tnt_socket_drain (sock_fd c);
  mret (Some idx).

(** * The URL of the standalone build *)

(** The module parameters, globals of the file. *)
Record tnt_params := Params {
  p_connect_tout : Z; p_query_tout : Z; p_lazy_connect : Z; p_disable_time : Z;
  p_allowed_errors : Z; p_init_without_tnt : Z; p_pool_size : Z; p_tcp_keepalive : Z
}.
Definition default_params : tnt_params := Params 1000 500 0 10 3 1 8 1.
Definition DEFAULT_POOL_SIZE := 8.

(** A field set to a copy of [p] and to the length of that copy. *)
Definition dup_str (p : list Z) : MT str :=
  cp ← strdup p; n ← strlen cp; mret (Str cp n).

(** The scheme and the optional name: the name and the rest of the URL. *)
Definition parse_scheme (p : list Z) : MT (option (str * list Z)) :=
  match after_prefix (lit "tarantool://") p with
  | Some p => cp ← strdup (lit "default"); mret (Some (Str cp 7, p))
  | None =>
      match after_prefix (lit "tarantool:") p with
      | Some p =>
          match strstr p (lit "://") with
          | None => mret None
          | Some (name, p) => n ← dup_str name; mret (Some (n, p))
          end
      | None => mret None
      end
  end.

(** The space after the first slash, and what precedes it. *)
Definition parse_space (p : list Z) : MT (str * list Z) :=
  match strchr p 47 with
  | Some (p, after) => x ← dup_str after; mret (x, p)
  | None => cp ← strdup (lit "rtpe_calls"); mret (Str cp 10, p)
  end.

(** The credentials before the first at sign, and what follows it. *)
Definition parse_cred (p : list Z) : MT (option (list Z) * option (list Z) * list Z) :=
  match strchr p 64 with
  | Some (cred, after) =>
      match strchr cred 58 with
      | Some (u, pw) => u ← strdup u; pw ← strdup pw; mret (u, pw, after)
      | None => u ← strdup cred; pw ← strdup []; mret (u, pw, after)
      end
  | None => u ← strdup (lit "guest"); pw ← strdup []; mret (u, pw, p)
  end.

(** [parse_tnt_url], the return value and the fields it sets. *)
Definition parse_tnt_url (g : tnt_params) (url : str) : MT Z :=
  match chars url with
  | None => mret (-1)
  | Some u =>
      if slen url <=? 0 then mret (-1) else
      buf ← malloc;
      if negb buf then mret (-1) else
      bytes ← of_read (copy u 0 (slen url));
      scheme ← parse_scheme (cstr bytes);
      match scheme with
      | None => mret (-1)
      | Some (name, p) =>
          '(space, p) ← parse_space p;
          '(user, pass, p) ← parse_cred p;
          ulen ← strlen user;
          plen ← strlen pass;
          let '(port, h) := match strchr p 58 with
                            | Some (h, after) => (atoi after, h)
                            | None => (3301, p)
                            end in
          host ← dup_str h;
          _ ← modify (fun t => set_cfg t
                (Cfg name host port (Str user ulen) (Str pass plen) space
                     (if 0 <? p_pool_size g then p_pool_size g else DEFAULT_POOL_SIZE)
                     (p_connect_tout g) (p_query_tout g) (p_disable_time g)
                     (p_allowed_errors g) (p_lazy_connect g) (p_init_without_tnt g)
                     (p_tcp_keepalive g)));
          _ ← modify (fun t => set_space_id t 0);
          mret 0
      end
  end.

(** * The pool *)

Definition fresh_conn : tnt_single_conn := Conn (-1) TNT_STATE_DISCONNECTED 0 0 0 0.

(** [for (i = 0; i < n; i++) tnt_connect_single(tcon, &tcon->conns[i])] *)
Fixpoint connect_from (n : nat) (i : Z) : MT unit :=
  match n with
  | O => mret tt
  | S n' => _ ← tnt_connect_single i; connect_from n' (i + 1)
  end.

Definition tnt_setup_pool : MT Z :=
  t ← get;
  ok ← malloc;
  if negb ok then mret (-1) else
  let n := Z.to_nat (pool_size (cfg t)) in
  _ ← modify (fun t => set_conns t (Some (repeat fresh_conn n)));
  _ ← (if lazy_connect (cfg t) =? 0 then connect_from n 0 else mret tt);
  mret 0.

(** [memset(tcon, 0, sizeof(tnt_cluster_con_t))] *)
Definition zero_cluster : tnt_cluster_con :=
  let z := Str None 0 in Cluster (Cfg z z 0 z z z 0 0 0 0 0 0 0 0) 0 0 None.

(** The standalone [tarantool_init]: whether a handle is returned; its contents
    are the final state. *)
Definition tarantool_init (g : tnt_params) (url : option str) : MT bool :=
  match url with
  | None => mret false
  | Some url =>
      ok ← malloc;
      if negb ok then mret false else
      _ ← put zero_cluster;
      rc ← parse_tnt_url g url;
      if negb (rc =? 0) then mret false else
      rc ← tnt_setup_pool;
      mret (0 <=? rc)
  end.

(** [for (i = 0; i < pool_size; i++) if (conns[i].sock_fd >= 0) close(...)] *)
Fixpoint close_from (n : nat) (i : Z) : MT unit :=
  match n with
  | O => mret tt
  | S n' => c ← conn i;
            _ ← (if 0 <=? sock_fd c then close (sock_fd c) else mret tt);
            close_from n' (i + 1)
  end.

(** The handle is freed at the end: no field is left. *)
Definition tnt_teardown : MT unit :=
  t ← get;
  _ ← (if bool_decide (is_Some (conns t))
       then close_from (Z.to_nat (pool_size (cfg t))) 0 else mret tt);
  put zero_cluster.

(** [cachedb_id], as OpenSIPS parses a URL itself; null pointers are [None]. *)
Record cachedb_id := CachedbId {
  group_name : option (list Z); id_host : option (list Z); id_port : Z;
  username : option (list Z); password : option (list Z); database : option (list Z)
}.

(** The constructor of the build inside OpenSIPS. *)
Definition tnt_new_connection (g : tnt_params) (id : option cachedb_id) : MT bool :=
  match id with
  | None => mret false
  | Some id =>
      match id_host id with
      | None => mret false
      | Some h =>
          ok ← malloc;
          if negb ok then mret false else
          _ ← put zero_cluster;
          name ← strdup (default (lit "default") (group_name id));
          host ← strdup h;
          user ← strdup (default (lit "guest") (username id));
          pass ← strdup (default [] (password id));
          space ← strdup (default (lit "rtpe_calls") (database id));
          match name, host, user, pass, space with
          | Some name, Some host, Some user, Some pass, Some space =>
              _ ← modify (fun t => set_cfg t
                (Cfg (str_of name) (str_of host) (if id_port id =? 0 then 3301 else id_port id)
                     (str_of user) (str_of pass) (str_of space)
                     (if 0 <? p_pool_size g then p_pool_size g else DEFAULT_POOL_SIZE)
                     (p_connect_tout g) (p_query_tout g) (p_disable_time g)
                     (p_allowed_errors g) (p_lazy_connect g) (p_init_without_tnt g)
                     (p_tcp_keepalive g)));
              _ ← modify (fun t => set_space_id t 0);
              rc ← tnt_setup_pool;
              mret (0 <=? rc)
          | _, _, _, _, _ => mret false
          end
      end
  end.

(** * Operations *)

(** Sending a request and reading the response frame; every failure goes through
    [tnt_conn_error]. This is the part the operations repeat, with [cap] the size of
    the response buffer; [writev] selects the function that sends. *)
Definition exchange (writev : bool) (i : Z) (buf : list Z) (cap : Z) : MT (option (list Z)) :=
  c ← conn i;
  sent ← (if writev then tnt_writev_all (sock_fd c) [buf] else tnt_send_all (sock_fd c) buf);
  if negb sent then _ ← tnt_conn_error i; mret None else
  resp ← tnt_read_frame (sock_fd c) cap;
  match resp with
  | None => _ ← tnt_conn_error i; mret None
  | Some _ => mret resp
  end.

(** The status check of an operation: 0, or -1 after an error. *)
Definition status_of (i : Z) (resp : list Z) (sync_id : Z) : MT Z :=
  rc ← of_read (check_iproto_status (Some resp) sync_id);
  if rc <? 0 then
    _ ← (if rc =? -2 then tnt_conn_error i else mret tt);
    mret (-1)
  else mret 0.

(** [for (i = 0; i < n; i++) { mp_decode_uint(&rptr); mp_next(&rptr); }] *)
Fixpoint skip_header (fuel : nat) (n : Z) (resp : list Z) (rptr : Z) : option Z :=
  if n <=? 0 then Some rptr
  else match fuel with
       | O => None
       | S f => '(_, rptr) ← mp_decode_uint resp rptr;
                '(_, rptr) ← mp_next resp rptr;
                skip_header f (n - 1) resp rptr
       end.

(** The fields of a tuple up to the one [tarantool_get] returns: its extent, and
    the pointer after it; no extent for a tuple of less than two fields. *)
Definition tuple_value (tuple_len : Z) : R (option (Z * Z)) :=
  if 7 <=? tuple_len then
    _ ← mp_decode_str; _ ← mp_decode_str; _ ← mp_decode_str;
    _ ← mp_decode_uint; _ ← mp_decode_uint; _ ← mp_decode_uint;
    v ← mp_decode_str; mret (Some v)
  else if 2 <=? tuple_len then
    _ ← mp_decode_str; v ← mp_decode_str; mret (Some v)
  else mret None.

(** The loop over the body map; [val] is the value stored so far. *)
Fixpoint get_loop (fuel : nat) (n : Z) (resp : list Z) (rptr : Z) (val : str) : MT str :=
  if n <=? 0 then mret val
  else match fuel with
       | O => undef
       | S f =>
           '(k, rptr) ← of_read (mp_decode_uint resp rptr);
           if k =? IPROTO_DATA then
             '(arr_len, rptr) ← of_read (mp_decode_array resp rptr);
             if 0 <? arr_len then
               '(tuple_len, rptr) ← of_read (mp_decode_array resp rptr);
               '(v, rptr) ← of_read (tuple_value tuple_len resp rptr);
               match v with
               | None => get_loop f (n - 1) resp rptr val
               | Some (vstr, vlen) =>
                   ok ← malloc;
                   if (ok : bool) then
                     bs ← of_read (copy resp vstr vlen);
                     get_loop f (n - 1) resp rptr (Str (Some bs) (i32 vlen))
                   else get_loop f (n - 1) resp rptr (Str None (slen val))
               end
             else get_loop f (n - 1) resp rptr val
           else
             '(_, rptr) ← of_read (mp_next resp rptr);
             get_loop f (n - 1) resp rptr val
       end.

(** The return code and, when it is reached, what is stored in [*val]. *)
Definition tarantool_get (attr : option str) : MT (Z * option str) :=
  match attr with
  | None => mret (-1, None)
  | Some attr =>
      c ← tnt_get_conn;
      match c with
      | None => mret (-1, None)
      | Some i =>
          sync_id ← next_sync i;
          t ← get;
          let buf := finalize_packet (pack_select_header sync_id (space_id t)
                                      ++ mp_encode_string attr) in
          _ ← in_buffer 1024 buf;
          resp ← exchange false i buf 4096;
          match resp with
          | None => mret (-1, None)
          | Some resp =>
              rc ← status_of i resp sync_id;
              if rc <? 0 then mret (-1, None) else
              '(header_map, rptr) ← of_read (mp_decode_map resp 0);
              rptr ← of_read (skip_header (S (length resp)) header_map resp rptr);
              '(body_map, rptr) ← of_read (mp_decode_map resp rptr);
              val ← get_loop (S (length resp)) body_map resp rptr (Str None 0);
              mret (if bool_decide (is_Some (chars val)) then 0 else -2, Some val)
          end
      end
  end.

(** The return code, the bytes stored in [buf], [*vlen] and [*needed]. *)
Definition tarantool_get_buf (attr : option str) (buflen : Z)
  : MT (Z * list Z * option Z * option Z) :=
  '(rc, val) ← tarantool_get attr;
  match val with
  | Some val =>
      match chars val with
      | Some bs =>
          if rc =? 0 then
            if buflen <? u32 (slen val) then mret (-3, [], None, Some (u32 (slen val)))
            else v ← of_read (copy bs 0 (slen val)); mret (0, v, Some (u32 (slen val)), None)
          else mret (rc, [], None, None)
      | None => mret (rc, [], None, None)
      end
  | None => mret (rc, [], None, None)
  end.

Definition tarantool_set (attr val : option str) (expires : Z) : MT Z :=
  match attr, val with
  | Some attr, Some val =>
      c ← tnt_get_conn;
      match c with
      | None => mret (-1)
      | Some i =>
          now ← time_;
          let exp := if 0 <? expires then u64 (now + expires) else u64 (now + 3600) in
          sync_id ← next_sync i;
          t ← get;
          let hdr_buf := finalize_packet (set_payload sync_id (space_id t) attr val now exp) in
          _ ← in_buffer 256 hdr_buf;
          resp ← exchange true i hdr_buf 512;
          match resp with
          | None => mret (-1)
          | Some resp => status_of i resp sync_id
          end
      end
  | _, _ => mret (-1)
  end.

Definition tarantool_remove (attr : option str) : MT Z :=
  match attr with
  | None => mret (-1)
  | Some attr =>
      c ← tnt_get_conn;
      match c with
      | None => mret (-1)
      | Some i =>
          sync_id ← next_sync i;
          t ← get;
          let buf := finalize_packet (pack_delete_header sync_id (space_id t)
                                      ++ mp_encode_string attr) in
          _ ← in_buffer 1024 buf;
          resp ← exchange false i buf 512;
          match resp with
          | None => mret (-1)
          | Some resp => status_of i resp sync_id
          end
      end
  end.

(** The return code and what is stored in [*num_rows]; [out]: [reply && num_rows]. *)
Definition tarantool_raw_query (query : option str) (out : bool) : MT (Z * option Z) :=
  match query with
  | None => mret (-1, None)
  | Some query =>
      c ← tnt_get_conn;
      match c with
      | None => mret (-1, None)
      | Some i =>
          sync_id ← next_sync i;
          let buf := finalize_packet (query_payload sync_id query) in
          _ ← in_buffer 4096 buf;
          resp ← exchange false i buf 4096;
          match resp with
          | None => mret (-1, None)
          | Some resp =>
              rc ← status_of i resp sync_id;
              mret (if rc <? 0 then (-1, None) else (0, if out then Some 0 else None))
          end
      end
  end.

(** The return code and what is stored in [*res], when [res] is not null. *)
Definition tarantool_call_proc (proc args : option str) (res : bool) : MT (Z * option str) :=
  match proc with
  | None => mret (-1, None)
  | Some proc =>
      c ← tnt_get_conn;
      match c with
      | None => mret (-1, None)
      | Some i =>
          sync_id ← next_sync i;
          let buf := finalize_packet (call_payload sync_id proc args) in
          _ ← in_buffer 4096 buf;
          resp ← exchange false i buf 4096;
          match resp with
          | None => mret (-1, None)
          | Some resp =>
              rc ← status_of i resp sync_id;
              mret (if rc <? 0 then (-1, None) else (0, if res then Some (Str None 0) else None))
          end
      end
  end.

Definition tarantool_eval_expr (expr : option str) : MT Z :=
  '(rc, _) ← tarantool_raw_query expr false; mret rc.
