(* ===== verification/OpenSipsWire.v ===== *)
(** The bytes the OpenSIPS driver writes and how it reads responses: requests are
    the intended MessagePack values, and the status, space and value readers agree
    with the abstract response on every well-formed frame. *)
From S2P Require Export MpReader NetFacts OpenSips.

(** * Requests *)

Lemma auth_payload_request user scr : len user < 2 ^ 32 -> len scr = 20 ->
  auth_payload (mp_encode_string (str_of user)) scr =
  request [(uint_mp IPROTO_REQUEST_TYPE, uint_mp IPROTO_AUTH); (uint_mp IPROTO_SYNC, uint_mp 1)]
          [(uint_mp IPROTO_USER_NAME, mstr user);
           (uint_mp IPROTO_TUPLE, MArr FFix [mstr (lit "chap-sha1"); MBin F8 scr])].
Proof.
  intros Hu Hs. unfold auth_payload. rewrite mp_encode_string_of by done.
  rewrite (mp_encode_lit _ 9) by done.
  unfold TNT_SHA1_DIGEST_SIZE. rewrite <- Hs, mp_encode_bin_bytes, Hs by (rewrite Hs; done).
  by request_bytes.
Qed.

Lemma select_request sync sid attr : len attr < 2 ^ 32 ->
  pack_select_header sync sid ++ mp_encode_string (str_of attr) =
  request [(uint_mp IPROTO_REQUEST_TYPE, uint_mp IPROTO_SELECT); (uint_mp IPROTO_SYNC, uint_mp sync)]
          [(uint_mp IPROTO_SPACE_ID, uint_mp sid); (uint_mp IPROTO_INDEX_ID, uint_mp 0);
           (uint_mp IPROTO_LIMIT, uint_mp 1); (uint_mp IPROTO_OFFSET, uint_mp 0);
           (uint_mp IPROTO_ITERATOR, uint_mp 0); (uint_mp IPROTO_KEY, MArr FFix [mstr attr])].
Proof.
  intros Hu. unfold pack_select_header. rewrite mp_encode_string_of by done.
  by request_bytes.
Qed.

Lemma delete_request sync sid attr : len attr < 2 ^ 32 ->
  pack_delete_header sync sid ++ mp_encode_string (str_of attr) =
  request [(uint_mp IPROTO_REQUEST_TYPE, uint_mp IPROTO_DELETE); (uint_mp IPROTO_SYNC, uint_mp sync)]
          [(uint_mp IPROTO_SPACE_ID, uint_mp sid); (uint_mp IPROTO_INDEX_ID, uint_mp 0);
           (uint_mp IPROTO_KEY, MArr FFix [mstr attr])].
Proof.
  intros Hu. unfold pack_delete_header. rewrite mp_encode_string_of by done.
  by request_bytes.
Qed.

(** The tuple [tarantool_set] stores. *)
Definition call_tuple (attr : list Z) (now exp : Z) (val : list Z) : list mp :=
  [mstr attr; mstr (lit "opensips"); mstr (lit "active");
   uint_mp (u64 now); uint_mp (u64 now); uint_mp exp; mstr val].

Lemma set_request sync sid attr val now exp : len attr < 2 ^ 32 -> len val < 2 ^ 32 ->
  set_payload sync sid (str_of attr) (str_of val) now exp =
  request [(uint_mp IPROTO_REQUEST_TYPE, uint_mp IPROTO_REPLACE); (uint_mp IPROTO_SYNC, uint_mp sync)]
          [(uint_mp IPROTO_SPACE_ID, uint_mp sid);
           (uint_mp IPROTO_TUPLE, MArr FFix (call_tuple attr now exp val))].
Proof.
  intros Ha Hv. unfold set_payload, call_tuple. rewrite !mp_encode_string_of by done.
  rewrite (mp_encode_lit _ 8), (mp_encode_lit _ 6) by done.
  by request_bytes.
Qed.

Lemma query_request sync q : len q < 2 ^ 32 ->
  query_payload sync (str_of q) =
  request [(uint_mp IPROTO_REQUEST_TYPE, uint_mp IPROTO_EVAL); (uint_mp IPROTO_SYNC, uint_mp sync)]
          [(uint_mp IPROTO_EXPR, mstr q); (uint_mp IPROTO_TUPLE, MArr FFix [])].
Proof.
  intros Hq. unfold query_payload. rewrite mp_encode_string_of by done.
  by request_bytes.
Qed.

Lemma call_request sync proc args : len proc < 2 ^ 32 -> len args < 2 ^ 32 ->
  call_payload sync (str_of proc) (Some (str_of args)) =
  request [(uint_mp IPROTO_REQUEST_TYPE, uint_mp IPROTO_CALL); (uint_mp IPROTO_SYNC, uint_mp sync)]
          [(uint_mp IPROTO_FUNCTION_NAME, mstr proc);
           (uint_mp IPROTO_TUPLE, MArr FFix (match args with [] => [] | _ => [mstr args] end))].
Proof.
  intros Hq Ha. unfold call_payload. rewrite mp_encode_string_of by done.
  destruct args as [|a args].
  - by request_bytes.
  - cbn [slen str_of]. destruct (0 <? len (a :: args)) eqn:E; [|lens; pose proof (len_nonneg args); lia].
    rewrite mp_encode_string_of by done. by request_bytes.
Qed.

(** * Lengths *)

Lemma len_mstr bs : 1 + len bs <= len (mp_bytes (mstr bs)) <= 5 + len bs.
Proof.
  unfold mstr, str_fmt. repeat (destruct (_ <=? _)); cbn [mp_bytes hdr]; lens;
    rewrite ?len_be_bytes; lia.
Qed.

Lemma len_mstr_small bs : len bs <= 255 -> len (mp_bytes (mstr bs)) <= 2 + len bs.
Proof.
  intros H. unfold mstr, str_fmt. destruct (_ <=? 31); [cbn [mp_bytes hdr]; lens; lia|].
  destruct (_ <=? 0xff) eqn:E; [|lia]. cbn [mp_bytes hdr]. lens. change (len (be_bytes 1 (len bs))) with 1. lia.
Qed.

(** * Reading responses *)

Lemma at_kv buf p k v kvs : at_ buf p (kv_bytes ((k, v) :: kvs)) ->
  at_ buf p (mp_bytes k) /\ at_ buf (p + len (mp_bytes k)) (mp_bytes v) /\
  at_ buf (p + len (mp_bytes k) + len (mp_bytes v)) (kv_bytes kvs).
Proof.
  unfold kv_bytes. cbn [flat_map fst snd]. rewrite <- app_assoc, !at_app.
  tauto.
Qed.

Lemma len_kv k v kvs :
  len (kv_bytes ((k, v) :: kvs)) = len (mp_bytes k) + len (mp_bytes v) + len (kv_bytes kvs).
Proof. unfold kv_bytes. cbn [flat_map fst snd]. lens. lia. Qed.

(** What the status check should answer: the first key that settles it. *)
Fixpoint status_spec (kvs : list (mp * mp)) (want_sync : Z) : Z :=
  match kvs with
  | [] => 0
  | (k, v) :: r =>
      if decide (uint_val k = Some IPROTO_REQUEST_TYPE) then
        if decide (uint_val v = Some IPROTO_OK) then status_spec r want_sync else -1
      else if decide (uint_val k = Some IPROTO_SYNC) then
        if decide (uint_val v = Some want_sync) then status_spec r want_sync else -2
      else status_spec r want_sync
  end.

(** A header: numeric keys, the type and the sync with numeric values. *)
Definition header_ok (kvs : list (mp * mp)) : Prop :=
  Forall (fun kv => exists k, uint_val kv.1 = Some k /\ mp_wf kv.2 /\
    (k = IPROTO_REQUEST_TYPE \/ k = IPROTO_SYNC -> is_Some (uint_val kv.2))) kvs.

Lemma status_loop_ok want body kvs : header_ok kvs -> buf_ok body ->
  forall f p, 0 <= p -> at_ body p (kv_bytes kvs) -> (length kvs < f)%nat ->
  status_loop f (len kvs) want body p = Some (status_spec kvs want).
Proof.
  intros Hh Hb. induction Hh as [|[k v] kvs (n & Hk & Hwf & Hnum) _ IH]; intros f p Hp Hat Hf.
  { destruct f; done. }
  cbn [fst snd] in *. apply at_kv in Hat as (Hak & Hav & Har).
  pose proof (mp_bytes_pos k). pose proof (mp_bytes_pos v). pose proof (len_nonneg kvs).
  destruct (at_range _ _ _ Hak ltac:(intros E; rewrite E in *; lens; lia)) as [_ ?].
  destruct f as [|f]; [lia|]. cbn [status_loop status_spec].
  rewrite len_cons. destruct ((0 <? 1 + len kvs) && (p <? len body)) eqn:E; [|lia].
  rewrite (mp_decode_uint_val _ _ _ _ Hk Hak). cbn [mbind option_bind].
  replace (1 + len kvs - 1) with (len kvs) by lia. cbn in Hf.
  destruct (n =? IPROTO_REQUEST_TYPE) eqn:E0.
  { assert (n = IPROTO_REQUEST_TYPE) as -> by lia. rewrite decide_True by done.
    destruct Hnum as [c Hc]; [tauto|]. rewrite (mp_decode_uint_val _ _ _ _ Hc Hav). cbn [mbind option_bind].
    rewrite Hc. destruct (c =? IPROTO_OK) eqn:Ec.
    - assert (c = IPROTO_OK) as -> by lia. rewrite decide_True by done. apply IH; [lia|done|lia].
    - rewrite decide_False; [done|]. intros [= ->]. done. }
  rewrite decide_False by (rewrite Hk; intros [= ->]; lia).
  destruct (n =? IPROTO_SYNC) eqn:E1.
  { assert (n = IPROTO_SYNC) as -> by lia. rewrite decide_True by done.
    destruct Hnum as [c Hc]; [tauto|]. rewrite (mp_decode_uint_val _ _ _ _ Hc Hav). cbn [mbind option_bind].
    rewrite Hc. destruct (c =? want) eqn:Ec.
    - assert (c = want) as -> by lia. rewrite decide_True by done. apply IH; [lia|done|lia].
    - rewrite decide_False; [done|]. intros [= ->]. lia. }
  rewrite decide_False by (rewrite Hk; intros [= ->]; lia).
  rewrite mp_next_at with (v := v) by (done || lia). cbn [mbind option_bind]. apply IH; [lia|done|lia].
Qed.

(** A map has no more entries than bytes. *)
Lemma map_count_le f kvs rest : (length kvs < length (mp_bytes (MMap f kvs) ++ rest))%nat.
Proof.
  assert (len kvs <= len (kv_bytes kvs)) as Hl.
  { induction kvs as [|[k v] h IH]; [done|]. rewrite len_kv, len_cons.
    pose proof (mp_bytes_pos k). pose proof (len_nonneg (mp_bytes v)). lia. }
  assert (0 < len (hdr MP_FIXMAP MP_MAP16 MP_MAP16 MP_MAP32 f (len kvs))) as Hh.
  { destruct f; cbn [hdr]; rewrite len_cons; pose proof (len_nonneg (@nil Z));
      pose proof (len_nonneg (be_bytes 1 (len kvs))); pose proof (len_nonneg (be_bytes 2 (len kvs)));
      pose proof (len_nonneg (be_bytes 4 (len kvs))); lia. }
  cbn [mp_bytes]. fold (kv_bytes kvs). unfold len in *. rewrite !length_app. lia.
Qed.

Lemma check_status_ok f header rest want :
  mp_wf (MMap f header) -> header_ok header -> bytes_ok (mp_bytes (MMap f header) ++ rest) ->
  check_iproto_status (Some (mp_bytes (MMap f header) ++ rest)) want = Some (status_spec header want).
Proof.
  intros Hwf Hh Hb. unfold check_iproto_status.
  set (body := mp_bytes (MMap f header) ++ rest) in *.
  pose proof (mp_bytes_pos (MMap f header)). pose proof (len_nonneg rest).
  destruct (len body =? 0) eqn:E; [unfold body in E; lens; lia|].
  destruct (map_at body 0 f header Hwf) as (q & Hd & Hq & Hk & Hend); [apply at_start|].
  rewrite Hd. cbn [mbind option_bind].
  apply status_loop_ok; [done|by apply bytes_buf_ok|lia|done|].
  pose proof (map_count_le f header rest). unfold body. lia.
Qed.

(** ** Skipping the header *)

Definition keys_ok (kvs : list (mp * mp)) : Prop :=
  Forall (fun kv => is_Some (uint_val kv.1) /\ mp_wf kv.2) kvs.

Lemma header_keys kvs : header_ok kvs -> keys_ok kvs.
Proof. intros H. eapply Forall_impl; [exact H|]. intros [k v] (n & ? & ? & _). split; [by eexists|done]. Qed.

Lemma skip_header_ok buf kvs : keys_ok kvs -> buf_ok buf ->
  forall f p, 0 <= p -> at_ buf p (kv_bytes kvs) -> (length kvs <= f)%nat ->
  skip_header f (len kvs) buf p = Some (p + len (kv_bytes kvs)).
Proof.
  intros Hh Hb. induction Hh as [|[k v] kvs ((n & Hk) & Hwf) _ IH]; intros f p Hp Hat Hf.
  { change (len (kv_bytes [])) with 0. rewrite Z.add_0_r. by destruct f. }
  cbn [fst snd] in *. apply at_kv in Hat as (Hak & Hav & Har).
  pose proof (mp_bytes_pos k). pose proof (mp_bytes_pos v). pose proof (len_nonneg kvs).
  destruct f as [|f]; [cbn in Hf; lia|]. cbn [skip_header]. rewrite len_cons, len_kv.
  destruct (1 + len kvs <=? 0) eqn:E; [lia|].
  rewrite (mp_decode_uint_val _ _ _ _ Hk Hak). cbn [mbind option_bind].
  rewrite mp_next_at with (v := v) by (done || lia). cbn [mbind option_bind].
  replace (1 + len kvs - 1) with (len kvs) by lia. cbn in Hf.
  rewrite IH by (done || lia). f_equal. lia.
Qed.

(** ** The space identifier *)

Lemma resolve_loop_ok buf kvs sid : keys_ok kvs -> buf_ok buf ->
  Forall (fun kv => uint_val kv.1 <> Some IPROTO_DATA) kvs ->
  forall f p, 0 <= p -> at_ buf p (kv_bytes kvs) -> (length kvs <= f)%nat ->
  resolve_loop f (len kvs) buf p sid = Some sid.
Proof.
  intros Hh Hb. induction Hh as [|[k v] kvs ((n & Hk) & Hwf) _ IH]; intros Hd f p Hp Hat Hf.
  { by destruct f. }
  apply Forall_cons in Hd as [Hd Hds].
  cbn [fst snd] in *. apply at_kv in Hat as (Hak & Hav & Har).
  pose proof (mp_bytes_pos k). pose proof (mp_bytes_pos v). pose proof (len_nonneg kvs).
  destruct f as [|f]; [cbn in Hf; lia|]. cbn [resolve_loop]. rewrite len_cons.
  destruct (1 + len kvs <=? 0) eqn:E; [lia|].
  rewrite (mp_decode_uint_val _ _ _ _ Hk Hak). cbn [mbind option_bind].
  destruct (n =? IPROTO_DATA) eqn:En.
  { exfalso. apply Hd. rewrite Hk. f_equal. lia. }
  rewrite mp_next_at with (v := v) by (done || lia). cbn [mbind option_bind].
  replace (1 + len kvs - 1) with (len kvs) by lia. cbn in Hf. apply IH; (done || lia).
Qed.

(** ** The value of a tuple *)

(** Tuples of the session space (seven fields and more), and key-value pairs. *)
Inductive tuple_ok : list mp -> list Z -> Prop :=
| tuple7 f1 s1 f2 s2 f3 s3 u4 u5 u6 f7 payload rest :
    is_Some (uint_val u4) -> is_Some (uint_val u5) -> is_Some (uint_val u6) ->
    tuple_ok (MStr f1 s1 :: MStr f2 s2 :: MStr f3 s3 :: u4 :: u5 :: u6 :: MStr f7 payload :: rest)
             payload
| tuple2 f1 s1 f2 payload rest :
    len rest < 5 -> tuple_ok (MStr f1 s1 :: MStr f2 payload :: rest) payload.

(** Step a reader through the next string or number of the buffer. *)
Ltac str_go := match goal with
  | Hat : at_ ?buf ?p (flat_map mp_bytes (MStr ?f ?s :: ?r)), Hwf : Forall mp_wf (MStr ?f ?s :: ?r) |- _ =>
      let v := fresh "v" in let Hd := fresh "Hd" in let Hv := fresh "Hv" in let Hr := fresh "Hr" in
      apply Forall_cons in Hwf as [?Hw Hwf];
      destruct (str_step buf p f s (flat_map mp_bytes r)) as (v & Hd & Hv & Hr); [done|exact Hat|];
      clear Hat; rewrite (R_bind_eq _ _ _ _ _ _ Hd)
  end.
Ltac uint_go := match goal with
  | Hat : at_ ?buf ?p (flat_map mp_bytes (?u :: ?r)), Hwf : Forall mp_wf (?u :: ?r),
    Hu : is_Some (uint_val ?u) |- _ =>
      let n := fresh "n" in let Hn := fresh "Hn" in let Hd := fresh "Hd" in let Hr := fresh "Hr" in
      apply Forall_cons in Hwf as [?Hw Hwf]; destruct Hu as [n Hn];
      destruct (uint_step buf p u n (flat_map mp_bytes r)) as (Hd & Hr); [done|exact Hat|];
      clear Hat; rewrite (R_bind_eq _ _ _ _ _ _ Hd)
  end.

Lemma tuple_value_ok buf p tuple payload :
  tuple_ok tuple payload -> Forall mp_wf tuple -> at_ buf p (flat_map mp_bytes tuple) ->
  exists v q, tuple_value (len tuple) buf p = Some (Some (v, len payload), q) /\ at_ buf v payload.
Proof.
  intros Ht Hwf Hat. unfold tuple_value. destruct Ht as [? ? ? ? ? ? u4 u5 u6 ? ? rest H4 H5 H6|? ? ? ? rest Hr].
  - pose proof (len_nonneg rest). lens. destruct (7 <=? _) eqn:E; [|lia].
    do 3 str_go. do 3 uint_go. str_go. eauto.
  - pose proof (len_nonneg rest). lens. destruct (7 <=? _) eqn:E; [lia|].
    destruct (2 <=? _) eqn:E2; [|lia]. do 2 str_go. eauto.
Qed.

(** ** The value in the body of a SELECT response *)

(** The body of a response: other keys, then the rows found, the first one [tuple]. *)
Definition found_body (fb fa ft : mpfmt) (others : list (mp * mp)) (dk : mp) (tuple : list mp)
    (rows : list mp) : mp :=
  MMap fb (others ++ [(dk, MArr fa (MArr ft tuple :: rows))]).

Definition others_ok (kvs : list (mp * mp)) : Prop :=
  keys_ok kvs /\ Forall (fun kv => uint_val kv.1 <> Some IPROTO_DATA) kvs.

Lemma get_loop_others buf others kvs : others_ok others -> buf_ok buf ->
  forall f p d w val, 0 <= p -> at_ buf p (kv_bytes (others ++ kvs)) ->
  get_loop (length others + f) (len (others ++ kvs)) buf p val d w =
  get_loop f (len kvs) buf (p + len (kv_bytes others)) val d w.
Proof.
  intros [Hh Hne] Hb. induction Hh as [|[k v] others ((n & Hk) & Hwf) _ IH]; intros f p d w val Hp Hat.
  { cbn. by rewrite Z.add_0_r. }
  apply Forall_cons in Hne as [Hd Hds]. cbn [fst snd app] in *.
  apply at_kv in Hat as (Hak & Hav & Har).
  pose proof (mp_bytes_pos k). pose proof (mp_bytes_pos v).
  pose proof (len_nonneg (others ++ kvs)).
  cbn [length Nat.add get_loop]. rewrite len_cons, len_kv.
  destruct (1 + len (others ++ kvs) <=? 0) eqn:E; [lia|].
  run (mp_decode_uint_val _ _ _ _ Hk Hak).
  destruct (n =? IPROTO_DATA) eqn:En.
  { exfalso. apply Hd. rewrite Hk. f_equal. lia. }
  run (mp_next_at v buf (p + len (mp_bytes k)) Hb Hwf ltac:(lia) Hav).
  replace (1 + len (others ++ kvs) - 1) with (len (others ++ kvs)) by lia.
  rewrite IH by (done || lia). f_equal. lia.
Qed.

Lemma get_loop_found buf fa ft dk tuple rows payload : buf_ok buf ->
  uint_val dk = Some IPROTO_DATA -> mp_wf (MArr fa (MArr ft tuple :: rows)) ->
  tuple_ok tuple payload -> len buf < 2 ^ 31 ->
  forall f p d w val, at_ buf p (kv_bytes [(dk, MArr fa (MArr ft tuple :: rows))]) -> w_malloc w = [] ->
  get_loop (S (S f)) 1 buf p val d w = Ret (str_of payload) d w.
Proof.
  intros Hb Hdk Hwf Ht Hlen f p d w val Hat Hm. apply at_kv in Hat as (Hak & Hav & _).
  apply mp_wf_arr in Hwf as [Hfa Hrows]. apply Forall_cons in Hrows as [Hrow _].
  apply mp_wf_arr in Hrow as [Hft Hfields].
  cbn [mp_bytes] in Hav. apply at_app in Hav as [Ha Hav]. cbn [flat_map mp_bytes] in Hav.
  rewrite <- app_assoc in Hav. apply at_app in Hav as [Hta Hav]. apply at_app in Hav as [Htup _].
  cbn [get_loop]. change (1 <=? 0) with false. cbv iota.
  run (mp_decode_uint_val _ _ _ _ Hdk Hak).
  change (IPROTO_DATA =? IPROTO_DATA) with true. cbv iota.
  run (mp_decode_array_at buf _ fa _ (conj (len_nonneg _) Hfa) Ha).
  destruct (0 <? _) eqn:E; [|rewrite len_cons in E; pose proof (len_nonneg rows); lia].
  run (mp_decode_array_at buf _ ft _ (conj (len_nonneg _) Hft) Hta).
  destruct (tuple_value_ok _ _ _ _ Ht Hfields Htup) as (v & q & Hv & Hp). run Hv.
  run (malloc_free d w Hm). run (at_copy _ _ _ Hp).
  assert (i32 (len payload) = len payload) as ->; [|by destruct f].
  apply i32_id. pose proof (len_nonneg payload). split; [lia|].
  destruct payload as [|x payload]; [done|]. destruct (at_range _ _ _ Hp); [done|lia].
Qed.
