(* ===== verification/OpenSipsFacts.v ===== *)
(** The OpenSIPS driver's operations: writing vectors, frames, errors and the
    circuit breaker, connecting, the round-robin pool and its invariant. *)
From S2P Require Export Breaker OpenSipsWire.

(** * The state at one connection *)

Definition put_conn (t : tnt_cluster_con) (i : Z) (c : tnt_single_conn) : tnt_cluster_con :=
  upd_at i (fun _ => c) t.

Lemma conn_at_range t i c : conn_at t i = Some c -> 0 <= i.
Proof.
  unfold conn_at. destruct (conns t); [|done]. cbn. destruct (0 <=? i) eqn:E; [lia|done].
Qed.

Lemma conn_at_put t i c0 c : conn_at t i = Some c0 -> conn_at (put_conn t i c) i = Some c.
Proof.
  unfold conn_at, put_conn, upd_at. cbn. destruct (conns t) as [cs|]; [|done]. cbn.
  destruct (0 <=? i); [|done]. intros H. rewrite list_lookup_alter, decide_True by done.
  by rewrite H.
Qed.

Lemma put_put t i c c' : put_conn (put_conn t i c) i c' = put_conn t i c'.
Proof.
  unfold put_conn, upd_at. cbn. destruct (conns t) as [cs|]; [|done]. cbn.
  do 2 f_equal. apply list_eq. intros j. rewrite !list_lookup_alter.
  case_decide; [|done]. rewrite decide_True by done. by destruct (cs !! Z.to_nat i).
Qed.

Lemma upd_at_put t i c f : conn_at t i = Some c -> upd_at i f t = put_conn t i (f c).
Proof.
  unfold conn_at, put_conn, upd_at. destruct (conns t) as [cs|]; [|done]. cbn.
  destruct (0 <=? i); [|done]. intros H. do 2 f_equal.
  apply list_eq. intros j. rewrite !list_lookup_alter.
  case_decide; [|done]. subst. by rewrite H.
Qed.

Lemma put_same t i c : conn_at t i = Some c -> put_conn t i c = t.
Proof.
  unfold conn_at, put_conn, upd_at. destruct t as [cf sid idx [cs|]]; [|done]. cbn.
  destruct (0 <=? i); [|done]. intros H. unfold set_conns. cbn. do 2 f_equal.
  apply list_eq. intros j. rewrite !list_lookup_alter. case_decide; [|done]. subst. by rewrite H.
Qed.

Lemma put_inv t i c0 c : conn_at t i = Some c0 ->
  cfg (put_conn t i c) = cfg t /\ space_id (put_conn t i c) = space_id t /\
  current_idx (put_conn t i c) = current_idx t.
Proof. done. Qed.

(** Simplify the fields of a connection. *)
Ltac csimp := cbn [set_fd set_state set_sync set_activity set_until set_errors sock_fd state
  sync_counter last_activity disabled_until consecutive_errors].

(** Running reads and assignments of the connection. *)
Lemma bind_conn {B} i (k : tnt_single_conn -> MT B) t w c :
  conn_at t i = Some c -> (conn i ≫= k) t w = k c t w.
Proof. intros H. unfold conn, mbind, M_bind, get. by rewrite H. Qed.

Lemma run_upd i f t w c :
  conn_at t i = Some c -> upd i f t w = Ret tt (put_conn t i (f c)) w.
Proof.
  intros H. unfold upd. rewrite (bind_conn _ _ _ _ _ H). unfold modify.
  by rewrite (upd_at_put _ _ _ _ H).
Qed.

Lemma bind_upd {B} i f (k : unit -> MT B) t w c :
  conn_at t i = Some c -> (upd i f ≫= k) t w = k tt (put_conn t i (f c)) w.
Proof. intros H. by rewrite (bind_ret _ _ _ _ _ _ _ (run_upd i f t w c H)). Qed.

(** The same after assignments: the connection's value is the last one put. *)
Lemma bind_conn_put {B} i (k : tnt_single_conn -> MT B) t w c0 c :
  conn_at t i = Some c0 -> (conn i ≫= k) (put_conn t i c) w = k c (put_conn t i c) w.
Proof. intros H. apply bind_conn. by eapply conn_at_put. Qed.

Lemma run_upd_put i f t w c0 c : conn_at t i = Some c0 ->
  upd i f (put_conn t i c) w = Ret tt (put_conn t i (f c)) w.
Proof.
  intros H. rewrite (run_upd i f _ w c) by (by eapply conn_at_put). by rewrite put_put.
Qed.

Lemma bind_upd_put {B} i f (k : unit -> MT B) t w c0 c : conn_at t i = Some c0 ->
  (upd i f ≫= k) (put_conn t i c) w = k tt (put_conn t i (f c)) w.
Proof. intros H. by rewrite (bind_ret _ _ _ _ _ _ _ (run_upd_put i f t w c0 c H)). Qed.

Lemma bind_conn_if {A B} (b : bool) (m1 m2 : MT A) (k : A -> MT B) t w :
  ((if b then m1 else m2) ≫= k) t w = if b then (m1 ≫= k) t w else (m2 ≫= k) t w.
Proof. by destruct b. Qed.

(** * Errors and the breaker *)

#[export] Instance tnt_breaker : IsBreaker tnt_single_conn.
Proof.
  refine {| view := fun c => Br (consecutive_errors c)
                       (if decide (state c = TNT_STATE_DISABLED) then Some (disabled_until c) else None);
            refuses := fun now c => bool_decide (state c = TNT_STATE_DISABLED) && (now <? disabled_until c) |}.
  intros now c. unfold allow. cbn [open].
  destruct (decide (state c = TNT_STATE_DISABLED)) as [e|e].
  - rewrite (bool_decide_eq_true_2 _ e). by destruct (now <? disabled_until c).
  - rewrite (bool_decide_eq_false_2 _ e). by split.
Defined.

Definition tnt_policy (t : tnt_cluster_con) : policy :=
  Policy (allowed_errors (cfg t)) (disable_time_sec (cfg t)).

(** The connection after an error noticed at [now]. *)
Definition failed_conn (t : tnt_cluster_con) (now : Z) (c : tnt_single_conn) : tnt_single_conn :=
  let n := consecutive_errors c + 1 in
  let fd := if 0 <=? sock_fd c then -1 else sock_fd c in
  if allowed_errors (cfg t) <=? n
  then Conn fd TNT_STATE_DISABLED (sync_counter c) (last_activity c)
            (now + disable_time_sec (cfg t)) n
  else Conn fd TNT_STATE_ERROR (sync_counter c) (last_activity c) (disabled_until c) n.

Definition closed_world (c : tnt_single_conn) (w : world) : world :=
  if 0 <=? sock_fd c then sys_close (sock_fd c) w else w.

Lemma tnt_conn_error_ok t i c w : conn_at t i = Some c ->
  let w1 := closed_world c w in
  tnt_conn_error i t w =
    Ret tt (put_conn t i (failed_conn t (sys_time w1).1 c))
        (if allowed_errors (cfg t) <=? consecutive_errors c + 1 then (sys_time w1).2 else w1).
Proof.
  intros H. cbv zeta. unfold tnt_conn_error, failed_conn, closed_world.
  rewrite (bind_conn _ _ _ _ _ H), bind_conn_if.
  assert (forall (c1 : tnt_single_conn) w1 (k : unit -> MT unit),
    (mret tt ≫= k) (put_conn t i c1) w1 = k tt (put_conn t i c1) w1) as Hret by done.
  destruct (0 <=? sock_fd c) eqn:Efd.
  - rewrite bind_assoc. unfold close. 
    change ((sys_ (sys_close (sock_fd c)) ≫= ?k) t w) with (k tt t (sys_close (sock_fd c) w)). cbv beta.
    rewrite (bind_upd _ _ _ _ _ _ H), !(bind_upd_put _ _ _ _ _ _ _ H), (bind_conn_put _ _ _ _ _ _ H).
    rewrite bind_get. csimp. change (cfg (put_conn t i ?x)) with (cfg t).
    destruct (allowed_errors _ <=? _) eqn:E; [|by destruct c].
    rewrite (bind_upd_put _ _ _ _ _ _ _ H). unfold time_, sys, mbind, M_bind.
    destruct (sys_time _) as [now w1]. rewrite (run_upd_put _ _ _ _ _ _ H). by csimp.
  - rewrite bind_mret. 
    rewrite (bind_upd _ _ _ _ _ _ H), !(bind_upd_put _ _ _ _ _ _ _ H), (bind_conn_put _ _ _ _ _ _ H).
    rewrite bind_get. csimp. change (cfg (put_conn t i ?x)) with (cfg t).
    destruct (allowed_errors _ <=? _) eqn:E; [|by destruct c].
    rewrite (bind_upd_put _ _ _ _ _ _ _ H). unfold time_, sys, mbind, M_bind.
    destruct (sys_time _) as [now w1]. rewrite (run_upd_put _ _ _ _ _ _ H). by csimp.
Qed.

Lemma failed_view t now c : state c <> TNT_STATE_DISABLED ->
  view (failed_conn t now c) = fail (tnt_policy t) now (view c).
Proof.
  intros Hs. unfold failed_conn, fail. cbn [view tnt_breaker errs open threshold tnt_policy].
  rewrite (decide_False _ _ Hs). by destruct (_ <=? _).
Qed.

(** * Vectors *)

Lemma take_zdrop_app {A} (a b : list A) n : len a <= n -> zdrop n (a ++ b) = zdrop (n - len a) b.
Proof.
  unfold zdrop, len. intros H. rewrite drop_app_ge by lia. f_equal. lia.
Qed.

Lemma zdrop_app_short {A} (a b : list A) n : n < len a -> zdrop n (a ++ b) = zdrop n a ++ b.
Proof. unfold zdrop, len. intros H. apply drop_app_le. lia. Qed.

(** After [n] bytes of the vector are accepted the rest of it remains, and the
    first buffer left is not empty. *)
Lemma iov_advance_ok iov : forall n, 0 <= n ->
  concat (iov_advance iov n) = zdrop n (concat iov) /\
  (concat (iov_advance iov n) = [] -> iov_advance iov n = []).
Proof.
  induction iov as [|b iov IH]; intros n Hn; cbn [iov_advance concat].
  { split; [|done]. unfold zdrop. by rewrite drop_nil. }
  destruct (len b <=? n) eqn:E.
  - destruct (IH (n - len b) ltac:(lia)) as [E1 E2]. split; [|done].
    rewrite E1, take_zdrop_app by lia. done.
  - cbn [concat]. rewrite zdrop_app_short by lia. split; [done|].
    intros H. apply app_eq_nil in H as [H _]. apply (f_equal len) in H.
    rewrite len_drop in H by done. lens. lia.
Qed.

Lemma writev_loop_concat f : forall iov fd (t : tnt_cluster_con) w,
  (concat iov = [] -> iov = []) ->
  writev_loop f fd iov t w = send_loop retry_all true f fd (concat iov) t w.
Proof.
  induction f as [|f IH]; intros iov fd t w Hne.
  - destruct iov as [|b iov]; [done|]. cbn [writev_loop]. destruct (concat (b :: iov)); [|done].
    by discriminate Hne.
  - destruct iov as [|b0 iov0]; [done|]. set (iov := b0 :: iov0) in *.
    assert (exists x xs, concat iov = x :: xs) as (x & xs & Ec).
    { destruct (concat iov); [by discriminate Hne|eauto]. }
    change (writev_loop (S f) fd iov t w) with
      ((sys (sys_send fd (concat iov)) ≫= fun r => match r with
         | inl n => if n =? 0 then mret false else writev_loop f fd (iov_advance iov n)
         | inr e => if retry_all e then writev_loop f fd iov else mret false end) t w).
    assert (forall n, sys_send fd (concat iov) w = (inl n, (sys_send fd (concat iov) w).2) -> 0 <= n) as Hn.
    { unfold sys_send, send_tx. intros n. destruct (socks w !! fd) as [sk|]; [|done].
      destruct (tx sk) as [|[k|e] r]; intros [= <-]; apply len_nonneg. }
    rewrite Ec in *. cbn [send_loop]. unfold mbind, M_bind, sys.
    destruct (sys_send fd (x :: xs) w) as [[n|e] w'] eqn:Es.
    + rewrite andb_true_r. destruct (n =? 0); [done|].
      destruct (iov_advance_ok iov n (Hn n eq_refl)) as [E1 E2]. rewrite Ec in E1. rewrite <- E1.
      by apply IH.
    + destruct (retry_all e); [|done]. rewrite IH; rewrite Ec; [done|intros; discriminate].
Qed.

Lemma writev_all_concat iov fd (t : tnt_cluster_con) w : (concat iov = [] -> iov = []) ->
  tnt_writev_all fd iov t w = send_all retry_all true fd (concat iov) t w.
Proof. intros H. apply writev_loop_concat. done. Qed.

(** * Frames *)

Lemma read_frame_ok fd cap (t : tnt_cluster_con) w s0 resp evs :
  socks w !! fd = Some s0 -> stream retry_all (rx s0) (finalize_packet resp) evs ->
  0 < len resp <= 16 * 1024 * 1024 -> w_malloc w = [] ->
  tnt_read_frame fd cap t w = Ret (Some resp) t (with_sock w fd (set_rx s0 evs)).
Proof.
  intros Hs Hst Hl Hm. unfold tnt_read_frame, tnt_recv_all.
  rewrite finalize_split in Hst by lia.
  destruct (stream_app_inv _ _ _ _ Hst _ _ eq_refl) as (mid & H1 & H2).
  assert (len (MP_UINT32 :: be_bytes 4 (len resp)) = 5) as H5 by (by lens).
  run (recv_all_ok retry_all fd 5 t w s0 _ _ Hs H1 H5).
  run (eq_refl : rd (MP_UINT32 :: be_bytes 4 (len resp)) 0 = Some MP_UINT32).
  change (negb (MP_UINT32 =? MP_UINT32)) with false. cbv iota.
  run (prefix_len_be (len resp) ltac:(lia)).
  destruct ((len resp =? 0) || (16 * 1024 * 1024 <? len resp)) eqn:E; [lia|].
  assert ((if cap <? len resp then malloc else mret true) t (with_sock w fd (set_rx s0 mid)) =
          Ret true t (with_sock w fd (set_rx s0 mid))) as Hmal.
  { destruct (cap <? len resp); [|done]. by apply malloc_free. }
  run Hmal. cbn [negb].
  rewrite (recv_all_ok retry_all fd (len resp) t _ (set_rx s0 mid) _ _
             (with_sock_lookup w fd (set_rx s0 mid)) H2 eq_refl).
  by rewrite with_sock_twice.
Qed.

Definition sent_recvd (s0 : sock) (evs : list rx_ev) (bs : list Z) : sock :=
  Sock evs [] (wire s0 ++ bs).

Lemma exchange_ok wv i buf cap t w c s0 resp evs :
  conn_at t i = Some c -> socks w !! sock_fd c = Some s0 -> tx s0 = [] -> buf <> [] ->
  stream retry_all (rx s0) (finalize_packet resp) evs ->
  0 < len resp <= 16 * 1024 * 1024 -> w_malloc w = [] ->
  exchange wv i buf cap t w =
    Ret (Some resp) t (with_sock w (sock_fd c) (sent_recvd s0 evs buf)).
Proof.
  intros Hc Hs Htx Hb Hst Hl Hm. unfold exchange. rewrite (bind_conn _ _ _ _ _ Hc).
  assert ((if wv then tnt_writev_all (sock_fd c) [buf] else tnt_send_all (sock_fd c) buf) t w =
          Ret true t (with_sock w (sock_fd c) (sent s0 [] buf))) as Hsend.
  { destruct wv; [|by apply send_all_ok].
    rewrite writev_all_concat; [|by rewrite concat_cons, app_nil_r].
    rewrite concat_cons, app_nil_r. by apply send_all_ok. }
  run Hsend. cbn [negb].
  run (read_frame_ok (sock_fd c) cap t _ (sent s0 [] buf) resp evs
         (with_sock_lookup w _ _) Hst Hl Hm).
  by rewrite with_sock_twice.
Qed.

(** * The round-robin pool *)

Definition next_idx (t : tnt_cluster_con) : Z :=
  if pool_size (cfg t) <=? current_idx t + 1 then 0 else current_idx t + 1.

(** The connection that is next is ready. *)
Definition ready (t : tnt_cluster_con) (c : tnt_single_conn) : Prop :=
  0 < pool_size (cfg t) /\ conn_at t (current_idx t) = Some c /\
  state c = TNT_STATE_AUTHENTICATED /\ 0 <= sock_fd c.

Lemma conn_at_set_idx t i n : conn_at (set_idx t n) i = conn_at t i.
Proof. done. Qed.

Lemma get_conn_ready t c w s0 : ready t c -> socks w !! sock_fd c = Some s0 ->
  tnt_get_conn t w =
    Ret (Some (current_idx t)) (set_idx t (next_idx t))
        (with_sock w (sock_fd c) (set_rx s0 (drained (rx s0)))).
Proof.
  intros (Hp & Hc & Hst & Hfd) Hs. unfold tnt_get_conn. rewrite bind_get.
  destruct (pool_size (cfg t) <=? 0) eqn:E; [lia|]. rewrite !bind_modify.
  assert ((if pool_size (cfg (set_idx t (current_idx t + 1))) <=?
              current_idx (set_idx t (current_idx t + 1))
           then set_idx (set_idx t (current_idx t + 1)) 0
           else set_idx t (current_idx t + 1)) = set_idx t (next_idx t)) as ->.
  { unfold next_idx. cbn. by destruct (_ <=? current_idx t + 1). }
  rewrite (bind_conn _ _ (set_idx t (next_idx t)) _ c Hc).
  rewrite (bool_decide_eq_true_2 _ Hst). destruct (sock_fd c <? 0) eqn:E0; [lia|]. cbn [orb negb].
  rewrite bind_mret. cbn [negb]. rewrite (bind_conn _ _ (set_idx t (next_idx t)) _ c Hc).
  run (socket_drain_ok (sock_fd c) (set_idx t (next_idx t)) w s0 Hs Hfd). done.
Qed.

(** * Operations on a ready connection *)

Lemma next_sync_ok i t w c : conn_at t i = Some c ->
  next_sync i t w =
    Ret (u64 (sync_counter c + 1)) (put_conn t i (set_sync c (u64 (sync_counter c + 1)))) w.
Proof.
  intros H. unfold next_sync. rewrite (bind_upd _ _ _ _ _ _ H), (bind_conn_put _ _ _ _ _ _ H).
  by csimp.
Qed.

(** The request identifier the connection uses next. *)
Definition sync_of (c : tnt_single_conn) : Z := u64 (sync_counter c + 1).

(** The handle after a successful operation on the next connection. *)
Definition used (t : tnt_cluster_con) (c : tnt_single_conn) : tnt_cluster_con :=
  put_conn (set_idx t (next_idx t)) (current_idx t) (set_sync c (sync_of c)).

(** The request [buf] is sent and the response [resp] read, whatever was queued
    before and however the response is cut; [evs] is left. *)
Definition answers (w : world) (fd : Z) (resp : list Z) (evs : list rx_ev) : Prop :=
  exists s0, socks w !! fd = Some s0 /\ tx s0 = [] /\
    stream retry_all (drained (rx s0)) (finalize_packet resp) evs /\
    0 < len resp <= 16 * 1024 * 1024 /\ w_malloc w = [].

(** The world after that exchange. *)
Definition exchanged (w : world) (fd : Z) (evs : list rx_ev) (buf : list Z) : world :=
  with_sock w fd (Sock evs [] (match socks w !! fd with Some s0 => wire s0 | None => [] end ++ buf)).

Lemma finalize_nonempty p : finalize_packet p <> [].
Proof. done. Qed.

Lemma len_select_header sync sid : 18 <= len (pack_select_header sync sid) <= 34.
Proof.
  unfold pack_select_header. pose proof (len_encode_uint sync). pose proof (len_encode_uint sid).
  len_closed. lia.
Qed.

Lemma len_delete_header sync sid : 12 <= len (pack_delete_header sync sid) <= 28.
Proof.
  unfold pack_delete_header. pose proof (len_encode_uint sync). pose proof (len_encode_uint sid).
  len_closed. lia.
Qed.

Lemma len_string bs : len bs < 2 ^ 32 -> 1 + len bs <= len (mp_encode_string (str_of bs)) <= 5 + len bs.
Proof. intros H. rewrite mp_encode_string_of by done. apply len_mstr. Qed.

Lemma len_string_small bs : len bs <= 255 -> len (mp_encode_string (str_of bs)) <= 2 + len bs.
Proof. intros H. rewrite mp_encode_string_of by lia. by apply len_mstr_small. Qed.

(** [set_payload] without its two strings. *)
Lemma len_set_payload sync sid attr val now exp :
  let strs := len (mp_encode_string attr) + len (mp_encode_string val) in
  29 + strs <= len (set_payload sync sid attr val now exp) <= 69 + strs.
Proof.
  cbv zeta. unfold set_payload. pose proof (len_encode_uint sync). pose proof (len_encode_uint sid).
  pose proof (len_encode_uint (u64 now)). pose proof (len_encode_uint exp).
  len_closed. lia.
Qed.

(** Getting the next connection, taking a request identifier and exchanging
    messages over it: the part every operation starts with. *)
Lemma start_ok t c w resp evs : ready t c -> answers w (sock_fd c) resp evs ->
  exists w', tnt_get_conn t w = Ret (Some (current_idx t)) (set_idx t (next_idx t)) w' /\
    next_sync (current_idx t) (set_idx t (next_idx t)) w' = Ret (sync_of c) (used t c) w' /\
    (forall wv buf cap, buf <> [] ->
       exchange wv (current_idx t) buf cap (used t c) w' =
         Ret (Some resp) (used t c) (exchanged w (sock_fd c) evs buf)) /\
    w_malloc (exchanged w (sock_fd c) evs []) = [] /\ clock w' = clock w.
Proof.
  intros Hr (s0 & Hs & Htx & Hst & Hl & Hm). pose proof Hr as (_ & Hc & _).
  set (s1 := set_rx s0 (drained (rx s0))). exists (with_sock w (sock_fd c) s1).
  split; [by apply get_conn_ready|]. split; [by apply next_sync_ok|]. split; [|done].
  intros wv buf cap Hb. unfold used.
  rewrite (exchange_ok wv (current_idx t) buf cap _ _ (set_sync c (sync_of c)) s1 resp evs);
    try done.
  - csimp. rewrite with_sock_twice. unfold exchanged, sent_recvd. by rewrite Hs.
  - by eapply conn_at_put.
  - apply with_sock_lookup.
Qed.

Lemma status_of_ok i f header rest want t w :
  mp_wf (MMap f header) -> header_ok header -> bytes_ok (mp_bytes (MMap f header) ++ rest) ->
  status_spec header want = 0 ->
  status_of i (mp_bytes (MMap f header) ++ rest) want t w = Ret 0 t w.
Proof.
  intros Hwf Hh Hb H0. unfold status_of.
  run (check_status_ok f header rest want Hwf Hh Hb). by rewrite H0.
Qed.

Lemma used_space t c : space_id (used t c) = space_id t.
Proof. done. Qed.
