(* ===== verification/OpenSipsProps.v ===== *)
(** What the OpenSIPS driver's operations do, end to end. *)
From S2P Require Export OpenSipsFacts.

(** A response frame's content: the header, and the body. *)
Definition response (fh : mpfmt) (header : list (mp * mp)) (body : list Z) : list Z :=
  mp_bytes (MMap fh header) ++ body.

(** The response is well-formed, for the request [sync], and reports success. *)
Definition success (fh : mpfmt) (header : list (mp * mp)) (body : list Z) (sync : Z) : Prop :=
  mp_wf (MMap fh header) /\ header_ok header /\ bytes_ok (response fh header body) /\
  status_spec header sync = 0.

Definition select_frame (t : tnt_cluster_con) (c : tnt_single_conn) (attr : list Z) : list Z :=
  finalize_packet (request
    [(uint_mp IPROTO_REQUEST_TYPE, uint_mp IPROTO_SELECT); (uint_mp IPROTO_SYNC, uint_mp (sync_of c))]
    [(uint_mp IPROTO_SPACE_ID, uint_mp (space_id t)); (uint_mp IPROTO_INDEX_ID, uint_mp 0);
     (uint_mp IPROTO_LIMIT, uint_mp 1); (uint_mp IPROTO_OFFSET, uint_mp 0);
     (uint_mp IPROTO_ITERATOR, uint_mp 0); (uint_mp IPROTO_KEY, MArr FFix [mstr attr])]).

(** [tarantool_get] up to the loop over the response body. *)
Lemma tarantool_get_prefix t c w attr fh header body evs :
  ready t c -> answers w (sock_fd c) (response fh header body) evs ->
  len attr <= 980 -> success fh header body (sync_of c) ->
  tarantool_get (Some (str_of attr)) t w =
  (of_read (mp_decode_map (response fh header body) (len (mp_bytes (MMap fh header)))) ≫= fun r =>
   let '(body_map, rptr) := r in
   get_loop (S (length (response fh header body))) body_map (response fh header body) rptr (Str None 0)
   ≫= fun val => mret (if bool_decide (is_Some (chars val)) then 0 else -2, Some val))
  (used t c) (exchanged w (sock_fd c) evs (select_frame t c attr)).
Proof.
  intros Hr Ha Hattr (Hwf & Hh & Hb & Hst).
  destruct (start_ok _ _ _ _ _ Hr Ha) as (w' & H1 & H2 & H3 & _). unfold tarantool_get.
  run H1. run H2. rewrite bind_get, used_space.
  rewrite select_request by lia.
  rewrite bind_buffer; last first.
  { rewrite <- select_request by lia. rewrite len_finalize. lens.
    pose proof (len_select_header (sync_of c) (space_id t)). pose proof (len_string attr ltac:(lia)). lia. }
  run (H3 false (select_frame t c attr) 4096 (finalize_nonempty _)).
  run (status_of_ok (current_idx t) fh header body (sync_of c) (used t c)
         (exchanged w (sock_fd c) evs (select_frame t c attr)) Hwf Hh Hb Hst).
  change (0 <? 0) with false. cbv iota.
  destruct (map_at (response fh header body) 0 fh header Hwf) as (q & Hd & Hq & Hk & Hend);
    [apply at_start|].
  run Hd. rewrite (bind_read _ (len (mp_bytes (MMap fh header)))); [done|].
  rewrite (skip_header_ok _ _ (header_keys _ Hh) (bytes_buf_ok _ Hb)) by
    (lia || done || (pose proof (map_count_le fh header body); unfold response; lia)).
  f_equal. lia.
Qed.

(** The row found has the payload [payload]. *)
Definition row_ok (fb fa ft : mpfmt) (others : list (mp * mp)) (dk : mp) (tuple rows : list mp)
    (payload : list Z) : Prop :=
  mp_wf (found_body fb fa ft others dk tuple rows) /\ others_ok others /\
  uint_val dk = Some IPROTO_DATA /\ tuple_ok tuple payload.

Lemma get_found t c w attr fh header fb fa ft others dk tuple rows payload evs :
  ready t c ->
  answers w (sock_fd c) (response fh header (mp_bytes (found_body fb fa ft others dk tuple rows))) evs ->
  len attr <= 980 ->
  success fh header (mp_bytes (found_body fb fa ft others dk tuple rows)) (sync_of c) ->
  row_ok fb fa ft others dk tuple rows payload ->
  tarantool_get (Some (str_of attr)) t w =
    Ret (0, Some (str_of payload)) (used t c) (exchanged w (sock_fd c) evs (select_frame t c attr)).
Proof.
  intros Hr Ha Hattr Hs (Hwf & Hoth & Hdk & Htup).
  rewrite (tarantool_get_prefix _ _ _ _ _ _ _ _ Hr Ha Hattr Hs).
  destruct Ha as (s0 & _ & _ & _ & Hl & Hm). destruct Hs as (_ & _ & Hb & _).
  set (resp := response fh header _) in *.
  destruct (map_at resp (len (mp_bytes (MMap fh header))) fb _ Hwf) as (q & Hd & Hq & Hk & _).
  { unfold resp, response. rewrite <- (app_nil_r (mp_bytes (found_body _ _ _ _ _ _ _))). apply at_intro. }
  run Hd. pose proof (len_nonneg (mp_bytes (MMap fh header))).
  apply bytes_buf_ok in Hb.
  assert (exists f, S (length resp) = (length others + S (S f))%nat) as [f Hf].
  { pose proof (map_count_le fb (others ++ [(dk, MArr fa (MArr ft tuple :: rows))]) []) as Hc.
    rewrite app_nil_r, length_app in Hc. cbn [length] in Hc. exists (length resp - length others - 1)%nat.
    unfold resp, response. rewrite length_app. unfold found_body in *. lia. }
  rewrite Hf.
  assert (get_loop (length others + S (S f)) (len (others ++ [(dk, MArr fa (MArr ft tuple :: rows))]))
            resp q (Str None 0) (used t c) (exchanged w (sock_fd c) evs (select_frame t c attr)) =
          Ret (str_of payload) (used t c) (exchanged w (sock_fd c) evs (select_frame t c attr))) as Hg.
  { rewrite get_loop_others by (done || lia). change (len [_]) with 1.
    apply (get_loop_found resp fa ft dk tuple rows payload); try done.
    - apply mp_wf_map in Hwf as (_ & _ & Hall). apply Forall_app in Hall as [_ Hall].
      apply Forall_cons in Hall as [[_ Hv] _]. exact Hv.
    - lia.
    - unfold kv_bytes in Hk. rewrite flat_map_app in Hk. apply at_app in Hk as [_ Hk]. exact Hk. }
  run Hg. by rewrite bool_decide_eq_true_2.
Qed.

(** No row is found. *)
Definition empty_body (fb fa : mpfmt) (others : list (mp * mp)) (dk : mp) : mp :=
  MMap fb (others ++ [(dk, MArr fa [])]).

Lemma get_missing t c w attr fh header fb fa others dk evs :
  ready t c ->
  answers w (sock_fd c) (response fh header (mp_bytes (empty_body fb fa others dk))) evs ->
  len attr <= 980 ->
  success fh header (mp_bytes (empty_body fb fa others dk)) (sync_of c) ->
  mp_wf (empty_body fb fa others dk) -> others_ok others -> uint_val dk = Some IPROTO_DATA ->
  tarantool_get (Some (str_of attr)) t w =
    Ret (-2, Some (Str None 0)) (used t c) (exchanged w (sock_fd c) evs (select_frame t c attr)).
Proof.
  intros Hr Ha Hattr Hs Hwf Hoth Hdk.
  rewrite (tarantool_get_prefix _ _ _ _ _ _ _ _ Hr Ha Hattr Hs).
  destruct Hs as (_ & _ & Hb & _). set (resp := response fh header _) in *.
  destruct (map_at resp (len (mp_bytes (MMap fh header))) fb _ Hwf) as (q & Hd & Hq & Hk & _).
  { unfold resp, response. rewrite <- (app_nil_r (mp_bytes (empty_body _ _ _ _))). apply at_intro. }
  run Hd. pose proof (len_nonneg (mp_bytes (MMap fh header))).
  apply bytes_buf_ok in Hb.
  assert (exists f, S (length resp) = (length others + S (S f))%nat) as [f Hf].
  { pose proof (map_count_le fb (others ++ [(dk, MArr fa [])]) []) as Hc.
    rewrite app_nil_r, length_app in Hc. cbn [length] in Hc. exists (length resp - length others - 1)%nat.
    unfold resp, response. rewrite length_app. unfold empty_body in *. lia. }
  rewrite Hf.
  assert (get_loop (length others + S (S f)) (len (others ++ [(dk, MArr fa [])]))
            resp q (Str None 0) (used t c) (exchanged w (sock_fd c) evs (select_frame t c attr)) =
          Ret (Str None 0) (used t c) (exchanged w (sock_fd c) evs (select_frame t c attr))) as Hg.
  { rewrite get_loop_others by (done || lia). change (len [_]) with 1. cbn [get_loop].
    change (1 <=? 0) with false. cbv iota.
    unfold kv_bytes in Hk. rewrite flat_map_app in Hk. apply at_app in Hk as [_ Hk].
    apply at_kv in Hk as (Hak & Hav & _). run (mp_decode_uint_val _ _ _ _ Hdk Hak).
    change (IPROTO_DATA =? IPROTO_DATA) with true. cbv iota.
    cbn [mp_bytes] in Hav. apply at_app in Hav as [Hav _].
    apply mp_wf_map in Hwf as (_ & _ & Hall). apply Forall_app in Hall as [_ Hall].
    apply Forall_cons in Hall as [[_ Hv] _]. apply mp_wf_arr in Hv as [Hfa _].
    run (mp_decode_array_at resp _ fa _ (conj (len_nonneg _) Hfa) Hav). done. }
  by run Hg.
Qed.
