(* ===== verification/OpenSipsPool.v ===== *)
(** The OpenSIPS driver's connections under every behaviour of the network: what an
    attempt to connect does to the connection and its breaker, and the invariant
    of the pool that every operation keeps. *)
From S2P Require Export OpenSipsProps.

(** * Rules *)

Lemma wp_conn i (Q : tnt_single_conn -> tnt_cluster_con -> world -> Prop) t w c :
  conn_at t i = Some c -> Q c t w -> wp (conn i) Q t w.
Proof. intros H HQ. unfold wp, conn, mbind, M_bind, get. by rewrite H. Qed.

Lemma wp_upd i f (Q : unit -> tnt_cluster_con -> world -> Prop) t w c :
  conn_at t i = Some c -> Q tt (put_conn t i (f c)) w -> wp (upd i f) Q t w.
Proof. intros H HQ. unfold wp. by rewrite (run_upd _ _ _ _ _ H). Qed.

Lemma wp_keeps {A} (m : MT A) (Q : A -> tnt_cluster_con -> world -> Prop) t w :
  keeps m -> (forall a w', Q a t w') -> wp m Q t w.
Proof. intros Hk HQ. eapply wp_mono; [apply Hk|]. intros a t' w' ->. apply HQ. Qed.

Lemma keeps_read_frame fd cap : keeps (tnt_read_frame fd cap).
Proof.
  unfold tnt_read_frame. apply keeps_bind; [apply keeps_recv_all|]. intros [pfx|]; [|done].
  apply keeps_bind; [apply keeps_of_read|]. intros tag. destruct (negb _); [done|].
  apply keeps_bind; [apply keeps_of_read|]. intros n. destruct (_ || _); [done|].
  apply keeps_bind; [destruct (_ <? _); [apply keeps_sys|done]|].
  intros ok. destruct (negb ok); [done|]. apply keeps_recv_all.
Qed.

Lemma keeps_auth fd salt : keeps (tnt_auth_scramble fd salt).
Proof.
  unfold tnt_auth_scramble. apply keeps_bind; [apply keeps_get|]. intros t.
  destruct (_ || _); [done|]. destruct (_ <? _); [done|].
  apply keeps_bind; [apply keeps_of_read|]. intros pw.
  apply keeps_bind; [apply keeps_in_buffer|]. intros _.
  apply keeps_bind; [apply keeps_send_all|]. intros sent. destruct (negb sent); [done|].
  apply keeps_bind; [apply keeps_recv_all|]. intros [h|]; [|done].
  apply keeps_bind; [apply keeps_of_read|]. intros tag. destruct (negb _); [done|].
  apply keeps_bind; [apply keeps_of_read|]. intros n. destruct (_ || _); [done|].
  apply keeps_bind; [apply keeps_sys|]. intros ok. destruct (negb ok); [done|].
  apply keeps_bind; [apply keeps_recv_all|]. intros [b|]; [|done].
  apply keeps_bind; [apply keeps_of_read|]. intros b0. destruct (_ <=? _); [|done].
  apply keeps_bind; [apply keeps_of_read|]. done.
Qed.

Lemma keeps_resolve_host : keeps resolve_host.
Proof.
  unfold resolve_host. apply keeps_bind; [apply keeps_get|]. intros t.
  apply keeps_bind; [apply keeps_of_read|]. intros bs.
  destruct (inet_pton4 _); [done|apply keeps_sys].
Qed.

(** The breaker, descriptor and state of two connections agree. *)
Definition same_link (c c' : tnt_single_conn) : Prop :=
  sock_fd c' = sock_fd c /\ state c' = state c /\ view c' = view c.

Lemma resolve_wp i t w c : conn_at t i = Some c ->
  wp (resolve_space_id i) (fun _ t' _ => exists c' sid,
    same_link c c' /\ t' = set_space_id (put_conn t i c') sid) t w.
Proof.
  intros H. unfold resolve_space_id. apply wp_bind.
  unfold wp at 1. rewrite (next_sync_ok _ _ _ _ H). set (n := u64 _). set (c1 := set_sync c n).
  assert (conn_at (put_conn t i c1) i = Some c1) as H1 by (by eapply conn_at_put).
  assert (same_link c c1) as Hl by done. clearbody c1.
  assert (put_conn t i c1 = set_space_id (put_conn t i c1) (space_id t)) as Hid by done.
  apply wp_bind. apply (wp_conn _ _ _ _ _ H1). apply wp_bind, wp_get, wp_bind, wp_in_buffer.
  intros _. apply wp_bind. apply wp_keeps; [apply keeps_send_all|]. intros sent w1.
  destruct (negb sent); [apply wp_ret; eauto|]. apply wp_bind.
  apply wp_keeps; [apply keeps_read_frame|]. intros [resp|] w2; [|apply wp_ret; eauto].
  apply wp_bind, wp_of_read. intros [ms p] _. apply wp_bind, wp_of_read. intros sid _.
  apply wp_bind, wp_modify, wp_bind. destruct (sid =? 0).
  - apply wp_modify, wp_ret. exists c1, 512. done.
  - apply wp_ret, wp_ret. exists c1, sid. done.
Qed.

Definition link_inv (c : tnt_single_conn) : Prop :=
  (state c = TNT_STATE_AUTHENTICATED /\ 0 <= sock_fd c) \/
  (state c <> TNT_STATE_AUTHENTICATED /\ sock_fd c < 0).

(** The host of the handle is an IPv4 address, or [getaddrinfo] knows it. *)
Definition host_found (t : tnt_cluster_con) (w : world) : bool :=
  let h := host (cfg t) in
  let host_len := if slen h <? 255 then slen h else 255 in
  match chars h with
  | Some bs => match copy bs 0 host_len with
               | Some bs => inet_pton4 (cstr bs) || (sys_gai w).1
               | None => false
               end
  | None => false
  end.

(** There is a descriptor and a peer, and the peer refuses the connection. *)
Definition peer_refuses (t : tnt_cluster_con) (w : world) : bool :=
  (0 <=? (sys_socket w).1) && host_found t w && negb (sys_connect (sys_socket w).1 w).1.

(** What [tnt_connect_single] leaves, entered at the time [now]; [counted] says whether a
    failure counts. *)
Definition connected (t : tnt_cluster_con) (now : Z) (counted : bool) (r : Z) (c c' : tnt_single_conn) : Prop :=
  if refuses now c then r = -1 /\ c' = c
  else (r = 0 /\ state c' = TNT_STATE_AUTHENTICATED /\ 0 <= sock_fd c' /\ view c' = reset) \/
       (r = -1 /\ state c' <> TNT_STATE_AUTHENTICATED /\ sock_fd c' < 0 /\
        exists b, allow now (view c) = Some b /\
                  view c' = if counted then fail (tnt_policy t) now b else b).

(** A failed attempt that is not counted. *)
Lemma connect_fail_ok t i c0 c w : conn_at t i = Some c0 ->
  connect_fail i (put_conn t i c) w =
    Ret (-1) (put_conn t i (set_state (set_fd c (-1)) TNT_STATE_ERROR)) (sys_close (sock_fd c) w).
Proof.
  intros H. unfold connect_fail. rewrite (bind_conn_put _ _ _ _ _ _ H). unfold close.
  change ((sys_ (sys_close (sock_fd c)) ≫= ?k) ?t w) with (k tt t (sys_close (sock_fd c) w)). cbv beta.
  by rewrite !(bind_upd_put _ _ _ _ _ _ _ H).
Qed.

(** The connection once the breaker has let the attempt through. *)
Definition admitted (c : tnt_single_conn) : tnt_single_conn :=
  let c := if bool_decide (state c = TNT_STATE_DISABLED)
           then set_errors (set_state c TNT_STATE_DISCONNECTED) 0 else c in
  if 0 <=? sock_fd c then set_fd c (-1) else c.

Lemma admitted_view now c : refuses now c = false ->
  allow now (view c) = Some (Br (consecutive_errors (admitted c)) None).
Proof.
  unfold refuses, allow, admitted, reset. cbn [tnt_breaker view open errs].
  destruct (decide (state c = TNT_STATE_DISABLED)) as [e|e].
  - rewrite (bool_decide_eq_true_2 _ e). cbn [andb]. intros ->. by destruct (0 <=? _).
  - rewrite (bool_decide_eq_false_2 _ e). intros _. by destruct (0 <=? _).
Qed.

Lemma wp_run {A} (m : MT A) (Q : A -> tnt_cluster_con -> world -> Prop) t w a t' w' :
  m t w = Ret a t' w' -> Q a t' w' -> wp m Q t w.
Proof. unfold wp. by intros ->. Qed.

(** The result of an attempt that has been let through. *)
Definition attempted (t : tnt_cluster_con) (now : Z) (counted : bool) (i r : Z) (c : tnt_single_conn)
    (t' : tnt_cluster_con) : Prop :=
  exists c' sid, t' = set_space_id (put_conn t i c') sid /\
    ((r = 0 /\ state c' = TNT_STATE_AUTHENTICATED /\ 0 <= sock_fd c' /\ view c' = reset) \/
     (r = -1 /\ state c' <> TNT_STATE_AUTHENTICATED /\ sock_fd c' < 0 /\
      let b := Br (consecutive_errors c) None in
      view c' = if counted then fail (tnt_policy t) now b else b)).

Lemma attempted_fail t now i c c0 w : conn_at t i = Some c0 ->
  wp (connect_fail i) (fun r t' _ => attempted t now false i r c t') (put_conn t i c) w.
Proof.
  intros H. eapply wp_run; [apply (connect_fail_ok _ _ _ _ _ H)|].
  eexists _, (space_id t). split; [done|]. right. csimp. repeat split; auto.
Qed.

(** From the connected socket on. *)
Lemma connect_tail t now i c c0 fd w : conn_at t i = Some c0 -> 0 <= fd ->
  wp (greeting ← tnt_recv_all fd TNT_GREETING_SIZE;
      match greeting with
      | None => connect_fail i
      | Some greeting =>
          auth ← (if str_set (user (cfg t)) && str_set (pass (cfg t)) then
                    salt ← of_read (copy greeting 64 44);
                    tnt_auth_scramble fd salt
                  else mret 0);
          if auth <? 0 then connect_fail i else
          _ ← upd i (fun c => set_state c TNT_STATE_AUTHENTICATED);
          _ ← upd i (fun c => set_errors c 0);
          now ← time_;
          _ ← upd i (fun c => set_activity c now);
          t ← get;
          _ ← (if space_id t =? 0 then resolve_space_id i else mret 0);
          mret 0
      end)
     (fun r t' _ => attempted t now false i r c t') (put_conn t i (set_fd c fd)) w.
Proof.
  intros H Hfd. apply wp_bind, wp_keeps; [apply keeps_recv_all|].
  assert (forall w', wp (connect_fail i) (fun r t' _ => attempted t now false i r c t')
                        (put_conn t i (set_fd c fd)) w') as Hfail.
  { intros w'. eapply wp_mono; [exact (attempted_fail t now i (set_fd c fd) c0 w' H)|]. done. }
  intros [g|] w1; [|apply Hfail].
  apply wp_bind. apply wp_keeps.
  { destruct (_ && _); [|done]. apply keeps_bind; [apply keeps_of_read|]. intros. apply keeps_auth. }
  intros auth w2. destruct (auth <? 0); [apply Hfail|].
  pose proof (conn_at_put t i c0) as Hat.
  apply wp_bind. eapply wp_upd; [by eapply Hat|]. rewrite put_put.
  apply wp_bind. eapply wp_upd; [by eapply Hat|]. rewrite put_put. csimp.
  apply wp_bind, wp_sys. intros tm w3 _.
  apply wp_bind. eapply wp_upd; [by eapply Hat|]. rewrite put_put. csimp.
  set (c4 := set_activity _ tm). apply wp_bind, wp_get.
  assert (forall c' sid, same_link c4 c' ->
    attempted t now false i 0 c (set_space_id (put_conn (put_conn t i c4) i c') sid)) as Hdone.
  { intros c' sid (E1 & E2 & E3). rewrite put_put. exists c', sid. split; [done|]. left.
    rewrite E1, E2, E3. done. }
  apply wp_bind. destruct (_ =? 0).
  - eapply wp_mono; [eapply resolve_wp; by eapply Hat|].
    intros _ t' w4 (c' & sid & Hl & ->). apply wp_ret. by apply Hdone.
  - apply wp_ret, wp_ret. specialize (Hdone c4 (space_id t) ltac:(done)).
    by rewrite put_put in Hdone.
Qed.

(** The peer refused: the failure is counted. *)
Lemma connect_refused t now i c c0 w : conn_at t i = Some c0 ->
  wp (_ ← connect_fail i;
      _ ← upd i (fun c => set_errors c (consecutive_errors c + 1));
      c ← conn i;
      _ ← (if allowed_errors (cfg t) <=? consecutive_errors c then
             _ ← upd i (fun c => set_state c TNT_STATE_DISABLED);
             upd i (fun c => set_until c (now + disable_time_sec (cfg t)))
           else mret tt);
      mret (-1))
     (fun r t' _ => attempted t now true i r c t') (put_conn t i c) w.
Proof.
  intros H. pose proof (conn_at_put t i c0) as Hat.
  apply wp_bind. eapply wp_run; [apply (connect_fail_ok _ _ _ _ _ H)|]. csimp.
  apply wp_bind. eapply wp_upd; [by eapply Hat|]. rewrite put_put. csimp.
  apply wp_bind. eapply wp_conn; [by eapply Hat|]. csimp.
  assert (forall c' (b : bool), (if b then view c' = fail (tnt_policy t) now (Br (consecutive_errors c) None)
    else True) -> b = true -> state c' <> TNT_STATE_AUTHENTICATED -> sock_fd c' < 0 ->
    attempted t now true i (-1) c (put_conn t i c')) as Hf.
  { intros c' b Hb -> ? ?. exists c', (space_id t). split; [done|]. right. split_and!; auto. }
  apply wp_bind. destruct (allowed_errors (cfg t) <=? consecutive_errors c + 1) eqn:E.
  - apply wp_bind. eapply wp_upd; [by eapply Hat|]. rewrite put_put. csimp.
    eapply wp_upd; [by eapply Hat|]. rewrite put_put. csimp. apply wp_ret.
    eapply (Hf _ true); try done. unfold fail. cbn -[Z.add Z.leb]. by rewrite E.
  - apply wp_ret, wp_ret. eapply (Hf _ true); try done.
    unfold fail. cbn -[Z.add Z.leb]. by rewrite E.
Qed.

(** What the scripts of the world give does not depend on the other calls. *)
Lemma time_scripts w now w1 : sys_time w = (now, w1) ->
  w_socket w1 = w_socket w /\ w_gai w1 = w_gai w /\ w_connect w1 = w_connect w.
Proof. unfold sys_time. by destruct (clock w) as [|? [|? ?]]; intros [= _ <-]. Qed.

Lemma socket_scripts w fd w1 : sys_socket w = (fd, w1) ->
  w_gai w1 = w_gai w /\ w_connect w1 = w_connect w.
Proof. unfold sys_socket. by destruct (w_socket w); intros [= _ <-]. Qed.

Lemma host_found_eq t w w' : w_gai w' = w_gai w -> host_found t w = host_found t w'.
Proof.
  intros E. unfold host_found, sys_gai. rewrite E. by destruct (w_gai w).
Qed.

Lemma connect_eq fd w w' : w_connect w' = w_connect w ->
  (sys_connect fd w).1 = (sys_connect fd w').1.
Proof. intros E. unfold sys_connect. rewrite E. by destruct (w_connect w). Qed.

Lemma peer_refuses_eq t w w' :
  w_socket w' = w_socket w -> w_gai w' = w_gai w -> w_connect w' = w_connect w ->
  peer_refuses t w = peer_refuses t w'.
Proof.
  intros E1 E2 E3. unfold peer_refuses. rewrite (host_found_eq t w w') by done.
  assert ((sys_socket w').1 = (sys_socket w).1) as -> by (unfold sys_socket; rewrite E1; by destruct (w_socket w)).
  by rewrite (connect_eq _ w w').
Qed.

Lemma resolve_host_wp t w :
  wp resolve_host (fun found t' w' => t' = t /\ found = host_found t w /\ w_connect w' = w_connect w) t w.
Proof.
  unfold resolve_host. apply wp_bind, wp_get, wp_bind, wp_of_read. intros bs Hbs. unfold host_found.
  destruct (chars (host (cfg t))) as [x|]; [|done]. rewrite Hbs.
  destruct (inet_pton4 (cstr bs)); [by apply wp_ret|]. apply wp_sys. intros b w' E. rewrite E.
  split; [done|]. split; [done|]. unfold sys_gai in E. by destruct (w_gai w); simplify_eq.
Qed.

Lemma connect_wp i t w c : conn_at t i = Some c ->
  wp (tnt_connect_single i) (fun r t' _ => exists c' sid,
    t' = set_space_id (put_conn t i c') sid /\ connected t (sys_time w).1 (peer_refuses t w) r c c') t w.
Proof.
  intros H. unfold tnt_connect_single. apply wp_bind, wp_sys. intros now w1 Hnow. rewrite Hnow. cbn [fst].
  apply wp_bind. apply (wp_conn _ _ _ _ _ H). apply wp_bind, wp_get.
  change (bool_decide (state c = TNT_STATE_DISABLED) && (now <? disabled_until c)) with (refuses now c).
  destruct (refuses now c) eqn:Hr.
  { apply wp_ret. exists c, (space_id t). rewrite (put_same _ _ _ H). split; [by destruct t|].
    unfold connected. by rewrite Hr. }
  pose proof (conn_at_put t i c) as Hat.
  assert (forall k r t', attempted t now k i r (admitted c) t' -> exists c' sid,
    t' = set_space_id (put_conn t i c') sid /\ connected t now k r c c') as Hfin.
  { intros k r t' (c' & sid & E & Hc). exists c', sid. split; [done|]. unfold connected. rewrite Hr.
    destruct Hc as [?|(? & ? & ? & Hb)]; [by left|right]. split_and!; try done.
    eexists. split; [by apply admitted_view|]. done. }
  apply wp_bind. eapply (wp_run _ _ _ _ tt
    (put_conn t i (if bool_decide (state c = TNT_STATE_DISABLED)
                   then set_errors (set_state c TNT_STATE_DISCONNECTED) 0 else c)) w1).
  { destruct (bool_decide _).
    - rewrite (bind_upd _ _ _ _ _ _ H). by rewrite (run_upd_put _ _ _ _ _ _ H).
    - by rewrite (put_same _ _ _ H). }
  set (c1 := if bool_decide (state c = TNT_STATE_DISABLED) then _ else c).
  assert (sock_fd c1 = sock_fd c) as Hfd1 by (unfold c1; by destruct (bool_decide _)).
  rewrite <- Hfd1.
  apply wp_bind. eapply (wp_run _ _ _ _ tt (put_conn t i (admitted c))
    (if 0 <=? sock_fd c1 then sys_close (sock_fd c1) w1 else w1)).
  { unfold admitted. fold c1. destruct (0 <=? sock_fd c1); [|done]. unfold close.
    change ((sys_ (sys_close (sock_fd c1)) ≫= ?k) ?t w1) with (k tt t (sys_close (sock_fd c1) w1)).
    cbv beta. by rewrite (run_upd_put _ _ _ _ _ _ H). }
  apply wp_bind, wp_sys. intros fd w2 Hfd2.
  set (wc := if 0 <=? sock_fd c1 then sys_close (sock_fd c1) w1 else w1) in Hfd2.
  assert (w_socket wc = w_socket w /\ w_gai wc = w_gai w /\ w_connect wc = w_connect w) as (S1 & S2 & S3).
  { pose proof (time_scripts w now w1 Hnow) as (<- & <- & <-). subst wc. by destruct (0 <=? sock_fd c1). }
  rewrite (peer_refuses_eq t w wc) by done. unfold peer_refuses. rewrite Hfd2. cbn [fst].
  destruct (socket_scripts _ _ _ Hfd2) as [G1 G2].
  rewrite (host_found_eq t wc w2), (connect_eq fd wc w2) by done.
  apply wp_bind. eapply wp_upd; [by eapply Hat|]. rewrite put_put.
  destruct (fd <? 0) eqn:Hfd.
  { destruct (0 <=? fd) eqn:Hfd'; [lia|]. cbn [andb].
    apply wp_bind. eapply wp_upd; [by eapply Hat|]. rewrite put_put. apply wp_ret, Hfin.
    eexists _, (space_id t). split; [done|]. right. csimp. repeat split; auto; lia. }
  destruct (0 <=? fd) eqn:Hfd'; [|lia]. cbn [andb].
  apply wp_bind. eapply wp_mono; [apply resolve_host_wp|]. intros found t3 w3 (-> & Hfound & Hw3).
  change (host_found (put_conn t i (set_fd (admitted c) fd)) w2) with (host_found t w2) in Hfound.
  rewrite <- Hfound, (connect_eq fd w2 w3) by done. destruct found; cbn [negb andb].
  2: { eapply wp_mono; [exact (attempted_fail t now i _ c _ H)|]. intros r t' ? Ha.
    apply Hfin. exact Ha. }
  apply wp_bind, wp_sys. intros ok w4 Hok. rewrite Hok. cbn [fst]. destruct ok; cbn [negb].
  2: { eapply wp_mono; [exact (connect_refused t now i (set_fd (admitted c) fd) c w4 H)|].
    intros r t' ? Ha. by apply Hfin. }
  eapply wp_mono; [apply (connect_tail t now i (admitted c) c fd w4 H); lia|].
    intros r t' ? Ha. by apply Hfin.
Qed.

(** * The invariant of the pool *)

Definition conn_inv (p : policy) (c : tnt_single_conn) : Prop :=
  link_inv c /\ breaker_inv p (view c).

(** As many connections as configured, the next one among them, each either
    authenticated with a descriptor or neither, its breaker consistent. *)
Definition pool_inv (t : tnt_cluster_con) : Prop :=
  0 <= current_idx t < pool_size (cfg t) /\
  exists cs, conns t = Some cs /\ len cs = pool_size (cfg t) /\ Forall (conn_inv (tnt_policy t)) cs.

Lemma pool_at t i : pool_inv t -> 0 <= i < pool_size (cfg t) ->
  exists c, conn_at t i = Some c.
Proof.
  intros (_ & cs & Hcs & Hl & _) Hi. unfold conn_at. rewrite Hcs. cbn.
  destruct (0 <=? i) eqn:E; [|lia]. apply lookup_lt_is_Some. unfold len in Hl. lia.
Qed.

Lemma pool_conn t i c : pool_inv t -> conn_at t i = Some c ->
  conn_inv (tnt_policy t) c /\ 0 <= i < pool_size (cfg t).
Proof.
  intros (_ & cs & Hcs & Hl & Hf). unfold conn_at. rewrite Hcs. cbn.
  destruct (0 <=? i) eqn:E; [|done]. intros H. split; [by eapply Forall_lookup_1|].
  apply lookup_lt_Some in H. unfold len in Hl. lia.
Qed.

Lemma pool_put t i c sid : pool_inv t -> conn_inv (tnt_policy t) c ->
  pool_inv (set_space_id (put_conn t i c) sid).
Proof.
  intros (Hi & cs & Hcs & Hl & Hf) Hc. split; [done|]. cbn. rewrite Hcs. eexists. split; [done|].
  split; [unfold len; by rewrite length_alter|]. by apply Forall_alter.
Qed.

Lemma pool_idx t n : pool_inv t -> 0 <= n < pool_size (cfg t) -> pool_inv (set_idx t n).
Proof. intros (_ & H) Hn. by split. Qed.

Lemma connected_inv t now k r c c' : conn_inv (tnt_policy t) c -> connected t now k r c c' ->
  conn_inv (tnt_policy t) c'.
Proof.
  intros [Hl Hb] Hc. unfold connected in Hc. destruct (refuses now c).
  - by destruct Hc as [_ ->].
  - destruct Hc as [(_ & ? & ? & Hv)|(_ & ? & ? & b & Ha & Hv)].
    + split; [by left|]. rewrite Hv. apply reset_inv.
    + split; [by right|]. destruct (admit_inv _ _ _ _ Hb Ha) as [Hi Ho].
      rewrite Hv. destruct k; [by apply fail_inv|done].
Qed.

Lemma failed_conn_inv t now c : conn_inv (tnt_policy t) c ->
  conn_inv (tnt_policy t) (failed_conn t now c).
Proof.
  intros [Hl (H0 & Hn & Ho)]. unfold failed_conn. cbn [view tnt_breaker errs] in H0.
  assert ((if 0 <=? sock_fd c then -1 else sock_fd c) < 0) by (destruct (0 <=? sock_fd c) eqn:?; lia).
  destruct (allowed_errors (cfg t) <=? consecutive_errors c + 1) eqn:E.
  - split; [right; by csimp|]. unfold breaker_inv. cbn -[Z.add Z.le Z.lt].
    split_and!; [lia|done|intros; lia].
  - split; [right; by csimp|]. unfold breaker_inv. cbn -[Z.add Z.le Z.lt].
    split_and!; [lia|intros; lia|by intros [? ?]].
Qed.

(** Operations that keep the invariant. *)
Definition preserves {A} (m : MT A) : Prop :=
  forall t w, pool_inv t -> wp m (fun _ t' _ => pool_inv t') t w.

Lemma preserves_bind {A B} (m : MT A) (k : A -> MT B) :
  preserves m -> (forall a, preserves (k a)) -> preserves (m ≫= k).
Proof.
  intros Hm Hk t w Ht. apply wp_bind. eapply wp_mono; [by apply Hm|]. intros a t' w' Ht'. by apply Hk.
Qed.
Lemma preserves_keeps {A} (m : MT A) : keeps m -> preserves m.
Proof. intros Hk t w Ht. by apply wp_keeps. Qed.
Lemma preserves_ret {A} (a : A) : preserves (mret a). Proof. by intros t w H. Qed.
Lemma preserves_undef {A} : preserves (undef : MT A). Proof. done. Qed.

Lemma wp_conn_any i (Q : tnt_single_conn -> tnt_cluster_con -> world -> Prop) t w :
  (forall c, conn_at t i = Some c -> Q c t w) -> wp (conn i) Q t w.
Proof.
  intros H. unfold wp, conn, mbind, M_bind, get. destruct (conn_at t i) as [c|]; [|done].
  by apply H.
Qed.

Lemma preserves_conn i : preserves (conn i).
Proof. intros t w Ht. by apply wp_conn_any. Qed.

Lemma preserves_upd i f : (forall p c, conn_inv p c -> conn_inv p (f c)) -> preserves (upd i f).
Proof.
  intros Hf t w Ht. unfold wp. destruct (conn_at t i) as [c|] eqn:Hc.
  - rewrite (run_upd _ _ _ _ _ Hc). apply (pool_put t i (f c) (space_id t) Ht).
    apply Hf. by eapply pool_conn.
  - unfold upd, conn, mbind, M_bind, get. by rewrite Hc.
Qed.

Lemma preserves_error i : preserves (tnt_conn_error i).
Proof.
  intros t w Ht. unfold wp. destruct (conn_at t i) as [c|] eqn:Hc.
  - rewrite (tnt_conn_error_ok _ _ _ _ Hc). apply (pool_put t i _ (space_id t) Ht).
    apply failed_conn_inv. by eapply pool_conn.
  - unfold tnt_conn_error, conn, mbind, M_bind, get. by rewrite Hc.
Qed.

Lemma preserves_connect i : preserves (tnt_connect_single i).
Proof.
  intros t w Ht. destruct (conn_at t i) as [c|] eqn:Hc.
  - eapply wp_mono; [by apply connect_wp|]. intros r t' w' (c' & sid & -> & Hcon).
    apply pool_put; [done|]. eapply connected_inv; [by eapply pool_conn|done].
  - unfold tnt_connect_single. apply wp_bind, wp_sys. intros now w' _. apply wp_bind, wp_conn_any.
    intros c Hc'. by rewrite Hc' in Hc.
Qed.

(** The connection handed out is authenticated, and it is the next one in turn. *)
Lemma next_idx_mod t : 0 <= current_idx t < pool_size (cfg t) ->
  (current_idx t + 1) mod pool_size (cfg t) = next_idx t /\ 0 <= next_idx t < pool_size (cfg t) /\
  (if pool_size (cfg (set_idx t (current_idx t + 1))) <=? current_idx (set_idx t (current_idx t + 1))
   then set_idx (set_idx t (current_idx t + 1)) 0
   else set_idx t (current_idx t + 1)) = set_idx t (next_idx t).
Proof.
  intros Hi. unfold next_idx. cbn [set_idx cfg current_idx].
  destruct (pool_size (cfg t) <=? current_idx t + 1) eqn:E.
  - assert (current_idx t + 1 = pool_size (cfg t)) as -> by lia. split_and!; try lia; [apply Z.mod_same; lia|done].
  - split_and!; try lia; [apply Z.mod_small; lia|done].
Qed.

Lemma get_conn_wp t w : pool_inv t ->
  wp tnt_get_conn (fun r t' _ => pool_inv t' /\ cfg t' = cfg t /\
    current_idx t' = (current_idx t + 1) mod pool_size (cfg t) /\
    match r with
    | Some i => i = current_idx t /\ exists c, conn_at t' i = Some c /\
                state c = TNT_STATE_AUTHENTICATED /\ 0 <= sock_fd c
    | None => True
    end) t w.
Proof.
  intros Ht. pose proof Ht as (Hidx & _). unfold tnt_get_conn. apply wp_bind, wp_get.
  destruct (pool_size (cfg t) <=? 0) eqn:E; [lia|].
  apply wp_bind, wp_modify, wp_bind, wp_modify.
  destruct (next_idx_mod t Hidx) as (Hmod & Hrange & Hset). rewrite Hmod, Hset.
  set (t1 := set_idx t (next_idx t)). assert (pool_inv t1) as Ht1 by by apply pool_idx.
  apply wp_bind, wp_conn_any. intros c Hc.
  destruct (pool_conn _ _ _ Ht1 Hc) as [Hinv _].
  assert (forall t2 w2 c2, pool_inv t2 -> cfg t2 = cfg t -> current_idx t2 = next_idx t ->
    conn_at t2 (current_idx t) = Some c2 -> state c2 = TNT_STATE_AUTHENTICATED -> 0 <= sock_fd c2 ->
    wp (c ← conn (current_idx t); _ ← tnt_socket_drain (sock_fd c); mret (Some (current_idx t)))
       (fun r t' _ => pool_inv t' /\ cfg t' = cfg t /\ current_idx t' = next_idx t /\
          match r with
          | Some i => i = current_idx t /\ exists c, conn_at t' i = Some c /\
                      state c = TNT_STATE_AUTHENTICATED /\ 0 <= sock_fd c
          | None => True end) t2 w2) as Hdone.
  { intros t2 w2 c2 Hp Hcfg Hix Hc2 Hst Hfd. apply wp_bind. eapply wp_conn; [done|].
    apply wp_bind, wp_keeps; [apply keeps_drain|]. intros _ w3. apply wp_ret. eauto 10. }
  apply wp_bind. destruct ((sock_fd c <? 0) || negb (bool_decide (state c = TNT_STATE_AUTHENTICATED))) eqn:Er.
  - apply wp_bind. eapply wp_mono; [by apply connect_wp|].
    intros r t' w' (c' & sid & -> & Hcon). apply wp_ret.
    assert (pool_inv (set_space_id (put_conn t1 (current_idx t) c') sid)) as Hp.
    { apply pool_put; [done|]. by eapply connected_inv. }
    destruct (negb (0 <=? r)) eqn:Enr; [apply wp_ret; done|].
    assert (state c' = TNT_STATE_AUTHENTICATED /\ 0 <= sock_fd c') as [? ?].
    { unfold connected in Hcon. destruct (refuses _ _); [destruct Hcon; lia|].
      destruct Hcon as [(_ & ? & ? & _)|(-> & _)]; [done|lia]. }
    apply (Hdone _ _ c'); try done.
    change (conn_at (put_conn t1 (current_idx t) c') (current_idx t) = Some c').
    by eapply conn_at_put.
  - apply orb_false_iff in Er as [E1 E2]. apply negb_false_iff, bool_decide_eq_true_1 in E2.
    apply wp_ret. cbn [negb]. apply (Hdone _ _ c); try done. lia.
Qed.

Create HintDb preserves.
#[export] Hint Resolve preserves_bind preserves_ret preserves_undef preserves_conn preserves_error
  preserves_connect : preserves.
#[export] Hint Extern 2 (preserves _) => (apply preserves_keeps; solve [auto with keeps]) : preserves.
#[export] Hint Extern 1 (preserves (if ?b then _ else _)) => destruct b : preserves.
#[export] Hint Extern 1 (preserves (match ?b with _ => _ end)) => destruct b : preserves.
#[export] Hint Resolve keeps_read_frame keeps_auth keeps_resolve_host : keeps.

Lemma preserves_get_conn : preserves tnt_get_conn.
Proof. intros t w Ht. eapply wp_mono; [by apply get_conn_wp|]. by intros r t' w' [? _]. Qed.

Lemma preserves_next_sync i : preserves (next_sync i).
Proof.
  unfold next_sync. apply preserves_bind; [by apply preserves_upd|]. intros _.
  apply preserves_bind; [apply preserves_conn|]. intros c. apply preserves_ret.
Qed.

Lemma keeps_writev_loop f : forall fd iov, keeps (writev_loop f fd iov).
Proof.
  induction f as [|f IH]; intros fd [|b iov]; cbn [writev_loop]; auto with keeps.
Qed.
Lemma keeps_writev fd iov : keeps (tnt_writev_all fd iov).
Proof. intros t w. apply keeps_writev_loop. Qed.
#[export] Hint Resolve keeps_writev preserves_get_conn preserves_next_sync : keeps preserves.
Lemma keeps_tnt_send fd bs : keeps (tnt_send_all fd bs).
Proof. apply keeps_send_all. Qed.
#[export] Hint Resolve keeps_tnt_send : keeps.

Lemma preserves_exchange wv i buf cap : preserves (exchange wv i buf cap).
Proof.
  unfold exchange. apply preserves_bind; [apply preserves_conn|]. intros c.
  apply preserves_bind; [destruct wv; auto with preserves|]. intros sent.
  destruct (negb sent); auto with preserves.
Qed.

Lemma preserves_status i resp sync : preserves (status_of i resp sync).
Proof.
  unfold status_of. apply preserves_bind; [auto with preserves|]. intros rc.
  destruct (rc <? 0); [|apply preserves_ret].
  apply preserves_bind; [destruct (rc =? -2)|]; auto with preserves.
Qed.

Lemma keeps_get_loop f : forall n resp p val, keeps (get_loop f n resp p val).
Proof.
  induction f as [|f IH]; intros n resp p val; cbn [get_loop]; destruct (n <=? 0);
    try solve [auto with keeps].
  apply keeps_bind; [auto with keeps|]. intros [k p1]. destruct (k =? IPROTO_DATA).
  - apply keeps_bind; [auto with keeps|]. intros [al p2]. destruct (0 <? al); [|apply IH].
    apply keeps_bind; [auto with keeps|]. intros [tl p3].
    apply keeps_bind; [auto with keeps|]. intros [[[v vl]|] p4]; [|apply IH].
    apply keeps_bind; [apply keeps_sys|]. intros [|]; [|apply IH].
    apply keeps_bind; [auto with keeps|]. intros bs. apply IH.
  - apply keeps_bind; [auto with keeps|]. intros [u p2]. apply IH.
Qed.
#[export] Hint Resolve preserves_exchange preserves_status : preserves.
#[export] Hint Resolve keeps_get_loop : keeps.

(** Go through an operation. *)
Ltac preserve := repeat first
  [ solve [auto with preserves keeps]
  | apply preserves_bind; [solve [auto with preserves keeps]|intros]
  | match goal with |- preserves (match ?x with _ => _ end) => destruct x end
  | match goal with |- preserves (if ?x then _ else _) => destruct x end ].

Lemma preserves_get attr : preserves (tarantool_get attr).
Proof. unfold tarantool_get. preserve. Qed.
Lemma preserves_get_buf attr n : preserves (tarantool_get_buf attr n).
Proof. unfold tarantool_get_buf. apply preserves_bind; [apply preserves_get|]. intros [rc val]. preserve. Qed.
Lemma preserves_set attr val e : preserves (tarantool_set attr val e).
Proof. unfold tarantool_set. preserve. Qed.
Lemma preserves_remove attr : preserves (tarantool_remove attr).
Proof. unfold tarantool_remove. preserve. Qed.
Lemma preserves_query q out : preserves (tarantool_raw_query q out).
Proof. unfold tarantool_raw_query. preserve. Qed.
Lemma preserves_call p a r : preserves (tarantool_call_proc p a r).
Proof. unfold tarantool_call_proc. preserve. Qed.
Lemma preserves_eval e : preserves (tarantool_eval_expr e).
Proof. unfold tarantool_eval_expr. apply preserves_bind; [apply preserves_query|]. intros [rc n]. preserve. Qed.

(** The pool as it is set up. *)
Lemma fresh_inv p : conn_inv p fresh_conn.
Proof. split; [by right|]. apply (reset_inv p). Qed.

Lemma preserves_connect_from n : forall i, preserves (connect_from n i).
Proof.
  induction n as [|n IH]; intros i; cbn [connect_from]; [apply preserves_ret|].
  apply preserves_bind; auto with preserves.
Qed.

Lemma setup_pool_wp t w : 0 < pool_size (cfg t) -> current_idx t = 0 ->
  wp tnt_setup_pool (fun r t' _ => (r = -1 /\ t' = t) \/ (r = 0 /\ pool_inv t')) t w.
Proof.
  intros Hp Hi. unfold tnt_setup_pool. apply wp_bind, wp_get, wp_bind, wp_sys. intros ok w1 _.
  destruct (negb ok); [apply wp_ret; by left|]. apply wp_bind, wp_modify.
  assert (pool_inv (set_conns t (Some (repeat fresh_conn (Z.to_nat (pool_size (cfg t))))))) as Ht.
  { split; [cbn; lia|]. cbn. eexists. split; [done|].
    split; [unfold len; rewrite repeat_length; lia|].
    apply List.Forall_forall. intros x Hx. apply repeat_spec in Hx as ->. apply fresh_inv. }
  apply wp_bind. destruct (lazy_connect (cfg t) =? 0).
  - eapply wp_mono; [by apply preserves_connect_from|]. intros ? t' w' ?. apply wp_ret. by right.
  - apply wp_ret, wp_ret. by right.
Qed.

Lemma keeps_strdup p : keeps (strdup p : MT _).
Proof. unfold strdup. apply keeps_bind; [apply keeps_sys|]. done. Qed.
Lemma keeps_strlen p : keeps (strlen p : MT _).
Proof. by destruct p. Qed.
#[export] Hint Resolve keeps_strdup keeps_strlen : keeps.
Lemma keeps_dup_str p : keeps (dup_str p).
Proof. unfold dup_str. auto with keeps. Qed.
#[export] Hint Resolve keeps_dup_str : keeps.

Lemma keeps_scheme p : keeps (parse_scheme p).
Proof.
  unfold parse_scheme. destruct (after_prefix _ _); [auto with keeps|].
  destruct (after_prefix _ _); [|auto with keeps]. destruct (strstr _ _) as [[? ?]|]; auto with keeps.
Qed.
Lemma keeps_space p : keeps (parse_space p).
Proof. unfold parse_space. destruct (strchr _ _) as [[? ?]|]; auto with keeps. Qed.
Lemma keeps_cred p : keeps (parse_cred p).
Proof.
  unfold parse_cred.
  destruct (strchr _ 64) as [[? ?]|]; [destruct (strchr _ 58) as [[? ?]|]|]; auto with keeps.
Qed.

(** After a successful parse the pool has a size, and the rest of the handle is as
    it was. *)
Lemma parse_wp g url t w :
  wp (parse_tnt_url g url) (fun r t' _ =>
    r = 0 -> 0 < pool_size (cfg t') /\ current_idx t' = current_idx t /\ conns t' = conns t) t w.
Proof.
  unfold parse_tnt_url. destruct (chars url) as [u|]; [|done]. destruct (_ <=? _); [done|].
  apply wp_bind, wp_sys. intros buf w1 _. destruct (negb buf); [done|].
  apply wp_bind, wp_of_read. intros bytes _.
  apply wp_bind, wp_keeps; [apply keeps_scheme|]. intros [[name p]|] w2; [|done].
  apply wp_bind, wp_keeps; [apply keeps_space|]. intros [space p1] w3.
  apply wp_bind, wp_keeps; [apply keeps_cred|]. intros [[user pass] p2] w4.
  apply wp_bind, wp_keeps; [auto with keeps|]. intros ulen w5.
  apply wp_bind, wp_keeps; [auto with keeps|]. intros plen w6.
  destruct (match strchr p2 58 with Some _ => _ | None => _ end) as [port h].
  apply wp_bind, wp_keeps; [auto with keeps|]. intros host w7.
  apply wp_bind, wp_modify, wp_bind, wp_modify, wp_ret. intros _. cbn.
  split; [|done]. unfold DEFAULT_POOL_SIZE. destruct (0 <? p_pool_size g) eqn:E; lia.
Qed.

Lemma init_wp g url t w :
  wp (tarantool_init g url) (fun ok t' _ => ok = true -> pool_inv t') t w.
Proof.
  unfold tarantool_init. destruct url as [url|]; [|done].
  apply wp_bind, wp_sys. intros ok w1 _. destruct (negb ok); [done|].
  apply wp_bind, wp_put, wp_bind. eapply wp_mono; [apply parse_wp|].
  intros rc t' w2 Hrc. destruct (negb (rc =? 0)) eqn:E; [done|].
  destruct Hrc as (Hp & Hi & _); [lia|]. apply wp_bind.
  eapply wp_mono; [by apply setup_pool_wp|]. intros r t2 w3 [[-> _]|[-> H]]; by apply wp_ret.
Qed.
