(* ===== verification/OpenSipsSpec.v ===== *)
(** The properties of the OpenSIPS driver: what get, set and remove do end to end,
    the errors, the pool, the circuit breaker, authentication, and the faults the
    model shows. *)
From S2P Require Export OpenSipsUrl.

(** * A handle and a world for the witnesses *)

Definition ex_cfg (n : Z) : tnt_cluster_cfg :=
  Cfg (str_of (lit "default")) (str_of (lit "127.0.0.1")) 3301 (str_of (lit "u")) (str_of (lit "pw"))
      (str_of (lit "rtpe_calls")) n 1000 500 10 3 0 1 1.
Definition ex_conn : tnt_single_conn := Conn 5 TNT_STATE_AUTHENTICATED 0 0 0 0.
Definition ex_tcon (n : Z) : tnt_cluster_con :=
  Cluster (ex_cfg n) 512 0 (Some (repeat ex_conn (Z.to_nat n))).
(** Stale data on the socket, then nothing, then the response. *)
Definition ex_world (resp : list Z) : world :=
  World [1000] {[ 5 := Sock [RxData 9 [9]; RxErr EAGAIN; RxData MP_UINT32 (tail (finalize_packet resp))]
                            [] [] ]} [] [] [] [].
Definition ex_header : list (mp * mp) := [(MFix 0, MUint W32 0); (MFix 1, MUint W64 1)].

Lemma ex_ready n : 0 < n -> ready (ex_tcon n) ex_conn.
Proof.
  intros H. split; [done|]. split; [|done]. unfold conn_at. cbn.
  by destruct (Z.to_nat n) eqn:E; [lia|].
Qed.
Lemma ex_answers resp : 0 < len resp <= 16 * 1024 * 1024 -> answers (ex_world resp) 5 resp [].
Proof.
  intros H. eexists. split; [apply lookup_insert_eq|]. split; [done|]. cbn [rx drained].
  split; [|done]. change (finalize_packet resp) with (MP_UINT32 :: tail (finalize_packet resp)) at 2.
  rewrite <- (app_nil_r (MP_UINT32 :: _)). apply stream_data, stream_nil.
Qed.
Lemma ex_header_ok : header_ok ex_header.
Proof. repeat constructor; eexists; (split; [reflexivity|]); split; try done; intros _; by eexists. Qed.

(** * Reading *)

Definition ex_body : mp :=
  found_body FFix FFix FFix [(MFix 5, MNil)] (MFix 0x30)
    [MStr FFix (lit "id"); MStr FFix (lit "value")] [].


Lemma ex_found_ok : row_ok FFix FFix FFix [(MFix 5, MNil)] (MFix 0x30)
    [MStr FFix (lit "id"); MStr FFix (lit "value")] [] (lit "value").
Proof.
  split; [by vm_compute; repeat split|]. split.
  - split; repeat constructor; cbn; (done || by eexists).
  - split; [done|]. by apply (tuple2 FFix (lit "id") FFix (lit "value") []).
Qed.
Lemma ex_success body : bytes_ok body -> success FFix ex_header body 1.
Proof.
  intros H. split; [by vm_compute; repeat split|]. split; [apply ex_header_ok|]. split; [|done].
  apply Forall_app_2; [by apply bytes_dec|done].
Qed.


(** A key that is not in the space: [tarantool_get] returns -2 and a null value. *)
Theorem get_missing_returns_minus2 t c w attr fh header fb fa others dk evs
  (Hready : ready t c)
  (Hresp : answers w (sock_fd c) (response fh header (mp_bytes (empty_body fb fa others dk))) evs)
  (Hattr : len attr <= 980)
  (Hok : success fh header (mp_bytes (empty_body fb fa others dk)) (sync_of c))
  (Hwf : mp_wf (empty_body fb fa others dk)) (Hothers : others_ok others)
  (Hdk : uint_val dk = Some IPROTO_DATA) :
  tarantool_get (Some (str_of attr)) t w =
    Ret (-2, Some (Str None 0)) (used t c) (exchanged w (sock_fd c) evs (select_frame t c attr)).
Proof. by eapply get_missing. Qed.

Lemma get_missing_returns_minus2_witness : exists t' w',
  tarantool_get (Some (str_of (lit "id"))) (ex_tcon 1)
    (ex_world (response FFix ex_header (mp_bytes (empty_body FFix FFix [] (MFix 0x30))))) =
  Ret (-2, Some (Str None 0)) t' w'.
Proof.
  eexists _, _. apply (get_missing_returns_minus2 (ex_tcon 1) ex_conn _ (lit "id") FFix ex_header
    FFix FFix [] (MFix 0x30) []).
  - apply ex_ready. reflexivity.
  - apply ex_answers. vm_compute. split; [reflexivity|discriminate].
  - vm_compute. discriminate.
  - apply ex_success, bytes_dec. vm_compute. reflexivity.
  - vm_compute. repeat split; discriminate.
  - split; constructor.
  - reflexivity.
Defined.

(** [tarantool_get_buf] either copies the whole payload and reports its length, or,
    when the caller's buffer is too small, copies nothing, returns -3 and reports the
    size needed. *)
Theorem get_buf_copies_or_reports t c w attr buflen fh header fb fa ft others dk tuple rows payload evs
  (Hready : ready t c)
  (Hresp : answers w (sock_fd c)
             (response fh header (mp_bytes (found_body fb fa ft others dk tuple rows))) evs)
  (Hattr : len attr <= 980)
  (Hok : success fh header (mp_bytes (found_body fb fa ft others dk tuple rows)) (sync_of c))
  (Hrow : row_ok fb fa ft others dk tuple rows payload)
  (Hsize : len payload < 2 ^ 31) :
  tarantool_get_buf (Some (str_of attr)) buflen t w =
    Ret (if buflen <? len payload then (-3, [], None, Some (len payload))
         else (0, payload, Some (len payload), None))
        (used t c) (exchanged w (sock_fd c) evs (select_frame t c attr)).
Proof.
  unfold tarantool_get_buf. pose proof (len_nonneg payload).
  run (get_found _ _ _ _ _ _ _ _ _ _ _ _ _ _ _ Hready Hresp Hattr Hok Hrow).
  cbn [chars slen str_of]. change (0 =? 0) with true. cbv iota. rewrite u32_id by lia.
  destruct (buflen <? len payload); [done|]. by run (at_copy _ _ _ (at_whole payload)).
Qed.

Lemma get_buf_copies_or_reports_witness : exists t' w',
  tarantool_get_buf (Some (str_of (lit "id"))) 4 (ex_tcon 1)
    (ex_world (response FFix ex_header (mp_bytes ex_body))) =
  Ret (-3, [], None, Some 5) t' w'.
Proof.
  eexists _, _. apply (get_buf_copies_or_reports (ex_tcon 1) ex_conn _ (lit "id") 4 FFix ex_header
    FFix FFix FFix [(MFix 5, MNil)] (MFix 0x30) [MStr FFix (lit "id"); MStr FFix (lit "value")] []
    (lit "value") []).
  - apply ex_ready. reflexivity.
  - apply ex_answers. vm_compute. split; [reflexivity|discriminate].
  - vm_compute. discriminate.
  - apply ex_success, bytes_dec. vm_compute. reflexivity.
  - apply ex_found_ok.
  - vm_compute. reflexivity.
Defined.

(** * Writing *)

Definition set_frame (t : tnt_cluster_con) (c : tnt_single_conn) (attr val : list Z) (now exp : Z)
  : list Z :=
  finalize_packet (request
    [(uint_mp IPROTO_REQUEST_TYPE, uint_mp IPROTO_REPLACE); (uint_mp IPROTO_SYNC, uint_mp (sync_of c))]
    [(uint_mp IPROTO_SPACE_ID, uint_mp (space_id t));
     (uint_mp IPROTO_TUPLE, MArr FFix (call_tuple attr now exp val))]).

(** The expiry stored with a value. *)
Definition expiry (now expires : Z) : Z :=
  if 0 <? expires then u64 (now + expires) else u64 (now + 3600).

Lemma time_is {D} now (d : D) w : clock w = [now] -> time_ d w = Ret now d w.
Proof. intros H. unfold time_, sys, sys_time. by rewrite H. Qed.

Lemma len_set_frame t c attr val now exp : len attr < 2 ^ 32 -> len val < 2 ^ 32 ->
  let strs := len (mp_encode_string (str_of attr)) + len (mp_encode_string (str_of val)) in
  34 + strs <= len (set_frame t c attr val now exp) <= 74 + strs.
Proof.
  intros Ha Hv. cbv zeta. unfold set_frame. rewrite <- set_request, len_finalize by done.
  pose proof (len_set_payload (sync_of c) (space_id t) (str_of attr) (str_of val) now exp) as Hl. cbv zeta in Hl. lia.
Qed.

Lemma set_ok t c w attr val expires now fh header body evs :
  ready t c -> answers w (sock_fd c) (response fh header body) evs ->
  clock w = [now] -> len attr + len val <= 178 -> success fh header body (sync_of c) ->
  tarantool_set (Some (str_of attr)) (Some (str_of val)) expires t w =
    Ret 0 (used t c)
        (exchanged w (sock_fd c) evs (set_frame t c attr val now (expiry now expires))).
Proof.
  intros Hready Hresp Hclock Hsize Hok.
  pose proof (len_nonneg attr). pose proof (len_nonneg val).
  destruct Hok as (Hwf & Hh & Hb & Hst).
  destruct (start_ok _ _ _ _ _ Hready Hresp) as (w' & H1 & H2 & H3 & _ & Hclk). unfold tarantool_set.
  run H1. rewrite <- Hclk in Hclock. run (time_is now (set_idx t (next_idx t)) w' Hclock).
  run H2. rewrite bind_get, used_space. fold (expiry now expires).
  rewrite set_request by lia. fold (set_frame t c attr val now (expiry now expires)).
  rewrite bind_buffer; last first.
  { pose proof (len_set_frame t c attr val now (expiry now expires) ltac:(lia) ltac:(lia)) as Hl.
    cbv zeta in Hl.
    pose proof (len_string_small attr ltac:(lia)). pose proof (len_string_small val ltac:(lia)). lia. }
  run (H3 true (set_frame t c attr val now (expiry now expires)) 512 (finalize_nonempty _)).
  by apply status_of_ok.
Qed.

(** [tarantool_set] with a key and value of at most 178 bytes together sends exactly
    one REPLACE of the seven-field session tuple (the value last, the times now, now
    and the expiry, 3600 seconds by default) and reports the server's success. *)
Theorem set_replaces_tuple t c w attr val expires now fh header body evs
  (Hready : ready t c) (Hresp : answers w (sock_fd c) (response fh header body) evs)
  (Hclock : clock w = [now]) (Hsize : len attr + len val <= 178)
  (Hok : success fh header body (sync_of c)) :
  tarantool_set (Some (str_of attr)) (Some (str_of val)) expires t w =
    Ret 0 (used t c)
        (exchanged w (sock_fd c) evs (set_frame t c attr val now (expiry now expires))).
Proof. by eapply set_ok. Qed.

Lemma set_replaces_tuple_witness : exists t' w',
  tarantool_set (Some (str_of (lit "id"))) (Some (str_of (lit "value"))) 60 (ex_tcon 1)
    (ex_world (response FFix ex_header [0x80])) = Ret 0 t' w'.
Proof.
  eexists _, _. apply (set_replaces_tuple (ex_tcon 1) ex_conn _ (lit "id") (lit "value") 60 1000
    FFix ex_header [0x80] []).
  - apply ex_ready. reflexivity.
  - apply ex_answers. vm_compute. split; [reflexivity|discriminate].
  - reflexivity.
  - vm_compute. discriminate.
  - apply ex_success, bytes_dec. vm_compute. reflexivity.
Defined.

(** The 256-byte packet buffer of [tarantool_set] overflows whenever the key and the
    value have more than 220 bytes together: the operation writes outside its
    memory, whatever the server and the clock do. *)
Theorem set_overflows t c w s0 attr val expires
  (Hready : ready t c) (Hsock : socks w !! sock_fd c = Some s0)
  (Ha : len attr < 2 ^ 32) (Hv : len val < 2 ^ 32) (Hsize : 220 < len attr + len val) :
  tarantool_set (Some (str_of attr)) (Some (str_of val)) expires t w = Undef.
Proof.
  unfold tarantool_set. run (get_conn_ready t c w s0 Hready Hsock).
  destruct (sys_time (with_sock w (sock_fd c) (set_rx s0 (drained (rx s0))))) as [now w1] eqn:Et.
  assert (time_ (set_idx t (next_idx t)) (with_sock w (sock_fd c) (set_rx s0 (drained (rx s0)))) =
          Ret now (set_idx t (next_idx t)) w1) as Ht.
  { unfold time_, sys. by rewrite Et. }
  run Ht. destruct Hready as (_ & Hc & _).
  run (next_sync_ok (current_idx t) (set_idx t (next_idx t)) w1 c Hc).
  rewrite bind_get. apply bind_overflow. rewrite len_finalize.
  match goal with |- context [set_payload ?a ?b ?c ?d ?e ?f] =>
    pose proof (len_set_payload a b c d e f) as Hl end. cbv zeta in Hl.
  pose proof (len_string attr Ha). pose proof (len_string val Hv). lia.
Qed.

Lemma set_overflows_witness :
  tarantool_set (Some (str_of (lit "id"))) (Some (str_of (repeat 65 219))) 60 (ex_tcon 1)
    (ex_world []) = Undef.
Proof.
  apply (set_overflows (ex_tcon 1) ex_conn (ex_world [])
    (Sock [RxData 9 [9]; RxErr EAGAIN; RxData MP_UINT32 (tail (finalize_packet []))] [] [])).
  - apply ex_ready. reflexivity.
  - reflexivity.
  - reflexivity.
  - reflexivity.
  - vm_compute. reflexivity.
Defined.

Definition delete_frame (t : tnt_cluster_con) (c : tnt_single_conn) (attr : list Z) : list Z :=
  finalize_packet (request
    [(uint_mp IPROTO_REQUEST_TYPE, uint_mp IPROTO_DELETE); (uint_mp IPROTO_SYNC, uint_mp (sync_of c))]
    [(uint_mp IPROTO_SPACE_ID, uint_mp (space_id t)); (uint_mp IPROTO_INDEX_ID, uint_mp 0);
     (uint_mp IPROTO_KEY, MArr FFix [mstr attr])]).

(** [tarantool_remove] sends exactly one DELETE by the primary key and returns 0 when
    the server reports success; when the response belongs to another request it
    returns -1, closes the connection and counts the failure. *)
Theorem remove_deletes_key t c w attr fh header body evs
  (Hready : ready t c) (Hresp : answers w (sock_fd c) (response fh header body) evs)
  (Hattr : len attr <= 980) (Hwf : mp_wf (MMap fh header)) (Hh : header_ok header)
  (Hb : bytes_ok (response fh header body)) :
  let w1 := exchanged w (sock_fd c) evs (delete_frame t c attr) in
  (status_spec header (sync_of c) = 0 ->
     tarantool_remove (Some (str_of attr)) t w = Ret 0 (used t c) w1) /\
  (status_spec header (sync_of c) = -1 ->
     tarantool_remove (Some (str_of attr)) t w = Ret (-1) (used t c) w1) /\
  (status_spec header (sync_of c) = -2 -> exists now w2,
     tarantool_remove (Some (str_of attr)) t w =
       Ret (-1) (put_conn (used t c) (current_idx t) (failed_conn t now (set_sync c (sync_of c)))) w2 /\
     socks w2 = delete (sock_fd c) (socks w1)).
Proof.
  intros w1. destruct (start_ok _ _ _ _ _ Hready Hresp) as (w' & H1 & H2 & H3 & _ & Hclk).
  assert (tarantool_remove (Some (str_of attr)) t w =
          status_of (current_idx t) (response fh header body) (sync_of c) (used t c) w1) as ->.
  { unfold tarantool_remove. run H1. run H2. rewrite bind_get, used_space.
    rewrite delete_request by lia. fold (delete_frame t c attr).
    rewrite bind_buffer; last first.
    { unfold delete_frame. rewrite <- delete_request by lia. rewrite len_finalize. lens.
      pose proof (len_delete_header (sync_of c) (space_id t)). pose proof (len_string attr ltac:(lia)). lia. }
    by run (H3 false (delete_frame t c attr) 512 (finalize_nonempty _)). }
  unfold status_of. rewrite (bind_read _ _ _ _ _ (check_status_ok fh header body (sync_of c) Hwf Hh Hb)).
  split_and!; intros Hs; rewrite Hs; [done..|]. cbn [Z.ltb Z.compare].
  change (-2 =? -2) with true. cbv iota.
  pose proof Hready as (_ & Hc & _ & Hfd).
  assert (conn_at (used t c) (current_idx t) = Some (set_sync c (sync_of c))) as Hat.
  { unfold used. by eapply conn_at_put. }
  pose proof (tnt_conn_error_ok _ _ _ w1 Hat) as He. cbv zeta in He.
  run He. eexists _, _. split; [done|].
  assert (socks (closed_world (set_sync c (sync_of c)) w1) = delete (sock_fd c) (socks w1)) as Hcl.
  { unfold closed_world. csimp. by destruct (0 <=? sock_fd c) eqn:E; [|lia]. }
  rewrite <- Hcl. destruct (allowed_errors _ <=? _); [|done]. unfold sys_time.
  by destruct (clock (closed_world _ _)) as [|? [|? ?]].
Qed.

Lemma remove_deletes_key_witness : exists t' w',
  tarantool_remove (Some (str_of (lit "id"))) (ex_tcon 1)
    (ex_world (response FFix ex_header [0x80])) = Ret 0 t' w'.
Proof.
  eexists _, _. apply (remove_deletes_key (ex_tcon 1) ex_conn _ (lit "id") FFix ex_header [0x80] []).
  - apply ex_ready. reflexivity.
  - apply ex_answers. vm_compute. split; [reflexivity|discriminate].
  - vm_compute. discriminate.
  - vm_compute. repeat split; discriminate.
  - apply ex_header_ok.
  - apply bytes_dec. vm_compute. reflexivity.
  - reflexivity.
Defined.

(** * Responses *)

(** The status check answers what the first settling key of the header says: -1 for a
    request type other than OK, -2 for another request's sync, 0 otherwise; on every
    well-formed header, in any order and with any further keys, and whatever follows. *)
Theorem status_check_correct fh header body want
  (Hwf : mp_wf (MMap fh header)) (Hh : header_ok header)
  (Hb : bytes_ok (mp_bytes (MMap fh header) ++ body)) :
  check_iproto_status (Some (mp_bytes (MMap fh header) ++ body)) want =
    Some (status_spec header want).
Proof. by apply check_status_ok. Qed.

Lemma status_check_correct_witness :
  check_iproto_status (Some (mp_bytes (MMap FFix ex_header) ++ [1; 2; 3])) 7 = Some (-2).
Proof.
  apply (status_check_correct FFix ex_header [1; 2; 3] 7).
  - vm_compute. repeat split; discriminate.
  - apply ex_header_ok.
  - apply bytes_dec. vm_compute. reflexivity.
Defined.

(** A frame that ends inside its header makes the operations read past the end of the
    received bytes: the status check tests the bound before a key and not before its value. *)
Theorem get_overreads_truncated_frame t c w attr evs
  (Hready : ready t c) (Hresp : answers w (sock_fd c) [0x81; 0x00] evs) (Hattr : len attr <= 980) :
  tarantool_get (Some (str_of attr)) t w = Undef.
Proof.
  destruct (start_ok _ _ _ _ _ Hready Hresp) as (w' & H1 & H2 & H3 & _). unfold tarantool_get.
  run H1. run H2. rewrite bind_get, used_space.
  rewrite bind_buffer; last first.
  { rewrite len_finalize. lens.
    pose proof (len_select_header (sync_of c) (space_id t)). pose proof (len_string attr ltac:(lia)). lia. }
  by run (H3 false (finalize_packet (pack_select_header (sync_of c) (space_id t)
                    ++ mp_encode_string (str_of attr))) 4096 (finalize_nonempty _)).
Qed.

Lemma get_overreads_truncated_frame_witness :
  tarantool_get (Some (str_of (lit "id"))) (ex_tcon 1) (ex_world [0x81; 0x00]) = Undef.
Proof.
  apply (get_overreads_truncated_frame (ex_tcon 1) ex_conn _ (lit "id") []).
  - apply ex_ready. reflexivity.
  - apply ex_answers. vm_compute. split; [reflexivity|discriminate].
  - vm_compute. discriminate.
Defined.

(** * The pool *)

(** An operation of the driver's interface. *)
Inductive request_op :=
| OpGet (attr : option str) | OpGetBuf (attr : option str) (buflen : Z)
| OpSet (attr val : option str) (expires : Z) | OpRemove (attr : option str)
| OpQuery (q : option str) (out : bool) | OpCall (proc args : option str) (res : bool)
| OpEval (expr : option str).

Definition run_op (o : request_op) : MT unit :=
  match o with
  | OpGet a => _ ← tarantool_get a; mret tt
  | OpGetBuf a n => _ ← tarantool_get_buf a n; mret tt
  | OpSet a v e => _ ← tarantool_set a v e; mret tt
  | OpRemove a => _ ← tarantool_remove a; mret tt
  | OpQuery q o => _ ← tarantool_raw_query q o; mret tt
  | OpCall p a r => _ ← tarantool_call_proc p a r; mret tt
  | OpEval e => _ ← tarantool_eval_expr e; mret tt
  end.

Fixpoint run_ops (os : list request_op) : MT unit :=
  match os with [] => mret tt | o :: r => _ ← run_op o; run_ops r end.

Lemma preserves_run_op o : preserves (run_op o).
Proof.
  destruct o; cbn [run_op]; (apply preserves_bind; [|intros; apply preserves_ret]);
    auto using preserves_get, preserves_get_buf, preserves_set, preserves_remove, preserves_query,
      preserves_call, preserves_eval.
Qed.

(** C6: whatever the network, the clock and the allocator do, from [tarantool_init] through
    any sequence of operations the pool stays well-formed: the index is in range, there
    are exactly [pool_size] connections, each is authenticated if and only if it has a
    descriptor, and each breaker is open exactly when its threshold has been reached. *)
Theorem pool_invariant g url os t w t1 w1
  (Hinit : tarantool_init g url t w = Ret true t1 w1) :
  wp (run_ops os) (fun _ t' _ => pool_inv t') t1 w1.
Proof.
  assert (pool_inv t1) as Ht1.
  { pose proof (init_wp g url t w) as H. unfold wp in H. rewrite Hinit in H. by apply H. }
  clear Hinit. revert t1 w1 Ht1. induction os as [|o os IH]; intros t1 w1 Ht1; [done|].
  cbn [run_ops]. apply wp_bind. eapply wp_mono; [by apply preserves_run_op|].
  intros ? t2 w2 Ht2. by apply IH.
Qed.

Definition ex_url : list Z := lit "tarantool://u:pw@127.0.0.1:3301/s".

Lemma pool_invariant_witness : exists t1 w1,
  tarantool_init (Params 1000 500 1 10 3 1 2 1) (Some (str_of ex_url)) zero_cluster (ex_world []) =
    Ret true t1 w1 /\
  wp (run_ops [OpGet (Some (str_of (lit "id")))]) (fun _ t' _ => pool_inv t') t1 w1.
Proof.
  eexists _, _. split; [reflexivity|].
  eapply (pool_invariant (Params 1000 500 1 10 3 1 2 1) (Some (str_of ex_url)) _ zero_cluster (ex_world [])).
  reflexivity.
Defined.

(** [k] requests for a connection. *)
Fixpoint get_conns (k : nat) : MT (list (option Z)) :=
  match k with
  | O => mret []
  | S k' => r ← tnt_get_conn; rs ← get_conns k'; mret (r :: rs)
  end.

(** The connections handed out by successive calls go round the pool: the [k]-th call
    gives the connection [k] places after the first, modulo the pool's size, and it is
    authenticated, or gives none when that one cannot be connected. *)
Theorem round_robin k t w (Ht : pool_inv t) :
  wp (get_conns k) (fun rs t' _ => pool_inv t' /\
    current_idx t' = (current_idx t + Z.of_nat k) mod pool_size (cfg t) /\
    forall j i, rs !! j = Some (Some i) ->
      i = (current_idx t + Z.of_nat j) mod pool_size (cfg t)) t w.
Proof.
  revert t w Ht. induction k as [|k IH]; intros t w Ht.
  { cbn [get_conns]. apply wp_ret. split; [done|]. destruct Ht as [Hi _]. split.
    - rewrite Z.add_0_r, Z.mod_small; lia.
    - intros j i. by rewrite lookup_nil. }
  cbn [get_conns]. apply wp_bind. eapply wp_mono; [by apply get_conn_wp|].
  intros r t1 w1 (Ht1 & Hcfg & Hidx & Hr). apply wp_bind. eapply wp_mono; [by apply IH|].
  intros rs t2 w2 (Ht2 & Hidx2 & Hrs). apply wp_ret. split; [done|].
  rewrite Hcfg, Hidx in *. destruct Ht as [Hi _]. split.
  - rewrite Hidx2. rewrite Z.add_mod_idemp_l by lia. f_equal. lia.
  - intros [|j] i Hj; cbn in Hj.
    + simplify_eq. destruct Hr as [-> _]. rewrite Z.add_0_r, Z.mod_small; lia.
    + rewrite (Hrs _ _ Hj), Z.add_mod_idemp_l by lia. f_equal. lia.
Qed.

Lemma ex_pool n : 0 < n -> pool_inv (ex_tcon n).
Proof.
  intros H. split; [done|]. eexists. split; [reflexivity|].
  split; [unfold len; rewrite repeat_length; cbn; lia|].
  apply List.Forall_forall. intros c Hc. apply repeat_spec in Hc as ->.
  split; [by left|]. apply (reset_inv (tnt_policy (ex_tcon n))).
Qed.

Lemma round_robin_witness :
  wp (get_conns 5) (fun rs t' _ => pool_inv t' /\ current_idx t' = (0 + 5) mod 3 /\
    forall j i, rs !! j = Some (Some i) -> i = (0 + Z.of_nat j) mod 3) (ex_tcon 3) (ex_world []).
Proof. apply (round_robin 5 (ex_tcon 3) (ex_world [])). apply ex_pool. reflexivity. Defined.

(** * The circuit breaker *)



(** A run of [n] failing exchanges on the connection [i]. *)
Fixpoint conn_errors (n : nat) (i : Z) : MT unit :=
  match n with O => mret tt | S n' => _ ← tnt_conn_error i; conn_errors n' i end.

(** [allowed_errors] consecutive errors on a connection disable it: from then on, for
    [disable_time] seconds, connecting returns -1 and touches nothing but the clock. *)
Theorem breaker_opens_and_fails_fast t w i c n
  (Hc : conn_at t i = Some c) (Hst : state c <> TNT_STATE_DISABLED)
  (Hn : consecutive_errors c + Z.of_nat (S n) = allowed_errors (cfg t)) :
  exists t' w' last, conn_errors (S n) i t w = Ret tt t' w' /\
    forall w2, (sys_time w2).1 < last + disable_time_sec (cfg t) ->
      tnt_connect_single i t' w2 = Ret (-1) t' (sys_time w2).2.
Proof.
  revert t w c Hc Hst Hn. induction n as [|n IH]; intros t w c Hc Hst Hn; cbn [conn_errors];
    pose proof (tnt_conn_error_ok t i c w Hc) as He; cbv zeta in He; run He.
  - eexists _, _, _. split; [reflexivity|]. intros w2 Hlt. unfold tnt_connect_single.
    destruct (sys_time w2) as [now w3] eqn:Et. cbn [fst snd] in *.
    assert (time_ (put_conn t i (failed_conn t (sys_time (closed_world c w)).1 c)) w2 =
            Ret now (put_conn t i (failed_conn t (sys_time (closed_world c w)).1 c)) w3) as Hti.
    { unfold time_, sys. by rewrite Et. }
    run Hti. rewrite (bind_conn_put _ _ _ _ _ _ Hc), bind_get. unfold failed_conn.
    destruct (allowed_errors (cfg t) <=? consecutive_errors c + 1) eqn:E; [|lia]. csimp.
    change (bool_decide (TNT_STATE_DISABLED = TNT_STATE_DISABLED)) with true. cbn [andb].
    destruct (now <? _) eqn:E2; [done|]. rewrite Z.ltb_ge in E2. exfalso.
    exact (Zlt_not_le _ _ Hlt E2).
  - destruct (allowed_errors (cfg t) <=? consecutive_errors c + 1) eqn:E; [lia|].
    destruct (IH (put_conn t i (failed_conn t (sys_time (closed_world c w)).1 c)) (closed_world c w)
                 (failed_conn t (sys_time (closed_world c w)).1 c)) as (t' & w' & last & H1 & H2).
    + by eapply conn_at_put.
    + unfold failed_conn. rewrite E. csimp. done.
    + unfold failed_conn. rewrite E. csimp. change (cfg (put_conn t i _)) with (cfg t). lia.
    + exists t', w', last. split; [exact H1|exact H2].
Qed.

Lemma breaker_opens_and_fails_fast_witness :
  exists t' w' last, conn_errors 3 0 (ex_tcon 1) (ex_world []) = Ret tt t' w' /\
    forall w2, (sys_time w2).1 < last + 10 ->
      tnt_connect_single 0 t' w2 = Ret (-1) t' (sys_time w2).2.
Proof.
  apply (breaker_opens_and_fails_fast (ex_tcon 1) (ex_world []) 0 ex_conn 2).
  - reflexivity.
  - discriminate.
  - reflexivity.
Defined.

(** * Authentication *)

(** The AUTH request of [user] for a scramble. *)
Definition auth_frame (user scramble : list Z) : list Z :=
  finalize_packet (request
    [(uint_mp IPROTO_REQUEST_TYPE, uint_mp IPROTO_AUTH); (uint_mp IPROTO_SYNC, uint_mp 1)]
    [(uint_mp IPROTO_USER_NAME, mstr user);
     (uint_mp IPROTO_TUPLE, MArr FFix [mstr (lit "chap-sha1"); MBin F8 scramble])]).

Definition credentials (t : tnt_cluster_con) (us pw : list Z) : Prop :=
  user (cfg t) = str_of us /\ pass (cfg t) = str_of pw /\ us <> [] /\ pw <> [] /\
  len us <= 460 /\ bytes_ok pw /\ len pw < 2 ^ 31.

Lemma str_set_of bs : bs <> [] -> str_set (str_of bs) = true.
Proof.
  intros H. unfold str_set. cbn [chars slen str_of]. rewrite bool_decide_eq_true_2 by done.
  destruct bs as [|b bs]; [done|]. lens. pose proof (len_nonneg bs). cbn [andb]. lia.
Qed.

Lemma len_auth_frame us pw salt : len us <= 460 -> bytes_ok pw -> bytes_ok salt -> len pw < 2 ^ 31 ->
  len (auth_frame us (chap_scramble pw salt)) <= 512.
Proof.
  intros Hu Hp Hs Hl. assert (len (chap_scramble pw salt) = 20) as H20 by (apply len_chap; (done || lia)).
  unfold auth_frame. rewrite <- auth_payload_request by (done || lia).
  rewrite len_finalize. unfold auth_payload, TNT_SHA1_DIGEST_SIZE.
  rewrite (mp_encode_lit _ 9) by done. rewrite <- H20 at 1. rewrite mp_encode_bin_bytes by lia.
  rewrite H20. change (bin_fmt 20) with F8. cbn [mp_bytes hdr]. rewrite H20.
  pose proof (len_string us ltac:(lia)). len_closed. rewrite H20.
  change (len (be_bytes 1 20)) with 1. change (len (mp_bytes (mstr (lit "chap-sha1")))) with 10. lia.
Qed.

Lemma auth_run t fd w s0 us pw salt resp evs :
  credentials t us pw -> bytes_ok salt -> 20 <= len salt <= 64 ->
  socks w !! fd = Some s0 -> tx s0 = [] ->
  stream retry_all (rx s0) (finalize_packet resp) evs -> 0 < len resp <= 65536 -> w_malloc w = [] ->
  tnt_auth_scramble fd (Rfc4648.encode salt) t w =
  (b0 ← of_read (rd resp 0);
   if 0x80 <=? b0 then
     b1 ← of_read (rd resp 1); mret (if b1 =? 0x00 then 0 else -1)
   else mret (-1)) t (with_sock w fd (sent_recvd s0 evs (auth_frame us (chap_scramble pw salt)))).
Proof.
  intros (Hus & Hpw & Hune & Hpne & Hul & Hpb & Hpl) Hsb Hsl Hs Htx Hst Hl Hm.
  unfold tnt_auth_scramble. rewrite bind_get, Hus, Hpw, !str_set_of by done. cbn [negb orb].
  rewrite b64_decode_encode by (done || lia).
  destruct (len salt <? TNT_SHA1_DIGEST_SIZE) eqn:E; [unfold TNT_SHA1_DIGEST_SIZE in E; lia|].
  cbn [chars slen str_of].
  rewrite (bind_read (Some pw) pw) by done. rewrite ztake_all by done.
  assert (len (chap_scramble pw salt) = 20) as H20 by (apply len_chap; (done || lia)).
  rewrite auth_payload_request by (done || lia). fold (auth_frame us (chap_scramble pw salt)).
  rewrite bind_buffer by (apply len_auth_frame; (done || lia)).
  run (send_all_ok retry_all false fd (auth_frame us (chap_scramble pw salt)) t w s0 Hs Htx). cbn [negb].
  rewrite finalize_split in Hst by lia.
  destruct (stream_app_inv _ _ _ _ Hst _ _ eq_refl) as (mid & S1 & S2).
  set (s1 := sent s0 [] (auth_frame us (chap_scramble pw salt))).
  run (recv_all_ok retry_all fd 5 t (with_sock w fd s1) s1 _ _ (with_sock_lookup w fd s1) S1 eq_refl).
  rewrite with_sock_twice.
  run (eq_refl : rd (MP_UINT32 :: be_bytes 4 (len resp)) 0 = Some MP_UINT32).
  change (negb (MP_UINT32 =? MP_UINT32)) with false. cbv iota.
  run (prefix_len_be (len resp) ltac:(lia)).
  destruct ((len resp =? 0) || (65536 <? len resp)) eqn:E2; [lia|].
  set (s2 := set_rx s1 mid).
  run (malloc_free t (with_sock w fd s2) Hm). cbn [negb].
  run (recv_all_ok retry_all fd (len resp) t (with_sock w fd s2) s2 _ _ (with_sock_lookup w fd s2) S2 eq_refl).
  by rewrite with_sock_twice.
Qed.

Definition ex_salt : list Z := repeat 7 32.
Definition ex_fd_world (resp : list Z) : world :=
  World [1000] {[ 5 := Sock [RxData MP_UINT32 (tail (finalize_packet resp))] [] [] ]} [] [] [] [].

Lemma ex_fd_stream resp :
  stream retry_all [RxData MP_UINT32 (tail (finalize_packet resp))] (finalize_packet resp) [].
Proof.
  change (finalize_packet resp) with (MP_UINT32 :: tail (finalize_packet resp)) at 2.
  rewrite <- (app_nil_r (MP_UINT32 :: _)). apply stream_data, stream_nil.
Qed.

Lemma ex_credentials n : credentials (ex_tcon n) (lit "u") (lit "pw").
Proof. repeat split; try done. by apply bytes_dec. Qed.



(** An authentication the server refuses is taken as success: the driver looks at the
    first key of the response header, which is the request type, and never at its
    value, so every error code is accepted. *)
Theorem auth_accepts_error_responses t fd w s0 us pw salt code header body evs
  (Hcred : credentials t us pw) (Hsalt : bytes_ok salt) (Hlen : 20 <= len salt <= 64)
  (Hs : socks w !! fd = Some s0) (Htx : tx s0 = []) (Hm : w_malloc w = [])
  (Hn : len header < 15)
  (Hl : len (mp_bytes (MMap FFix ((MFix IPROTO_REQUEST_TYPE, code) :: header)) ++ body) <= 65536)
  (Hst : stream retry_all (rx s0)
           (finalize_packet (mp_bytes (MMap FFix ((MFix IPROTO_REQUEST_TYPE, code) :: header)) ++ body)) evs) :
  exists w', tnt_auth_scramble fd (Rfc4648.encode salt) t w = Ret 0 t w'.
Proof.
  set (resp := mp_bytes _ ++ body) in *.
  assert (exists b0 tl, resp = b0 :: 0 :: tl /\ 0x80 <= b0) as (b0 & tl & Er & Hb0).
  { unfold resp. cbn [mp_bytes hdr flat_map fst snd app]. lens. pose proof (len_nonneg header).
    eexists _, _. split; [reflexivity|]. unfold MP_FIXMAP. lia. }
  eexists. rewrite (auth_run t fd w s0 us pw salt resp evs); try done.
  pose proof (at_whole resp) as Hat. rewrite Er in Hat at 2. destruct Hat as [R0 [R1 _]].
  run R0. destruct (0x80 <=? b0) eqn:E; [|lia]. by run R1.
Qed.

Lemma auth_accepts_error_responses_witness : exists w',
  tnt_auth_scramble 5 (Rfc4648.encode ex_salt) (ex_tcon 1)
    (ex_fd_world (mp_bytes (MMap FFix ((MFix IPROTO_REQUEST_TYPE, MUint W16 0x802f) :: [(MFix 1, MFix 1)])) ++ [0x80])) =
    Ret 0 (ex_tcon 1) w'.
Proof.
  eapply (auth_accepts_error_responses (ex_tcon 1) 5 _ _ (lit "u") (lit "pw") ex_salt
    (MUint W16 0x802f) [(MFix 1, MFix 1)] [0x80] []).
  - apply ex_credentials.
  - apply bytes_dec. reflexivity.
  - vm_compute. split; discriminate.
  - reflexivity.
  - reflexivity.
  - reflexivity.
  - reflexivity.
  - vm_compute. discriminate.
  - apply ex_fd_stream.
Defined.

(** The space identifier the server resolves is never used: the loop goes over the
    header of the response instead of its body, so for every well-formed response
    the driver falls back to space 512. *)
Theorem resolve_ignores_answer t i c w s0 fh header body evs
  (Hc : conn_at t i = Some c) (Hspace : space_id t = 0)
  (Hname : exists sp, space (cfg t) = str_of sp /\ len sp <= 400)
  (Hs : socks w !! sock_fd c = Some s0) (Htx : tx s0 = []) (Hm : w_malloc w = [])
  (Hst : stream retry_all (rx s0) (finalize_packet (response fh header body)) evs)
  (Hwf : mp_wf (MMap fh header)) (Hh : others_ok header) (Hb : bytes_ok (response fh header body))
  (Hl : len (response fh header body) <= 16 * 1024 * 1024) :
  exists w', resolve_space_id i t w =
    Ret 0 (set_space_id (put_conn t i (set_sync c (sync_of c))) 512) w'.
Proof.
  destruct Hname as (sp & Hsp & Hspl). destruct Hh as [Hk Hne].
  unfold resolve_space_id. run (next_sync_ok _ _ w _ Hc).
  rewrite (bind_conn_put _ _ _ _ _ _ Hc), bind_get. csimp.
  change (space (cfg (put_conn t i ?x))) with (space (cfg t)). rewrite Hsp.
  rewrite bind_buffer; last first.
  { rewrite len_finalize. unfold resolve_payload. pose proof (len_string sp ltac:(lia)).
    pose proof (len_encode_uint (u64 (sync_counter c + 1))). len_closed. lia. }
  set (buf := finalize_packet _). set (t1 := put_conn t i _).
  run (send_all_ok retry_all false (sock_fd c) buf t1 w s0 Hs Htx). cbn [negb].
  assert (0 < len (response fh header body)) as Hpos.
  { unfold response. lens. pose proof (mp_bytes_pos (MMap fh header)). pose proof (len_nonneg body). lia. }
  run (read_frame_ok (sock_fd c) 1024 t1 _ (sent s0 [] buf) _ evs (with_sock_lookup w _ _) Hst
         (conj Hpos Hl) Hm).
  destruct (map_at (response fh header body) 0 fh header Hwf (at_start _ _)) as (q & Hd & Hq & Hkv & _).
  run Hd. change (space_id t1) with (space_id t). rewrite Hspace.
  rewrite (bind_read _ 0); last first.
  { pose proof (map_count_le fh header body).
    apply resolve_loop_ok; try done; [by apply bytes_buf_ok|lia|unfold response; lia]. }
  rewrite !bind_modify. change (0 =? 0) with true. cbv iota. eexists. reflexivity.
Qed.

Lemma resolve_ignores_answer_witness : exists w',
  resolve_space_id 0 (set_space_id (ex_tcon 1) 0)
    (ex_fd_world (response FFix ex_header (mp_bytes (MMap FFix [(MFix 0x30, MArr FFix [MFix 77])])))) =
  Ret 0 (set_space_id (put_conn (set_space_id (ex_tcon 1) 0) 0 (set_sync ex_conn 1)) 512) w'.
Proof.
  eapply (resolve_ignores_answer (set_space_id (ex_tcon 1) 0) 0 ex_conn _ _ FFix ex_header
    (mp_bytes (MMap FFix [(MFix 0x30, MArr FFix [MFix 77])])) []).
  - reflexivity.
  - reflexivity.
  - exists (lit "rtpe_calls"). split; [reflexivity|vm_compute; discriminate].
  - reflexivity.
  - reflexivity.
  - reflexivity.
  - apply ex_fd_stream.
  - vm_compute. repeat split; discriminate.
  - split; repeat constructor; cbn; try done; by eexists.
  - apply bytes_dec. vm_compute. reflexivity.
  - vm_compute. discriminate.
Defined.

(** * Timeouts and vectors *)

Lemma recv_timeouts {D} fd n : forall k f acc (d : D) w s0, socks w !! fd = Some s0 ->
  rx s0 = repeat (RxErr EAGAIN) k -> len acc < n -> recv_loop retry_all f fd n acc d w = Hang.
Proof.
  intros k. induction k as [|k IH]; intros f acc d w s0 Hs Hrx Hn;
    (destruct f as [|f]; cbn [recv_loop]; (destruct (n <=? len acc) eqn:E; [lia|]); [done|]);
    rewrite (bind_ret _ _ _ _ _ _ _ (sys_recv_eq d w fd s0 _ Hs)), Hrx; cbn [recv_rx repeat fst snd]; [done|].
  cbn [retry_all]. by eapply IH; [apply with_sock_lookup|..].
Qed.

(** The query timeout has no effect: when the server does not answer, each expiry of
    the receive timeout (EAGAIN) is retried, however many there are, and the operation
    never returns. *)
Theorem get_never_times_out t c w s0 attr k
  (Hready : ready t c) (Hsock : socks w !! sock_fd c = Some s0) (Htx : tx s0 = [])
  (Hattr : len attr <= 980) (Hsilent : drained (rx s0) = repeat (RxErr EAGAIN) k) :
  tarantool_get (Some (str_of attr)) t w = Hang.
Proof.
  unfold tarantool_get. run (get_conn_ready t c w s0 Hready Hsock).
  destruct Hready as (_ & Hc & _ & _). set (s1 := set_rx s0 (drained (rx s0))).
  run (next_sync_ok (current_idx t) (set_idx t (next_idx t)) (with_sock w (sock_fd c) s1) c Hc).
  rewrite bind_get. rewrite bind_buffer; last first.
  { rewrite len_finalize. lens. match goal with |- context [pack_select_header ?a ?b] =>
      pose proof (len_select_header a b) end. pose proof (len_string attr ltac:(lia)). lia. }
  set (t1 := put_conn _ _ _). set (buf := finalize_packet _). unfold exchange.
  assert (conn_at t1 (current_idx t) = Some (set_sync c (u64 (sync_counter c + 1)))) as Hc1.
  { unfold t1. by eapply conn_at_put. }
  rewrite bind_assoc. rewrite (bind_conn _ _ _ _ _ Hc1). csimp. cbv iota.
  rewrite bind_assoc.
  run (send_all_ok retry_all false (sock_fd c) buf t1 (with_sock w (sock_fd c) s1) s1
         (with_sock_lookup w (sock_fd c) s1) Htx).
  rewrite with_sock_twice. cbn [negb].
  set (s2 := sent s1 [] buf). set (w2 := with_sock w (sock_fd c) s2).
  assert (tnt_read_frame (sock_fd c) 4096 t1 w2 = Hang) as Hhang.
  { unfold tnt_read_frame, tnt_recv_all, recv_all, mbind, M_bind.
    by rewrite (recv_timeouts (sock_fd c) 5 k _ [] t1 w2 s2 (with_sock_lookup w (sock_fd c) s2) Hsilent). }
  unfold mbind, M_bind in *. by rewrite Hhang.
Qed.

Lemma get_never_times_out_witness :
  tarantool_get (Some (str_of (lit "id"))) (ex_tcon 1)
    (World [1000] {[ 5 := Sock (repeat (RxErr EAGAIN) 1001) [] [] ]} [] [] [] []) = Hang.
Proof.
  apply (get_never_times_out (ex_tcon 1) ex_conn _ (Sock (repeat (RxErr EAGAIN) 1001) [] []) (lit "id") 1000).
  - apply ex_ready. reflexivity.
  - reflexivity.
  - reflexivity.
  - vm_compute. discriminate.
  - reflexivity.
Defined.

(** Sending a vector of buffers puts on the wire a prefix of their concatenation, all of
    it exactly when the result is success, for every way the kernel cuts or interrupts
    the writes; in particular the loop ends. *)
Theorem writev_sends_concatenation fd iov (t : tnt_cluster_con) w s0
  (Hs : socks w !! fd = Some s0) (Hne : concat iov = [] -> iov = []) :
  exists done_ rest evs', concat iov = done_ ++ rest /\
    tnt_writev_all fd iov t w =
      Ret (bool_decide (rest = [])) t (with_sock w fd (sent s0 evs' done_)).
Proof. rewrite writev_all_concat by done. by apply send_all_total. Qed.

Lemma writev_sends_concatenation_witness :
  exists done_ rest evs', concat [[1; 2]; [3]] = done_ ++ rest /\
    tnt_writev_all 5 [[1; 2]; [3]] (ex_tcon 1)
      (World [] {[ 5 := Sock [] [TxSome 1; TxErr EINTR; TxSome 1; TxErr EOTHER] [] ]} [] [] [] []) =
    Ret (bool_decide (rest = [])) (ex_tcon 1)
      (with_sock (World [] {[ 5 := Sock [] [TxSome 1; TxErr EINTR; TxSome 1; TxErr EOTHER] [] ]} [] [] [] [])
         5 (sent (Sock [] [TxSome 1; TxErr EINTR; TxSome 1; TxErr EOTHER] []) evs' done_)).
Proof.
  apply (writev_sends_concatenation 5 [[1; 2]; [3]] (ex_tcon 1)).
  - reflexivity.
  - discriminate.
Defined.

(** * URLs *)

(** Parsing a URL gives back its parts: the name, the credentials, the host, the port and
    the space, with the defaults (default, guest, 3301, rtpe_calls) for the ones that
    are left out. *)
Theorem parse_url_roundtrip g u t w (Hu : url_ok u) (Hm : w_malloc w = []) :
  parse_tnt_url g (str_of (url_bytes u)) t w =
    Ret 0 (set_space_id (set_cfg t (url_cfg g u)) 0) w.
Proof. by apply parse_url_ok. Qed.

Lemma parse_url_roundtrip_witness :
  parse_tnt_url default_params (str_of (lit "tarantool:grp://bob:s3:cret@db.local:3302/calls"))
    zero_cluster (ex_world []) =
  Ret 0 (set_space_id (set_cfg zero_cluster
    (url_cfg default_params (Url (Some (lit "grp")) (Some (lit "bob", Some (lit "s3:cret")))
                                 (lit "db.local") (Some (lit "3302")) (Some (lit "calls"))))) 0) (ex_world []).
Proof.
  apply (parse_url_roundtrip default_params
    (Url (Some (lit "grp")) (Some (lit "bob", Some (lit "s3:cret")))
         (lit "db.local") (Some (lit "3302")) (Some (lit "calls")))).
  - split_and!; cbn; try (by apply clean_lit).
    + split; by apply clean_lit.
    + split_and!; [repeat constructor|discriminate|reflexivity].
  - reflexivity.
Defined.
