(* ===== verification/Rtpe.v ===== *)
(** The rtpengine driver, [rtpengine_tarantool/src/tarantool.c]: the client and its
    connection, the packets of the stored procedures, saving, deleting and restoring
    calls. The state of an operation is the client. The SHA-1, Base64 and MessagePack
    code is the same text as in the OpenSIPS driver. *)
From S2P Require Export Iproto Cstr.

(** * State *)

Inductive rtpe_tnt_state :=
  TARANTOOL_DISCONNECTED | TARANTOOL_CONNECTING | TARANTOOL_AUTHENTICATED
| TARANTOOL_DISABLED | TARANTOOL_ERROR.
#[export] Instance rtpe_tnt_state_eq_dec : EqDecision rtpe_tnt_state.
Proof. solve_decision. Defined.

(** A pointer to a string is [None] or the bytes it points to, up to the end of the
    object or the terminating NUL. *)
Record rtpe_call_info := Info {
  call_id : option (list Z); call_id_len : Z;
  node_id : option (list Z);
  caller_ip : option (list Z); caller_port : Z;
  callee_ip : option (list Z); callee_port : Z;
  srtp_suite : option (list Z); crypto_key : option (list Z);
  ttl_sec : Z
}.

(** The arrays of characters are the strings they hold. The settings [write_host],
    [write_port] and [resolve_on_reconnect], which no operation reads, are left out. *)
Record rtpe_tarantool_config := RConfig {
  r_host : list Z; r_port : Z; r_user : list Z; r_password : list Z;
  r_node_id : list Z; r_space : list Z;
  num_threads : Z; expires_secs : Z; r_connect_timeout_ms : Z; cmd_timeout_ms : Z;
  no_tarantool_required : Z; disable_time : Z; r_allowed_errors : Z;
  tcp_keepalive_time : Z; tcp_keepalive_intvl : Z; tcp_keepalive_probes : Z
}.

Record rtpe_tarantool_client := Client {
  r_config : rtpe_tarantool_config;
  r_fd : Z;
  r_state : rtpe_tnt_state;
  sync_id : Z;
  total_sent : Z;
  total_errors : Z;
  r_errors : Z;
  r_until : Z
}.

Notation "'MR'" := (M rtpe_tarantool_client) (only parsing).

Definition put_fd (c : rtpe_tarantool_client) (fd : Z) :=
  Client (r_config c) fd (r_state c) (sync_id c) (total_sent c) (total_errors c) (r_errors c) (r_until c).
Definition put_state (c : rtpe_tarantool_client) (s : rtpe_tnt_state) :=
  Client (r_config c) (r_fd c) s (sync_id c) (total_sent c) (total_errors c) (r_errors c) (r_until c).
Definition put_sync (c : rtpe_tarantool_client) (n : Z) :=
  Client (r_config c) (r_fd c) (r_state c) n (total_sent c) (total_errors c) (r_errors c) (r_until c).
Definition put_sent (c : rtpe_tarantool_client) (n : Z) :=
  Client (r_config c) (r_fd c) (r_state c) (sync_id c) n (total_errors c) (r_errors c) (r_until c).
Definition put_errors (c : rtpe_tarantool_client) (total consec : Z) :=
  Client (r_config c) (r_fd c) (r_state c) (sync_id c) (total_sent c) total consec (r_until c).
Definition put_until (c : rtpe_tarantool_client) (t : Z) :=
  Client (r_config c) (r_fd c) (r_state c) (sync_id c) (total_sent c) (total_errors c) (r_errors c) t.

(** * Sockets *)

Definition tnt_socket_send_all (fd : Z) (buf : list Z) : MR bool := send_all retry_all true fd buf.
Definition tnt_socket_recv_all (fd n : Z) : MR (option (list Z)) := recv_all retry_all fd n.

Definition rtpe_tarantool_close : MR unit :=
  c ← get;
  _ ← (if 0 <=? r_fd c then _ ← close (r_fd c); modify (fun c => put_fd c (-1)) else mret tt);
  modify (fun c => put_state c TARANTOOL_DISCONNECTED).

(** * Authentication *)

(** The AUTH request with the client's next sync. *)
Definition rtpe_auth_payload (sync : Z) (user scramble : list Z) : list Z :=
  mp_encode_map 2
  ++ mp_encode_uint IPROTO_REQUEST_TYPE ++ mp_encode_uint IPROTO_AUTH
  ++ mp_encode_uint IPROTO_SYNC ++ mp_encode_uint sync
  ++ mp_encode_map 2
  ++ mp_encode_uint IPROTO_USER_NAME ++ mp_str user
  ++ mp_encode_uint IPROTO_TUPLE ++ mp_encode_array 2
  ++ mp_encode_str (Some (lit "chap-sha1")) 9
  ++ mp_encode_bin (Some scramble) TNT_SHA1_DIGEST_SIZE.

Definition rtpe_auth_scramble (salt_b64 : list Z) : MR Z :=
  c ← get;
  if bool_decide (r_user (r_config c) = []) then mret 0 else
  let raw_salt := tnt_base64_decode salt_b64 64 in
  if len raw_salt <? TNT_SHA1_DIGEST_SIZE then mret (-1) else
  let scramble := chap_scramble (r_password (r_config c)) raw_salt in
  _ ← modify (fun c => put_sync c (u64 (sync_id c + 1)));
  c ← get;
  let packet_buf := finalize_packet (rtpe_auth_payload (sync_id c) (r_user (r_config c)) scramble) in
  _ ← in_buffer 512 packet_buf;
  sent ← tnt_socket_send_all (r_fd c) packet_buf;
  if negb sent then mret (-1) else
  resp_hdr ← tnt_socket_recv_all (r_fd c) 5;
  match resp_hdr with
  | None => mret (-1)
  | Some resp_hdr =>
      tag ← of_read (rd resp_hdr 0);
      if negb (tag =? MP_UINT32) then mret (-1) else
      resp_len ← of_read (prefix_len resp_hdr);
      if (resp_len =? 0) || (65536 <? resp_len) then mret (-1) else
      ok ← malloc;
      if negb ok then mret (-1) else
      resp_body ← tnt_socket_recv_all (r_fd c) resp_len;
      match resp_body with
      | None => mret (-1)
      | Some resp_body =>
          b0 ← of_read (rd resp_body 0);
          if 0x80 <=? b0 then
            b1 ← of_read (rd resp_body 1);
            mret (if b1 =? 0x00 then 0 else -1)
          else mret (-1)
      end
  end.

(** * Construction *)

Definition or_default (v d : Z) : Z := if v <=? 0 then d else v.

(** The client, or no client when allocation fails. *)
Definition rtpe_tarantool_new_from_config (cfg : option rtpe_tarantool_config) : MR bool :=
  match cfg with
  | None => mret false
  | Some cfg =>
      ok ← malloc;
      if negb ok then mret false else
      let config := RConfig
        (r_host cfg) (or_default (r_port cfg) 3301) (r_user cfg) (r_password cfg) (r_node_id cfg)
        (if bool_decide (r_space cfg = []) then lit "rtpe_calls" else r_space cfg)
        (or_default (num_threads cfg) 4) (or_default (expires_secs cfg) 3600)
        (or_default (r_connect_timeout_ms cfg) 500) (or_default (cmd_timeout_ms cfg) 500)
        (no_tarantool_required cfg) (or_default (disable_time cfg) 10)
        (or_default (r_allowed_errors cfg) 3)
        (or_default (tcp_keepalive_time cfg) 60) (or_default (tcp_keepalive_intvl cfg) 5)
        (or_default (tcp_keepalive_probes cfg) 3) in
      _ ← put (Client config (-1) TARANTOOL_DISCONNECTED 1 0 0 0 0);
      mret true
  end.

(** [snprintf(dst, size, "%s", src)] *)
Definition snprintf_s (size : Z) (src : list Z) : list Z := ztake (size - 1) (cstr src).

Definition rtpe_tarantool_new (host : option (list Z)) (port : Z) (user pass node : option (list Z))
  : MR bool :=
  rtpe_tarantool_new_from_config (Some (RConfig
    (snprintf_s 128 (default (lit "127.0.0.1") host)) (if 0 <? port then port else 3301)
    (match user with Some u => snprintf_s 64 u | None => [] end)
    (match pass with Some p => snprintf_s 64 p | None => [] end)
    (snprintf_s 64 (default (lit "rtpe-default") node)) (lit "rtpe_calls")
    4 3600 500 500 0 10 3 60 5 3)).

(** * Connecting *)

(** One more error, noticed at [now]. *)
Definition count_error (now : Z) : MR unit :=
  _ ← modify (fun c => put_errors c (u64 (total_errors c + 1)) (r_errors c + 1));
  c ← get;
  if r_allowed_errors (r_config c) <=? r_errors c then
    _ ← modify (fun c => put_state c TARANTOOL_DISABLED);
    modify (fun c => put_until c (now + disable_time (r_config c)))
  else mret tt.

(** [out_err] *)
Definition connect_err (now : Z) : MR Z :=
  _ ← rtpe_tarantool_close;
  _ ← modify (fun c => put_state c TARANTOOL_ERROR);
  _ ← count_error now;
  mret (-1).

Definition rtpe_tarantool_connect : MR Z :=
  now ← time_;
  c ← get;
  if bool_decide (r_state c = TARANTOOL_DISABLED) && (now <? r_until c) then mret (-1) else
  _ ← (if bool_decide (r_state c = TARANTOOL_DISABLED) then
         _ ← modify (fun c => put_state c TARANTOOL_DISCONNECTED);
         modify (fun c => put_errors c (total_errors c) 0)
       else mret tt);
  _ ← rtpe_tarantool_close;
  _ ← modify (fun c => put_state c TARANTOOL_CONNECTING);
  fd ← sys sys_socket;
  _ ← modify (fun c => put_fd c fd);
  if fd <? 0 then connect_err now else
  c ← get;
  found ← (if inet_pton4 (r_host (r_config c)) then mret true else sys sys_gai);
  if negb found then connect_err now else
  connected ← sys (sys_connect fd);
  if negb connected then connect_err now else
  greeting ← tnt_socket_recv_all fd TNT_GREETING_SIZE;
  match greeting with
  | None => connect_err now
  | Some greeting =>
      auth ← (if bool_decide (r_user (r_config c) = []) then mret 0
              else salt ← of_read (copy greeting 64 44); rtpe_auth_scramble salt);
      if auth <? 0 then connect_err now else
      _ ← modify (fun c => put_state c TARANTOOL_AUTHENTICATED);
      _ ← modify (fun c => put_errors c (total_errors c) 0);
      mret 0
  end.

(** * Packets *)

(** A string argument, or its default for a null pointer. *)
Definition str_or (p : option (list Z)) (d : list Z) : list Z := mp_str (cstr (default d p)).

Definition upsert_payload (sync : Z) (cid : list Z) (node : option (list Z)) (info : rtpe_call_info)
  : list Z :=
  mp_encode_map 2
  ++ mp_encode_uint IPROTO_REQUEST_TYPE ++ mp_encode_uint IPROTO_CALL
  ++ mp_encode_uint IPROTO_SYNC ++ mp_encode_uint sync
  ++ mp_encode_map 2
  ++ mp_encode_uint IPROTO_FUNCTION_NAME ++ mp_encode_str (Some (lit "rtpe_call_upsert")) 16
  ++ mp_encode_uint IPROTO_TUPLE ++ mp_encode_array 4
  ++ mp_str cid ++ str_or node (lit "rtpe-01")
  ++ mp_encode_map 5
  ++ mp_encode_str (Some (lit "caller_ip")) 9 ++ str_or (caller_ip info) (lit "0.0.0.0")
  ++ mp_encode_str (Some (lit "caller_port")) 11 ++ mp_encode_uint (u64 (caller_port info))
  ++ mp_encode_str (Some (lit "callee_ip")) 9 ++ str_or (callee_ip info) (lit "0.0.0.0")
  ++ mp_encode_str (Some (lit "callee_port")) 11 ++ mp_encode_uint (u64 (callee_port info))
  ++ mp_encode_str (Some (lit "srtp_suite")) 10 ++ str_or (srtp_suite info) (lit "NONE")
  ++ mp_encode_uint (if 0 <? ttl_sec info then ttl_sec info else 3600).

(** The bytes of the identifier: [n] of them, or up to the NUL when [n] is 0. *)
Definition id_bytes {D} (id : list Z) (n : Z) : M D (list Z) :=
  of_read (copy id 0 (u32 (if 0 <? n then n else len (cstr id)))).

(** The packet, [None] for the result 0; the packet must fit the buffer. *)
Definition rtpe_tarantool_pack_call_upsert {D} (buf_size sync : Z) (node : option (list Z))
    (info : rtpe_call_info) : M D (option (list Z)) :=
  if buf_size <? 512 then mret None else
  match call_id info with
  | None => mret None
  | Some id =>
      cid ← id_bytes id (call_id_len info);
      let buf := finalize_packet (upsert_payload sync cid node info) in
      _ ← in_buffer buf_size buf;
      mret (Some buf)
  end.

Definition delete_payload (sync : Z) (cid : list Z) : list Z :=
  mp_encode_map 2
  ++ mp_encode_uint IPROTO_REQUEST_TYPE ++ mp_encode_uint IPROTO_CALL
  ++ mp_encode_uint IPROTO_SYNC ++ mp_encode_uint sync
  ++ mp_encode_map 2
  ++ mp_encode_uint IPROTO_FUNCTION_NAME ++ mp_encode_str (Some (lit "rtpe_call_delete")) 16
  ++ mp_encode_uint IPROTO_TUPLE ++ mp_encode_array 1
  ++ mp_str cid.

Definition rtpe_tarantool_pack_call_delete (buf_size sync : Z) (id : option (list Z)) (id_len : Z)
  : MR (option (list Z)) :=
  if buf_size <? 128 then mret None else
  match id with
  | None => mret None
  | Some id =>
      cid ← id_bytes id id_len;
      let buf := finalize_packet (delete_payload sync cid) in
      _ ← in_buffer buf_size buf;
      mret (Some buf)
  end.

(** * Saving and deleting *)

Definition rtpe_tarantool_drain : MR unit :=
  c ← get; if r_fd c <? 0 then mret tt else socket_drain (r_fd c).

(** [client->sync_id++] *)
Definition take_sync : MR Z :=
  c ← get;
  _ ← modify (fun c => put_sync c (u64 (sync_id c + 1)));
  mret (sync_id c).

(** The result when the server cannot be reached. *)
Definition tolerated (c : rtpe_tarantool_client) : Z :=
  if no_tarantool_required (r_config c) =? 0 then -1 else 0.

(** The connection is there, after connecting if necessary. *)
Definition rtpe_ready : MR bool :=
  c ← get;
  if (r_fd c <? 0) || negb (bool_decide (r_state c = TARANTOOL_AUTHENTICATED))
  then rc ← rtpe_tarantool_connect; mret (rc =? 0) else mret true.

(** Both operations end so: connect if necessary, drain, send, and count. *)
Definition push_packet (packet : list Z) : MR Z :=
  ok ← rtpe_ready;
  if negb ok then c ← get; mret (tolerated c) else
  c ← get;
  _ ← socket_drain (r_fd c);
  sent ← tnt_socket_send_all (r_fd c) packet;
  if negb sent then
    _ ← rtpe_tarantool_close;
    _ ← modify (fun c => put_errors c (u64 (total_errors c + 1)) (r_errors c + 1));
    c ← get;
    _ ← (if r_allowed_errors (r_config c) <=? r_errors c then
           _ ← modify (fun c => put_state c TARANTOOL_DISABLED);
           now ← time_;
           modify (fun c => put_until c (now + disable_time (r_config c)))
         else mret tt);
    mret (tolerated c)
  else
    _ ← modify (fun c => put_sent c (u64 (total_sent c + 1)));
    _ ← modify (fun c => put_errors c (total_errors c) 0);
    mret 0.

Definition rtpe_tarantool_save_call (info : option rtpe_call_info) : MR Z :=
  match info with
  | None => mret (-1)
  | Some i =>
      sync ← take_sync;
      c ← get;
      let ttl := if 0 <? ttl_sec i then ttl_sec i else u32 (expires_secs (r_config c)) in
      let call_copy := Info (call_id i) (call_id_len i) (node_id i) (caller_ip i) (caller_port i)
                            (callee_ip i) (callee_port i) (srtp_suite i) (crypto_key i) ttl in
      packet ← rtpe_tarantool_pack_call_upsert 2048 sync (Some (r_node_id (r_config c))) call_copy;
      match packet with
      | None => mret (-1)
      | Some packet => push_packet packet
      end
  end.

Definition rtpe_tarantool_delete_call (id : option (list Z)) (id_len : Z) : MR Z :=
  match id with
  | None => mret (-1)
  | Some _ =>
      sync ← take_sync;
      packet ← rtpe_tarantool_pack_call_delete 1024 sync id id_len;
      match packet with
      | None => mret (-1)
      | Some packet => push_packet packet
      end
  end.
