(* ===== verification/RtpeRestore.v ===== *)
(** Restoring calls in the rtpengine driver: [rtpe_tarantool_restore_calls] of
    [rtpengine_tarantool/src/tarantool.c], the request, the loop over frames, and the
    nested loops over the body, as readers of the received frame. *)
From S2P Require Export Rtpe Reader.

(** * Reading *)

(** [strncmp(buf + p, pat, n) == 0], comparing up to the NUL of the literal. *)
Fixpoint strncmp_eq (pat : list Z) (p n : Z) : R bool := fun buf off =>
  if n <=? 0 then Some (true, off) else
  match rd buf p with
  | None => None
  | Some b =>
      match pat with
      | [] => Some (b =? 0, off)
      | c :: pat' => if b =? c then strncmp_eq pat' (p + 1) (n - 1) buf off else Some (false, off)
      end
  end.

(** A string decoded into an array of [size] characters, unless it does not fit: the
    string the array holds. *)
Definition read_chars (size : Z) (old : list Z) : R (list Z) :=
  '(v, n) ← mp_decode_str;
  if n <? size then bs ← bytes_at v n; mret (cstr bs) else mret old.

(** * The attributes of a call *)

(** The locals of one item. *)
Record restored := Restored {
  cid_buf : list Z; nid_buf : list Z; c_ip : list Z; ce_ip : list Z; suite : list Z;
  c_port : Z; ce_port : Z
}.

Definition restored_init : restored :=
  Restored [] [] (lit "0.0.0.0") (lit "0.0.0.0") (lit "NONE") 0 0.

(** One entry of the payload map. *)
Definition payload_entry (r : restored) : R restored :=
  '(k, klen) ← mp_decode_str;
  is_caller_ip ← strncmp_eq (lit "caller_ip") k klen;
  if (is_caller_ip : bool) then
    x ← read_chars 64 (c_ip r);
    mret (Restored (cid_buf r) (nid_buf r) x (ce_ip r) (suite r) (c_port r) (ce_port r))
  else
  is_callee_ip ← strncmp_eq (lit "callee_ip") k klen;
  if (is_callee_ip : bool) then
    x ← read_chars 64 (ce_ip r);
    mret (Restored (cid_buf r) (nid_buf r) (c_ip r) x (suite r) (c_port r) (ce_port r))
  else
  is_caller_port ← strncmp_eq (lit "caller_port") k klen;
  if (is_caller_port : bool) then
    x ← mp_decode_uint;
    mret (Restored (cid_buf r) (nid_buf r) (c_ip r) (ce_ip r) (suite r) (i32 x) (ce_port r))
  else
  is_callee_port ← strncmp_eq (lit "callee_port") k klen;
  if (is_callee_port : bool) then
    x ← mp_decode_uint;
    mret (Restored (cid_buf r) (nid_buf r) (c_ip r) (ce_ip r) (suite r) (c_port r) (i32 x))
  else
  is_suite ← strncmp_eq (lit "srtp_suite") k klen;
  if (is_suite : bool) then
    x ← read_chars 32 (suite r);
    mret (Restored (cid_buf r) (nid_buf r) (c_ip r) (ce_ip r) x (c_port r) (ce_port r))
  else _ ← mp_next; mret r.

(** One entry of the map of a call. *)
Definition call_entry (r : restored) : R restored :=
  '(k, klen) ← mp_decode_str;
  is_call_id ← strncmp_eq (lit "call_id") k klen;
  if (is_call_id : bool) then
    x ← read_chars 128 (cid_buf r);
    mret (Restored x (nid_buf r) (c_ip r) (ce_ip r) (suite r) (c_port r) (ce_port r))
  else
  is_node_id ← strncmp_eq (lit "node_id") k klen;
  if (is_node_id : bool) then
    x ← read_chars 64 (nid_buf r);
    mret (Restored (cid_buf r) x (c_ip r) (ce_ip r) (suite r) (c_port r) (ce_port r))
  else
  is_payload ← strncmp_eq (lit "payload") k klen;
  is_map ← (if (is_payload : bool) then t ← peek 0; mret (Z.land t 0xf0 =? MP_FIXMAP) else mret false);
  if (is_map : bool) then
    psize ← mp_decode_map; rfor psize payload_entry r
  else _ ← mp_next; mret r.

(** What the callback gets for a call. *)
Definition restored_info (r : restored) : rtpe_call_info :=
  Info (Some (cid_buf r)) (len (cid_buf r)) (Some (nid_buf r)) (Some (c_ip r)) (c_port r)
       (Some (ce_ip r)) (ce_port r) (Some (suite r)) None 0.

(** * The loops over items *)

Section restore.
(** The callback's answer on the calls delivered before and the new one: its state is a
    function of them. *)
Context (restore_cb : list rtpe_call_info -> rtpe_call_info -> Z).

(** The loop over the [n] items left of an inner array: the calls delivered so far. *)
Fixpoint sub_loop (fuel : nat) (n : Z) (calls : list rtpe_call_info) : R (list rtpe_call_info) :=
  if n <=? 0 then mret calls
  else match fuel with
       | O => overread
       | S f =>
           sub_tag ← peek 0;
           r ← (if (Z.land sub_tag 0xf0 =? MP_FIXMAP) || (sub_tag =? MP_MAP16) || (sub_tag =? MP_MAP32)
                then m_size ← mp_decode_map; rfor m_size call_entry restored_init
                else _ ← mp_next; mret restored_init);
           if bool_decide (cid_buf r = []) then sub_loop f (n - 1) calls
           else let info := restored_info r in
                if negb (restore_cb calls info =? 0) then mret (calls ++ [info])
                else sub_loop f (n - 1) (calls ++ [info])
       end.

Definition sub_loop_all (n : Z) (calls : list rtpe_call_info) : R (list rtpe_call_info) :=
  fun buf off => sub_loop (S (length buf)) n calls buf off.

(** One item of the outer array. *)
Definition data_item (calls : list rtpe_call_info) : R (list rtpe_call_info) :=
  item_tag ← peek 0;
  if (Z.land item_tag 0xf0 =? MP_FIXARRAY) || (item_tag =? MP_ARRAY16) || (item_tag =? MP_ARRAY32)
  then sub_count ← mp_decode_array; sub_loop_all sub_count calls
  else _ ← mp_next; mret calls.

(** One entry of the body map. *)
Definition body_entry (calls : list rtpe_call_info) : R (list rtpe_call_info) :=
  key ← mp_decode_uint;
  if key =? IPROTO_DATA then
    data_arr_len ← mp_decode_array; rfor data_arr_len data_item calls
  else _ ← mp_next; mret calls.

(** One entry of the header map: the sync found so far. *)
Definition header_entry (msg_sync : Z) : R Z :=
  key ← mp_decode_uint;
  if key =? IPROTO_SYNC then mp_decode_uint else _ ← mp_next; mret msg_sync.

(** The calls of a frame, [None] when it answers another request. *)
Definition read_message (sync : Z) : R (option (list rtpe_call_info)) :=
  header_map ← mp_decode_map;
  msg_sync ← rfor header_map header_entry 0;
  if negb (msg_sync =? sync) then mret None else
  body_map ← mp_decode_map;
  calls ← rfor body_map body_entry [];
  mret (Some calls).

(** * The operation *)

Definition restore_payload (sync : Z) (node : list Z) : list Z :=
  mp_encode_map 2
  ++ mp_encode_uint IPROTO_REQUEST_TYPE ++ mp_encode_uint IPROTO_CALL
  ++ mp_encode_uint IPROTO_SYNC ++ mp_encode_uint sync
  ++ mp_encode_map 2
  ++ mp_encode_uint IPROTO_FUNCTION_NAME ++ mp_encode_str (Some (lit "rtpe_call_restore")) 17
  ++ mp_encode_uint IPROTO_TUPLE ++ mp_encode_array 1 ++ mp_str node.

(** [while (1)]: the frames up to the one that answers the request. A turn that goes on
    has taken bytes off the socket. *)
Fixpoint frame_loop (fuel : nat) (sync : Z) : MR (option (list rtpe_call_info)) :=
  match fuel with
  | O => hang
  | S f =>
      c ← get;
      resp_hdr ← tnt_socket_recv_all (r_fd c) 5;
      match resp_hdr with
      | None => _ ← rtpe_tarantool_close; mret None
      | Some resp_hdr =>
          tag ← of_read (rd resp_hdr 0);
          if negb (tag =? MP_UINT32) then _ ← rtpe_tarantool_close; mret None else
          resp_len ← of_read (prefix_len resp_hdr);
          if (resp_len =? 0) || (1048576 <? resp_len) then _ ← rtpe_tarantool_close; mret None else
          ok ← malloc;
          if negb ok then _ ← rtpe_tarantool_close; mret None else
          resp_body ← tnt_socket_recv_all (r_fd c) resp_len;
          match resp_body with
          | None => _ ← rtpe_tarantool_close; mret None
          | Some body =>
              '(r, _) ← of_read (read_message sync body 0);
              match r with
              | None => frame_loop f sync
              | Some calls => mret (Some calls)
              end
          end
      end
  end.

Definition frame_loop_all (sync : Z) : MR (option (list rtpe_call_info)) := fun c w =>
  frame_loop (S (match socks w !! r_fd c with Some s => rx_size (rx s) | None => 0%nat end)) sync c w.

(** The return value and the calls delivered to the callback. *)
Definition rtpe_tarantool_restore_calls (node : option (list Z)) : MR (Z * list rtpe_call_info) :=
  match node with
  | None => mret (-1, [])
  | Some node =>
      ok ← rtpe_ready;
      if negb ok then mret (-1, []) else
      c ← get;
      _ ← socket_drain (r_fd c);
      sync ← take_sync;
      let packet := finalize_packet (restore_payload sync (cstr node)) in
      _ ← in_buffer 512 packet;
      sent ← tnt_socket_send_all (r_fd c) packet;
      if negb sent then _ ← rtpe_tarantool_close; mret (-1, []) else
      calls ← frame_loop_all sync;
      match calls with
      | None => mret (-1, [])
      | Some calls => mret (i32 (len calls), calls)
      end
  end.

End restore.

Definition rtpe_tarantool_free : MR unit := rtpe_tarantool_close.
