(* ===== verification/RtpeFacts.v ===== *)
(** The rtpengine driver's operations: what the packets are, what connecting and pushing
    a packet do to the client and its breaker on every network. *)
From S2P Require Export Breaker CstrFacts IprotoFacts OpenSipsWire RtpeRestore.

(** * Packets *)

Lemma mp_str_of bs : len bs < 2 ^ 32 -> mp_str bs = mp_bytes (mstr bs).
Proof. intros. by apply mp_str_bytes. Qed.

(** The string a pointer argument stands for. *)
Definition or_else (p : option (list Z)) (d : list Z) : list Z := cstr (default d p).

(** What is stored of a call: its payload, and the arguments of [rtpe_call_upsert]. *)
Definition payload_map (info : rtpe_call_info) : mp :=
  MMap FFix [(mstr (lit "caller_ip"), mstr (or_else (caller_ip info) (lit "0.0.0.0")));
             (mstr (lit "caller_port"), uint_mp (u64 (caller_port info)));
             (mstr (lit "callee_ip"), mstr (or_else (callee_ip info) (lit "0.0.0.0")));
             (mstr (lit "callee_port"), uint_mp (u64 (callee_port info)));
             (mstr (lit "srtp_suite"), mstr (or_else (srtp_suite info) (lit "NONE")))].

Definition upsert_args (cid : list Z) (node : option (list Z)) (info : rtpe_call_info) : list mp :=
  [mstr cid; mstr (or_else node (lit "rtpe-01")); payload_map info;
   uint_mp (if 0 <? ttl_sec info then ttl_sec info else 3600)].

Definition call_request_of (sync : Z) (proc : list Z) (args : list mp) : list Z :=
  request [(uint_mp IPROTO_REQUEST_TYPE, uint_mp IPROTO_CALL); (uint_mp IPROTO_SYNC, uint_mp sync)]
          [(uint_mp IPROTO_FUNCTION_NAME, mstr proc); (uint_mp IPROTO_TUPLE, MArr FFix args)].

(** The strings of a call are shorter than 2^32 bytes. *)
Definition info_small (cid : list Z) (node : option (list Z)) (info : rtpe_call_info) : Prop :=
  Forall (fun bs => len bs < 2 ^ 32)
    [cid; or_else node (lit "rtpe-01"); or_else (caller_ip info) (lit "0.0.0.0");
     or_else (callee_ip info) (lit "0.0.0.0"); or_else (srtp_suite info) (lit "NONE")].

Lemma upsert_request sync cid node info : info_small cid node info ->
  upsert_payload sync cid node info = call_request_of sync (lit "rtpe_call_upsert") (upsert_args cid node info).
Proof.
  unfold info_small. rewrite !Forall_cons. intros (H1 & H2 & H3 & H4 & H5 & _).
  unfold upsert_payload, call_request_of, upsert_args, payload_map, str_or. fold (or_else node (lit "rtpe-01")).
  fold (or_else (caller_ip info) (lit "0.0.0.0")). fold (or_else (callee_ip info) (lit "0.0.0.0")).
  fold (or_else (srtp_suite info) (lit "NONE")).
  rewrite !mp_str_of by done.
  rewrite (mp_encode_lit _ 16), !(mp_encode_lit _ 9), !(mp_encode_lit _ 11), (mp_encode_lit _ 10) by done.
  by request_bytes.
Qed.

Lemma rdelete_request sync cid : len cid < 2 ^ 32 ->
  delete_payload sync cid = call_request_of sync (lit "rtpe_call_delete") [mstr cid].
Proof.
  intros H. unfold delete_payload, call_request_of. rewrite mp_str_of by done.
  rewrite (mp_encode_lit _ 16) by done. by request_bytes.
Qed.

Lemma restore_request sync node : len node < 2 ^ 32 ->
  restore_payload sync node = call_request_of sync (lit "rtpe_call_restore") [mstr node].
Proof.
  intros H. unfold restore_payload, call_request_of. rewrite mp_str_of by done.
  rewrite (mp_encode_lit _ 17) by done. by request_bytes.
Qed.

(** * The breaker *)

#[export] Instance rtpe_breaker : IsBreaker rtpe_tarantool_client.
Proof.
  refine {| view := fun c => Br (r_errors c)
                       (if decide (r_state c = TARANTOOL_DISABLED) then Some (r_until c) else None);
            refuses := fun now c => bool_decide (r_state c = TARANTOOL_DISABLED) && (now <? r_until c) |}.
  intros now c. unfold allow. cbn [open].
  destruct (decide (r_state c = TARANTOOL_DISABLED)) as [e|e].
  - rewrite (bool_decide_eq_true_2 _ e). by destruct (now <? r_until c).
  - rewrite (bool_decide_eq_false_2 _ e). by split.
Defined.

Definition rtpe_policy (c : rtpe_tarantool_client) : policy :=
  Policy (r_allowed_errors (r_config c)) (disable_time (r_config c)).

Definition rlink_inv (c : rtpe_tarantool_client) : Prop :=
  (r_state c = TARANTOOL_AUTHENTICATED /\ 0 <= r_fd c) \/
  (r_state c <> TARANTOOL_AUTHENTICATED /\ r_fd c < 0).

Definition client_inv (c : rtpe_tarantool_client) : Prop :=
  rlink_inv c /\ breaker_inv (rtpe_policy c) (view c).

(** * Rules *)

Lemma rwp_keeps {A} (m : MR A) (Q : A -> rtpe_tarantool_client -> world -> Prop) c w :
  keeps m -> (forall a w', Q a c w') -> wp m Q c w.
Proof. intros Hk HQ. eapply wp_mono; [apply Hk|]. intros a c' w' ->. apply HQ. Qed.

(** Closing: the descriptor and the state. *)
Definition closed_client (c : rtpe_tarantool_client) : rtpe_tarantool_client :=
  put_state (if 0 <=? r_fd c then put_fd c (-1) else c) TARANTOOL_DISCONNECTED.
Definition rclosed_world (c : rtpe_tarantool_client) (w : world) : world :=
  if 0 <=? r_fd c then sys_close (r_fd c) w else w.

Lemma rtpe_close_ok c w : rtpe_tarantool_close c w = Ret tt (closed_client c) (rclosed_world c w).
Proof.
  unfold rtpe_tarantool_close, closed_client, rclosed_world. rewrite bind_get.
  by destruct (0 <=? r_fd c).
Qed.

Lemma closed_fd c : r_fd (closed_client c) < 0.
Proof. unfold closed_client. destruct (0 <=? r_fd c) eqn:E; cbn; lia. Qed.

(** The client after a failed attempt to connect. *)
Definition refused_client (now : Z) (c : rtpe_tarantool_client) : rtpe_tarantool_client :=
  let fd := if 0 <=? r_fd c then -1 else r_fd c in
  let n := r_errors c + 1 in
  if r_allowed_errors (r_config c) <=? n
  then Client (r_config c) fd TARANTOOL_DISABLED (sync_id c) (total_sent c)
              (u64 (total_errors c + 1)) n (now + disable_time (r_config c))
  else Client (r_config c) fd TARANTOOL_ERROR (sync_id c) (total_sent c)
              (u64 (total_errors c + 1)) n (r_until c).

Lemma connect_err_ok now c w :
  connect_err now c w = Ret (-1) (refused_client now c) (rclosed_world c w).
Proof.
  unfold connect_err. rewrite (bind_ret _ _ _ _ _ _ _ (rtpe_close_ok c w)).
  unfold count_error, refused_client, closed_client. rewrite bind_modify, bind_assoc, bind_modify, bind_assoc, bind_get.
  destruct (0 <=? r_fd c); cbn -[Z.leb Z.add]; destruct (r_allowed_errors (r_config c) <=? r_errors c + 1); done.
Qed.

Lemma refused_view now c : r_state c <> TARANTOOL_DISABLED ->
  view (refused_client now c) = fail (rtpe_policy c) now (view c).
Proof.
  intros H. unfold refused_client, fail. cbn -[Z.leb Z.add]. rewrite (decide_False _ _ H).
  by destruct (_ <=? r_errors c + 1).
Qed.

Lemma keeps_rsend fd bs : keeps (tnt_socket_send_all fd bs).
Proof. apply keeps_send_all. Qed.
Lemma keeps_rrecv fd n : keeps (tnt_socket_recv_all fd n).
Proof. apply keeps_recv_all. Qed.
#[export] Hint Resolve keeps_rsend keeps_rrecv : keeps.

(** The handshake changes nothing but the sync counter. *)
Lemma rauth_wp salt c w :
  wp (rtpe_auth_scramble salt) (fun _ c' _ => exists n, c' = put_sync c n) c w.
Proof.
  assert (c = put_sync c (sync_id c)) as Hid by by destruct c.
  assert (forall c1 (m : MR Z) w1, (exists n, c1 = put_sync c n) -> keeps m ->
    wp m (fun _ c' _ => exists n, c' = put_sync c n) c1 w1) as Hk.
  { intros c1 m w1 Hn Hm. by apply rwp_keeps. }
  unfold rtpe_auth_scramble. apply wp_bind, wp_get.
  destruct (bool_decide _); [apply wp_ret; eauto|]. destruct (_ <? _); [apply wp_ret; eauto|].
  apply wp_bind, wp_modify, wp_bind, wp_get, wp_bind, wp_in_buffer. intros _.
  apply Hk; [eauto|].
  apply keeps_bind; [auto with keeps|]. intros sent. destruct (negb sent); [done|].
  apply keeps_bind; [auto with keeps|]. intros [h|]; [|done].
  apply keeps_bind; [auto with keeps|]. intros tag. destruct (negb _); [done|].
  apply keeps_bind; [auto with keeps|]. intros n. destruct (_ || _); [done|].
  apply keeps_bind; [auto with keeps|]. intros ok. destruct (negb ok); [done|].
  apply keeps_bind; [auto with keeps|]. intros [b|]; [|done]. auto with keeps.
Qed.

(** What connecting leaves, entered at [now]. *)
Definition rconnected (now r : Z) (c c' : rtpe_tarantool_client) : Prop :=
  r_config c' = r_config c /\
  if refuses now c then r = -1 /\ c' = c
  else (r = 0 /\ r_state c' = TARANTOOL_AUTHENTICATED /\ 0 <= r_fd c' /\ view c' = reset) \/
       (r = -1 /\ r_state c' <> TARANTOOL_AUTHENTICATED /\ r_fd c' < 0 /\
        exists b, allow now (view c) = Some b /\ view c' = fail (rtpe_policy c) now b).

(** From a client [c1] that the breaker lets try again: the handshake. *)
Lemma rhandshake_wp now c c1 w1 :
  refuses now c = false -> r_config c1 = r_config c -> allow now (view c) = Some (Br (r_errors c1) None) ->
  wp (_ ← rtpe_tarantool_close;
      _ ← modify (fun c => put_state c TARANTOOL_CONNECTING);
      fd ← sys sys_socket;
      _ ← modify (fun c => put_fd c fd);
      if fd <? 0 then connect_err now else
      c ← get;
      found ← (if inet_pton4 (r_host (r_config c)) then mret true else sys sys_gai);
      if negb found then connect_err now else
      connected ← sys (sys_connect fd);
      if negb connected then connect_err now else
      greeting ← tnt_socket_recv_all fd TNT_GREETING_SIZE;
      match greeting with
      | None => connect_err now
      | Some greeting =>
          auth ← (if bool_decide (r_user (r_config c) = []) then mret 0
                  else salt ← of_read (copy greeting 64 44); rtpe_auth_scramble salt);
          if auth <? 0 then connect_err now else
          _ ← modify (fun c => put_state c TARANTOOL_AUTHENTICATED);
          _ ← modify (fun c => put_errors c (total_errors c) 0);
          mret 0
      end) (fun r c' _ => rconnected now r c c') c1 w1.
Proof.
  intros Hr Hcfg Hallow.
  apply wp_bind. unfold wp at 1. rewrite rtpe_close_ok. apply wp_bind, wp_modify, wp_bind, wp_sys.
  intros fd w2 _. apply wp_bind, wp_modify. set (c2 := put_fd _ fd).
  assert (r_config c2 = r_config c1 /\ r_errors c2 = r_errors c1 /\ r_state c2 = TARANTOOL_CONNECTING /\
          r_fd c2 = fd) as (E1 & E2 & E3 & E4).
  { unfold c2, closed_client. destruct (0 <=? r_fd c1); done. }
  clearbody c2.
  assert (forall c3 w3, (exists n, c3 = put_sync c2 n) ->
    wp (connect_err now) (fun r c' _ => rconnected now r c c') c3 w3) as Hfail.
  { intros c3 w3 [n ->]. unfold wp. rewrite connect_err_ok. split.
    { unfold refused_client. destruct (_ <=? _); cbn; congruence. }
    rewrite Hr. right. split; [done|]. split_and!.
    - unfold refused_client. by destruct (_ <=? _).
    - unfold refused_client. cbn [r_fd put_sync].
      destruct (_ <=? r_errors _ + 1), (0 <=? r_fd c2) eqn:?; cbn; lia.
    - exists (Br (r_errors c1) None). split; [done|]. rewrite refused_view by (cbn; by rewrite E3).
      unfold fail, rtpe_policy. cbn -[Z.leb Z.add]. rewrite E1, E2, E3, Hcfg. done. }
  assert (exists n, c2 = put_sync c2 n) as Hc2 by (exists (sync_id c2); by destruct c2).
  destruct (fd <? 0) eqn:Hfd; [by apply Hfail|].
  apply wp_bind, wp_get, wp_bind, rwp_keeps; [destruct (inet_pton4 _); auto with keeps|].
  intros found w3. destruct (negb found); [by apply Hfail|].
  apply wp_bind, wp_sys. intros ok w4 _. destruct (negb ok); [by apply Hfail|].
  apply wp_bind, rwp_keeps; [auto with keeps|]. intros [g|] w5; [|by apply Hfail].
  apply wp_bind. eapply (wp_mono _ (fun _ c' _ => exists n, c' = put_sync c2 n)).
  { destruct (bool_decide _); [by apply wp_ret|]. apply wp_bind, wp_of_read. intros salt _.
    apply rauth_wp. }
  intros auth c3 w6 [n ->]. destruct (auth <? 0); [apply Hfail; eauto|].
  apply wp_bind, wp_modify, wp_bind, wp_modify, wp_ret. split; [cbn; congruence|]. rewrite Hr. left.
  cbn [r_state r_fd put_errors put_state put_sync]. split_and!; try done. rewrite E4. lia.
Qed.

Lemma rconnect_wp c w :
  wp rtpe_tarantool_connect (fun r c' _ => rconnected (sys_time w).1 r c c') c w.
Proof.
  unfold rtpe_tarantool_connect. apply wp_bind, wp_sys. intros now w1 Hnow. rewrite Hnow. cbn [fst].
  apply wp_bind, wp_get.
  change (bool_decide (r_state c = TARANTOOL_DISABLED) && (now <? r_until c)) with (refuses now c).
  destruct (refuses now c) eqn:Hr.
  { apply wp_ret. split; [done|]. by rewrite Hr. }
  set (c1 := if bool_decide (r_state c = TARANTOOL_DISABLED)
             then put_errors (put_state c TARANTOOL_DISCONNECTED) (total_errors c) 0 else c).
  assert (allow now (view c) = Some (Br (r_errors c1) None)) as Hallow.
  { revert Hr. unfold refuses, allow, c1. cbn [rtpe_breaker view open errs].
    destruct (decide (r_state c = TARANTOOL_DISABLED)) as [e|e].
    - rewrite (bool_decide_eq_true_2 _ e). cbn [andb]. by intros ->.
    - by rewrite (bool_decide_eq_false_2 _ e). }
  assert (r_config c1 = r_config c) as Hcfg by (unfold c1; by destruct (bool_decide _)).
  apply wp_bind.
  assert (forall Q : unit -> rtpe_tarantool_client -> world -> Prop, Q tt c1 w1 ->
    wp (if bool_decide (r_state c = TARANTOOL_DISABLED) then
         _ ← modify (fun c => put_state c TARANTOOL_DISCONNECTED);
         modify (fun c => put_errors c (total_errors c) 0)
       else mret tt) Q c w1) as Hstep.
  { intros Q HQ. unfold c1 in HQ. by destruct (bool_decide _). }
  apply Hstep. by apply rhandshake_wp.
Qed.
