(* ===== verification/RtpeInv.v ===== *)
(** The invariant of the rtpengine client, kept by every operation on every network,
    and what an operation on an authenticated client puts on the wire. *)
From S2P Require Export RtpeFacts.

Lemma rconnected_inv now r c c' : client_inv c -> rconnected now r c c' -> client_inv c'.
Proof.
  intros [Hl Hb] [Hcfg Hc]. unfold client_inv, rtpe_policy. rewrite Hcfg. fold (rtpe_policy c).
  destruct (refuses now c); [by destruct Hc as [_ ->]|].
  destruct Hc as [(_ & ? & ? & Hv)|(_ & ? & ? & b & Ha & Hv)].
  - split; [by left|]. rewrite Hv. apply reset_inv.
  - split; [by right|]. destruct (admit_inv _ _ _ _ Hb Ha) as [Hi Ho]. rewrite Hv. by apply fail_inv.
Qed.

Lemma closed_inv c : client_inv c -> r_state c = TARANTOOL_AUTHENTICATED -> client_inv (closed_client c).
Proof.
  intros [Hl Hb] Hst. split.
  - right. split; [|apply closed_fd]. unfold closed_client. by destruct (0 <=? r_fd c).
  - unfold closed_client, rtpe_policy in *. cbn -[Z.le Z.lt] in *. rewrite Hst in Hb.
    by destruct (0 <=? r_fd c).
Qed.

Lemma put_sync_inv c n : client_inv c -> client_inv (put_sync c n).
Proof. done. Qed.

Definition rpreserves {A} (m : MR A) : Prop := forall c w, client_inv c ->
  wp m (fun _ c' _ => client_inv c' /\ r_config c' = r_config c) c w.

Lemma rpreserves_bind {A B} (m : MR A) (k : A -> MR B) :
  rpreserves m -> (forall a, rpreserves (k a)) -> rpreserves (m ≫= k).
Proof.
  intros Hm Hk c w Hc. apply wp_bind. eapply wp_mono; [by apply Hm|]. intros a c' w' [Hc' E].
  eapply wp_mono; [by apply Hk|]. intros b c'' w'' [? ?]. split; [done|congruence].
Qed.
Lemma rpreserves_keeps {A} (m : MR A) : keeps m -> rpreserves m.
Proof. intros Hk c w Hc. by apply rwp_keeps. Qed.
Lemma rpreserves_connect : rpreserves rtpe_tarantool_connect.
Proof.
  intros c w Hc. eapply wp_mono; [apply rconnect_wp|]. intros r c' w' Hr.
  split; [exact (rconnected_inv _ _ _ _ Hc Hr)|by destruct Hr].
Qed.
Lemma rpreserves_take : rpreserves take_sync.
Proof. intros c w Hc. unfold take_sync. apply wp_bind, wp_get, wp_bind, wp_modify, wp_ret. by split. Qed.

(** The connection is ready, or could not be made. *)
Lemma ready_wp c w : client_inv c ->
  wp rtpe_ready (fun ok c' _ => client_inv c' /\ r_config c' = r_config c /\
    (ok = true -> r_state c' = TARANTOOL_AUTHENTICATED /\ 0 <= r_fd c')) c w.
Proof.
  intros Hc. unfold rtpe_ready. apply wp_bind, wp_get.
  destruct ((r_fd c <? 0) || negb (bool_decide (r_state c = TARANTOOL_AUTHENTICATED))) eqn:E.
  - apply wp_bind. eapply wp_mono; [apply rconnect_wp|]. intros r c' w' Hr. apply wp_ret.
    pose proof (rconnected_inv _ _ _ _ Hc Hr). destruct Hr as [Hcfg Hr]. split; [done|]. split; [done|].
    intros Hok. destruct (refuses _ c); [destruct Hr; lia|].
    destruct Hr as [(_ & ? & ? & _)|(-> & _)]; [done|lia].
  - apply orb_false_iff in E as [E1 E2]. apply negb_false_iff, bool_decide_eq_true_1 in E2.
    apply wp_ret. split; [done|]. split; [done|]. intros _. split; [done|lia].
Qed.

Lemma push_wp packet c w : client_inv c ->
  wp (push_packet packet) (fun r c' _ => client_inv c' /\ r_config c' = r_config c /\
    (r = 0 \/ r = tolerated c)) c w.
Proof.
  intros Hc. unfold push_packet. apply wp_bind. eapply wp_mono; [by apply ready_wp|].
  intros ok c1 w1 (Hc1 & Hcfg & Hok). assert (tolerated c1 = tolerated c) as Htol.
  { unfold tolerated. by rewrite Hcfg. }
  destruct (negb ok) eqn:En.
  { apply wp_bind, wp_get, wp_ret. auto. }
  destruct Hok as [Hst Hfd]; [by destruct ok|].
  apply wp_bind, wp_get, wp_bind, rwp_keeps; [auto with keeps|]. intros _ w2.
  apply wp_bind, rwp_keeps; [auto with keeps|]. intros sent w3. destruct (negb sent).
  - apply wp_bind. unfold wp at 1. rewrite rtpe_close_ok. apply wp_bind, wp_modify, wp_bind, wp_get.
    pose proof (closed_inv _ Hc1 Hst) as Hcl. pose proof (closed_fd c1) as Hneg.
    assert (r_config (closed_client c1) = r_config c1 /\ r_errors (closed_client c1) = r_errors c1 /\
            r_state (closed_client c1) = TARANTOOL_DISCONNECTED) as (E1 & E2 & E3).
    { unfold closed_client. destruct (0 <=? r_fd c1); done. }
    destruct Hc1 as [_ (He0 & _)]. cbn in He0. set (cc := closed_client c1) in *. clearbody cc.
    apply wp_bind. cbn [r_config r_errors put_errors].
    destruct (r_allowed_errors _ <=? _) eqn:E.
    + apply wp_bind, wp_modify, wp_bind, wp_sys. intros now w4 _. apply wp_modify, wp_ret.
      split; [|split; [cbn [r_config put_until put_state put_errors]; congruence|right; unfold tolerated; cbn [r_config put_errors]; by rewrite E1, Hcfg]].
      split; [right; split; [done|exact Hneg]|]. unfold breaker_inv. cbn -[Z.add Z.le Z.lt].
      split_and!; [lia|done|intros; lia].
    + apply wp_ret, wp_ret.
      split; [|split; [cbn [r_config put_until put_state put_errors]; congruence|right; unfold tolerated; cbn [r_config put_errors]; by rewrite E1, Hcfg]].
      split; [right; split; [cbn; by rewrite E3|exact Hneg]|]. unfold breaker_inv. cbn -[Z.add Z.le Z.lt].
      rewrite E3. split_and!; [lia|intros; lia|by intros [? ?]].
  - apply wp_bind, wp_modify, wp_bind, wp_modify, wp_ret.
    split; [|split; [done|by left]]. split; [left; done|]. unfold breaker_inv. cbn -[Z.le Z.lt].
    rewrite Hst. cbn. split_and!; [lia|by left|by intros [? ?]].
Qed.

Lemma keeps_upsert {D} n sync node info :
  keeps (rtpe_tarantool_pack_call_upsert n sync node info : M D (option (list Z))).
Proof.
  unfold rtpe_tarantool_pack_call_upsert, id_bytes. destruct (_ <? _); [auto with keeps|].
  destruct (call_id info); auto with keeps.
Qed.
Lemma keeps_pack_delete n sync id l : keeps (rtpe_tarantool_pack_call_delete n sync id l).
Proof.
  unfold rtpe_tarantool_pack_call_delete, id_bytes. destruct (_ <? _); [auto with keeps|].
  destruct id; auto with keeps.
Qed.

(** What saving and deleting return: 0, or the configured answer when the server is not
    there; -1 only for a call without an identifier. *)
Lemma save_wp info c w : client_inv c ->
  wp (rtpe_tarantool_save_call info) (fun r c' _ => client_inv c' /\ r_config c' = r_config c /\
    (r = 0 \/ r = tolerated c \/ (r = -1 /\ (forall i, info = Some i -> call_id i = None)))) c w.
Proof.
  intros Hc. unfold rtpe_tarantool_save_call. destruct info as [i|].
  2:{ apply wp_ret. split_and!; try done. right. right. done. }
  apply wp_bind. eapply wp_mono; [by apply rpreserves_take|]. intros sync c1 w1 [Hc1 Hcfg].
  assert (tolerated c1 = tolerated c) as Htol by (unfold tolerated; by rewrite Hcfg).
  apply wp_bind, wp_get, wp_bind.
  unfold rtpe_tarantool_pack_call_upsert. change (2048 <? 512) with false. cbv iota.
  cbn [call_id]. destruct (call_id i) as [id|] eqn:Hid.
  - apply wp_bind, wp_of_read. intros cid _. apply wp_bind, wp_in_buffer. intros _. apply wp_ret.
    eapply wp_mono; [by apply push_wp|]. intros r c2 w2 (H1 & H2 & H3). rewrite Htol in H3.
    split_and!; [done|congruence|tauto].
  - apply wp_ret, wp_ret. split_and!; [done|done|]. right. right. split; [done|]. by intros ? [= <-].
Qed.

Lemma delete_wp id n c w : client_inv c ->
  wp (rtpe_tarantool_delete_call id n) (fun r c' _ => client_inv c' /\ r_config c' = r_config c /\
    (r = 0 \/ r = tolerated c \/ (r = -1 /\ id = None))) c w.
Proof.
  intros Hc. unfold rtpe_tarantool_delete_call. destruct id as [id|].
  2:{ apply wp_ret. split_and!; auto. }
  apply wp_bind. eapply wp_mono; [by apply rpreserves_take|]. intros sync c1 w1 [Hc1 Hcfg].
  assert (tolerated c1 = tolerated c) as Htol by (unfold tolerated; by rewrite Hcfg).
  apply wp_bind. unfold rtpe_tarantool_pack_call_delete. change (1024 <? 128) with false. cbv iota.
  apply wp_bind, wp_of_read. intros cid _. apply wp_bind, wp_in_buffer. intros _. apply wp_ret.
  eapply wp_mono; [by apply push_wp|]. intros r c2 w2 (H1 & H2 & H3). rewrite Htol in H3.
  split_and!; [done|congruence|tauto].
Qed.

(** ** Restoring *)

Lemma close_auth_wp c w (Q : unit -> rtpe_tarantool_client -> world -> Prop) :
  Q tt (closed_client c) (rclosed_world c w) -> wp rtpe_tarantool_close Q c w.
Proof. unfold wp. by rewrite rtpe_close_ok. Qed.

Lemma frame_loop_wp cb sync f : forall c w, client_inv c -> r_state c = TARANTOOL_AUTHENTICATED ->
  wp (frame_loop cb f sync) (fun _ c' _ => client_inv c' /\ r_config c' = r_config c) c w.
Proof.
  induction f as [|f IH]; intros c w Hc Hst; cbn [frame_loop]; [done|].
  assert (forall (k : unit -> MR (option (list rtpe_call_info))) w1, (k tt = mret None) ->
    wp (rtpe_tarantool_close ≫= k) (fun _ c' _ => client_inv c' /\ r_config c' = r_config c) c w1) as Hclose.
  { intros k w1 Hk. apply wp_bind, close_auth_wp. rewrite Hk. apply wp_ret.
    split; [by apply closed_inv|]. unfold closed_client. by destruct (0 <=? r_fd c). }
  apply wp_bind, wp_get, wp_bind, rwp_keeps; [auto with keeps|].
  intros [h|] w1; [|by apply Hclose]. apply wp_bind, wp_of_read. intros tag _.
  destruct (negb _); [by apply Hclose|]. apply wp_bind, wp_of_read. intros n _.
  destruct (_ || _); [by apply Hclose|]. apply wp_bind, wp_sys. intros ok w2 _.
  destruct (negb ok); [by apply Hclose|]. apply wp_bind, rwp_keeps; [auto with keeps|].
  intros [b|] w3; [|by apply Hclose]. apply wp_bind, wp_of_read. intros [[calls|] p] _.
  - by apply wp_ret.
  - by apply IH.
Qed.

Lemma restore_wp cb node c w : client_inv c ->
  wp (rtpe_tarantool_restore_calls cb node) (fun _ c' _ => client_inv c' /\ r_config c' = r_config c) c w.
Proof.
  intros Hc. unfold rtpe_tarantool_restore_calls. destruct node as [node|]; [|by apply wp_ret].
  apply wp_bind. eapply wp_mono; [by apply ready_wp|]. intros ok c1 w1 (Hc1 & Hcfg & Hok).
  destruct (negb ok) eqn:En; [by apply wp_ret|]. destruct Hok as [Hst Hfd]; [by destruct ok|].
  apply wp_bind, wp_get, wp_bind, rwp_keeps; [auto with keeps|]. intros _ w2.
  apply wp_bind. unfold take_sync. apply wp_bind, wp_get, wp_bind, wp_modify, wp_ret.
  apply wp_bind, wp_in_buffer. intros _. apply wp_bind, rwp_keeps; [auto with keeps|].
  intros sent w3. set (c2 := put_sync c1 _). assert (client_inv c2) as Hc2 by done.
  destruct (negb sent).
  - apply wp_bind, close_auth_wp, wp_ret. split; [by apply closed_inv|].
    unfold closed_client. by destruct (0 <=? r_fd c2).
  - apply wp_bind. eapply wp_mono; [by apply frame_loop_wp|]. intros [calls|] c3 w4 [? ?];
      apply wp_ret; (split; [done|cbn in *; congruence]).
Qed.
