(* ===== verification/RtpeRestoreFacts.v ===== *)
(** Restoring calls against the abstract response: which calls the nested loops deliver,
    as a function of the MessagePack value the server sends. *)
From S2P Require Export RtpeInv MpReader.

(** * Loops over a sequence of encoded items *)

(** * Keys *)

(** [strncmp] with the length of the key finds the names the key is a prefix of. *)
Lemma strncmp_prefix buf off pat : forall k p, at_ buf p k -> 0 ∉ k -> 0 ∉ pat ->
  strncmp_eq pat p (len k) buf off = Some (bool_decide (prefix k pat), off).
Proof.
  induction pat as [|c pat IH]; intros k p Hat Hk Hpat; (destruct k as [|b k];
    [cbn; by rewrite bool_decide_eq_true_2 by apply prefix_nil|]);
    destruct Hat as [Hb Hat]; apply not_elem_of_cons in Hk as [Hb0 Hk];
    cbn [strncmp_eq]; rewrite len_cons; pose proof (len_nonneg k);
    (destruct (1 + len k <=? 0) eqn:E; [lia|]); rewrite Hb.
  - rewrite bool_decide_eq_false_2; [|by intros ?%prefix_nil_inv]. do 2 f_equal. lia.
  - apply not_elem_of_cons in Hpat as [_ Hpat]. destruct (b =? c) eqn:Ebc.
    + assert (b = c) as -> by lia. replace (1 + len k - 1) with (len k) by lia.
      rewrite IH by done. do 2 f_equal. apply bool_decide_ext.
      split; [apply prefix_cons|apply prefix_cons_inv_2].
    + rewrite bool_decide_eq_false_2; [done|]. intros Hp. apply prefix_cons_inv_1 in Hp. lia.
Qed.

(** A key that is not a proper prefix of a name. *)
Definition key_ok (names : list (list Z)) (k : list Z) : Prop :=
  (0 ∉ k) /\ Forall (fun n => (0 ∉ n) /\ (prefix k n -> k = n)) names.

Lemma strncmp_key names buf off n k p : key_ok names k -> n ∈ names -> at_ buf p k ->
  strncmp_eq n p (len k) buf off = Some (bool_decide (k = n), off).
Proof.
  intros [H0 Hn] Hin Hat. rewrite Forall_forall in Hn. destruct (Hn _ Hin) as [Hn0 Hp].
  rewrite strncmp_prefix by done. do 2 f_equal. apply bool_decide_ext. split; [done|by intros ->].
Qed.

(** * The attributes of a call *)

Definition chars_of (size : Z) (old : list Z) (v : mp) : list Z :=
  match v with MStr _ s => if len s <? size then cstr s else old | _ => old end.

Lemma read_chars_ok size old f s buf p : mp_wf (MStr f s) -> at_ buf p (mp_bytes (MStr f s)) ->
  read_chars size old buf p = Some (chars_of size old (MStr f s), p + len (mp_bytes (MStr f s))).
Proof.
  intros Hwf Hat. destruct (mp_decode_str_at buf p f s Hwf Hat) as [Hd Hs]. unfold read_chars, chars_of.
  rewrite (R_bind_eq _ _ _ _ _ _ Hd). destruct (len s <? size); [|done].
  assert (bytes_at (p + len (mp_bytes (MStr f s)) - len s) (len s) buf (p + len (mp_bytes (MStr f s))) =
          Some (s, p + len (mp_bytes (MStr f s)))) as Hb.
  { unfold bytes_at. by rewrite (at_copy _ _ _ Hs). }
  by rewrite (R_bind_eq _ _ _ _ _ _ Hb).
Qed.

Definition payload_names : list (list Z) :=
  [lit "caller_ip"; lit "callee_ip"; lit "caller_port"; lit "callee_port"; lit "srtp_suite"].

(** An entry of the payload: an unambiguous key with a value of the type it has. *)
Definition payload_ok (kv : mp * mp) : Prop := exists f k, kv.1 = MStr f k /\ mp_wf (MStr f k) /\
  key_ok payload_names k /\ mp_wf kv.2 /\
  (k = lit "caller_ip" \/ k = lit "callee_ip" \/ k = lit "srtp_suite" -> exists g s, kv.2 = MStr g s) /\
  (k = lit "caller_port" \/ k = lit "callee_port" -> is_Some (uint_val kv.2)).

Definition payload_spec (r : restored) (kv : mp * mp) : restored :=
  match kv.1 with
  | MStr _ k =>
      if decide (k = lit "caller_ip") then
        Restored (cid_buf r) (nid_buf r) (chars_of 64 (c_ip r) kv.2) (ce_ip r) (suite r) (c_port r) (ce_port r)
      else if decide (k = lit "callee_ip") then
        Restored (cid_buf r) (nid_buf r) (c_ip r) (chars_of 64 (ce_ip r) kv.2) (suite r) (c_port r) (ce_port r)
      else if decide (k = lit "caller_port") then
        Restored (cid_buf r) (nid_buf r) (c_ip r) (ce_ip r) (suite r) (i32 (default 0 (uint_val kv.2))) (ce_port r)
      else if decide (k = lit "callee_port") then
        Restored (cid_buf r) (nid_buf r) (c_ip r) (ce_ip r) (suite r) (c_port r) (i32 (default 0 (uint_val kv.2)))
      else if decide (k = lit "srtp_suite") then
        Restored (cid_buf r) (nid_buf r) (c_ip r) (ce_ip r) (chars_of 32 (suite r) kv.2) (c_port r) (ce_port r)
      else r
  | _ => r
  end.

(** Decide the next name of a chain of comparisons. *)
Ltac next_name Hk Hat n := 
  rewrite (R_bind_eq _ _ _ _ _ _ (strncmp_key _ _ _ n _ _ Hk ltac:(set_unfold; tauto) Hat));
  destruct (decide (_ = n)) as [->|?];
  [rewrite bool_decide_eq_true_2 by done|rewrite bool_decide_eq_false_2 by done]; cbv iota.

Lemma payload_entry_ok buf r kv p : buf_ok buf -> payload_ok kv -> 0 <= p -> at_ buf p (kv1 kv) ->
  payload_entry r buf p = Some (payload_spec r kv, p + len (kv1 kv)).
Proof.
  destruct kv as [k v]. intros Hbuf (f & ks & E & Hwf & Hkey & Hv & Hstr & Hnum) Hp Hat.
  cbn [fst snd] in *. subst k. unfold kv1 in *. cbn [fst snd] in *.
  destruct (str_step _ _ _ _ _ Hwf Hat) as (q & Hd & Hq & Hav). unfold payload_entry, payload_spec.
  cbn [fst snd]. rewrite (R_bind_eq _ _ _ _ _ _ Hd), len_app, Z.add_assoc.
  set (p1 := p + len (mp_bytes (MStr f ks))) in *.
  assert (0 <= p1) as Hp1 by (unfold p1; pose proof (len_nonneg (mp_bytes (MStr f ks))); lia).
  next_name Hkey Hq (lit "caller_ip").
  { destruct Hstr as (g & s & ->); [auto|]. by rewrite (R_bind_eq _ _ _ _ _ _ (read_chars_ok _ _ _ _ _ _ Hv Hav)). }
  next_name Hkey Hq (lit "callee_ip").
  { destruct Hstr as (g & s & ->); [auto|]. by rewrite (R_bind_eq _ _ _ _ _ _ (read_chars_ok _ _ _ _ _ _ Hv Hav)). }
  next_name Hkey Hq (lit "caller_port").
  { destruct Hnum as [num Hn]; [auto|]. rewrite (R_bind_eq _ _ _ _ _ _ (mp_decode_uint_val _ _ _ _ Hn Hav)). by rewrite Hn. }
  next_name Hkey Hq (lit "callee_port").
  { destruct Hnum as [num Hn]; [auto|]. rewrite (R_bind_eq _ _ _ _ _ _ (mp_decode_uint_val _ _ _ _ Hn Hav)). by rewrite Hn. }
  next_name Hkey Hq (lit "srtp_suite").
  { destruct Hstr as (g & s & ->); [auto|]. by rewrite (R_bind_eq _ _ _ _ _ _ (read_chars_ok _ _ _ _ _ _ Hv Hav)). }
  by rewrite (R_bind_eq _ _ _ _ _ _ (mp_next_at v buf p1 Hbuf Hv Hp1 Hav)).
Qed.

Definition call_names : list (list Z) := [lit "call_id"; lit "node_id"; lit "payload"].

(** An entry of a call: its identifiers are strings; a payload held in a small map has
    payload entries. *)
Definition entry_ok (kv : mp * mp) : Prop := exists f k, kv.1 = MStr f k /\ mp_wf (MStr f k) /\
  key_ok call_names k /\ mp_wf kv.2 /\
  (k = lit "call_id" \/ k = lit "node_id" -> exists g s, kv.2 = MStr g s) /\
  (k = lit "payload" -> exists g kvs, kv.2 = MMap g kvs /\ (g = FFix -> Forall payload_ok kvs)).

Definition entry_spec (r : restored) (kv : mp * mp) : restored :=
  match kv.1 with
  | MStr _ k =>
      if decide (k = lit "call_id") then
        Restored (chars_of 128 (cid_buf r) kv.2) (nid_buf r) (c_ip r) (ce_ip r) (suite r) (c_port r) (ce_port r)
      else if decide (k = lit "node_id") then
        Restored (cid_buf r) (chars_of 64 (nid_buf r) kv.2) (c_ip r) (ce_ip r) (suite r) (c_port r) (ce_port r)
      else if decide (k = lit "payload") then
        match kv.2 with MMap FFix kvs => foldl payload_spec r kvs | _ => r end
      else r
  | _ => r
  end.

Lemma call_entry_ok buf r kv p : buf_ok buf -> entry_ok kv -> 0 <= p -> at_ buf p (kv1 kv) ->
  call_entry r buf p = Some (entry_spec r kv, p + len (kv1 kv)).
Proof.
  destruct kv as [k v]. intros Hbuf (f & ks & E & Hwf & Hkey & Hv & Hstr & Hpay) Hp Hat.
  cbn [fst snd] in *. subst k. unfold kv1 in *. cbn [fst snd] in *.
  destruct (str_step _ _ _ _ _ Hwf Hat) as (q & Hd & Hq & Hav). unfold call_entry, entry_spec.
  cbn [fst snd]. rewrite (R_bind_eq _ _ _ _ _ _ Hd), len_app, Z.add_assoc.
  set (p1 := p + len (mp_bytes (MStr f ks))) in *.
  assert (0 <= p1) as Hp1 by (unfold p1; pose proof (len_nonneg (mp_bytes (MStr f ks))); lia).
  next_name Hkey Hq (lit "call_id").
  { destruct Hstr as (g & s & ->); [auto|]. by rewrite (R_bind_eq _ _ _ _ _ _ (read_chars_ok _ _ _ _ _ _ Hv Hav)). }
  next_name Hkey Hq (lit "node_id").
  { destruct Hstr as (g & s & ->); [auto|]. by rewrite (R_bind_eq _ _ _ _ _ _ (read_chars_ok _ _ _ _ _ _ Hv Hav)). }
  assert (mp_next buf p1 = Some (tt, p1 + len (mp_bytes v))) as Hnext by (by apply mp_next_at).
  next_name Hkey Hq (lit "payload").
  - destruct Hpay as (g & kvs & -> & Hall); [done|].
    destruct (map_tag buf p1 g kvs Hv Hav) as (t & Ht & Hfix & _).
    assert ((t ← peek 0; mret (Z.land t 0xf0 =? MP_FIXMAP)) buf p1 = Some (bool_decide (g = FFix), p1)) as Hb.
    { rewrite (R_bind_eq _ _ _ _ _ _ Ht). by rewrite Hfix. }
    rewrite (R_bind_eq _ _ _ _ _ _ Hb). destruct g; cbn [bool_decide decide_rel];
      try (rewrite bool_decide_eq_false_2 by done; by rewrite (R_bind_eq _ _ _ _ _ _ Hnext)).
    rewrite bool_decide_eq_true_2 by done.
    apply (fold_entries payload_ok); try done; [|by apply Hall].
    intros x a p0 HP Hp0. by apply payload_entry_ok.
  - rewrite (R_bind_eq _ _ _ _ _ _ (eq_refl : (mret false : R bool) buf p1 = Some (false, p1))). cbv iota.
    by rewrite (R_bind_eq _ _ _ _ _ _ Hnext).
Qed.

(** * Items *)

(** A call: a map of entries. *)
Definition item_ok (v : mp) : Prop := exists g kvs, v = MMap g kvs /\ mp_wf v /\ Forall entry_ok kvs.

Definition item_spec (v : mp) : restored :=
  match v with MMap _ kvs => foldl entry_spec restored_init kvs | _ => restored_init end.

(** The calls of a list of items: those with an identifier. *)
Definition calls_of (items : list mp) : list rtpe_call_info :=
  flat_map (fun v => if decide (cid_buf (item_spec v) = []) then [] else [restored_info (item_spec v)]) items.

Lemma item_read buf p v : buf_ok buf -> item_ok v -> 0 <= p -> at_ buf p (mp_bytes v) ->
  exists t, peek 0 buf p = Some (t, p) /\
    ((if (Z.land t 0xf0 =? MP_FIXMAP) || (t =? MP_MAP16) || (t =? MP_MAP32)
      then m_size ← mp_decode_map; rfor m_size call_entry restored_init
      else _ ← mp_next; mret restored_init) : R restored) buf p =
    Some (item_spec v, p + len (mp_bytes v)).
Proof.
  intros Hbuf (g & kvs & -> & Hwf & Hall) Hp Hat.
  destruct (map_tag buf p g kvs Hwf Hat) as (t & Ht & _ & Htag). exists t. split; [done|].
  rewrite Htag. apply (fold_entries entry_ok); try done. intros x a p0 HP Hp0. by apply call_entry_ok.
Qed.

Section callback.
Context (cb : list rtpe_call_info -> rtpe_call_info -> Z).

(** The callback never asks to stop, or there is nothing to stop. *)
Definition never_stops (items : list mp) : Prop := (forall cs i, cb cs i = 0) \/ len items <= 1.

Lemma sub_loop_ok buf : buf_ok buf -> forall items, never_stops items ->
  forall f calls p, Forall item_ok items -> 0 <= p -> at_ buf p (flat_map mp_bytes items) ->
  (length items <= f)%nat ->
  sub_loop cb f (len items) calls buf p =
    Some (calls ++ calls_of items, p + len (flat_map mp_bytes items)).
Proof.
  intros Hbuf items. induction items as [|v items IH]; intros Hns f calls p Hok Hp Hat Hf.
  { cbn [flat_map calls_of]. rewrite app_nil_r, Z.add_0_r. by destruct f. }
  apply Forall_cons in Hok as [Hv Hok]. cbn [flat_map] in Hat. apply at_app in Hat as [Hav Har].
  destruct f as [|f]; [cbn in Hf; lia|]. cbn [sub_loop]. rewrite len_cons.
  pose proof (len_nonneg items). pose proof (len_nonneg (mp_bytes v)).
  destruct (1 + len items <=? 0) eqn:E; [lia|].
  destruct (item_read buf p v Hbuf Hv Hp Hav) as (t & Ht & Hr).
  rewrite (R_bind_eq _ _ _ _ _ _ Ht), (R_bind_eq _ _ _ _ _ _ Hr).
  replace (1 + len items - 1) with (len items) by lia.
  assert (never_stops items) as Hns'.
  { destruct Hns as [?|Hl]; [by left|right]. rewrite len_cons in Hl. lia. }
  cbn [calls_of flat_map]. fold (calls_of items). rewrite len_app, Z.add_assoc. cbn in Hf.
  destruct (decide (cid_buf (item_spec v) = [])) as [Hc|Hc].
  - rewrite bool_decide_eq_true_2 by done. apply IH; (done || lia).
  - rewrite bool_decide_eq_false_2 by done. cbn [app].
    assert (calls ++ restored_info (item_spec v) :: calls_of items =
            (calls ++ [restored_info (item_spec v)]) ++ calls_of items) as -> by by rewrite <- app_assoc.
    destruct (cb calls (restored_info (item_spec v)) =? 0) eqn:Ecb; cbn [negb].
    + apply IH; (done || lia).
    + destruct Hns as [Hz|Hl]; [rewrite Hz in Ecb; done|]. rewrite len_cons in Hl.
      assert (items = []) as -> by (apply len_zero; lia).
      cbn [calls_of flat_map]. by rewrite app_nil_r, Z.add_0_r.
Qed.

(** An inner array of calls. *)
Definition array_ok (v : mp) : Prop := exists g items, v = MArr g items /\ mp_wf v /\
  Forall item_ok items /\ never_stops items.
Definition array_items (v : mp) : list mp := match v with MArr _ items => items | _ => [] end.

Lemma data_item_ok buf v calls p : buf_ok buf -> array_ok v -> 0 <= p -> at_ buf p (mp_bytes v) ->
  data_item cb calls buf p = Some (calls ++ calls_of (array_items v), p + len (mp_bytes v)).
Proof.
  intros Hbuf (g & items & -> & Hwf & Hall & Hns) Hp Hat.
  destruct (arr_tag buf p g items Hwf Hat) as (t & Ht & Htag). unfold data_item.
  rewrite (R_bind_eq _ _ _ _ _ _ Ht), Htag.
  destruct (arr_at buf p g items Hwf Hat) as (q & Hd & Hq & Hk & Hend).
  rewrite (R_bind_eq _ _ _ _ _ _ Hd). unfold sub_loop_all. cbn [array_items]. rewrite Hend.
  apply sub_loop_ok; (done || lia || idtac).
  pose proof (items_length mp_bytes items mp_length_pos). pose proof (at_length _ _ _ Hk ltac:(lia)). lia.
Qed.

(** * Bodies and headers *)

(** An entry of the body: numeric key; the data are arrays of calls. *)
Definition body_ok (kv : mp * mp) : Prop := exists k, uint_val kv.1 = Some k /\ mp_wf kv.2 /\
  (k = IPROTO_DATA -> exists g arrays, kv.2 = MArr g arrays /\ Forall array_ok arrays).

Definition body_calls (calls : list rtpe_call_info) (kv : mp * mp) : list rtpe_call_info :=
  if decide (uint_val kv.1 = Some IPROTO_DATA)
  then calls ++ calls_of (flat_map array_items (array_items kv.2)) else calls.

Lemma calls_of_app xs ys : calls_of (xs ++ ys) = calls_of xs ++ calls_of ys.
Proof. apply flat_map_app. Qed.

Lemma fold_arrays arrays : forall calls,
  foldl (fun calls v => calls ++ calls_of (array_items v)) calls arrays =
  calls ++ calls_of (flat_map array_items arrays).
Proof.
  induction arrays as [|v arrays IH]; intros calls; cbn [foldl flat_map]; [by rewrite app_nil_r|].
  by rewrite IH, calls_of_app, app_assoc.
Qed.

Lemma body_entry_ok buf kv calls p : buf_ok buf -> body_ok kv -> 0 <= p -> at_ buf p (kv1 kv) ->
  body_entry cb calls buf p = Some (body_calls calls kv, p + len (kv1 kv)).
Proof.
  destruct kv as [k v]. intros Hbuf (n & Hk & Hwf & Hdata) Hp Hat. unfold kv1 in *. cbn [fst snd] in *.
  destruct (uint_step _ _ _ _ _ Hk Hat) as [Hd Hav]. unfold body_entry, body_calls. cbn [fst snd].
  pose proof (len_nonneg (mp_bytes k)).
  rewrite (R_bind_eq _ _ _ _ _ _ Hd), Hk, len_app, Z.add_assoc.
  destruct (n =? IPROTO_DATA) eqn:E.
  - assert (n = IPROTO_DATA) as -> by lia. rewrite decide_True by done.
    destruct Hdata as (g & arrays & -> & Hall); [done|].
    destruct (arr_at buf _ g arrays Hwf Hav) as (q & Hda & Hq & Hka & Hend).
    rewrite (R_bind_eq _ _ _ _ _ _ Hda).
    rewrite (rfor_list mp_bytes array_ok (data_item cb)
      (fun calls v => calls ++ calls_of (array_items v)) buf arrays calls q) ;
      [|intros; by apply data_item_ok|apply mp_length_pos|done|lia|done].
    cbn [array_items]. by rewrite fold_arrays, Hend.
  - rewrite decide_False by (intros [= ->]; done).
    by rewrite (R_bind_eq _ _ _ _ _ _ (mp_next_at v buf (p + len (mp_bytes k)) Hbuf Hwf ltac:(lia) Hav)).
Qed.

(** An entry of the header: numeric key, and a numeric sync. *)
Definition rheader_ok (kv : mp * mp) : Prop := exists k, uint_val kv.1 = Some k /\ mp_wf kv.2 /\
  (k = IPROTO_SYNC -> is_Some (uint_val kv.2)).

Definition header_sync (s : Z) (kv : mp * mp) : Z :=
  if decide (uint_val kv.1 = Some IPROTO_SYNC) then default 0 (uint_val kv.2) else s.

Lemma header_entry_ok buf kv s p : buf_ok buf -> rheader_ok kv -> 0 <= p -> at_ buf p (kv1 kv) ->
  header_entry s buf p = Some (header_sync s kv, p + len (kv1 kv)).
Proof.
  destruct kv as [k v]. intros Hbuf (n & Hk & Hwf & Hs) Hp Hat. unfold kv1 in *. cbn [fst snd] in *.
  destruct (uint_step _ _ _ _ _ Hk Hat) as [Hd Hav]. unfold header_entry, header_sync. cbn [fst snd].
  pose proof (len_nonneg (mp_bytes k)).
  rewrite (R_bind_eq _ _ _ _ _ _ Hd), Hk, len_app, Z.add_assoc.
  destruct (n =? IPROTO_SYNC) eqn:E.
  - assert (n = IPROTO_SYNC) as -> by lia. rewrite decide_True by done.
    destruct Hs as [m Hm]; [done|]. rewrite Hm. by apply mp_decode_uint_val.
  - rewrite decide_False by (intros [= ->]; done).
    by rewrite (R_bind_eq _ _ _ _ _ _ (mp_next_at v buf (p + len (mp_bytes k)) Hbuf Hwf ltac:(lia) Hav)).
Qed.

(** * Messages *)

Record message := Message { m_fh : mpfmt; m_header : list (mp * mp); m_fb : mpfmt; m_body : list (mp * mp) }.

Definition message_bytes (m : message) : list Z :=
  mp_bytes (MMap (m_fh m) (m_header m)) ++ mp_bytes (MMap (m_fb m) (m_body m)).
Definition message_sync (m : message) : Z := foldl header_sync 0 (m_header m).
Definition message_calls (m : message) : list rtpe_call_info := foldl body_calls [] (m_body m).

Definition header_wf (m : message) : Prop :=
  mp_wf (MMap (m_fh m) (m_header m)) /\ Forall rheader_ok (m_header m) /\ bytes_ok (message_bytes m) /\
  len (message_bytes m) <= 1048576.
Definition body_wf (m : message) : Prop := mp_wf (MMap (m_fb m) (m_body m)) /\ Forall body_ok (m_body m).

Lemma read_message_ok m sync : header_wf m -> (message_sync m = sync -> body_wf m) ->
  exists q, read_message cb sync (message_bytes m) 0 =
    Some (if decide (message_sync m = sync) then Some (message_calls m) else None, q).
Proof.
  intros (Hwf & Hh & Hb & _) Hbody. set (buf := message_bytes m) in *. apply bytes_buf_ok in Hb.
  unfold read_message.
  pose proof (fold_entries rheader_ok header_entry header_sync buf 0 0 (m_fh m) (m_header m)
    (fun x a p HP Hp => header_entry_ok buf x a p Hb HP Hp) Hwf Hh ltac:(lia) (at_start _ _)) as H1.
  set (q := 0 + len (mp_bytes (MMap (m_fh m) (m_header m)))) in *.
  assert (forall (k : Z -> R (option (list rtpe_call_info))),
    (header_map ← mp_decode_map; msg_sync ← rfor header_map header_entry 0; k msg_sync) buf 0 =
    k (message_sync m) buf q) as Hsplit.
  { intros k. unfold mbind, R_bind in *. destruct (mp_decode_map buf 0) as [[n q0]|]; [|done].
    by rewrite H1. }
  rewrite Hsplit. destruct (message_sync m =? sync) eqn:E; cbn [negb].
  - assert (message_sync m = sync) as Es by lia. destruct (Hbody Es) as [Hwfb Hbb].
    rewrite decide_True by done.
    assert (at_ buf q (mp_bytes (MMap (m_fb m) (m_body m)))) as Hat.
    { pose proof (at_intro (mp_bytes (MMap (m_fh m) (m_header m))) (mp_bytes (MMap (m_fb m) (m_body m))) [])
        as Hat. by rewrite app_nil_r in Hat. }
    pose proof (fold_entries body_ok (body_entry cb) body_calls buf [] q (m_fb m) (m_body m)
      (fun x a p HP Hp => body_entry_ok buf x a p Hb HP Hp) Hwfb Hbb
      ltac:(unfold q; pose proof (len_nonneg (mp_bytes (MMap (m_fh m) (m_header m)))); lia) Hat) as H2.
    eexists. unfold mbind, R_bind in *. destruct (mp_decode_map buf q) as [[n q0]|]; [|done].
    rewrite H2. reflexivity.
  - rewrite decide_False by lia. by eexists.
Qed.

End callback.
