(* ===== verification/RtpeRun.v ===== *)
(** The rtpengine driver end to end: what a request puts on the wire, on every network,
    and the calls that restoring delivers from the frames of the server. *)
From S2P Require Export RtpeRestoreFacts.

(** * Frames on the wire *)

Definition authed (c : rtpe_tarantool_client) : Prop :=
  r_state c = TARANTOOL_AUTHENTICATED /\ 0 <= r_fd c.

Lemma ready_authed c w : authed c -> rtpe_ready c w = Ret true c w.
Proof.
  intros [Hst Hfd]. unfold rtpe_ready. rewrite bind_get, (bool_decide_eq_true_2 _ Hst).
  by destruct (r_fd c <? 0) eqn:E; [lia|].
Qed.

(** The client after a packet went out, and after it could not be sent. *)
Definition pushed (c : rtpe_tarantool_client) : rtpe_tarantool_client :=
  put_errors (put_sent c (u64 (total_sent c + 1))) (total_errors c) 0.
Definition unsent (now : Z) (c : rtpe_tarantool_client) : rtpe_tarantool_client :=
  let n := r_errors c + 1 in
  if r_allowed_errors (r_config c) <=? n
  then Client (r_config c) (-1) TARANTOOL_DISABLED (sync_id c) (total_sent c)
              (u64 (total_errors c + 1)) n (now + disable_time (r_config c))
  else Client (r_config c) (-1) TARANTOOL_DISCONNECTED (sync_id c) (total_sent c)
              (u64 (total_errors c + 1)) n (r_until c).

(** Whatever the kernel accepts of the packet: all of it, and the packet is counted; or
    only a beginning, and the connection is closed and the failure counted. *)
Lemma push_total packet c w s : authed c -> socks w !! r_fd c = Some s ->
  exists done_ rest evs', packet = done_ ++ rest /\
    let w1 := with_sock w (r_fd c) (sent (set_rx s (drained (rx s))) evs' done_) in
    if decide (rest = []) then push_packet packet c w = Ret 0 (pushed c) w1
    else exists now w2, push_packet packet c w = Ret (tolerated c) (unsent now c) w2 /\
         socks w2 = delete (r_fd c) (socks w1).
Proof.
  intros Ha Hs. set (s1 := set_rx s (drained (rx s))).
  destruct (send_all_total retry_all true (r_fd c) packet c (with_sock w (r_fd c) s1) s1
    (with_sock_lookup _ _ _)) as (dn & rest & evs & E & Hsend).
  exists dn, rest, evs. split; [done|]. cbv zeta. rewrite with_sock_twice in Hsend.
  set (w1 := with_sock w (r_fd c) (sent s1 evs dn)) in *. unfold push_packet.
  run (ready_authed c w Ha). cbn [negb]. rewrite bind_get. destruct Ha as [Hst Hfd].
  run (socket_drain_ok (r_fd c) c w s Hs Hfd). fold s1. run Hsend.
  destruct (decide (rest = [])) as [->|Hne]; [done|]. rewrite bool_decide_eq_false_2 by done.
  cbn [negb]. run (rtpe_close_ok c w1).
  unfold closed_client, rclosed_world. destruct (0 <=? r_fd c) eqn:E0; [|lia].
  rewrite bind_modify, bind_get. unfold unsent. cbn -[Z.leb Z.add].
  destruct (r_allowed_errors (r_config c) <=? r_errors c + 1) eqn:Et.
  - rewrite bind_assoc, bind_modify, bind_assoc.
    destruct (sys_time (sys_close (r_fd c) w1)) as [now w2] eqn:Etime. exists now, w2.
    split; [unfold time_, sys, mbind, M_bind; rewrite Etime; reflexivity|].
    unfold sys_time in Etime. by destruct (clock _) as [|t [|? ?]]; simplify_eq.
  - exists 0, (sys_close (r_fd c) w1). by split.
Qed.

(** * Saving and deleting *)

Definition with_ttl (c : rtpe_tarantool_client) (i : rtpe_call_info) : rtpe_call_info :=
  Info (call_id i) (call_id_len i) (node_id i) (caller_ip i) (caller_port i) (callee_ip i)
       (callee_port i) (srtp_suite i) (crypto_key i)
       (if 0 <? ttl_sec i then ttl_sec i else u32 (expires_secs (r_config c))).

(** The identifier [id] of [n] bytes, or a string. *)
Definition ident (id : list Z) (n : Z) (cid : list Z) : Prop :=
  if 0 <? n then n = len cid /\ exists rest, id = cid ++ rest else cid = cstr id.

Lemma cstr_prefix bs : exists rest, bs = cstr bs ++ rest.
Proof.
  induction bs as [|b bs [rest IH]]; [by exists []|]. cbn [cstr]. destruct (b =? 0).
  - by exists (b :: bs).
  - exists rest. cbn. by rewrite <- IH.
Qed.

Lemma id_bytes_ok {D} id n cid (c : D) w : ident id n cid -> len cid < 2 ^ 32 ->
  id_bytes id n c w = Ret cid c w.
Proof.
  intros Hid Hl. pose proof (len_nonneg cid). unfold id_bytes.
  assert (exists rest, id = cid ++ rest) as [rest ->].
  { unfold ident in Hid. destruct (0 <? n); [by destruct Hid|subst; apply cstr_prefix]. }
  assert (u32 (if 0 <? n then n else len (cstr (cid ++ rest))) = len cid) as ->.
  { unfold ident in Hid. destruct (0 <? n); [destruct Hid as [-> _]|rewrite <- Hid]; by apply u32_id. }
  by rewrite (at_copy _ _ _ (at_start cid rest)).
Qed.

Definition upsert_frame (c : rtpe_tarantool_client) (cid : list Z) (i : rtpe_call_info) : list Z :=
  finalize_packet (call_request_of (sync_id c) (lit "rtpe_call_upsert") (upsert_args cid (Some (r_node_id (r_config c))) (with_ttl c i))).
Definition delete_call_frame (c : rtpe_tarantool_client) (cid : list Z) : list Z :=
  finalize_packet (call_request_of (sync_id c) (lit "rtpe_call_delete") [mstr cid]).

Definition synced (c : rtpe_tarantool_client) : rtpe_tarantool_client := put_sync c (u64 (sync_id c + 1)).

Lemma take_sync_ok c w : take_sync c w = Ret (sync_id c) (synced c) w.
Proof. done. Qed.

Lemma save_push c w i id cid : call_id i = Some id -> ident id (call_id_len i) cid ->
  info_small cid (Some (r_node_id (r_config c))) i -> len (upsert_frame c cid i) <= 2048 ->
  rtpe_tarantool_save_call (Some i) c w = push_packet (upsert_frame c cid i) (synced c) w.
Proof.
  intros Hid Hc Hs Hl. unfold rtpe_tarantool_save_call. run (take_sync_ok c w). rewrite bind_get.
  cbn [r_config synced put_sync]. fold (with_ttl c i).
  assert (rtpe_tarantool_pack_call_upsert 2048 (sync_id c) (Some (r_node_id (r_config c))) (with_ttl c i)
            (synced c) w = Ret (Some (upsert_frame c cid i)) (synced c) w) as Hp; [|by run Hp].
  unfold rtpe_tarantool_pack_call_upsert. change (2048 <? 512) with false. cbv iota.
  cbn [call_id call_id_len with_ttl]. rewrite Hid.
  assert (len cid < 2 ^ 32) by by inversion_clear Hs.
  run (id_bytes_ok _ _ _ (synced c) w Hc ltac:(done)).
  rewrite upsert_request by done. fold (upsert_frame c cid i). by rewrite bind_buffer.
Qed.

Lemma delete_push c w id n cid : ident id n cid -> len (delete_call_frame c cid) <= 1024 ->
  len cid < 2 ^ 32 ->
  rtpe_tarantool_delete_call (Some id) n c w = push_packet (delete_call_frame c cid) (synced c) w.
Proof.
  intros Hc Hl Hs. unfold rtpe_tarantool_delete_call. run (take_sync_ok c w).
  assert (rtpe_tarantool_pack_call_delete 1024 (sync_id c) (Some id) n (synced c) w =
          Ret (Some (delete_call_frame c cid)) (synced c) w) as Hp; [|by run Hp].
  unfold rtpe_tarantool_pack_call_delete. change (1024 <? 128) with false. cbv iota.
  run (id_bytes_ok _ _ _ (synced c) w Hc ltac:(done)).
  rewrite rdelete_request by done. fold (delete_call_frame c cid). by rewrite bind_buffer.
Qed.

(** The bytes a call takes in the packet, up to the fixed part. *)
Definition info_bytes (cid : list Z) (node : option (list Z)) (i : rtpe_call_info) : Z :=
  len cid + len (or_else node (lit "rtpe-01")) + len (or_else (caller_ip i) (lit "0.0.0.0"))
  + len (or_else (callee_ip i) (lit "0.0.0.0")) + len (or_else (srtp_suite i) (lit "NONE")).

Lemma len_mstr_bounds bs : len bs < 2 ^ 32 -> 1 + len bs <= len (mp_str bs) <= 5 + len bs.
Proof. intros H. rewrite mp_str_of by done. apply len_mstr. Qed.

Lemma len_upsert_payload sync cid node i : info_small cid node i ->
  80 + info_bytes cid node i <= len (upsert_payload sync cid node i) <= 190 + info_bytes cid node i.
Proof.
  unfold info_small. rewrite !Forall_cons. intros (H1 & H2 & H3 & H4 & H5 & _).
  unfold upsert_payload, str_or, info_bytes, or_else in *. lens.
  pose proof (len_encode_uint sync). pose proof (len_encode_uint (u64 (caller_port i))).
  pose proof (len_encode_uint (u64 (callee_port i))).
  pose proof (len_encode_uint (if 0 <? ttl_sec i then ttl_sec i else 3600)).
  pose proof (len_mstr_bounds _ H1). pose proof (len_mstr_bounds _ H2). pose proof (len_mstr_bounds _ H3).
  pose proof (len_mstr_bounds _ H4). pose proof (len_mstr_bounds _ H5). len_closed. lia.
Qed.

Lemma upsert_fits c cid i : info_small cid (Some (r_node_id (r_config c))) i ->
  info_bytes cid (Some (r_node_id (r_config c))) i <= 1853 -> len (upsert_frame c cid i) <= 2048.
Proof.
  intros Hs Hl. unfold upsert_frame. rewrite <- upsert_request by done. rewrite len_finalize.
  pose proof (len_upsert_payload (sync_id c) cid (Some (r_node_id (r_config c))) (with_ttl c i) Hs).
  unfold info_bytes in *. cbn [caller_ip callee_ip srtp_suite with_ttl] in *. lia.
Qed.

(** * Restoring *)

(** Space that the stream takes in the queue of events. *)
Lemma stream_size evs bs evs' : stream retry_all evs bs evs' ->
  (rx_size evs' + length bs <= rx_size evs)%nat.
Proof.
  induction 1 as [evs|b bs evs bs' evs' H IH|b bs b' bs' evs|e evs bs evs' Hr Hne H IH];
    rewrite ?length_app; unfold rx_size in *; cbn [foldr length] in *; rewrite ?length_app in *;
    cbn [length] in *; lia.
Qed.

Definition frame_of (m : message) : list Z := finalize_packet (message_bytes m).

(** One frame comes off the socket. *)
Lemma frame_read {A} (m : message) rest evs (c : rtpe_tarantool_client) w s
  (k : list Z -> MR (option A)) (fail_ : MR (option A)) :
  header_wf m -> socks w !! r_fd c = Some s -> w_malloc w = [] ->
  stream retry_all (rx s) (frame_of m ++ rest) evs ->
  exists mid, stream retry_all mid rest evs /\ (rx_size mid < rx_size (rx s))%nat /\
  ((resp_hdr ← tnt_socket_recv_all (r_fd c) 5;
    match resp_hdr with
    | None => fail_
    | Some resp_hdr =>
        tag ← of_read (rd resp_hdr 0);
        if negb (tag =? MP_UINT32) then fail_ else
        resp_len ← of_read (prefix_len resp_hdr);
        if (resp_len =? 0) || (1048576 <? resp_len) then fail_ else
        ok ← malloc;
        if negb ok then fail_ else
        resp_body ← tnt_socket_recv_all (r_fd c) resp_len;
        match resp_body with None => fail_ | Some body => k body end
    end) : MR (option A)) c w = k (message_bytes m) c (with_sock w (r_fd c) (set_rx s mid)).
Proof.
  intros (Hwf & _ & _ & Hlen) Hs Hm Hst.
  pose proof (mp_bytes_pos (MMap (m_fh m) (m_header m))) as Hpos.
  assert (0 < len (message_bytes m)) as Hpos'.
  { unfold message_bytes. lens. pose proof (len_nonneg (mp_bytes (MMap (m_fb m) (m_body m)))). lia. }
  unfold frame_of in Hst. rewrite finalize_split, <- app_assoc in Hst by lia.
  destruct (stream_app_inv _ _ _ _ Hst _ _ eq_refl) as (e1 & S1 & S2).
  destruct (stream_app_inv _ _ _ _ S2 _ _ eq_refl) as (e2 & S3 & S4).
  assert (len (MP_UINT32 :: be_bytes 4 (len (message_bytes m))) = 5) as H5 by (by lens).
  exists e2. split; [done|]. split.
  { pose proof (stream_size _ _ _ S1). pose proof (stream_size _ _ _ S3). cbn [length] in *. lia. }
  run (recv_all_ok retry_all (r_fd c) 5 c w s _ e1 Hs S1 H5).
  run (eq_refl : rd (MP_UINT32 :: be_bytes 4 (len (message_bytes m))) 0 = Some MP_UINT32).
  change (negb (MP_UINT32 =? MP_UINT32)) with false. cbv iota.
  run (prefix_len_be (len (message_bytes m)) ltac:(lia)).
  destruct ((len (message_bytes m) =? 0) || (1048576 <? len (message_bytes m))) eqn:E; [lia|].
  run (malloc_free c (with_sock w (r_fd c) (set_rx s e1)) Hm). cbn [negb].
  run (recv_all_ok retry_all (r_fd c) (len (message_bytes m)) c (with_sock w (r_fd c) (set_rx s e1)) (set_rx s e1)
        (message_bytes m) e2 (with_sock_lookup _ _ _) S3 eq_refl).
  by rewrite with_sock_twice.
Qed.

Lemma frame_loop_step cb f sync m rest evs c w s :
  header_wf m -> (message_sync m = sync -> body_wf cb m) -> socks w !! r_fd c = Some s ->
  w_malloc w = [] -> stream retry_all (rx s) (frame_of m ++ rest) evs ->
  exists mid, stream retry_all mid rest evs /\ (rx_size mid < rx_size (rx s))%nat /\
    let w' := with_sock w (r_fd c) (set_rx s mid) in
    frame_loop cb (S f) sync c w =
      if decide (message_sync m = sync) then Ret (Some (message_calls m)) c w'
      else frame_loop cb f sync c w'.
Proof.
  intros Hh Hb Hs Hm Hst. cbn [frame_loop]. rewrite bind_get.
  destruct (frame_read (A := list rtpe_call_info) m rest evs c w s
    (fun body => '(r, _) ← of_read (read_message cb sync body 0);
                 match r with None => frame_loop cb f sync | Some calls => mret (Some calls) end)
    (_ ← rtpe_tarantool_close; mret None) Hh Hs Hm Hst) as (mid & H1 & H2 & H3).
  exists mid. split; [done|]. split; [done|]. cbv zeta. rewrite H3.
  destruct (read_message_ok cb m sync Hh Hb) as [q Hq]. run Hq. by destruct (decide _).
Qed.

(** The frames of other requests are skipped, however many; the fuel covers them. *)
Lemma frame_loop_ok cb sync m evs c : header_wf m -> message_sync m = sync -> body_wf cb m ->
  forall others, Forall (fun o => header_wf o /\ message_sync o <> sync) others ->
  forall f w s, socks w !! r_fd c = Some s -> w_malloc w = [] ->
  stream retry_all (rx s) (flat_map frame_of others ++ frame_of m) evs -> (rx_size (rx s) < f)%nat ->
  frame_loop cb f sync c w = Ret (Some (message_calls m)) c (with_sock w (r_fd c) (set_rx s evs)).
Proof.
  intros Hh Hsync Hb others. induction others as [|o others IH]; intros Hall f w s Hs Hm Hst Hf;
    (destruct f as [|f]; [lia|]).
  - cbn [flat_map app] in Hst. rewrite <- (app_nil_r (frame_of m)) in Hst.
    destruct (frame_loop_step cb f sync m [] evs c w s Hh (fun _ => Hb) Hs Hm Hst) as (mid & H1 & _ & H3).
    cbv zeta in H3. rewrite H3, decide_True by done.
    by inversion H1; subst.
  - apply Forall_cons in Hall as [[Ho Hne] Hall]. cbn [flat_map] in Hst. rewrite <- app_assoc in Hst.
    destruct (frame_loop_step cb f sync o _ evs c w s Ho ltac:(done) Hs Hm Hst) as (mid & H1 & H2 & H3).
    cbv zeta in H3. rewrite H3, decide_False by done.
    rewrite (IH Hall f _ (set_rx s mid)); [|apply with_sock_lookup|done|done|cbn [rx set_rx]; lia].
    by rewrite with_sock_twice.
Qed.

Definition restore_frame (c : rtpe_tarantool_client) (node : list Z) : list Z :=
  finalize_packet (call_request_of (sync_id c) (lit "rtpe_call_restore") [mstr (cstr node)]).

(** The reply to the request of [c]: frames of other requests, then [m]. *)
Definition replies (w : world) (c : rtpe_tarantool_client) (others : list message) (m : message)
    (evs : list rx_ev) (s : sock) : Prop :=
  socks w !! r_fd c = Some s /\ tx s = [] /\ w_malloc w = [] /\
  stream retry_all (drained (rx s)) (flat_map frame_of others ++ frame_of m) evs /\
  header_wf m /\ message_sync m = sync_id c /\
  Forall (fun o => header_wf o /\ message_sync o <> sync_id c) others.

Lemma restore_ok cb c w node others m evs s : authed c -> replies w c others m evs s ->
  body_wf cb m -> len (cstr node) <= 450 ->
  rtpe_tarantool_restore_calls cb (Some node) c w =
    Ret (i32 (len (message_calls m)), message_calls m) (synced c)
        (with_sock w (r_fd c) (Sock evs [] (wire s ++ restore_frame c node))).
Proof.
  intros Ha (Hs & Htx & Hm & Hst & Hh & Hsync & Ho) Hb Hn. unfold rtpe_tarantool_restore_calls.
  pose proof (len_nonneg (cstr node)).
  run (ready_authed c w Ha). cbn [negb]. rewrite bind_get. destruct Ha as [_ Hfd].
  run (socket_drain_ok (r_fd c) c w s Hs Hfd). set (s1 := set_rx s (drained (rx s))).
  run (take_sync_ok c (with_sock w (r_fd c) s1)).
  rewrite restore_request by lia. fold (restore_frame c node).
  rewrite bind_buffer; last first.
  { unfold restore_frame. rewrite <- restore_request by lia. rewrite len_finalize.
    unfold restore_payload. lens. pose proof (len_mstr_bounds (cstr node) ltac:(lia)).
    pose proof (len_encode_uint (sync_id c)). len_closed. lia. }
  run (send_all_ok retry_all true (r_fd c) (restore_frame c node) (synced c)
         (with_sock w (r_fd c) s1) s1 (with_sock_lookup _ _ _) Htx). cbn [negb].
  rewrite with_sock_twice. set (s2 := sent s1 [] (restore_frame c node)).
  unfold frame_loop_all. change (r_fd (synced c)) with (r_fd c).
  assert (frame_loop cb (S (rx_size (rx s2))) (sync_id c) (synced c) (with_sock w (r_fd c) s2) =
          Ret (Some (message_calls m)) (synced c) (with_sock w (r_fd c) (set_rx s2 evs))) as Hloop.
  { rewrite <- (with_sock_twice w (r_fd c) s2 (set_rx s2 evs)).
    apply (frame_loop_ok cb (sync_id c) m evs (synced c) Hh Hsync Hb others Ho); try done.
    - apply with_sock_lookup.
    - cbn [rx]. lia. }
  unfold mbind, M_bind. rewrite with_sock_lookup, Hloop. reflexivity.
Qed.
