(* ===== verification/RtpeTrip.v ===== *)
(** Calls that were saved come back: the map the server keeps of a call, read by the
    loops of restoring. *)
From S2P Require Export RtpeRun.

Lemma cstr_clean bs : 0 ∉ cstr bs.
Proof.
  induction bs as [|b bs IH]; cbn [cstr]; [by apply not_elem_of_nil|].
  destruct (b =? 0) eqn:E; [by apply not_elem_of_nil|]. apply not_elem_of_cons. split; [lia|done].
Qed.

(** A string that fits an array of [size] characters. *)
Definition fits (size : Z) (bs : list Z) : Prop := (0 ∉ bs) /\ len bs < size /\ bytes_ok bs.

(** A call whose attributes fit the arrays of the reader. *)
Definition storable (cid node : list Z) (i : rtpe_call_info) : Prop :=
  cid <> [] /\ fits 128 cid /\ fits 64 node /\
  fits 64 (or_else (caller_ip i) (lit "0.0.0.0")) /\ fits 64 (or_else (callee_ip i) (lit "0.0.0.0")) /\
  fits 32 (or_else (srtp_suite i) (lit "NONE")) /\
  0 <= caller_port i < 2 ^ 31 /\ 0 <= callee_port i < 2 ^ 31.

(** What the stored procedure keeps of a call and returns. *)
Definition stored_call (cid node : list Z) (i : rtpe_call_info) : mp :=
  MMap FFix [(mstr (lit "call_id"), mstr cid); (mstr (lit "node_id"), mstr node);
             (mstr (lit "payload"), payload_map i)].

(** What the callback should get. *)
Definition call_back (cid node : list Z) (i : rtpe_call_info) : rtpe_call_info :=
  Info (Some cid) (len cid) (Some node) (Some (or_else (caller_ip i) (lit "0.0.0.0"))) (caller_port i)
       (Some (or_else (callee_ip i) (lit "0.0.0.0"))) (callee_port i)
       (Some (or_else (srtp_suite i) (lit "NONE"))) None 0.

Lemma mstr_wf bs : len bs < 2 ^ 16 -> mp_wf (mstr bs).
Proof. intros H. apply str_fmt_ok. lia. Qed.
Lemma uint_mp_wf n : 0 <= n < 2 ^ 64 -> mp_wf (uint_mp n).
Proof. intros H. unfold uint_mp. repeat case_match; cbn; lia. Qed.

(** The names are not prefixes of one another. *)
Lemma key_dec names k : forallb (fun b => negb (b =? 0)) k &&
    forallb (fun n => forallb (fun b => negb (b =? 0)) n && (bool_decide (k = n) || negb (bool_decide (prefix k n)))) names = true ->
  key_ok names k.
Proof.
  assert (forall l, forallb (fun b => negb (b =? 0)) l = true -> 0 ∉ l) as Hz.
  { intros l H Hin. rewrite forallb_forall in H. by apply list_elem_of_In, H in Hin. }
  intros [Hk Hn]%andb_true_iff. split; [by apply Hz|]. apply Forall_forall. intros n Hin.
  rewrite forallb_forall in Hn. apply list_elem_of_In, Hn, andb_true_iff in Hin as [H0 Hp].
  split; [by apply Hz|]. intros Hpre. apply orb_true_iff in Hp as [Hp|Hp].
  - by apply bool_decide_eq_true_1 in Hp.
  - apply negb_true_iff, bool_decide_eq_false_1 in Hp. done.
Qed.

Lemma chars_of_fits size old bs : fits size bs -> chars_of size old (mstr bs) = bs.
Proof.
  intros (Hz & Hl & _). unfold chars_of, mstr. destruct (len bs <? size) eqn:E; [|lia]. by apply cstr_id.
Qed.

Lemma port_back p : 0 <= p < 2 ^ 31 -> i32 (default 0 (uint_val (uint_mp (u64 p)))) = p.
Proof.
  intros H. rewrite u64_id by lia. rewrite uint_val_mp by lia. cbn [default]. apply i32_id. lia.
Qed.

Ltac fit_wf := match goal with H : fits _ ?bs |- mp_wf (mstr ?bs) =>
  apply mstr_wf; destruct H as (_ & ? & _); lia end.

Lemma payload_map_ok cid node i : storable cid node i ->
  mp_wf (payload_map i) /\
  exists kvs, payload_map i = MMap FFix kvs /\ Forall payload_ok kvs.
Proof.
  intros (_ & Hc & Hn & H1 & H2 & H3 & H4 & H5). unfold payload_map.
  assert (mp_wf (uint_mp (u64 (caller_port i))) /\ mp_wf (uint_mp (u64 (callee_port i)))) as [W1 W2].
  { split; apply uint_mp_wf, u64_range. }
  split.
  - cbn [mp_wf]. split; [by vm_compute|]. split; [by vm_compute|].
    split_and!; cbn [fst snd]; try done; try (by apply mstr_wf); fit_wf.
  - eexists. split; [done|]. repeat (apply Forall_cons; split); [..|by apply Forall_nil];
      (eexists _, _; split; [reflexivity|]; split; [by apply mstr_wf|]; split; [by apply key_dec|];
       cbn [fst snd]; split; [first [done|fit_wf]|]; split; intros Hk;
       try (by destruct Hk as [?|[?|?]]); try (by destruct Hk as [?|?]);
       try (by eexists _, _); rewrite uint_val_mp by apply u64_range; by eexists).
Qed.

Lemma stored_call_ok cid node i : storable cid node i -> item_ok (stored_call cid node i).
Proof.
  intros Hs. destruct (payload_map_ok _ _ _ Hs) as (Hwf & kvs & Ek & Hall).
  destruct Hs as (_ & Hc & Hn & _). eexists _, _. split; [reflexivity|]. split.
  - cbn [mp_wf]. split; [by vm_compute|]. split; [by vm_compute|].
    split_and!; cbn [fst snd]; try done; try (by apply mstr_wf); fit_wf.
  - repeat (apply Forall_cons; split); [..|by apply Forall_nil];
      (eexists _, _; split; [reflexivity|]; split; [by apply mstr_wf|]; split; [by apply key_dec|];
       cbn [fst snd]; split; [first [done|fit_wf]|]; split; intros Hk;
       first [done | by destruct Hk as [?|?] | by eexists _, _ | by exists FFix, kvs]).
Qed.

(** A string key, name by name. *)
Lemma entry_str r k v kvs : foldl entry_spec r ((mstr k, v) :: kvs) = foldl entry_spec
  (if decide (k = lit "call_id") then
    Restored (chars_of 128 (cid_buf r) v) (nid_buf r) (c_ip r) (ce_ip r) (suite r) (c_port r) (ce_port r)
  else if decide (k = lit "node_id") then
    Restored (cid_buf r) (chars_of 64 (nid_buf r) v) (c_ip r) (ce_ip r) (suite r) (c_port r) (ce_port r)
  else if decide (k = lit "payload") then
    match v with MMap FFix kvs => foldl payload_spec r kvs | _ => r end
  else r) kvs.
Proof. reflexivity. Qed.

Lemma payload_str r k v kvs : foldl payload_spec r ((mstr k, v) :: kvs) = foldl payload_spec
  (if decide (k = lit "caller_ip") then
    Restored (cid_buf r) (nid_buf r) (chars_of 64 (c_ip r) v) (ce_ip r) (suite r) (c_port r) (ce_port r)
  else if decide (k = lit "callee_ip") then
    Restored (cid_buf r) (nid_buf r) (c_ip r) (chars_of 64 (ce_ip r) v) (suite r) (c_port r) (ce_port r)
  else if decide (k = lit "caller_port") then
    Restored (cid_buf r) (nid_buf r) (c_ip r) (ce_ip r) (suite r) (i32 (default 0 (uint_val v))) (ce_port r)
  else if decide (k = lit "callee_port") then
    Restored (cid_buf r) (nid_buf r) (c_ip r) (ce_ip r) (suite r) (c_port r) (i32 (default 0 (uint_val v)))
  else if decide (k = lit "srtp_suite") then
    Restored (cid_buf r) (nid_buf r) (c_ip r) (ce_ip r) (chars_of 32 (suite r) v) (c_port r) (ce_port r)
  else r) kvs.
Proof. reflexivity. Qed.

Ltac names := repeat (match goal with |- context [@decide (lit ?a = lit ?b) ?d] =>
    let v := eval vm_compute in (bool_decide (lit a = lit b)) in
    lazymatch v with
    | true => rewrite (decide_True (P := lit a = lit b) _ _) by reflexivity
    | false => rewrite (decide_False (P := lit a = lit b) _ _) by (let E := fresh in intros E; vm_compute in E; discriminate E)
    end end);
  cbn [cid_buf nid_buf c_ip ce_ip suite c_port ce_port].

(** Reading a stored call gives back its attributes. *)
Lemma stored_call_back cid node i : storable cid node i ->
  restored_info (item_spec (stored_call cid node i)) = call_back cid node i /\
  cid_buf (item_spec (stored_call cid node i)) = cid.
Proof.
  intros (_ & Hc & Hn & H1 & H2 & H3 & H4 & H5).
  assert (item_spec (stored_call cid node i) =
    Restored cid node (or_else (caller_ip i) (lit "0.0.0.0")) (or_else (callee_ip i) (lit "0.0.0.0"))
      (or_else (srtp_suite i) (lit "NONE")) (caller_port i) (callee_port i)) as ->; [|done].
  unfold stored_call, payload_map. cbn [item_spec].
  rewrite entry_str. names. rewrite chars_of_fits by done.
  rewrite entry_str. names. rewrite chars_of_fits by done.
  rewrite entry_str. names.
  rewrite payload_str. names. rewrite chars_of_fits by done.
  rewrite payload_str. names. rewrite port_back by done.
  rewrite payload_str. names. rewrite chars_of_fits by done.
  rewrite payload_str. names. rewrite port_back by done.
  rewrite payload_str. names. rewrite chars_of_fits by done. done.
Qed.

(** * The reply of the stored procedure *)

(** A saved call: identifier, node, attributes. *)
Definition saved : Type := list Z * list Z * rtpe_call_info.
Definition saved_ok (x : saved) : Prop := storable x.1.1 x.1.2 x.2.
Definition stored (x : saved) : mp := stored_call x.1.1 x.1.2 x.2.
Definition back (x : saved) : rtpe_call_info := call_back x.1.1 x.1.2 x.2.

Definition reply (fh : mpfmt) (header : list (mp * mp)) (fb fa fi : mpfmt) (calls : list saved) : message :=
  Message fh header fb [(uint_mp IPROTO_DATA, MArr fa [MArr fi (stored <$> calls)])].

Lemma calls_of_stored calls : Forall saved_ok calls -> calls_of (stored <$> calls) = back <$> calls.
Proof.
  induction 1 as [|x calls Hx _ IH]; [done|]. rewrite !fmap_cons. cbn [calls_of flat_map].
  fold (calls_of (stored <$> calls)). destruct (stored_call_back _ _ _ Hx) as [H1 H2].
  fold (stored x) in H1, H2. fold (back x) in H1. destruct Hx as (Hne & _).
  rewrite decide_False by (by rewrite H2). by rewrite H1, IH.
Qed.

Lemma reply_calls fh header fb fa fi calls : Forall saved_ok calls ->
  message_calls (reply fh header fb fa fi calls) = back <$> calls.
Proof.
  intros H. unfold message_calls, reply. cbn [m_body foldl]. unfold body_calls. cbn [fst snd].
  rewrite decide_True by by apply uint_val_mp. cbn [array_items flat_map app].
  by rewrite app_nil_r, calls_of_stored.
Qed.

Lemma reply_body_wf cb fh header fb fa fi calls : Forall saved_ok calls ->
  mp_wf (MMap fb (m_body (reply fh header fb fa fi calls))) ->
  (forall cs i, cb cs i = 0) -> body_wf cb (reply fh header fb fa fi calls).
Proof.
  intros H Hwf Hcb. split; [done|]. cbn [m_body reply] in *.
  apply mp_wf_map in Hwf as (_ & _ & Hwf). apply Forall_cons in Hwf as [[_ Hwf] _]. cbn [snd] in Hwf.
  apply Forall_cons. split; [|by apply Forall_nil]. exists IPROTO_DATA. cbn [fst snd].
  split; [by apply uint_val_mp|]. split; [done|]. intros _. eexists _, _. split; [reflexivity|].
  apply mp_wf_arr in Hwf as [_ Hwf]. apply Forall_cons in Hwf as [Hwf _].
  apply Forall_cons. split; [|by apply Forall_nil]. eexists _, _. split; [reflexivity|].
  split; [done|]. split; [|by left]. apply Forall_fmap. eapply Forall_impl; [exact H|].
  intros x Hx. by apply stored_call_ok.
Qed.
