(* ===== verification/RtpeSpec.v ===== *)
(** The properties of the rtpengine driver: saving, deleting and restoring calls end to
    end, the client's invariant and its circuit breaker, and the faults the model shows. *)
From S2P Require Export RtpeTrip.

(** * A client and a world for the witnesses *)

Definition ex_rcfg (lenient : Z) : rtpe_tarantool_config :=
  RConfig (lit "127.0.0.1") 3301 (lit "u") (lit "pw") (lit "node-1") (lit "rtpe_calls")
          4 3600 500 500 lenient 10 3 60 5 3.
Definition ex_client : rtpe_tarantool_client :=
  Client (ex_rcfg 0) 5 TARANTOOL_AUTHENTICATED 7 0 0 1 0.
Definition ex_info : rtpe_call_info :=
  Info (Some (lit "call-1" ++ [0])) 0 None (Some (lit "10.0.0.1")) 4000 (Some (lit "10.0.0.2")) 5000 None None 0.
(** The kernel takes one byte, is interrupted, then takes the rest. *)
Definition ex_rsock (bs : list Z) : sock :=
  Sock (match bs with [] => [] | b :: r => [RxErr EAGAIN; RxErr EINTR; RxData b r] end)
       (match bs with [] => [TxSome 1; TxErr EINTR] | _ => [] end) [].
Definition ex_rworld (bs : list Z) : world := World [1000] {[ 5 := ex_rsock bs ]} [] [] [] [].

Lemma ex_authed : authed ex_client.
Proof. split; done. Qed.
Lemma ex_client_inv : client_inv ex_client.
Proof.
  split; [by left|]. unfold breaker_inv. cbn. split_and!; [lia|intros; lia|by intros [? ?]].
Qed.
Lemma ex_stream b bs : stream retry_all (drained (rx (ex_rsock (b :: bs)))) (b :: bs) [].
Proof.
  cbn [ex_rsock rx drained]. apply stream_retry; [done..|].
  rewrite <- (app_nil_r (b :: bs)). apply stream_data, stream_nil.
Qed.

(** * Saving and deleting *)

(** Saving a call on an authenticated client sends one CALL of [rtpe_call_upsert]
    with the identifier, the node, the five attributes (their defaults where a pointer
    is null) and the time to live. Whatever the kernel does, either the whole packet goes
    out, the result is 0 and the failure count is back at zero; or only a proper
    beginning of it does, the connection is closed, the failure is counted, and the
    result is the configured one. *)
Theorem save_sends_upsert c w s i id cid
  (Hauth : authed c) (Hsock : socks w !! r_fd c = Some s)
  (Hid : call_id i = Some id) (Hcid : ident id (call_id_len i) cid)
  (Hsmall : info_small cid (Some (r_node_id (r_config c))) i)
  (Hfits : info_bytes cid (Some (r_node_id (r_config c))) i <= 1853) :
  exists done_ rest evs', upsert_frame c cid i = done_ ++ rest /\
    let w1 := with_sock w (r_fd c) (sent (set_rx s (drained (rx s))) evs' done_) in
    if decide (rest = [])
    then rtpe_tarantool_save_call (Some i) c w = Ret 0 (pushed (synced c)) w1
    else exists now w2,
      rtpe_tarantool_save_call (Some i) c w = Ret (tolerated c) (unsent now (synced c)) w2 /\
      socks w2 = delete (r_fd c) (socks w1).
Proof.
  rewrite (save_push c w i id cid) by (try done; by apply upsert_fits).
  by apply (push_total (upsert_frame c cid i) (synced c) w s).
Qed.

Lemma save_sends_upsert_witness :
  exists done_ rest evs', upsert_frame ex_client (lit "call-1") ex_info = done_ ++ rest /\
    let w1 := with_sock (ex_rworld []) 5 (sent (set_rx (ex_rsock []) []) evs' done_) in
    if decide (rest = [])
    then rtpe_tarantool_save_call (Some ex_info) ex_client (ex_rworld []) =
           Ret 0 (pushed (synced ex_client)) w1
    else exists now w2,
      rtpe_tarantool_save_call (Some ex_info) ex_client (ex_rworld []) =
        Ret (-1) (unsent now (synced ex_client)) w2 /\ socks w2 = delete 5 (socks w1).
Proof.
  apply (save_sends_upsert ex_client (ex_rworld []) (ex_rsock []) ex_info (lit "call-1" ++ [0])).
  - apply ex_authed.
  - reflexivity.
  - reflexivity.
  - reflexivity.
  - repeat constructor.
  - vm_compute. discriminate.
Defined.

(** Deleting a call sends one CALL of [rtpe_call_delete] with the identifier, counts the
    packet and resets the failure count, or closes the connection, counts the failure
    and returns the configured result when the kernel does not take all of the packet. *)
Theorem delete_sends_delete c w s id n cid
  (Hauth : authed c) (Hsock : socks w !! r_fd c = Some s) (Hcid : ident id n cid)
  (Hfits : len cid <= 900) :
  exists done_ rest evs', delete_call_frame c cid = done_ ++ rest /\
    let w1 := with_sock w (r_fd c) (sent (set_rx s (drained (rx s))) evs' done_) in
    if decide (rest = [])
    then rtpe_tarantool_delete_call (Some id) n c w = Ret 0 (pushed (synced c)) w1
    else exists now w2,
      rtpe_tarantool_delete_call (Some id) n c w = Ret (tolerated c) (unsent now (synced c)) w2 /\
      socks w2 = delete (r_fd c) (socks w1).
Proof.
  pose proof (len_nonneg cid). rewrite (delete_push c w id n cid); try done; try lia.
  - by apply (push_total (delete_call_frame c cid) (synced c) w s).
  - unfold delete_call_frame. rewrite <- rdelete_request by lia. rewrite len_finalize.
    unfold delete_payload. lens. pose proof (len_mstr_bounds cid ltac:(lia)).
    pose proof (len_encode_uint (sync_id c)). len_closed. lia.
Qed.

Lemma delete_sends_delete_witness :
  exists done_ rest evs', delete_call_frame ex_client (lit "call") = done_ ++ rest /\
    let w1 := with_sock (ex_rworld []) 5 (sent (set_rx (ex_rsock []) []) evs' done_) in
    if decide (rest = [])
    then rtpe_tarantool_delete_call (Some (lit "call-1")) 4 ex_client (ex_rworld []) =
           Ret 0 (pushed (synced ex_client)) w1
    else exists now w2,
      rtpe_tarantool_delete_call (Some (lit "call-1")) 4 ex_client (ex_rworld []) =
        Ret (-1) (unsent now (synced ex_client)) w2 /\ socks w2 = delete 5 (socks w1).
Proof.
  apply (delete_sends_delete ex_client (ex_rworld []) (ex_rsock []) (lit "call-1") 4 (lit "call")).
  - apply ex_authed.
  - reflexivity.
  - split; [reflexivity|]. exists (lit "-1"). reflexivity.
  - vm_compute. discriminate.
Defined.

(** The packet buffer of saving has 2048 bytes and only its size is checked, not the
    length of what goes into it: a call whose strings have more than 1963 bytes together
    is written outside the buffer. *)
Theorem save_overflows c w i id cid
  (Hid : call_id i = Some id) (Hcid : ident id (call_id_len i) cid)
  (Hsmall : info_small cid (Some (r_node_id (r_config c))) i)
  (Hlong : 1963 < info_bytes cid (Some (r_node_id (r_config c))) i) :
  rtpe_tarantool_save_call (Some i) c w = Undef.
Proof.
  unfold rtpe_tarantool_save_call. run (take_sync_ok c w). rewrite bind_get.
  cbn [r_config synced put_sync]. fold (with_ttl c i).
  assert (rtpe_tarantool_pack_call_upsert 2048 (sync_id c) (Some (r_node_id (r_config c))) (with_ttl c i)
            (synced c) w = Undef) as Hp; [|by unfold mbind, M_bind; rewrite Hp].
  unfold rtpe_tarantool_pack_call_upsert. change (2048 <? 512) with false. cbv iota.
  cbn [call_id call_id_len with_ttl]. rewrite Hid.
  assert (len cid < 2 ^ 32) by by inversion_clear Hsmall.
  run (id_bytes_ok _ _ _ (synced c) w Hcid ltac:(done)). apply bind_overflow. rewrite len_finalize.
  pose proof (len_upsert_payload (sync_id c) cid (Some (r_node_id (r_config c))) (with_ttl c i) Hsmall).
  unfold info_bytes in *. cbn [caller_ip callee_ip srtp_suite with_ttl] in *. lia.
Qed.

Lemma save_overflows_witness :
  rtpe_tarantool_save_call (Some (Info (Some (repeat 65 1964)) 1964 None None 0 None 0 None None 0))
    ex_client (ex_rworld []) = Undef.
Proof.
  apply (save_overflows _ _ _ (repeat 65 1964) (repeat 65 1964)).
  - reflexivity.
  - split; [reflexivity|]. exists []. reflexivity.
  - repeat (apply Forall_cons; split); [reflexivity..|by apply Forall_nil].
  - vm_compute. reflexivity.
Defined.

(** * Restoring *)

(** Calls that were saved come back. When the server answers the request for a node
    with the calls it keeps for it (each a map of the identifier, the node and the
    payload that [rtpe_call_upsert] received), the callback gets exactly these calls, in
    order and with the attributes that were saved, and their number is the result;
    whatever frames of other requests come before, and however the stream is cut. *)
Theorem restore_returns_saved_calls cb c w node fh header fb fa fi calls others evs s
  (Hauth : authed c)
  (Hreply : replies w c others (reply fh header fb fa fi calls) evs s)
  (Hcalls : Forall saved_ok calls)
  (Hwf : mp_wf (MMap fb (m_body (reply fh header fb fa fi calls))))
  (Hcb : forall cs i, cb cs i = 0) (Hnode : len (cstr node) <= 450) (Hcount : len calls < 2 ^ 31) :
  rtpe_tarantool_restore_calls cb (Some node) c w =
    Ret (len calls, back <$> calls) (synced c)
        (with_sock w (r_fd c) (Sock evs [] (wire s ++ restore_frame c node))).
Proof.
  rewrite (restore_ok cb c w node others (reply fh header fb fa fi calls) evs s); try done.
  - rewrite reply_calls by done. rewrite len_fmap, i32_id; [done|]. pose proof (len_nonneg calls). lia.
  - by apply reply_body_wf.
Qed.

Definition ex_header_of (sync : Z) : list (mp * mp) := [(MFix 0, MUint W32 0); (MFix 1, MFix sync); (MFix 5, MUint W32 80)].
Definition ex_saved : list saved := [(lit "call-1", lit "node-1", ex_info)].
Definition ex_reply : message := reply FFix (ex_header_of 7) FFix FFix FFix ex_saved.
Definition ex_other : message := Message FFix (ex_header_of 3) FFix [].
Definition ex_replies : list Z := flat_map frame_of [ex_other] ++ frame_of ex_reply.

Lemma ex_header_wf n fb body : 0 <= n <= 127 ->
  bytes_ok (message_bytes (Message FFix (ex_header_of n) fb body)) ->
  len (message_bytes (Message FFix (ex_header_of n) fb body)) <= 1048576 ->
  header_wf (Message FFix (ex_header_of n) fb body).
Proof.
  intros Hn Hb Hl. split; [cbn; repeat split; (done || lia)|]. split; [|by split].
  repeat (apply Forall_cons; split); [..|by apply Forall_nil];
    (eexists; split; [reflexivity|]; split; [cbn; (done || lia)|]; try done).
  intros _. eexists. cbn. destruct ((0 <=? n) && _) eqn:E; [reflexivity|lia].
Qed.

Lemma ex_replies_ok : replies (ex_rworld ex_replies) ex_client [ex_other] ex_reply []
  (ex_rsock ex_replies).
Proof.
  split; [apply lookup_insert_eq|]. split; [done|]. split; [done|]. split.
  { change (stream retry_all (drained (rx (ex_rsock (MP_UINT32 :: tail ex_replies)))) (MP_UINT32 :: tail ex_replies) []).
    apply ex_stream. }
  split; [apply ex_header_wf; [lia|by apply bytes_dec|by vm_compute]|]. split; [done|].
  apply Forall_cons. split; [|by apply Forall_nil]. split; [|done].
  apply ex_header_wf; [lia|by apply bytes_dec|by vm_compute].
Qed.

Lemma ex_fits size bs : forallb (fun b => (1 <=? b) && (b <? 256)) bs = true -> len bs < size -> fits size bs.
Proof.
  intros H Hl. rewrite forallb_forall in H. split; [|split; [done|]].
  - intros Hin. apply list_elem_of_In, H in Hin. lia.
  - apply Forall_forall. intros b Hb. apply list_elem_of_In, H in Hb. unfold is_byte. lia.
Qed.

Lemma ex_saved_ok : Forall saved_ok ex_saved.
Proof.
  apply Forall_cons. split; [|by apply Forall_nil]. split; [done|].
  split_and!; try (apply ex_fits; reflexivity); cbn; lia.
Qed.

Lemma restore_returns_saved_calls_witness : exists c' w',
  rtpe_tarantool_restore_calls (fun _ _ => 0) (Some (lit "node-1")) ex_client (ex_rworld ex_replies) =
    Ret (1, [call_back (lit "call-1") (lit "node-1") ex_info]) c' w'.
Proof.
  eexists _, _. apply (restore_returns_saved_calls _ ex_client _ (lit "node-1") FFix (ex_header_of 7)
    FFix FFix FFix ex_saved [ex_other] [] (ex_rsock ex_replies)).
  - apply ex_authed.
  - apply ex_replies_ok.
  - apply ex_saved_ok.
  - vm_compute. repeat split; discriminate.
  - reflexivity.
  - vm_compute. discriminate.
  - reflexivity.
Defined.

(** A response without the data key, such as every error response, is taken as success:
    the driver never looks at the response code, so restoring returns 0 calls and the
    caller cannot tell a refused request from a node without calls. *)
Theorem restore_accepts_errors cb c w node m others evs s
  (Hauth : authed c) (Hreply : replies w c others m evs s)
  (Hwf : mp_wf (MMap (m_fb m) (m_body m))) (Hkeys : others_ok (m_body m))
  (Hnode : len (cstr node) <= 450) :
  rtpe_tarantool_restore_calls cb (Some node) c w =
    Ret (0, []) (synced c) (with_sock w (r_fd c) (Sock evs [] (wire s ++ restore_frame c node))).
Proof.
  destruct Hkeys as [Hk Hne]. assert (message_calls m = [] /\ Forall (body_ok cb) (m_body m)) as [Hm Hb].
  { unfold message_calls. clear Hwf Hreply. induction Hk as [|kv kvs [[n Hn] Hw] _ IH]; [by split|].
    apply Forall_cons in Hne as [Hd Hne]. destruct (IH Hne) as [H1 H2]. split.
    - cbn [foldl]. unfold body_calls at 2. by rewrite decide_False.
    - apply Forall_cons. split; [|done]. exists n. split; [done|]. split; [done|].
      intros ->. by rewrite Hn in Hd. }
  rewrite (restore_ok cb c w node others m evs s) by done. by rewrite Hm.
Qed.

Definition ex_error : message :=
  Message FFix ((MFix 0, MUint W32 0x802a) :: tail (ex_header_of 7)) FFix [(MFix 0x31, MStr FFix (lit "denied"))].

Lemma restore_accepts_errors_witness : exists c' w',
  rtpe_tarantool_restore_calls (fun _ _ => 0) (Some (lit "node-1")) ex_client
    (ex_rworld (frame_of ex_error)) = Ret (0, []) c' w'.
Proof.
  eexists _, _. apply (restore_accepts_errors _ ex_client _ (lit "node-1") ex_error [] [] (ex_rsock (frame_of ex_error))).
  - apply ex_authed.
  - split; [reflexivity|]. split; [reflexivity|]. split; [reflexivity|]. split.
    + change (stream retry_all (drained (rx (ex_rsock (MP_UINT32 :: tail (frame_of ex_error))))) (MP_UINT32 :: tail (frame_of ex_error)) []).
      apply ex_stream.
    + split; [|split; [reflexivity|constructor]].
      split; [vm_compute; repeat split; discriminate|]. split.
      * repeat (apply Forall_cons; split); [..|by apply Forall_nil];
          (eexists; split; [reflexivity|]; split; [by vm_compute|]; try done; by eexists).
      * split; [by apply bytes_dec|vm_compute; discriminate].
  - vm_compute. repeat split; discriminate.
  - split; repeat constructor; try done; by eexists.
  - vm_compute. discriminate.
Defined.

(** The answer by which the callback asks to stop ends only the current inner array:
    of two calls in arrays of their own the second one is delivered all the same. *)
Example stop_is_not_final : exists c' w',
  rtpe_tarantool_restore_calls (fun _ _ => 1) (Some (lit "node-1")) ex_client
    (ex_rworld (frame_of (Message FFix (ex_header_of 7) FFix
       [(uint_mp IPROTO_DATA, MArr FFix [MArr FFix (stored <$> ex_saved); MArr FFix (stored <$> ex_saved)])]))) =
  Ret (2, [call_back (lit "call-1") (lit "node-1") ex_info; call_back (lit "call-1") (lit "node-1") ex_info]) c' w'.
Proof. eexists _, _. vm_compute. reflexivity. Qed.

(** A key that is a proper prefix of a name is taken for it, the empty key for [call_id]:
    the comparison runs over the length of the received key. *)
Lemma prefix_key_is_call_id buf r f k g s p :
  mp_wf (MStr f k) -> mp_wf (MStr g s) -> 0 ∉ k -> prefix k (lit "call_id") ->
  at_ buf p (mp_bytes (MStr f k) ++ mp_bytes (MStr g s)) ->
  exists q, call_entry r buf p =
    Some (Restored (chars_of 128 (cid_buf r) (MStr g s)) (nid_buf r) (c_ip r) (ce_ip r) (suite r)
                   (c_port r) (ce_port r), q).
Proof.
  intros Hk Hs Hz Hpre Hat. destruct (str_step _ _ _ _ _ Hk Hat) as (v & Hd & Hv & Hr).
  unfold call_entry. rewrite (R_bind_eq _ _ _ _ _ _ Hd).
  rewrite (R_bind_eq _ _ _ _ _ _ (strncmp_prefix buf _ (lit "call_id") k v Hv Hz ltac:(set_unfold; lia))).
  rewrite bool_decide_eq_true_2 by done.
  rewrite (R_bind_eq _ _ _ _ _ _ (read_chars_ok 128 (cid_buf r) g s buf _ Hs Hr)). by eexists.
Qed.

(** * The client *)

(** The operations on a client that is not closed by hand. *)
Inductive rtpe_op :=
| ROpSave (info : option rtpe_call_info)
| ROpDelete (id : option (list Z)) (n : Z)
| ROpRestore (cb : list rtpe_call_info -> rtpe_call_info -> Z) (node : option (list Z))
| ROpConnect
| ROpDrain.

Definition run_rtpe_op (o : rtpe_op) : MR unit :=
  match o with
  | ROpSave info => _ ← rtpe_tarantool_save_call info; mret tt
  | ROpDelete id n => _ ← rtpe_tarantool_delete_call id n; mret tt
  | ROpRestore cb node => _ ← rtpe_tarantool_restore_calls cb node; mret tt
  | ROpConnect => _ ← rtpe_tarantool_connect; mret tt
  | ROpDrain => rtpe_tarantool_drain
  end.

Fixpoint run_rtpe_ops (os : list rtpe_op) : MR unit :=
  match os with [] => mret tt | o :: r => _ ← run_rtpe_op o; run_rtpe_ops r end.

Lemma rpreserves_ret {A} (a : A) : rpreserves (mret a).
Proof. intros c w Hc. by apply wp_ret. Qed.

Lemma rpreserves_op o : rpreserves (run_rtpe_op o).
Proof.
  destruct o as [info|id n|cb node| |]; cbn [run_rtpe_op].
  - apply rpreserves_bind; [|intros; apply rpreserves_ret]. intros c w Hc.
    eapply wp_mono; [by apply save_wp|]. by intros ? ? ? (? & ? & _).
  - apply rpreserves_bind; [|intros; apply rpreserves_ret]. intros c w Hc.
    eapply wp_mono; [by apply delete_wp|]. by intros ? ? ? (? & ? & _).
  - apply rpreserves_bind; [|intros; apply rpreserves_ret]. intros c w Hc. by apply restore_wp.
  - apply rpreserves_bind; [|intros; apply rpreserves_ret]. apply rpreserves_connect.
  - apply rpreserves_keeps. unfold rtpe_tarantool_drain. auto with keeps.
Qed.

(** C7: a new client has the settings it was given, with the default in place of each number
    that is zero or negative (port 3301, 4 threads, expiry 3600 seconds, 500 ms to connect and
    for a command, 10 seconds disabled after 3 errors, keepalive 60, 5 and 3) and of an empty
    space name (rtpe_calls), so every number but the switch [no_tarantool_required] is positive,
    and it is not connected; and whatever the network, the clock and the allocator do, through
    any sequence of saves, deletes, restores, connects and drains it keeps its settings, it is
    authenticated if and only if it has a descriptor, and its breaker is open exactly when its
    threshold has been reached. *)
Theorem client_invariant cfg os c0 w0 c1 w1
  (Hnew : rtpe_tarantool_new_from_config (Some cfg) c0 w0 = Ret true c1 w1) :
  let pick v d := if v <=? 0 then d else v in
  r_config c1 =
    {| r_host := r_host cfg; r_port := pick (r_port cfg) 3301;
       r_user := r_user cfg; r_password := r_password cfg; r_node_id := r_node_id cfg;
       r_space := match r_space cfg with [] => lit "rtpe_calls" | sp => sp end;
       num_threads := pick (num_threads cfg) 4; expires_secs := pick (expires_secs cfg) 3600;
       r_connect_timeout_ms := pick (r_connect_timeout_ms cfg) 500;
       cmd_timeout_ms := pick (cmd_timeout_ms cfg) 500;
       no_tarantool_required := no_tarantool_required cfg;
       disable_time := pick (disable_time cfg) 10; r_allowed_errors := pick (r_allowed_errors cfg) 3;
       tcp_keepalive_time := pick (tcp_keepalive_time cfg) 60;
       tcp_keepalive_intvl := pick (tcp_keepalive_intvl cfg) 5;
       tcp_keepalive_probes := pick (tcp_keepalive_probes cfg) 3 |} /\
  Forall (fun f => 0 < f (r_config c1))
    [r_port; num_threads; expires_secs; r_connect_timeout_ms; cmd_timeout_ms; disable_time;
     r_allowed_errors; tcp_keepalive_time; tcp_keepalive_intvl; tcp_keepalive_probes] /\
  r_fd c1 = -1 /\ r_state c1 = TARANTOOL_DISCONNECTED /\ r_errors c1 = 0 /\
  wp (run_rtpe_ops os) (fun _ c' _ =>
    r_config c' = r_config c1 /\
    (r_state c' = TARANTOOL_AUTHENTICATED <-> 0 <= r_fd c') /\ client_inv c') c1 w1.
Proof.
  intros pick.
  assert (rpreserves (run_rtpe_ops os)) as Hos.
  { induction os as [|o os IH]; [apply rpreserves_ret|]. cbn [run_rtpe_ops].
    apply rpreserves_bind; [apply rpreserves_op|intros; exact IH]. }
  unfold rtpe_tarantool_new_from_config, malloc, sys, put, mbind, M_bind, mret, M_ret in Hnew.
  destruct (sys_malloc w0) as [[] w2]; cbn [negb] in Hnew; [|done].
  injection Hnew as <- <-. cbn [r_config r_fd r_state r_errors]. split; [|split; [|split_and!; [done..|]]].
  - unfold or_default. fold pick. f_equal. by destruct (r_space cfg).
  - assert (forall v d, 0 < d -> 0 < or_default v d) as Hdef.
    { intros v d Hd. unfold or_default. destruct (v <=? 0) eqn:E; lia. }
    repeat apply Forall_cons_2; try apply Forall_nil_2; cbn -[or_default Z.lt]; by apply Hdef.
  - eapply wp_mono; [apply Hos; split; [by right|]; apply reset_inv|].
    intros ? c' ? [Hi Hc]. split; [exact Hc|]. split; [|exact Hi].
    destruct Hi as [[[-> ?]|[Hst ?]] _]; [done|]. split; [done|lia].
Qed.

Lemma client_invariant_witness : exists c1 w1,
  r_port (r_config c1) = 3301 /\ r_allowed_errors (r_config c1) = 7 /\
  wp (run_rtpe_ops [ROpConnect; ROpSave (Some ex_info)]) (fun _ c' _ =>
    r_config c' = r_config c1 /\
    (r_state c' = TARANTOOL_AUTHENTICATED <-> 0 <= r_fd c') /\ client_inv c') c1 w1.
Proof.
  destruct (client_invariant (RConfig (lit "h") 0 [] [] [] [] 0 0 0 0 0 0 7 0 0 0)
    [ROpConnect; ROpSave (Some ex_info)] ex_client (ex_rworld [])
    (Client (RConfig (lit "h") 3301 [] [] [] (lit "rtpe_calls") 4 3600 500 500 0 10 7 60 5 3)
      (-1) TARANTOOL_DISCONNECTED 1 0 0 0 0) (ex_rworld [])) as (_ & _ & _ & _ & _ & H);
    [vm_compute; reflexivity|].
  eexists _, _. split; [|split; [|exact H]]; reflexivity.
Defined.

(** Saving or deleting a call that has an identifier fails only if the configuration
    makes the database a requirement: with [no_tarantool_required] set, every execution
    that returns gives 0, whatever the network does. *)
Theorem optional_database_never_fails c w i id n
  (Hinv : client_inv c) (Hopt : no_tarantool_required (r_config c) <> 0)
  (Hid : call_id i = Some id) :
  wp (rtpe_tarantool_save_call (Some i)) (fun r _ _ => r = 0) c w /\
  wp (rtpe_tarantool_delete_call (Some id) n) (fun r _ _ => r = 0) c w.
Proof.
  assert (tolerated c = 0) as Ht.
  { unfold tolerated. destruct (_ =? 0) eqn:E; [lia|done]. }
  split.
  - eapply wp_mono; [by apply save_wp|]. intros r c' w' (_ & _ & [?|[?|[_ Hr]]]); [done|congruence|].
    rewrite (Hr i eq_refl) in Hid. done.
  - eapply wp_mono; [by apply delete_wp|]. intros r c' w' (_ & _ & [?|[?|[_ ?]]]); [done|congruence|done].
Qed.

Lemma optional_database_never_fails_witness :
  let c := Client (ex_rcfg 1) (-1) TARANTOOL_DISCONNECTED 1 0 0 0 0 in
  wp (rtpe_tarantool_save_call (Some ex_info)) (fun r _ _ => r = 0) c (ex_rworld []) /\
  wp (rtpe_tarantool_delete_call (Some (lit "call-1" ++ [0])) 0) (fun r _ _ => r = 0) c (ex_rworld []).
Proof.
  apply (optional_database_never_fails (Client (ex_rcfg 1) (-1) TARANTOOL_DISCONNECTED 1 0 0 0 0)
    (ex_rworld []) ex_info (lit "call-1" ++ [0]) 0).
  - split; [by right|]. apply reset_inv.
  - discriminate.
  - reflexivity.
Defined.


