(* ===== verification/Kamailio.v ===== *)
(** The Kamailio driver, [kamailio_tarantool/ndb_tarantool/tarantool_client.c] and
    [tarantool_kemi.c]: the list of servers, the connection of a worker to a server and
    its circuit breaker, procedure calls and evaluations, and the KEMI functions. The
    msgpack-c library and the SHA-1 and Base64 functions of the Kamailio core are
    interfaces. *)
From S2P Require Export Iproto Cstr MsgpackC.

(** * Kamailio core *)

(** [base64_dec src dlen] is the result and the bytes stored; [compute_sha1_raw] the
    digest. *)
Class KamCore := {
  base64_dec : list Z -> Z -> Z * list Z;
  compute_sha1_raw : list Z -> list Z
}.

(** * State *)

Definition TNT_DEFAULT_PORT := 3301.
Definition TNT_DEFAULT_HOST := lit "127.0.0.1".
Definition TNT_IPROTO_OK := 0x00.
Definition TNT_IPROTO_AUTH := 0x07.
Definition TNT_IPROTO_EVAL := 0x08.
Definition TNT_IPROTO_CALL := 0x0a.
Definition TNT_IPROTO_REQUEST_TYPE := 0x00.
Definition TNT_IPROTO_SYNC := 0x01.
Definition TNT_IPROTO_TUPLE := 0x21.
Definition TNT_IPROTO_FUNCTION_NAME := 0x22.
Definition TNT_IPROTO_USER_NAME := 0x23.
Definition TNT_IPROTO_EXPR := 0x27.
Definition TNT_IPROTO_DATA := 0x30.

Record tnt_server := Server {
  sname : str; addr : str; port : Z; user : str; pass : str;
  connect_timeout : Z; cmd_timeout : Z; disable_time : Z; allowed_timeouts : Z;
  disabled : bool; consecutive_errors : Z; restore_tick : Z;
  fd : Z; connected : bool; sync_id : Z
}.

(** The module parameters. *)
Record kam_params := KParams {
  init_without_tarantool : bool;
  tnt_connect_timeout_param : Z; tnt_cmd_timeout_param : Z;
  tnt_disable_time_param : Z; tnt_allowed_timeouts_param : Z
}.

(** The operations on one server, and on the list [tnt_srv_list]. *)
Notation "'MS'" := (M tnt_server) (only parsing).
Notation "'ML'" := (M (list tnt_server)) (only parsing).

Definition put_link (s : tnt_server) (f : Z) (c : bool) : tnt_server :=
  Server (sname s) (addr s) (port s) (user s) (pass s) (connect_timeout s) (cmd_timeout s)
         (disable_time s) (allowed_timeouts s) (disabled s) (consecutive_errors s)
         (restore_tick s) f c (sync_id s).
Definition put_breaker (s : tnt_server) (d : bool) (n tick : Z) : tnt_server :=
  Server (sname s) (addr s) (port s) (user s) (pass s) (connect_timeout s) (cmd_timeout s)
         (disable_time s) (allowed_timeouts s) d n tick (fd s) (connected s) (sync_id s).
Definition put_sync (s : tnt_server) (n : Z) : tnt_server :=
  Server (sname s) (addr s) (port s) (user s) (pass s) (connect_timeout s) (cmd_timeout s)
         (disable_time s) (allowed_timeouts s) (disabled s) (consecutive_errors s)
         (restore_tick s) (fd s) (connected s) n.
Definition put_names (s : tnt_server) (n a u p : str) : tnt_server :=
  Server n a (port s) u p (connect_timeout s) (cmd_timeout s) (disable_time s) (allowed_timeouts s)
         (disabled s) (consecutive_errors s) (restore_tick s) (fd s) (connected s) (sync_id s).
Definition put_numbers (s : tnt_server) (p ct mt dt allowed : Z) : tnt_server :=
  Server (sname s) (addr s) p (user s) (pass s) ct mt dt allowed
         (disabled s) (consecutive_errors s) (restore_tick s) (fd s) (connected s) (sync_id s).

(** * Server specifications *)

(** The result is the new value of [dst]. *)
Definition tnt_strdup_pkg {D} (src : list Z) : M D str :=
  ok ← malloc; mret (if ok : bool then Str (Some src) (i32 (len src)) else Str None 0).

(** The tokens of successive [strtok_r] calls with one delimiter. *)
Fixpoint strtok_r (s : list Z) (d : Z) (token : list Z) : list (list Z) :=
  match s with
  | [] => match token with [] => [] | _ => [token] end
  | c :: s' =>
      if c =? d then match token with [] => strtok_r s' d [] | _ => token :: strtok_r s' d [] end
      else strtok_r s' d (token ++ [c])
  end.

Fixpoint skip_blank (p : list Z) : list Z :=
  match p with
  | c :: p' => if (c =? 32) || (c =? 9) then skip_blank p' else p
  | [] => []
  end.

Definition key_is (key : list Z) (name : string) : bool := bool_decide (key = lit name).

(** One token of a specification. *)
Definition spec_token {D} (srv : tnt_server) (token : list Z) : M D tnt_server :=
  match strchr token 61 with
  | None => mret srv
  | Some (k, v) =>
      let key := skip_blank k in
      let val := skip_blank v in
      let num := atoi val in
      if key_is key "name" || key_is key "srv" then
        x ← tnt_strdup_pkg val; mret (put_names srv x (addr srv) (user srv) (pass srv))
      else if key_is key "addr" || key_is key "host" then
        x ← tnt_strdup_pkg val; mret (put_names srv (sname srv) x (user srv) (pass srv))
      else if key_is key "port" then
        mret (put_numbers srv num (connect_timeout srv) (cmd_timeout srv) (disable_time srv) (allowed_timeouts srv))
      else if key_is key "user" then
        x ← tnt_strdup_pkg val; mret (put_names srv (sname srv) (addr srv) x (pass srv))
      else if key_is key "pass" || key_is key "password" then
        x ← tnt_strdup_pkg val; mret (put_names srv (sname srv) (addr srv) (user srv) x)
      else if key_is key "connect_timeout" then
        mret (put_numbers srv (port srv) num (cmd_timeout srv) (disable_time srv) (allowed_timeouts srv))
      else if key_is key "cmd_timeout" then
        mret (put_numbers srv (port srv) (connect_timeout srv) num (disable_time srv) (allowed_timeouts srv))
      else if key_is key "disable_time" then
        mret (put_numbers srv (port srv) (connect_timeout srv) (cmd_timeout srv) num (allowed_timeouts srv))
      else if key_is key "allowed_timeouts" then
        mret (put_numbers srv (port srv) (connect_timeout srv) (cmd_timeout srv) (disable_time srv) num)
      else mret srv
  end.

Fixpoint spec_tokens {D} (srv : tnt_server) (tokens : list (list Z)) : M D tnt_server :=
  match tokens with
  | [] => mret srv
  | t :: r => srv' ← spec_token srv t; spec_tokens srv' r
  end.

(** A server with the module's defaults. *)
Definition default_server (p : kam_params) (n a : str) : tnt_server :=
  Server n a TNT_DEFAULT_PORT (Str None 0) (Str None 0)
         (tnt_connect_timeout_param p) (tnt_cmd_timeout_param p)
         (tnt_disable_time_param p) (tnt_allowed_timeouts_param p) false 0 0 (-1) false 0.

(** [srv_spec] is the string before the terminating NUL. *)
Definition tnt_add_server (p : kam_params) (srv_spec : option (list Z)) : ML Z :=
  match srv_spec with
  | None => mret (-1)
  | Some spec =>
      ok ← malloc;
      if negb ok then mret (-1) else
      ok ← malloc;
      if negb ok then mret (-1) else
      n ← tnt_strdup_pkg (lit "default");
      a ← tnt_strdup_pkg TNT_DEFAULT_HOST;
      srv ← spec_tokens (default_server p n a) (strtok_r spec 59 []);
      if (port srv <=? 0) || (65535 <? port srv) then mret (-1) else
      _ ← modify (cons srv);
      mret 0
  end.

(** [strncmp(a, b, n) == 0] on strings of [n] characters at least, or terminated before. *)
Fixpoint strneq (n : nat) (a b : list Z) : bool :=
  match n, a, b with
  | O, _, _ => true
  | S n', x :: a', y :: b' => if x =? y then (x =? 0) || strneq n' a' b' else false
  | S _, _, _ => false
  end.

(** The position of the server in the list. *)
Definition tnt_get_server (servers : list tnt_server) (name : option str) : option nat :=
  match servers with
  | [] => None
  | _ =>
      match name with
      | Some (Str (Some s) n) =>
          if n =? 0 then Some O
          else fst <$> list_find (fun it => slen (sname it) = n /\
                 Is_true (strneq (Z.to_nat n) (default [] (chars (sname it))) s)) servers
      | _ => Some O
      end
  end.

(** * Connections *)

Definition tnt_socket_send_all (f : Z) (buf : list Z) : MS bool := send_all retry_intr true f buf.
Definition tnt_socket_recv_all (f n : Z) : MS (option (list Z)) := recv_all retry_intr f n.

Definition tnt_conn_close : MS unit :=
  s ← get;
  _ ← (if 0 <=? fd s then _ ← close (fd s); modify (fun s => put_link s (-1) (connected s)) else mret tt);
  modify (fun s => put_link s (fd s) false).

Definition tnt_conn_fail : MS unit :=
  _ ← tnt_conn_close;
  _ ← modify (fun s => put_breaker s (disabled s) (consecutive_errors s + 1) (restore_tick s));
  s ← get;
  if allowed_timeouts s <=? consecutive_errors s then
    now ← time_;
    modify (fun s => put_breaker s true (consecutive_errors s) (now + disable_time s))
  else mret tt.

(** The five bytes before a body. *)
Definition len_hdr (body : list Z) : list Z := 0xce :: be_bytes 4 (u32 (len body)).

(** The two sends of a request. *)
Definition send_frame (f : Z) (body : list Z) : MS bool :=
  sent ← tnt_socket_send_all f (len_hdr body);
  if negb sent then mret false else tnt_socket_send_all f body.

Section driver.
Context `{!MsgpackC, !KamCore}.

Definition is_pos (o : msgpack_object) (n : Z) : bool :=
  match o with MSGPACK_OBJECT_POSITIVE_INTEGER m => m =? n | _ => false end.

Definition kam_auth_body (sync : Z) (us : str) (us_bytes scramble : list Z) : list Z :=
  pack_map 2
  ++ pack_uint8 TNT_IPROTO_REQUEST_TYPE ++ pack_uint8 TNT_IPROTO_AUTH
  ++ pack_uint8 TNT_IPROTO_SYNC ++ pack_uint64 sync
  ++ pack_map 2
  ++ pack_uint8 TNT_IPROTO_USER_NAME ++ pack_str (slen us) ++ pack_str_body us_bytes
  ++ pack_uint8 TNT_IPROTO_TUPLE ++ pack_array 2
  ++ pack_str 9 ++ pack_str_body (lit "chap-sha1")
  ++ pack_bin TNT_SHA1_DIGEST_SIZE ++ pack_bin_body scramble.

Definition kam_scramble (pass raw_salt : list Z) : list Z :=
  let h1 := compute_sha1_raw pass in
  let h2 := compute_sha1_raw h1 in
  let h3 := compute_sha1_raw (ztake TNT_SHA1_DIGEST_SIZE raw_salt ++ h2) in
  zip_with Z.lxor h1 h3.

(** Whether a header reports success. *)
Definition auth_ok (resp : list Z) : bool :=
  match unpack_next resp 0 with
  | Some (MSGPACK_OBJECT_MAP kvs, _) =>
      existsb (fun kv => is_pos kv.1 TNT_IPROTO_REQUEST_TYPE && is_pos kv.2 TNT_IPROTO_OK) kvs
  | _ => false
  end.

(** The [slen x] bytes of a string. *)
Definition str_bytes (x : str) : MS (list Z) := of_read (copy (default [] (chars x)) 0 (slen x)).

Definition tnt_auth_scramble (salt_b64 : list Z) : MS Z :=
  s ← get;
  if bool_decide (chars (user s) = None) || (slen (user s) =? 0) then mret 0 else
  let '(raw_salt_len, raw_salt) := base64_dec salt_b64 64 in
  if raw_salt_len <? TNT_SHA1_DIGEST_SIZE then mret (-1) else
  pw ← str_bytes (pass s);
  let scramble := kam_scramble pw raw_salt in
  _ ← modify (fun s => put_sync s (u64 (sync_id s + 1)));
  s ← get;
  us ← str_bytes (user s);
  sent ← send_frame (fd s) (kam_auth_body (sync_id s) (user s) us scramble);
  if negb sent then mret (-1) else
  resp_hdr ← tnt_socket_recv_all (fd s) 5;
  match resp_hdr with
  | None => mret (-1)
  | Some resp_hdr =>
      tag ← of_read (rd resp_hdr 0);
      if negb (tag =? 0xce) then mret (-1) else
      resp_len ← of_read (prefix_len resp_hdr);
      if (resp_len =? 0) || (65536 <? resp_len) then mret (-1) else
      ok ← malloc;
      if negb ok then mret (-1) else
      resp_body ← tnt_socket_recv_all (fd s) resp_len;
      match resp_body with
      | None => mret (-1)
      | Some body => mret (if auth_ok body then 0 else -1)
      end
  end.

Definition tnt_conn_connect : MS Z :=
  _ ← tnt_conn_close;
  s ← get;
  cooling ← (if disabled s then now ← time_; mret (now <? restore_tick s) else mret false);
  if (cooling : bool) then mret (-1) else
  _ ← (if disabled s then modify (fun s => put_breaker s false 0 (restore_tick s)) else mret tt);
  f ← sys sys_socket;
  _ ← modify (fun s => put_link s f (connected s));
  if f <? 0 then mret (-1) else
  s ← get;
  a ← of_read (chars (addr s));
  if negb (inet_pton4 (cstr a)) then _ ← tnt_conn_close; mret (-1) else
  up ← sys (sys_connect f);
  if negb up then _ ← tnt_conn_fail; mret (-1) else
  greeting ← tnt_socket_recv_all f TNT_GREETING_SIZE;
  match greeting with
  | None => _ ← tnt_conn_fail; mret (-1)
  | Some greeting =>
      auth ← (if bool_decide (is_Some (chars (user s))) && (0 <? slen (user s))
              then salt ← of_read (copy greeting 64 44); tnt_auth_scramble salt
              else mret 0);
      if auth <? 0 then _ ← tnt_conn_fail; mret (-1) else
      _ ← modify (fun s => put_link s (fd s) true);
      _ ← modify (fun s => put_breaker s (disabled s) 0 (restore_tick s));
      mret 0
  end.

(** * Requests *)

(** The string form of an object: the result and the new value of [dst]. *)
Definition tnt_mp_to_json_str (obj : msgpack_object) (dst : str) : MS (Z * str) :=
  let buf := print_buffer 8191 obj in
  if 0 <? len buf then
    ok ← malloc;
    mret (if ok : bool then (0, Str (Some buf) (len buf)) else (-1, Str None (slen dst)))
  else
    ok ← malloc;
    mret (0, if ok : bool then Str (Some (lit "[]")) 2 else Str None (slen dst)).

(** The argument array: one string, or nothing for a string that begins with a bracket. *)
Definition exec_args (params : option str) : MS (list Z) :=
  match params with
  | None => mret (pack_array 0)
  | Some x =>
      if 0 <? slen x then
        c ← of_read (rd (default [] (chars x)) 0);
        if c =? 91 then mret (pack_array 0)
        else bs ← str_bytes x; mret (pack_array 1 ++ pack_str (slen x) ++ pack_str_body bs)
      else mret (pack_array 0)
  end.

Definition exec_body (type key sync : Z) (name : str) (name_bytes args : list Z) : list Z :=
  pack_map 2
  ++ pack_uint8 TNT_IPROTO_REQUEST_TYPE ++ pack_uint8 type
  ++ pack_uint8 TNT_IPROTO_SYNC ++ pack_uint64 sync
  ++ pack_map 2
  ++ pack_uint8 key ++ pack_str (slen name) ++ pack_str_body name_bytes
  ++ pack_uint8 TNT_IPROTO_TUPLE ++ args.

(** The response type in a header and the offset after it. *)
Definition response_type (resp : list Z) : Z * Z :=
  match unpack_next resp 0 with
  | Some (MSGPACK_OBJECT_MAP kvs, off) =>
      (foldl (fun t kv => if is_pos kv.1 TNT_IPROTO_REQUEST_TYPE then via_u64 kv.2 else t) 0xff kvs, off)
  | Some (_, off) => (0xff, off)
  | None => (0xff, 0)
  end.

(** The data object of the body at [off]. *)
Definition response_data (resp : list Z) (off : Z) : option msgpack_object :=
  match unpack_next resp off with
  | Some (MSGPACK_OBJECT_MAP kvs, _) =>
      foldl (fun d kv => if is_pos kv.1 TNT_IPROTO_DATA then Some kv.2 else d) None kvs
  | _ => None
  end.

(** [tnt_exec_call] and [tnt_exec_eval] on a server: they differ in the request type and
    the key of the name. [res_dst] is [None] for a null pointer; the result comes with the
    new value of the string. *)
Definition tnt_exec (type key : Z) (name : str) (params : option str) (res_dst : option str)
  : MS (Z * option str) :=
  s ← get;
  up ← (if negb (connected s) || (fd s <? 0) then tnt_conn_connect else mret 0);
  if up <? 0 then mret (-1, res_dst) else
  _ ← modify (fun s => put_sync s (u64 (sync_id s + 1)));
  s ← get;
  bs ← str_bytes name;
  args ← exec_args params;
  sent ← send_frame (fd s) (exec_body type key (sync_id s) name bs args);
  if negb sent then _ ← tnt_conn_fail; mret (-1, res_dst) else
  resp_hdr ← tnt_socket_recv_all (fd s) 5;
  match resp_hdr with
  | None => _ ← tnt_conn_fail; mret (-1, res_dst)
  | Some resp_hdr =>
      tag ← of_read (rd resp_hdr 0);
      if negb (tag =? 0xce) then _ ← tnt_conn_fail; mret (-1, res_dst) else
      resp_len ← of_read (prefix_len resp_hdr);
      if 1048576 <? resp_len then _ ← tnt_conn_fail; mret (-1, res_dst) else
      ok ← malloc;
      if negb ok then mret (-1, res_dst) else
      resp_body ← tnt_socket_recv_all (fd s) resp_len;
      match resp_body with
      | None => _ ← tnt_conn_fail; mret (-1, res_dst)
      | Some resp =>
          let '(resp_type, off) := response_type resp in
          if negb (resp_type =? TNT_IPROTO_OK) then mret (-1, res_dst) else
          res ← (match res_dst, response_data resp off with
                 | Some dst, Some obj => '(_, dst) ← tnt_mp_to_json_str obj dst; mret (Some dst)
                 | _, _ => mret res_dst
                 end);
          _ ← modify (fun s => put_breaker s (disabled s) 0 (restore_tick s));
          mret (1, res)
      end
  end.

(** An operation on the server [srv], a position in the list or a null pointer, which
    stands for the head; [none] is the answer when the list is empty. *)
Definition on_server {A} (srv : option nat) (none : A) (m : MS A) : ML A := fun l w =>
  match l !! default O srv with
  | Some s => match m s w with
              | Ret a s' w' => Ret a (<[default O srv := s']> l) w'
              | Hang => Hang
              | Undef => Undef
              end
  | None => match srv with None => Ret none l w | Some _ => Undef end
  end.

Definition tnt_exec_call (srv : option nat) (proc_name : str) (params res_dst : option str)
  : ML (Z * option str) :=
  on_server srv (-1, res_dst) (tnt_exec TNT_IPROTO_CALL TNT_IPROTO_FUNCTION_NAME proc_name params res_dst).

Definition tnt_exec_eval (srv : option nat) (lua_code : str) (params res_dst : option str)
  : ML (Z * option str) :=
  on_server srv (-1, res_dst) (tnt_exec TNT_IPROTO_EVAL TNT_IPROTO_EXPR lua_code params res_dst).

(** A string of [n] bytes in the tuple. *)
Definition pack_arg (p : option (list Z)) (n : Z) : ML (list Z) :=
  bs ← of_read (copy (default [0] p) 0 n); mret (pack_str n ++ pack_str_body bs).

Definition tnt_save_call_sg (srv : option nat) (call_id : option (list Z)) (cid_len : Z)
    (node_id : option (list Z)) (nid_len : Z) (state : option (list Z)) (state_len : Z)
    (expires : Z) (payload : option (list Z)) (payload_len : Z) : ML Z :=
  l ← get;
  if bool_decide (srv = None /\ l = []) || bool_decide (call_id = None) then mret (-1) else
  c ← pack_arg call_id cid_len;
  n ← pack_arg node_id nid_len;
  st ← pack_arg state state_len;
  p ← pack_arg payload payload_len;
  let sbuf := pack_array 5 ++ c ++ n ++ st ++ pack_int expires ++ p in
  '(rc, _) ← tnt_exec_call srv (str_of (lit "rtpe_call_upsert"))
               (Some (Str (Some sbuf) (i32 (len sbuf)))) None;
  mret (if 0 <? rc then 0 else -1).

(** The destination is a buffer of [dst_len] bytes, or a null pointer; the results are the
    return value and the bytes stored, and [to_copy] for [out_len]. *)
Definition tnt_get_call_buf (srv : option nat) (call_id : option (list Z)) (cid_len : Z)
    (dst_buf : bool) (dst_len : Z) : ML (Z * list Z * Z) :=
  l ← get;
  match call_id with
  | None => mret (-1, [], 0)
  | Some id =>
      if bool_decide (srv = None /\ l = []) || negb dst_buf then mret (-1, [], 0) else
      '(rc, res) ← tnt_exec_call srv (str_of (lit "rtpe_call_get"))
                     (Some (Str (Some id) (i32 cid_len))) (Some (Str None 0));
      match res with
      | Some (Str (Some s) n) =>
          if 0 <? rc then
            let cap := u64 (dst_len - 1) in
            let to_copy := if u64 n <? cap then u64 n else cap in
            bs ← of_read (copy s 0 to_copy);
            _ ← in_buffer dst_len (bs ++ [0]);
            mret (0, bs ++ [0], to_copy)
          else mret (-1, [], 0)
      | _ => mret (-1, [], 0)
      end
  end.

(** * Life cycle *)

Definition child_one (rank : Z) : MS Z :=
  _ ← modify (fun s => put_sync (put_link s (-1) false) (u64 (rank * 1000000)));
  tnt_conn_connect.

(** The [k] servers from position [i] on. *)
Fixpoint child_from (p : kam_params) (rank : Z) (k i : nat) : ML Z :=
  match k with
  | O => mret 0
  | S k' =>
      rc ← on_server (Some i) (-1) (child_one rank);
      if (rc <? 0) && negb (init_without_tarantool p) then mret (-1)
      else child_from p rank k' (S i)
  end.

Definition tnt_child_init (p : kam_params) (rank : Z) : ML Z :=
  l ← get;
  match l with
  | [] => mret (if init_without_tarantool p then 0 else -1)
  | _ => child_from p rank (length l) 0
  end.

Fixpoint close_all (k i : nat) : ML unit :=
  match k with
  | O => mret tt
  | S k' => _ ← on_server (Some i) tt tnt_conn_close; close_all k' (S i)
  end.

Definition tnt_child_destroy : ML unit := l ← get; close_all (length l) 0.

Definition tnt_destroy_all : ML unit :=
  l ← get; _ ← close_all (length l) 0; put [].

(** * KEMI *)

(** A name that is not empty. *)
Definition name_ok (x : option str) : option str :=
  match x with
  | Some n => if bool_decide (is_Some (chars n)) && (0 <? slen n) then Some n else None
  | None => None
  end.

Definition kemi_on (srv_name : option str) (name res_dst : option str)
    (op : option nat -> str -> ML (Z * option str)) : ML (Z * option str) :=
  match name_ok name with
  | None => mret (-1, res_dst)
  | Some n =>
      l ← get;
      match tnt_get_server l srv_name with
      | None => mret (-1, res_dst)
      | Some i => op (Some i) n
      end
  end.

Definition sr_kemi_tarantool_call (proc_name params res_dst : option str) : ML (Z * option str) :=
  kemi_on None proc_name res_dst (fun srv n => tnt_exec_call srv n params res_dst).
Definition sr_kemi_tarantool_eval (lua_code params res_dst : option str) : ML (Z * option str) :=
  kemi_on None lua_code res_dst (fun srv n => tnt_exec_eval srv n params res_dst).
Definition sr_kemi_tarantool_call_srv (srv_name proc_name params res_dst : option str) : ML (Z * option str) :=
  kemi_on srv_name proc_name res_dst (fun srv n => tnt_exec_call srv n params res_dst).
Definition sr_kemi_tarantool_eval_srv (srv_name lua_code params res_dst : option str) : ML (Z * option str) :=
  kemi_on srv_name lua_code res_dst (fun srv n => tnt_exec_eval srv n params res_dst).

End driver.
