(* ===== verification/KamFacts.v ===== *)
(** The Kamailio driver's connection: its breaker, its invariant, and what a request on a
    connected server puts on the wire and reads back. *)
From S2P Require Export Breaker CstrFacts IprotoFacts Kamailio.

(** * The breaker *)

#[export] Instance kam_breaker : IsBreaker tnt_server.
Proof.
  refine {| view := fun s => Br (consecutive_errors s) (if disabled s then Some (restore_tick s) else None);
            refuses := fun now s => disabled s && (now <? restore_tick s) |}.
  intros now s. unfold allow. cbn [open]. destruct (disabled s); cbn [andb].
  - by destruct (now <? restore_tick s).
  - by split.
Defined.

Definition kam_policy (s : tnt_server) : policy := Policy (allowed_timeouts s) (disable_time s).

(** The fields that only the configuration sets. *)
Definition same_config (s s' : tnt_server) : Prop :=
  exists f c d n t y, s' = put_sync (put_link (put_breaker s d n t) f c) y.

Lemma same_config_refl s : same_config s s.
Proof. exists (fd s), (connected s), (disabled s), (consecutive_errors s), (restore_tick s), (sync_id s). by destruct s. Qed.
Lemma same_config_trans s1 s2 s3 : same_config s1 s2 -> same_config s2 s3 -> same_config s1 s3.
Proof. intros (f&c&d&n&t&y&->) (f'&c'&d'&n'&t'&y'&->). by exists f', c', d', n', t', y'. Qed.
Lemma same_policy s s' : same_config s s' -> kam_policy s' = kam_policy s.
Proof. by intros (f&c&d&n&t&y&->). Qed.
Lemma same_link s f c : same_config s (put_link s f c).
Proof. exists f, c, (disabled s), (consecutive_errors s), (restore_tick s), (sync_id s). by destruct s. Qed.
Lemma same_breaker s d n t : same_config s (put_breaker s d n t).
Proof. exists (fd s), (connected s), d, n, t, (sync_id s). by destruct s. Qed.
Lemma same_sync s y : same_config s (put_sync s y).
Proof. exists (fd s), (connected s), (disabled s), (consecutive_errors s), (restore_tick s), y. by destruct s. Qed.
Create HintDb kam.
#[export] Hint Resolve same_config_refl same_link same_breaker same_sync : kam.

(** A server is connected with a descriptor and a closed breaker, or it is not connected
    and has none; the breaker is open exactly when the threshold has been reached. *)
Definition server_inv (s : tnt_server) : Prop :=
  ((connected s = true /\ 0 <= fd s /\ disabled s = false) \/ (connected s = false /\ fd s < 0)) /\
  breaker_inv (kam_policy s) (view s).

(** * Closing and failing *)

Definition closed_srv (s : tnt_server) : tnt_server :=
  put_link s (if 0 <=? fd s then -1 else fd s) false.
Definition closed_w (s : tnt_server) (w : world) : world := if 0 <=? fd s then sys_close (fd s) w else w.

Lemma conn_close_ok s w : tnt_conn_close s w = Ret tt (closed_srv s) (closed_w s w).
Proof.
  unfold tnt_conn_close, closed_srv, closed_w. rewrite bind_get. by destruct (0 <=? fd s).
Qed.

Lemma closed_down s : connected (closed_srv s) = false /\ fd (closed_srv s) < 0.
Proof. unfold closed_srv. cbn. destruct (0 <=? fd s) eqn:E; split; (done || lia). Qed.

Lemma kwp_keeps {A} (m : M tnt_server A) (Q : A -> tnt_server -> world -> Prop) s w :
  keeps m -> (forall a w', Q a s w') -> wp m Q s w.
Proof. intros Hk HQ. eapply wp_mono; [apply Hk|]. intros a s' w' ->. apply HQ. Qed.

(** A failure is counted, whenever it is noticed. *)
Lemma conn_fail_wp s w : disabled s = false ->
  wp tnt_conn_fail (fun _ s' _ => same_config s s' /\ connected s' = false /\ fd s' < 0 /\
    exists later, view s' = fail (kam_policy s) later (view s)) s w.
Proof.
  intros Hd. unfold tnt_conn_fail. apply wp_bind. unfold wp at 1. rewrite conn_close_ok.
  destruct (closed_down s) as [Hc Hf].
  apply wp_bind, wp_modify, wp_bind, wp_get. cbn [allowed_timeouts consecutive_errors put_breaker].
  change (allowed_timeouts (closed_srv s)) with (allowed_timeouts s).
  change (consecutive_errors (closed_srv s)) with (consecutive_errors s).
  assert (same_config s (closed_srv s)) as Hs by (unfold closed_srv; auto with kam).
  destruct (allowed_timeouts s <=? consecutive_errors s + 1) eqn:E.
  - apply wp_bind, wp_sys. intros now w1 _. apply wp_modify. split.
    { eapply same_config_trans; [exact Hs|]. eapply same_config_trans; [|apply same_breaker]. auto with kam. }
    split; [done|]. split; [done|]. exists now. unfold fail. cbn. by rewrite E.
  - apply wp_ret. split; [eapply same_config_trans; [exact Hs|]; auto with kam|].
    split; [done|]. split; [done|]. exists 0. unfold fail. cbn. by rewrite E, Hd.
Qed.

(** * Connecting *)

Section driver.
Context `{!MsgpackC, !KamCore}.

Lemma keeps_ksend f bs : keeps (tnt_socket_send_all f bs).
Proof. apply keeps_send_all. Qed.
Lemma keeps_krecv f n : keeps (tnt_socket_recv_all f n).
Proof. apply keeps_recv_all. Qed.
Lemma keeps_frame f bs : keeps (send_frame f bs).
Proof. apply keeps_bind; [apply keeps_ksend|]. intros b. destruct (negb b); [done|apply keeps_ksend]. Qed.
Lemma keeps_str x : keeps (str_bytes x).
Proof. apply keeps_of_read. Qed.
Local Hint Resolve keeps_ksend keeps_krecv keeps_frame keeps_str : keeps.

(** Authentication changes nothing but the sync counter. *)
Lemma kauth_wp salt s w :
  wp (tnt_auth_scramble salt) (fun _ s' _ => exists y, s' = put_sync s y) s w.
Proof.
  assert (exists y, s = put_sync s y) as Hid by (exists (sync_id s); by destruct s).
  unfold tnt_auth_scramble. apply wp_bind, wp_get.
  destruct (_ || _); [by apply wp_ret|]. destruct (base64_dec salt 64) as [n raw].
  destruct (_ <? _); [by apply wp_ret|].
  apply wp_bind, kwp_keeps; [auto with keeps|]. intros pw w1. apply wp_bind, wp_modify, wp_bind, wp_get.
  apply kwp_keeps; [|intros; eauto].
  apply keeps_bind; [auto with keeps|]. intros us.
  apply keeps_bind; [auto with keeps|]. intros sent. destruct (negb sent); [done|].
  apply keeps_bind; [auto with keeps|]. intros [h|]; [|done].
  apply keeps_bind; [auto with keeps|]. intros tag. destruct (negb _); [done|].
  apply keeps_bind; [auto with keeps|]. intros k. destruct (_ || _); [done|].
  apply keeps_bind; [auto with keeps|]. intros ok. destruct (negb ok); [done|].
  apply keeps_bind; [auto with keeps|]. by intros [b|].
Qed.

Lemma time_closed s w : (sys_time (closed_w s w)).1 = (sys_time w).1.
Proof. unfold closed_w, sys_time. destruct (0 <=? fd s); [|done]. cbn [sys_close set_socks clock].
  destruct (clock w) as [|t [|? ?]]; done. Qed.

(** The peer is dialed: there is a descriptor, and the address is IPv4. *)
Definition dials (s : tnt_server) (w : world) : bool :=
  (0 <=? (sys_socket w).1) && match chars (addr s) with Some a => inet_pton4 (cstr a) | None => false end.

Lemma dials_eq s s' w w' : addr s' = addr s -> w_socket w' = w_socket w -> dials s' w' = dials s w.
Proof. unfold dials, sys_socket. intros -> ->. by destruct (w_socket w). Qed.

(** What connecting leaves, entered when the clock shows [now]; a failure counts if the peer
    was dialed. *)
Definition kconnected (now : Z) (counted : bool) (r : Z) (s s' : tnt_server) : Prop :=
  same_config s s' /\ attempt (kam_policy s) now counted (view s) r (view s') /\
  ((r = 0 /\ refuses now s = false /\ connected s' = true /\ 0 <= fd s' /\ view s' = reset) \/
   (r = -1 /\ connected s' = false /\ fd s' < 0)).

(** From an idle server whose breaker lets the attempt through: the handshake. *)
Lemma handshake_wp now s s2 b w2 :
  same_config s s2 -> connected s2 = false -> fd s2 < 0 -> disabled s2 = false -> view s2 = b ->
  refuses now s = false -> allow now (view s) = Some b ->
  wp (f ← sys sys_socket;
      _ ← modify (fun s => put_link s f (connected s));
      if f <? 0 then mret (-1) else
      s ← get;
      a ← of_read (chars (addr s));
      if negb (inet_pton4 (cstr a)) then _ ← tnt_conn_close; mret (-1) else
      up ← sys (sys_connect f);
      if negb up then _ ← tnt_conn_fail; mret (-1) else
      greeting ← tnt_socket_recv_all f TNT_GREETING_SIZE;
      match greeting with
      | None => _ ← tnt_conn_fail; mret (-1)
      | Some greeting =>
          auth ← (if bool_decide (is_Some (chars (user s))) && (0 <? slen (user s))
                  then salt ← of_read (copy greeting 64 44); tnt_auth_scramble salt
                  else mret 0);
          if auth <? 0 then _ ← tnt_conn_fail; mret (-1) else
          _ ← modify (fun s => put_link s (fd s) true);
          _ ← modify (fun s => put_breaker s (disabled s) 0 (restore_tick s));
          mret 0
      end) (fun r s' _ => kconnected now (dials s2 w2) r s s') s2 w2.
Proof.
  intros Hs2 Hc2 Hf2 Hd2 Hv2 Hr Hb.
  assert (forall s3 w3, same_config s s3 -> disabled s3 = false -> view s3 = b ->
    wp (_ ← tnt_conn_fail; mret (-1)) (fun r s' _ => kconnected now true r s s') s3 w3) as Hfail.
  { intros s3 w3 H1 H2 H3. apply wp_bind. eapply wp_mono; [by apply conn_fail_wp|].
    intros _ s4 w4 (G1 & G2 & G3 & later & G4). apply wp_ret. split; [by eapply same_config_trans|].
    split; [|by right]. rewrite G4, H3, (same_policy s s3) by done. by apply (a_failure _ _ true). }
  assert (forall s3, view s3 = b -> attempt (kam_policy s) now false (view s) (-1) (view s3)) as Hun.
  { intros s3 ->. by apply (a_failure _ _ false _ _ 0). }
  apply wp_bind, wp_sys. intros f w3 Hsock. unfold dials. rewrite Hsock. cbn [fst]. apply wp_bind, wp_modify.
  assert (same_config s (put_link s2 f (connected s2))) as Hs3 by (eapply same_config_trans; [exact Hs2|auto with kam]).
  destruct (f <? 0) eqn:Ef.
  { destruct (0 <=? f) eqn:Ef'; [lia|]. apply wp_ret. split; [done|]. split; [by apply Hun|].
    right. split_and!; [done..|cbn; lia]. }
  destruct (0 <=? f) eqn:Ef'; [|lia]. cbn [andb].
  apply wp_bind, wp_get, wp_bind, wp_of_read. intros a Ha.
  change (addr (put_link s2 f (connected s2))) with (addr s2) in Ha. rewrite Ha.
  destruct (inet_pton4 (cstr a)); cbn [negb].
  2: { apply wp_bind. unfold wp at 1. rewrite conn_close_ok. apply wp_ret.
    destruct (closed_down (put_link s2 f (connected s2))). split; [|split; [|by right]].
    - eapply same_config_trans; [exact Hs3|]. unfold closed_srv. auto with kam.
    - by apply Hun. }
  apply wp_bind, wp_sys. intros up w4 _. destruct (negb up); [by apply Hfail|].
  apply wp_bind, kwp_keeps; [auto with keeps|]. intros [g|] w5; [|by apply Hfail].
  apply wp_bind. apply (wp_mono _ (fun _ s' _ => exists y, s' = put_sync (put_link s2 f (connected s2)) y)).
  { destruct (_ && _).
    - apply wp_bind, wp_of_read. intros salt _. apply kauth_wp.
    - apply wp_ret. exists (sync_id s2). by destruct s2. }
  intros auth s5 w6 [y ->]. destruct (auth <? 0).
  { apply Hfail; try done. eapply same_config_trans; [exact Hs3|auto with kam]. }
  apply wp_bind, wp_modify, wp_bind, wp_modify, wp_ret.
  set (s6 := put_breaker _ _ _ _).
  assert (view s6 = reset) as Hv6 by (cbn; by rewrite Hd2).
  split; [|split].
  - repeat (eapply same_config_trans; [|by apply same_breaker]). eapply same_config_trans; [|apply same_link].
    eapply same_config_trans; [exact Hs3|apply same_sync].
  - rewrite Hv6. by eapply a_success.
  - left. split_and!; try done. cbn. lia.
Qed.

Lemma kconnect_wp s w :
  wp tnt_conn_connect (fun r s' _ => kconnected (sys_time w).1 (dials s w) r s s') s w.
Proof.
  set (now := (sys_time w).1). unfold tnt_conn_connect. apply wp_bind. unfold wp at 1. rewrite conn_close_ok.
  destruct (closed_down s) as [Hc Hf].
  assert (same_config s (closed_srv s)) as Hs by (unfold closed_srv; auto with kam).
  assert (view (closed_srv s) = view s) as Hv by done.
  apply wp_bind, wp_get. change (disabled (closed_srv s)) with (disabled s).
  change (restore_tick (closed_srv s)) with (restore_tick s). apply wp_bind.
  assert (w_socket (closed_w s w) = w_socket w) as Hw by (unfold closed_w; by destruct (0 <=? fd s)).
  apply (wp_mono _ (fun cooling s1 w1 => s1 = closed_srv s /\ cooling = refuses now s /\ w_socket w1 = w_socket w)).
  { destruct (disabled s) eqn:Hd.
    - apply wp_bind, wp_sys. intros t w1 Ht. apply wp_ret. split; [done|]. split.
      + cbn. rewrite Hd. cbn [andb]. unfold now. by rewrite <- (time_closed s w), Ht.
      + rewrite <- Hw. unfold sys_time in Ht. by destruct (clock (closed_w s w)) as [|? [|? ?]]; simplify_eq.
    - apply wp_ret. split; [done|]. split; [cbn; by rewrite Hd|done]. }
  intros cooling s1 w1 (-> & -> & Hw1). destruct (refuses now s) eqn:Hr.
  { apply wp_ret. split; [done|]. split; [rewrite Hv; apply a_refused; by apply refuses_spec|]. by right. }
  assert (exists b, allow now (view s) = Some b /\ open b = None /\
    errs b = if disabled s then 0 else consecutive_errors s) as (b & Hb & Hbo & Hbe).
  { revert Hr. unfold allow. cbn [view refuses kam_breaker open]. destruct (disabled s) eqn:Ed; cbn [andb].
    - intros ->. by exists reset.
    - intros _. eexists. split; [done|]. by cbn. }
  apply wp_bind.
  apply (wp_mono _ (fun _ s2 w2 => same_config s s2 /\ connected s2 = false /\ fd s2 < 0 /\
                                  disabled s2 = false /\ view s2 = b /\ w_socket w2 = w_socket w)).
  { assert (forall s2, disabled s2 = false -> consecutive_errors s2 = errs b -> view s2 = b) as Hview.
    { intros s2 E1 E2. cbn. rewrite E1, E2. destruct b; cbn in *. by subst. }
    destruct (disabled s) eqn:Hd.
    - apply wp_modify. split; [eapply same_config_trans; [exact Hs|auto with kam]|].
      split_and!; try done. apply Hview; [done|]. by rewrite Hbe.
    - apply wp_ret. split_and!; try done. apply Hview; [done|]. by rewrite Hbe. }
  intros _ s2 w2 (Hs2 & Hc2 & Hf2 & Hd2 & Hv2 & Hw2).
  assert (addr s2 = addr s) as Haddr by (by destruct Hs2 as (?&?&?&?&?&?&->)).
  rewrite <- (dials_eq s s2 w w2) by done. by eapply handshake_wp.
Qed.

End driver.
