(* ===== verification/KamRun.v ===== *)
(** Requests of the Kamailio driver on a connected server: the bytes of a request as
    MessagePack objects, and what comes of the response. *)
From S2P Require Export KamFacts NetFacts.

(** * Requests as objects *)

(** The bytes of an object. *)
Definition encodes (bs : list Z) (o : msgpack_object) : Prop :=
  exists v, mp_wf v /\ mp_bytes v = bs /\ object_of v = o.

Section driver.
Context `{mc : !MsgpackC, mcs : !MsgpackCSpec, kc : !KamCore}.

Local Notation "'POS'" := MSGPACK_OBJECT_POSITIVE_INTEGER.
Local Notation "'STR'" := MSGPACK_OBJECT_STR.
Local Notation "'ARR'" := MSGPACK_OBJECT_ARRAY.
Local Notation "'MAP'" := MSGPACK_OBJECT_MAP.

Lemma uint_ok_object v n : uint_ok v n -> mp_wf v /\ object_of v = POS n.
Proof.
  destruct v; cbn; try done.
  - intros [-> H]. split; [lia|]. unfold int_object. destruct (0 <=? n) eqn:E; [done|lia].
  - by intros [-> H].
Qed.

Lemma encodes_uint8 n : 0 <= n < 2 ^ 8 -> encodes (pack_uint8 n) (POS n).
Proof.
  intros H. destruct (pack_uint8_ok n H) as (v & Hv & E). destruct (uint_ok_object v n Hv). by exists v.
Qed.
Lemma encodes_uint64 n : 0 <= n < 2 ^ 64 -> encodes (pack_uint64 n) (POS n).
Proof.
  intros H. destruct (pack_uint64_ok n H) as (v & Hv & E). destruct (uint_ok_object v n Hv). by exists v.
Qed.
Lemma encodes_int n : - 2 ^ 31 <= n < 2 ^ 31 -> encodes (pack_int n) (int_object n).
Proof. intros H. destruct (pack_int_ok n H) as (v & Hv & Ho & E). by exists v. Qed.
Lemma encodes_str s : len s < 2 ^ 31 -> encodes (pack_str (len s) ++ pack_str_body s) (STR s).
Proof. intros H. destruct (pack_str_ok s H) as (f & Hv & E). by exists (MStr f s). Qed.
Lemma encodes_bin s : len s < 2 ^ 31 -> encodes (pack_bin (len s) ++ pack_bin_body s) (MSGPACK_OBJECT_BIN s).
Proof. intros H. destruct (pack_bin_ok s H) as (f & Hv & E). by exists (MBin f s). Qed.

Lemma encodes_array bss os : Forall2 encodes bss os -> len os < 2 ^ 31 ->
  encodes (pack_array (len os) ++ concat bss) (ARR os).
Proof.
  intros H Hl. destruct (pack_array_ok (len os)) as (f & Hf & E); [pose proof (len_nonneg os); lia|].
  assert (exists vs, Forall mp_wf vs /\ flat_map mp_bytes vs = concat bss /\ map object_of vs = os) as (vs & Hw & Hb & Ho).
  { clear - H. induction H as [|bs o bss os (v & Hv & <- & <-) _ (vs & Hw & Hb & <-)]; [by exists []|].
    exists (v :: vs). split; [by constructor|]. cbn. by rewrite Hb. }
  exists (MArr f vs). assert (len vs = len os) as Hlen by (subst os; unfold len; by rewrite length_map).
  split; [apply mp_wf_arr; by rewrite Hlen|]. cbn [mp_bytes object_of]. by rewrite Hlen, Hb, Ho, E.
Qed.

Lemma encodes_map bss os : Forall2 (fun b o => encodes b.1 o.1 /\ encodes b.2 o.2) bss os -> len os < 2 ^ 31 ->
  encodes (pack_map (len os) ++ concat (map (fun b => b.1 ++ b.2) bss)) (MAP os).
Proof.
  intros H Hl. destruct (pack_map_ok (len os)) as (f & Hf & E); [pose proof (len_nonneg os); lia|].
  assert (exists kvs, Forall (fun kv => mp_wf kv.1 /\ mp_wf kv.2) kvs /\
    flat_map (fun kv => mp_bytes kv.1 ++ mp_bytes kv.2) kvs = concat (map (fun b => b.1 ++ b.2) bss) /\
    map (fun kv => (object_of kv.1, object_of kv.2)) kvs = os) as (kvs & Hw & Hb & Ho).
  { clear - H. induction H as [|[bk bv] [ok ov] bss os [(k & Hk & Ek & Ok) (v & Hv & Ev & Ov)] _ (kvs & Hw & Hb & <-)];
      [by exists []|]. cbn [fst snd] in *. subst.
    exists ((k, v) :: kvs). split; [by constructor|]. cbn [flat_map map fst snd concat].
    by rewrite Hb. }
  exists (MMap f kvs). assert (len kvs = len os) as Hlen by (subst os; unfold len; by rewrite length_map).
  split; [apply mp_wf_map; by rewrite Hlen|]. cbn [mp_bytes object_of]. by rewrite Hlen, Hb, Ho, E.
Qed.

(** The two maps of a request. *)
Definition kam_request (body : list Z) (header : list (msgpack_object * msgpack_object))
    (fields : list (msgpack_object * msgpack_object)) : Prop :=
  exists hb bb, body = hb ++ bb /\ encodes hb (MAP header) /\ encodes bb (MAP fields).

Lemma exec_body_means type key sync name args os : 0 <= type < 2 ^ 8 -> 0 <= key < 2 ^ 8 ->
  0 <= sync < 2 ^ 64 -> len name < 2 ^ 31 -> encodes args (ARR os) ->
  kam_request (exec_body type key sync (str_of name) name args)
    [(POS TNT_IPROTO_REQUEST_TYPE, POS type); (POS TNT_IPROTO_SYNC, POS sync)]
    [(POS key, STR name); (POS TNT_IPROTO_TUPLE, ARR os)].
Proof.
  intros Ht Hk Hs Hn Ha. unfold exec_body. eexists _, _. split; [|split].
  2: apply (encodes_map [(pack_uint8 TNT_IPROTO_REQUEST_TYPE, pack_uint8 type);
                         (pack_uint8 TNT_IPROTO_SYNC, pack_uint64 sync)]); [|done].
  3: apply (encodes_map [(pack_uint8 key, pack_str (len name) ++ pack_str_body name);
                         (pack_uint8 TNT_IPROTO_TUPLE, args)]); [|done].
  - cbn [map concat fst snd slen str_of]. change (len [_; _]) with 2. by rewrite !app_nil_r, <- !app_assoc.
  - repeat constructor; cbn [fst snd]; first [by apply encodes_uint8|by apply encodes_uint64].
  - repeat constructor; cbn [fst snd]; first [by apply encodes_uint8|by apply encodes_str|done].
Qed.

(** * Responses as objects *)

(** The value of the last key [n] of a map. *)
Definition last_of (n : Z) (kvs : list (mp * mp)) : option mp :=
  foldl (fun d kv => if is_pos (object_of kv.1) n then Some kv.2 else d) None kvs.

Lemma last_type kvs t : foldl (fun t kv => if is_pos kv.1 TNT_IPROTO_REQUEST_TYPE then via_u64 kv.2 else t) t
    (map (fun kv => (object_of kv.1, object_of kv.2)) kvs) =
  match last_of TNT_IPROTO_REQUEST_TYPE kvs with Some v => via_u64 (object_of v) | None => t end.
Proof.
  unfold last_of. induction kvs as [|kv kvs IH] using rev_ind; [done|].
  rewrite map_app, !foldl_app. cbn [map foldl fst snd]. rewrite IH. by destruct (is_pos _ _).
Qed.

Lemma last_data kvs : foldl (fun d kv => if is_pos kv.1 TNT_IPROTO_DATA then Some kv.2 else d) None
    (map (fun kv => (object_of kv.1, object_of kv.2)) kvs) = object_of <$> last_of TNT_IPROTO_DATA kvs.
Proof.
  unfold last_of. induction kvs as [|kv kvs IH] using rev_ind; [done|].
  rewrite map_app, !foldl_app. cbn [map foldl fst snd]. rewrite IH. by destruct (is_pos _ _).
Qed.

(** A response: a header map and a body map. *)
Definition kam_response (fh : mpfmt) (header : list (mp * mp)) (fb : mpfmt) (body : list (mp * mp)) : list Z :=
  mp_bytes (MMap fh header) ++ mp_bytes (MMap fb body).
Definition response_ok (fh : mpfmt) (header : list (mp * mp)) (fb : mpfmt) (body : list (mp * mp)) : Prop :=
  mp_wf (MMap fh header) /\ mp_wf (MMap fb body) /\ bytes_ok (kam_response fh header fb body) /\
  len (kam_response fh header fb body) <= 1048576.

Lemma response_type_ok fh header fb body : response_ok fh header fb body ->
  response_type (kam_response fh header fb body) =
    (match last_of TNT_IPROTO_REQUEST_TYPE header with Some v => via_u64 (object_of v) | None => 0xff end,
     len (mp_bytes (MMap fh header))).
Proof.
  intros (Hh & _ & Hb & _). unfold response_type.
  rewrite (unpack_ok (MMap fh header) _ 0 Hb ltac:(lia) Hh (at_start _ _)). cbn [object_of].
  by rewrite last_type, Z.add_0_l.
Qed.

Lemma response_data_ok fh header fb body : response_ok fh header fb body ->
  response_data (kam_response fh header fb body) (len (mp_bytes (MMap fh header))) =
    object_of <$> last_of TNT_IPROTO_DATA body.
Proof.
  intros (_ & Hbd & Hb & _). unfold response_data.
  pose proof (at_intro (mp_bytes (MMap fh header)) (mp_bytes (MMap fb body)) []) as Hat.
  rewrite app_nil_r in Hat.
  rewrite (unpack_ok (MMap fb body) _ _ Hb (len_nonneg _) Hbd Hat). cbn [object_of]. apply last_data.
Qed.

(** * Running a request *)

Definition kup (s : tnt_server) : Prop := connected s = true /\ 0 <= fd s.
Definition resynced (s : tnt_server) : tnt_server := put_sync s (u64 (sync_id s + 1)).
Definition answered (s : tnt_server) : tnt_server :=
  put_breaker (resynced s) (disabled s) 0 (restore_tick s).

Lemma frame_bytes body : len_hdr body ++ body = finalize_packet body.
Proof. reflexivity. Qed.

Lemma send_frame_ok f body (s : tnt_server) w sk : socks w !! f = Some sk -> tx sk = [] ->
  send_frame f body s w = Ret true s (with_sock w f (sent sk [] (finalize_packet body))).
Proof.
  intros Hs Htx. unfold send_frame. run (send_all_ok retry_intr true f (len_hdr body) s w sk Hs Htx).
  cbn [negb]. unfold tnt_socket_send_all.
  rewrite (send_all_ok retry_intr true f body s _ (sent sk [] (len_hdr body)) (with_sock_lookup _ _ _) eq_refl).
  rewrite with_sock_twice. unfold sent. cbn [rx wire]. by rewrite <- app_assoc, frame_bytes.
Qed.

Lemma str_bytes_ok bs (s : tnt_server) w : str_bytes (str_of bs) s w = Ret bs s w.
Proof. unfold str_bytes. cbn -[copy]. by rewrite (at_copy _ _ _ (at_whole bs)). Qed.

(** The server answers [resp] to the next request on [s], whatever the cuts and the
    interruptions; nothing else is queued. *)
Definition kam_answers (w : world) (s : tnt_server) (resp : list Z) (evs : list rx_ev) (sk : sock) : Prop :=
  socks w !! fd s = Some sk /\ tx sk = [] /\ w_malloc w = [] /\
  stream retry_intr (rx sk) (finalize_packet resp) evs.

Lemma exec_run type key nm params dst args s w sk resp evs :
  kup s -> kam_answers w s resp evs sk -> len resp <= 1048576 ->
  (forall s w, exec_args params s w = Ret args s w) ->
  tnt_exec type key (str_of nm) params dst s w =
  (let '(resp_type, off) := response_type resp in
   if negb (resp_type =? TNT_IPROTO_OK) then mret (-1, dst) else
   res ← (match dst, response_data resp off with
          | Some dst, Some obj => '(_, dst) ← tnt_mp_to_json_str obj dst; mret (Some dst)
          | _, _ => mret dst
          end);
   _ ← modify (fun s => put_breaker s (disabled s) 0 (restore_tick s));
   mret (1, res)) (resynced s)
    (with_sock w (fd s) (Sock evs [] (wire sk ++ finalize_packet
       (exec_body type key (u64 (sync_id s + 1)) (str_of nm) nm args)))).
Proof.
  intros [Hc Hf] (Hs & Htx & Hm & Hst) Hl Hargs. unfold tnt_exec. rewrite bind_get, Hc. cbn [negb orb].
  destruct (fd s <? 0) eqn:E; [lia|]. cbn [orb]. rewrite bind_mret. change (0 <? 0) with false. cbv iota.
  rewrite bind_modify, bind_get. fold (resynced s).
  run (str_bytes_ok nm (resynced s) w). run (Hargs (resynced s) w).
  change (fd (resynced s)) with (fd s). change (sync_id (resynced s)) with (u64 (sync_id s + 1)).
  set (body := exec_body _ _ _ _ _ _). run (send_frame_ok (fd s) body (resynced s) w sk Hs Htx). cbn [negb].
  pose proof (len_nonneg resp). rewrite (finalize_split resp) in Hst by lia.
  destruct (stream_app_inv _ _ _ _ Hst _ _ eq_refl) as (mid & H1 & H2).
  assert (len (MP_UINT32 :: be_bytes 4 (len resp)) = 5) as H5 by (by lens).
  set (sk1 := sent sk [] (finalize_packet body)).
  run (recv_all_ok retry_intr (fd s) 5 (resynced s) (with_sock w (fd s) sk1) sk1 _ mid (with_sock_lookup _ _ _) H1 H5).
  run (eq_refl : rd (MP_UINT32 :: be_bytes 4 (len resp)) 0 = Some MP_UINT32).
  change (negb (MP_UINT32 =? 0xce)) with false. cbv iota.
  run (prefix_len_be (len resp) ltac:(lia)). destruct (1048576 <? len resp) eqn:E2; [lia|].
  rewrite with_sock_twice.
  run (malloc_free (resynced s) (with_sock w (fd s) (set_rx sk1 mid)) Hm). cbn [negb].
  run (recv_all_ok retry_intr (fd s) (len resp) (resynced s) (with_sock w (fd s) (set_rx sk1 mid))
         (set_rx sk1 mid) resp evs (with_sock_lookup _ _ _) H2 eq_refl).
  by rewrite with_sock_twice.
Qed.

(** The string made of an object. *)
Definition json_of (o : msgpack_object) : list Z :=
  match print_buffer 8191 o with [] => lit "[]" | bs => bs end.

Lemma mp_to_json_ok o dst (s : tnt_server) w : w_malloc w = [] ->
  tnt_mp_to_json_str o dst s w = Ret (0, str_of (json_of o)) s w.
Proof.
  intros Hm. unfold tnt_mp_to_json_str, json_of. destruct (print_buffer 8191 o) as [|b bs] eqn:E.
  - change (0 <? len (@nil Z)) with false. cbv iota. run (malloc_free s w Hm). reflexivity.
  - destruct (0 <? len (b :: bs)) eqn:El; [|rewrite len_cons in El; pose proof (len_nonneg bs); lia].
    run (malloc_free s w Hm). reflexivity.
Qed.

Lemma exec_args_one x (s : tnt_server) w : x <> [] -> rd x 0 <> Some 91 ->
  exec_args (Some (str_of x)) s w = Ret (pack_array 1 ++ pack_str (len x) ++ pack_str_body x) s w.
Proof.
  intros Hne Hb. unfold exec_args. cbn -[rd Z.ltb Z.eqb str_bytes].
  destruct x as [|c x]; [done|]. destruct (0 <? len (c :: x)) eqn:E; [|lensia].
  pose proof (at_whole (c :: x)) as [Hrd _]. run Hrd. rewrite Hrd in Hb.
  destruct (c =? 91) eqn:Ec; [assert (c = 91) as -> by lia; done|]. by run (str_bytes_ok (c :: x) s w).
Qed.

(** What the one string argument of a call becomes: nothing when it is empty or starts with a
    bracket, and itself otherwise. *)
Definition sent_args (x : list Z) : list (list Z) :=
  match x with [] => [] | c :: _ => if c =? 91 then [] else [x] end.

Definition args_bytes (xs : list (list Z)) : list Z :=
  pack_array (len xs) ++ flat_map (fun x => pack_str (len x) ++ pack_str_body x) xs.

Lemma exec_args_sent x (s : tnt_server) w :
  exec_args (Some (str_of x)) s w = Ret (args_bytes (sent_args x)) s w.
Proof.
  unfold args_bytes. destruct x as [|c x]; [cbn [sent_args flat_map]; by rewrite app_nil_r|].
  cbn [sent_args]. destruct (c =? 91) eqn:Ec; cbn [flat_map]; rewrite app_nil_r.
  - unfold exec_args. cbn -[rd Z.ltb Z.eqb str_bytes len].
    destruct (0 <? len (c :: x)) eqn:E; [|rewrite len_cons in E; pose proof (len_nonneg x); lia].
    pose proof (at_whole (c :: x)) as [Hrd _]. run Hrd. by rewrite Ec.
  - apply exec_args_one; [done|].
    pose proof (at_whole (c :: x)) as [-> _]. intros [= ->]. done.
Qed.

(** The answer to a request is its data, as a string, when the response type is 0; any
    other type is reported as -1 and neither the connection nor the breaker changes. *)
Lemma exec_answer type key nm params dst args s w sk fh header fb body evs code :
  kup s -> kam_answers w s (kam_response fh header fb body) evs sk ->
  response_ok fh header fb body -> (forall s w, exec_args params s w = Ret args s w) ->
  object_of <$> last_of TNT_IPROTO_REQUEST_TYPE header = Some (POS code) ->
  let w' := with_sock w (fd s) (Sock evs [] (wire sk ++ finalize_packet
       (exec_body type key (u64 (sync_id s + 1)) (str_of nm) nm args))) in
  tnt_exec type key (str_of nm) params dst s w =
    if decide (code = 0) then
      Ret (1, match dst, last_of TNT_IPROTO_DATA body with
              | Some _, Some v => Some (str_of (json_of (object_of v))) | _, _ => dst end) (answered s) w'
    else Ret (-1, dst) (resynced s) w'.
Proof.
  intros Hup Hans Hok Hargs Hcode w'. pose proof Hok as (_ & _ & _ & Hl).
  rewrite (exec_run type key nm params dst args s w sk _ evs Hup Hans Hl Hargs).
  rewrite (response_type_ok _ _ _ _ Hok). destruct (last_of TNT_IPROTO_REQUEST_TYPE header) as [tv|]; [|done].
  injection Hcode as Hcode. rewrite Hcode, via_u64_ok. fold w'. cbv beta iota.
  rewrite (response_data_ok _ _ _ _ Hok).
  destruct (decide (code = 0)) as [->|Hne].
  - change (negb (0 =? TNT_IPROTO_OK)) with false. cbv iota.
    destruct dst as [dst|]; [|reflexivity].
    destruct (last_of TNT_IPROTO_DATA body) as [v|]; cbn [fmap option_fmap option_map].
    + assert (w_malloc w' = []) as Hm by (destruct Hans as (_ & _ & ? & _); done).
      rewrite bind_assoc. by run (mp_to_json_ok (object_of v) dst (resynced s) w' Hm).
    + reflexivity.
  - destruct (code =? TNT_IPROTO_OK) eqn:E; [unfold TNT_IPROTO_OK in E; lia|]. reflexivity.
Qed.

End driver.
