(* ===== verification/KamInv.v ===== *)
(** The invariant of the Kamailio driver's servers, kept by every request and by the start
    and the end of a worker. *)
From S2P Require Export KamRun.

Lemma kconnected_inv now k r s s' : server_inv s -> kconnected now k r s s' -> server_inv s'.
Proof.
  intros [_ Hb] (Hs & Ha & Hr). unfold server_inv. rewrite (same_policy s s' Hs). split.
  - destruct Hr as [(_ & _ & ? & ? & Hv)|(_ & ? & ?)]; [left|by right]. split; [done|]. split; [done|].
    cbn in Hv. by destruct (disabled s').
  - by eapply attempt_inv.
Qed.

Section driver.
Context `{mc : !MsgpackC, kc : !KamCore}.

(** An operation on a server keeps the invariant. *)
Definition kpreserves {A} (m : M tnt_server A) : Prop := forall s w, server_inv s ->
  wp m (fun _ s' _ => server_inv s' /\ same_config s s') s w.

Lemma kpreserves_ret {A} (a : A) : kpreserves (mret a).
Proof. intros s w Hs. apply wp_ret. auto with kam. Qed.
Lemma kpreserves_keeps {A} (m : M tnt_server A) : keeps m -> kpreserves m.
Proof. intros Hk s w Hs. apply kwp_keeps; [done|]. auto with kam. Qed.
Lemma kpreserves_bind {A B} (m : M tnt_server A) (k : A -> M tnt_server B) :
  kpreserves m -> (forall a, kpreserves (k a)) -> kpreserves (m ≫= k).
Proof.
  intros Hm Hk s w Hs. apply wp_bind. eapply wp_mono; [by apply Hm|]. intros a s' w' [Hs' E].
  eapply wp_mono; [by apply Hk|]. intros b s'' w'' [? ?]. split; [done|by eapply same_config_trans].
Qed.

Lemma kpreserves_connect : kpreserves tnt_conn_connect.
Proof.
  intros s w Hs. eapply wp_mono; [apply kconnect_wp|]. intros r s' w' Hr.
  split; [exact (kconnected_inv _ _ _ _ _ Hs Hr)|by destruct Hr].
Qed.
Lemma kpreserves_close : kpreserves tnt_conn_close.
Proof.
  intros s w [Hl Hb]. unfold wp. rewrite conn_close_ok. split; [|unfold closed_srv; auto with kam].
  destruct (closed_down s). split; [by right|done].
Qed.
Lemma kpreserves_sync f : kpreserves (modify (fun s => put_sync s (f s))).
Proof. intros s w Hs. apply wp_modify. split; [done|auto with kam]. Qed.

(** Failing and succeeding on a connection that was up. *)
Lemma fail_up {A} (a : A) s w : server_inv s -> connected s = true ->
  wp (_ ← tnt_conn_fail; mret a) (fun _ s' _ => server_inv s' /\ same_config s s') s w.
Proof.
  intros [[(_ & _ & Hd)|[Hc _]] Hb] Hup; [|congruence].
  apply wp_bind. eapply wp_mono; [by apply conn_fail_wp|].
  intros _ s' w' (Hs & H1 & H2 & later & Hv). apply wp_ret. split; [|done]. split; [by right|].
  rewrite Hv, (same_policy s s' Hs). apply fail_inv; [done|]. cbn. by rewrite Hd.
Qed.

Lemma connected_up s w : server_inv s ->
  wp (if negb (connected s) || (fd s <? 0) then tnt_conn_connect else mret 0)
     (fun up s' _ => server_inv s' /\ same_config s s' /\ (up < 0 \/ connected s' = true)) s w.
Proof.
  intros Hs. destruct (negb (connected s) || (fd s <? 0)) eqn:E.
  - eapply wp_mono; [apply kconnect_wp|]. intros r s' w' Hr. split; [exact (kconnected_inv _ _ _ _ _ Hs Hr)|].
    destruct Hr as (? & _ & [(? & _ & ? & _)|[-> _]]); split; auto. left. lia.
  - apply orb_false_iff in E as [E _]. apply negb_false_iff in E. apply wp_ret. auto with kam.
Qed.

Lemma keeps_args p : keeps (exec_args p).
Proof.
  unfold exec_args. destruct p as [x|]; [|done]. destruct (_ <? _); [|done].
  apply keeps_bind; [auto with keeps|]. intros c. destruct (_ =? _); [done|].
  apply keeps_bind; [apply keeps_str|done].
Qed.
Lemma keeps_json o d : keeps (tnt_mp_to_json_str o d).
Proof. unfold tnt_mp_to_json_str. destruct (_ <? _); apply keeps_bind; auto with keeps; by intros []. Qed.

Lemma kpreserves_exec type key name params dst : kpreserves (tnt_exec type key name params dst).
Proof.
  intros s w Hs. unfold tnt_exec. apply wp_bind, wp_get, wp_bind. eapply wp_mono; [by apply connected_up|].
  intros up s1 w1 (Hs1 & Hc1 & Hup). destruct (up <? 0) eqn:Eup; [by apply wp_ret|].
  destruct Hup as [?|Hup]; [lia|]. apply wp_bind, wp_modify. set (s2 := put_sync s1 _).
  assert (server_inv s2) as Hs2 by done. assert (connected s2 = true) as Hup2 by done.
  assert (same_config s s2) as Hc2 by (eapply same_config_trans; [exact Hc1|apply same_sync]).
  clearbody s2. apply wp_bind, wp_get.
  assert (forall w', wp (_ ← tnt_conn_fail; mret (-1, dst)) (fun _ s' _ => server_inv s' /\ same_config s s') s2 w')
    as Hfail.
  { intros w'. eapply wp_mono; [by apply fail_up|]. intros r s3 w3 [? ?]. split; [done|by eapply same_config_trans]. }
  apply wp_bind, kwp_keeps; [apply keeps_str|]. intros bs w3.
  apply wp_bind, kwp_keeps; [apply keeps_args|]. intros args w4.
  apply wp_bind, kwp_keeps; [apply keeps_frame|]. intros sent w5. destruct (negb sent); [by apply Hfail|].
  apply wp_bind, kwp_keeps; [apply keeps_krecv|]. intros [h|] w6; [|by apply Hfail].
  apply wp_bind, wp_of_read. intros tag _. destruct (negb _); [by apply Hfail|].
  apply wp_bind, wp_of_read. intros n _. destruct (1048576 <? n); [by apply Hfail|].
  apply wp_bind, wp_sys. intros ok w7 _. destruct (negb ok); [by apply wp_ret|].
  apply wp_bind, kwp_keeps; [apply keeps_krecv|]. intros [resp|] w8; [|by apply Hfail].
  destruct (response_type resp) as [t off]. destruct (negb _); [by apply wp_ret|].
  apply wp_bind, kwp_keeps.
  { destruct dst as [d|]; [|done]. destruct (response_data resp off) as [o|]; [|done].
    apply keeps_bind; [apply keeps_json|]. by intros [? ?]. }
  intros res w9. apply wp_bind, wp_modify, wp_ret. split.
  - destruct Hs2 as [[(H1 & H2 & H3)|[H1 _]] Hb]; [|congruence]. split; [by left|].
    destruct Hb as (H0 & _). unfold breaker_inv. cbn -[Z.le Z.lt] in *. rewrite H3 in *. cbn.
    split_and!; [lia|by left|by intros [? ?]].
  - eapply same_config_trans; [exact Hc2|apply same_breaker].
Qed.

(** * The list of servers *)

Definition all_inv (l : list tnt_server) : Prop := Forall server_inv l.

(** An operation on the list keeps the servers' configuration and invariant. *)
Definition lpreserves {A} (m : M (list tnt_server) A) : Prop := forall l w, all_inv l ->
  wp m (fun _ l' _ => all_inv l' /\ Forall2 same_config l l') l w.

Lemma Forall2_same l : Forall2 same_config l l.
Proof. induction l; constructor; auto with kam. Qed.
Lemma Forall2_trans l1 l2 l3 : Forall2 same_config l1 l2 -> Forall2 same_config l2 l3 -> Forall2 same_config l1 l3.
Proof.
  intros H. revert l3. induction H as [|a b l1 l2 Hab _ IH]; intros l3 H3; inversion_clear H3; constructor.
  - by eapply same_config_trans.
  - by apply IH.
Qed.

Lemma lpreserves_ret {A} (a : A) : lpreserves (mret a).
Proof. intros l w Hl. apply wp_ret. split; [done|apply Forall2_same]. Qed.
Lemma lpreserves_keeps {A} (m : M (list tnt_server) A) : keeps m -> lpreserves m.
Proof.
  intros Hk l w Hl. eapply wp_mono; [apply Hk|]. intros a l' w' ->. split; [done|apply Forall2_same].
Qed.
Lemma lpreserves_bind {A B} (m : M (list tnt_server) A) (k : A -> M (list tnt_server) B) :
  lpreserves m -> (forall a, lpreserves (k a)) -> lpreserves (m ≫= k).
Proof.
  intros Hm Hk l w Hl. apply wp_bind. eapply wp_mono; [by apply Hm|]. intros a l' w' [Hl' E].
  eapply wp_mono; [by apply Hk|]. intros b l'' w'' [? ?]. split; [done|by eapply Forall2_trans].
Qed.
Lemma lpreserves_get {A} (k : list tnt_server -> M (list tnt_server) A) :
  (forall l, lpreserves (k l)) -> lpreserves (get ≫= k).
Proof. intros Hk l w Hl. apply wp_bind, wp_get. by apply Hk. Qed.

Lemma lpreserves_on {A} i (none : A) m : kpreserves m -> lpreserves (on_server i none m).
Proof.
  intros Hm l w Hl. unfold wp, on_server. destruct (l !! default 0%nat i) as [s|] eqn:E.
  - assert (server_inv s) as Hs by by eapply Forall_lookup_1.
    pose proof (Hm s w Hs) as H. unfold wp in H. destruct (m s w) as [a s' w'| |]; [|done..].
    destruct H as [H1 H2]. split; [by apply Forall_insert|].
    rewrite <- (list_insert_id l (default 0%nat i) s) at 1 by done. apply Forall2_insert; [apply Forall2_same|done].
  - destruct i; [done|]. split; [done|apply Forall2_same].
Qed.

Lemma lpreserves_call srv name params dst : lpreserves (tnt_exec_call srv name params dst).
Proof. apply lpreserves_on, kpreserves_exec. Qed.
Lemma lpreserves_eval srv name params dst : lpreserves (tnt_exec_eval srv name params dst).
Proof. apply lpreserves_on, kpreserves_exec. Qed.

Lemma keeps_pack p n : keeps (pack_arg p n).
Proof. apply keeps_bind; [apply keeps_of_read|done]. Qed.

Lemma lpreserves_save srv a b c d e f g h i : lpreserves (tnt_save_call_sg srv a b c d e f g h i).
Proof.
  unfold tnt_save_call_sg. apply lpreserves_get. intros l. destruct (_ || _); [apply lpreserves_ret|].
  do 4 (apply lpreserves_bind; [apply lpreserves_keeps, keeps_pack|intros ?]). cbv zeta.
  apply lpreserves_bind; [apply lpreserves_call|]. intros [rc ?]. apply lpreserves_ret.
Qed.

Lemma lpreserves_get_buf srv a b c d : lpreserves (tnt_get_call_buf srv a b c d).
Proof.
  unfold tnt_get_call_buf. apply lpreserves_get. intros l. destruct a as [id|]; [|apply lpreserves_ret].
  destruct (_ || _); [apply lpreserves_ret|]. apply lpreserves_bind; [apply lpreserves_call|].
  intros [rc [[[s|] n]|]]; [|apply lpreserves_ret..]. destruct (0 <? rc); [|apply lpreserves_ret].
  cbv zeta. apply lpreserves_keeps. auto with keeps.
Qed.

Lemma kpreserves_child rank : kpreserves (child_one rank).
Proof.
  unfold child_one. intros s w Hs. apply wp_bind, wp_modify. set (s1 := put_sync _ _).
  assert (server_inv s1) as Hs1. { destruct Hs as [_ Hb]. split; [by right|done]. }
  assert (same_config s s1) as Hc by (eapply same_config_trans; [apply same_link|apply same_sync]).
  eapply wp_mono; [by apply kpreserves_connect|]. intros r s' w' [? ?]. split; [done|eapply same_config_trans; [exact Hc|done]].
Qed.

Lemma lpreserves_child p rank k : forall i, lpreserves (child_from p rank k i).
Proof.
  induction k as [|k IH]; intros i; [apply lpreserves_ret|]. cbn [child_from].
  apply lpreserves_bind; [apply lpreserves_on, kpreserves_child|]. intros rc.
  destruct (_ && _); [apply lpreserves_ret|apply IH].
Qed.
Lemma lpreserves_child_init p rank : lpreserves (tnt_child_init p rank).
Proof. apply lpreserves_get. intros [|s l]; [apply lpreserves_ret|apply lpreserves_child]. Qed.

Lemma lpreserves_close k : forall i, lpreserves (close_all k i).
Proof.
  induction k as [|k IH]; intros i; [apply lpreserves_ret|]. cbn [close_all].
  apply lpreserves_bind; [apply lpreserves_on, kpreserves_close|]. intros _. apply IH.
Qed.
Lemma lpreserves_destroy : lpreserves tnt_child_destroy.
Proof. apply lpreserves_get. intros l. apply lpreserves_close. Qed.

Lemma lpreserves_kemi srv name dst op : (forall i n, lpreserves (op i n)) -> lpreserves (kemi_on srv name dst op).
Proof.
  intros Hop. unfold kemi_on. destruct (name_ok name) as [n|]; [|apply lpreserves_ret].
  apply lpreserves_get. intros l. destruct (tnt_get_server l srv); [apply Hop|apply lpreserves_ret].
Qed.

End driver.
