(* ===== verification/KamSpec.v ===== *)
(** The properties of the Kamailio driver: procedure calls end to end, timeouts, the
    circuit breaker, the servers' invariant, server specifications, and the faults the
    model shows. *)
From S2P Require Export KamInv.

(** * A server and a world for the witnesses *)

Definition ex_core : KamCore := {| base64_dec := fun _ _ => (0, []); compute_sha1_raw := fun bs => bs |}.
Definition ex_srv : tnt_server :=
  Server (str_of (lit "srv1")) (str_of (lit "127.0.0.1")) 3301 (str_of (lit "u")) (str_of (lit "pw"))
         1000 1000 10 3 false 1 0 5 true 7.
Definition ex_kworld (evs : list rx_ev) : world := World [1000] {[ 5 := Sock evs [] [] ]} [] [] [] [].
Definition ex_kheader (code : Z) : list (mp * mp) := [(MFix 0, MUint W32 code); (MFix 1, MFix 8)].
Definition ex_kbody : list (mp * mp) := [(MUint W8 0x30, MArr FFix [MStr FFix (lit "v")])].
Definition ex_kresp (code : Z) : list Z := kam_response FFix (ex_kheader code) FFix ex_kbody.
Definition ex_kevs (code : Z) : list rx_ev :=
  [RxErr EINTR; RxData MP_UINT32 (tail (finalize_packet (ex_kresp code)))].

Lemma ex_kup : kup ex_srv.
Proof. split; done. Qed.
Lemma ex_kstream code : stream retry_intr (ex_kevs code) (finalize_packet (ex_kresp code)) [].
Proof.
  apply stream_retry; [done|done|].
  change (finalize_packet (ex_kresp code)) with (MP_UINT32 :: tail (finalize_packet (ex_kresp code))) at 2.
  rewrite <- (app_nil_r (MP_UINT32 :: _)). apply stream_data, stream_nil.
Qed.
Lemma ex_kanswers code : kam_answers (ex_kworld (ex_kevs code)) ex_srv (ex_kresp code) []
  (Sock (ex_kevs code) [] []).
Proof. split; [apply lookup_insert_eq|]. split; [done|]. split; [done|]. apply ex_kstream. Qed.
Lemma ex_srv_inv : server_inv ex_srv.
Proof.
  split; [by left|]. unfold breaker_inv. cbn. split_and!; [lia|intros; lia|by intros [? ?]].
Qed.

(** * Calls *)

Local Notation "'POS'" := MSGPACK_OBJECT_POSITIVE_INTEGER.
Local Notation "'STR'" := MSGPACK_OBJECT_STR.
Local Notation "'ARR'" := MSGPACK_OBJECT_ARRAY.

Section driver.
Context `{mc : !MsgpackC, mcs : !MsgpackCSpec, kc : !KamCore}.

(** C5: calling a procedure on the default server, when its connection is up, sends one
    CALL with the procedure's name and the one string argument, or with no argument when the
    string is empty or starts with a bracket. When the type of the response, which its header
    names, is 0 the result is 1, with the string form of the data when the response has data
    and the result string left alone otherwise, and the failure count is back at zero; any
    other type gives -1, whatever the body of the response, the result string is left alone,
    and the connection and the failure count are as before. *)
Theorem exec_call_returns_data l s w sk proc arg dst fh header fb body code evs
  (Hup : kup s) (Hans : kam_answers w s (kam_response fh header fb body) evs sk)
  (Hok : response_ok fh header fb body)
  (Hcode : object_of <$> last_of TNT_IPROTO_REQUEST_TYPE header = Some (POS code))
  (Hproc : len proc < 2 ^ 31) (Hlen : len arg < 2 ^ 31) :
  let args := match arg with [] | 91 :: _ => [] | _ => [STR arg] end in
  exists req,
    kam_request req
      [(POS TNT_IPROTO_REQUEST_TYPE, POS TNT_IPROTO_CALL); (POS TNT_IPROTO_SYNC, POS (u64 (sync_id s + 1)))]
      [(POS TNT_IPROTO_FUNCTION_NAME, STR proc); (POS TNT_IPROTO_TUPLE, ARR args)] /\
    let w' := with_sock w (fd s) (Sock evs [] (wire sk ++ finalize_packet req)) in
    tnt_exec_call None (str_of proc) (Some (str_of arg)) (Some dst) (s :: l) w =
      if decide (code = 0)
      then Ret (1, Some (match last_of TNT_IPROTO_DATA body with
                         | Some dv => str_of (json_of (object_of dv)) | None => dst end)) (answered s :: l) w'
      else Ret (-1, Some dst) (resynced s :: l) w'.
Proof.
  intros args. set (bytes := args_bytes (sent_args arg)).
  exists (exec_body TNT_IPROTO_CALL TNT_IPROTO_FUNCTION_NAME (u64 (sync_id s + 1)) (str_of proc) proc bytes).
  split.
  - apply exec_body_means; try done; [apply u64_range|].
    assert (args = MSGPACK_OBJECT_STR <$> sent_args arg) as ->.
    { subst args. unfold sent_args. destruct arg as [|c arg]; [done|].
      destruct (c =? 91) eqn:Ec; [by apply Z.eqb_eq in Ec; subst c|]. cbn [fmap list_fmap].
      repeat case_match; done. }
    assert (Forall (fun x => len x < 2 ^ 31) (sent_args arg) /\ len (sent_args arg) <= 1) as [Hx Hl].
    { unfold sent_args. destruct arg as [|c arg]; [done|]. case_match; [done|]. by repeat constructor. }
    subst bytes. unfold args_bytes. rewrite flat_map_concat_map.
    rewrite <- (len_fmap MSGPACK_OBJECT_STR (sent_args arg)).
    apply (encodes_array _ (MSGPACK_OBJECT_STR <$> sent_args arg)); [|by rewrite len_fmap; lia].
    clear Hl. induction Hx; cbn; constructor; [by apply encodes_str|done].
  - cbv zeta. unfold tnt_exec_call, on_server. cbn [default lookup list_lookup].
    pose proof (exec_answer TNT_IPROTO_CALL TNT_IPROTO_FUNCTION_NAME proc (Some (str_of arg)) (Some dst) bytes s w sk
      fh header fb body evs code Hup Hans Hok (exec_args_sent arg) Hcode) as H.
    cbv zeta in H. rewrite H. destruct (decide (code = 0)); [|done]. by case_match.
Qed.

End driver.

(** A server's answer, and its error: the body of an error has no data. *)
Definition ex_kerror : list (mp * mp) := [(MUint W8 0x31, MStr FFix (lit "no"))].

Definition ex_eevs : list rx_ev :=
  [RxData MP_UINT32 (tail (finalize_packet (kam_response FFix (ex_kheader 0x8014) FFix ex_kerror)))].

Lemma exec_call_returns_data_witness :
  (exists req w',
    kam_request req [(POS 0, POS 0x0a); (POS 1, POS 8)]
      [(POS 0x22, STR (lit "f")); (POS 0x21, ARR [STR (lit "x")])] /\
    @tnt_exec_call Ref.ops ex_core None (str_of (lit "f")) (Some (str_of (lit "x"))) (Some (Str None 0))
      [ex_srv] (ex_kworld (ex_kevs 0)) =
    Ret (1, Some (str_of ([91; 34] ++ lit "v" ++ [34; 93]))) [answered ex_srv] w') /\
  (exists req w',
    kam_request req [(POS 0, POS 0x0a); (POS 1, POS 8)]
      [(POS 0x22, STR (lit "f")); (POS 0x21, ARR [])] /\
    @tnt_exec_call Ref.ops ex_core None (str_of (lit "f")) (Some (str_of (lit "[]"))) (Some (Str None 0))
      [ex_srv] (ex_kworld ex_eevs) = Ret (-1, Some (Str None 0)) [resynced ex_srv] w').
Proof.
  split.
  - destruct (exec_call_returns_data (mc := Ref.ops) (mcs := Ref.ops_spec) (kc := ex_core)
      [] ex_srv (ex_kworld (ex_kevs 0)) (Sock (ex_kevs 0) [] []) (lit "f") (lit "x") (Str None 0)
      FFix (ex_kheader 0) FFix ex_kbody 0 []) as (req & H1 & H2).
    + apply ex_kup.
    + apply ex_kanswers.
    + split; [vm_compute; repeat split; discriminate|]. split; [vm_compute; repeat split; discriminate|].
      split; [by apply bytes_dec|vm_compute; discriminate].
    + reflexivity.
    + reflexivity.
    + reflexivity.
    + exists req. eexists. split; [exact H1|]. exact H2.
  - destruct (exec_call_returns_data (mc := Ref.ops) (mcs := Ref.ops_spec) (kc := ex_core)
      [] ex_srv (ex_kworld ex_eevs) (Sock ex_eevs [] []) (lit "f") (lit "[]") (Str None 0)
      FFix (ex_kheader 0x8014) FFix ex_kerror 0x8014 []) as (req & H1 & H2).
    + apply ex_kup.
    + split; [apply lookup_insert_eq|]. split; [done|]. split; [done|].
      change (stream retry_intr ex_eevs
        (MP_UINT32 :: tail (finalize_packet (kam_response FFix (ex_kheader 0x8014) FFix ex_kerror))) []).
      rewrite <- (app_nil_r (MP_UINT32 :: _)). apply stream_data, stream_nil.
    + split; [vm_compute; repeat split; discriminate|]. split; [vm_compute; repeat split; discriminate|].
      split; [by apply bytes_dec|vm_compute; discriminate].
    + reflexivity.
    + reflexivity.
    + reflexivity.
    + exists req. eexists. split; [exact H1|]. exact H2.
Defined.

(** * Timeouts and the breaker *)

Lemma recv_gives_up {D} f n k evs : forall fuel acc (d : D) w sk, socks w !! f = Some sk ->
  rx sk = repeat (RxErr EINTR) k ++ RxErr EAGAIN :: evs -> len acc < n -> (k < fuel)%nat ->
  recv_loop retry_intr fuel f n acc d w = Ret None d (with_sock w f (set_rx sk evs)).
Proof.
  induction k as [|k IH]; intros fuel acc d w sk Hs Hrx Hn Hf;
    (destruct fuel as [|fuel]; [lia|]); cbn [recv_loop]; (destruct (n <=? len acc) eqn:E; [lia|]);
    rewrite (bind_ret _ _ _ _ _ _ _ (sys_recv_eq d w f sk _ Hs)), Hrx; cbn [repeat app recv_rx fst snd retry_intr];
    [done|].
  rewrite (IH fuel acc d _ (set_rx sk (repeat (RxErr EINTR) k ++ RxErr EAGAIN :: evs)));
    [by rewrite with_sock_twice|apply with_sock_lookup|done|done|lia].
Qed.

Section driver2.
Context `{mc : !MsgpackC, kc : !KamCore}.

(** A server that does not answer is given up: when the receive timeout expires,
    after any number of interruptions, the call returns -1, the connection is closed, and
    the failure is counted by the breaker. *)
Theorem exec_times_out l s w sk proc arg dst k evs
  (Hinv : server_inv s) (Hup : kup s) (Hsock : socks w !! fd s = Some sk) (Htx : tx sk = [])
  (Hsilent : rx sk = repeat (RxErr EINTR) k ++ RxErr EAGAIN :: evs)
  (Harg : arg <> []) (Hbracket : rd arg 0 <> Some 91) :
  exists s' w' now,
    tnt_exec_call None (str_of proc) (Some (str_of arg)) dst (s :: l) w = Ret (-1, dst) (s' :: l) w' /\
    socks w' !! fd s = None /\ connected s' = false /\ fd s' < 0 /\
    view s' = fail (kam_policy s) now (view s).
Proof.
  unfold tnt_exec_call, on_server. cbn [default lookup list_lookup]. destruct Hup as [Hc Hf].
  assert (disabled s = false) as Hd by (destruct Hinv as [[(_ & _ & ?)|[? _]] _]; [done|congruence]).
  unfold tnt_exec. rewrite bind_get, Hc. cbn [negb orb]. destruct (fd s <? 0) eqn:E; [lia|].
  rewrite bind_mret. change (0 <? 0) with false. cbv iota. rewrite bind_modify, bind_get.
  set (s1 := put_sync s _). run (str_bytes_ok proc s1 w). run (exec_args_one arg s1 w Harg Hbracket).
  change (fd s1) with (fd s). set (body := exec_body _ _ _ _ _ _).
  run (send_frame_ok (fd s) body s1 w sk Hsock Htx). cbn [negb].
  set (sk1 := sent sk [] (finalize_packet body)). set (w1 := with_sock w (fd s) sk1).
  assert (tnt_socket_recv_all (fd s) 5 s1 w1 = Ret None s1 (with_sock w (fd s) (set_rx sk1 evs))) as Hr.
  { unfold tnt_socket_recv_all, recv_all, rx_len. unfold w1. rewrite with_sock_lookup.
    rewrite (recv_gives_up (fd s) 5 k evs _ [] s1 _ sk1 (with_sock_lookup w (fd s) sk1) Hsilent ltac:(done)).
    - by rewrite with_sock_twice.
    - change (rx sk1) with (rx sk). rewrite Hsilent, length_app, repeat_length. cbn. lia. }
  run Hr. set (w2 := with_sock w (fd s) (set_rx sk1 evs)).
  unfold tnt_conn_fail. rewrite bind_assoc. run (conn_close_ok s1 w2).
  assert (closed_w s1 w2 = sys_close (fd s) w2) as -> by (unfold closed_w; change (fd s1) with (fd s); destruct (0 <=? fd s) eqn:E2; [done|lia]).
  assert (fd (closed_srv s1) < 0 /\ connected (closed_srv s1) = false) as [H1 H2].
  { by destruct (closed_down s1). }
  rewrite bind_assoc, bind_modify, bind_assoc, bind_get.
  cbn [allowed_timeouts consecutive_errors put_breaker closed_srv put_link s1 put_sync].
  assert (forall w3, socks w3 = socks (sys_close (fd s) w2) -> socks w3 !! fd s = None) as Hnone.
  { intros w3 ->. apply lookup_delete_eq. }
  destruct (allowed_timeouts s <=? consecutive_errors s + 1) eqn:Et.
  - destruct (sys_time (sys_close (fd s) w2)) as [now w3] eqn:Etime.
    assert (socks w3 = socks (sys_close (fd s) w2)) as Hw3.
    { unfold sys_time in Etime. by destruct (clock _) as [|t [|? ?]]; simplify_eq. }
    rewrite bind_assoc. unfold time_. unfold sys at 1, mbind at 1, M_bind at 1. rewrite Etime.
    eexists _, w3, now. split; [reflexivity|]. split; [by apply Hnone|]. split; [done|]. split; [exact H1|].
    unfold fail. cbn -[Z.leb Z.add]. by rewrite Et.
  - eexists _, _, 0. split; [reflexivity|]. split; [by apply Hnone|]. split; [done|]. split; [exact H1|].
    unfold fail. cbn -[Z.leb Z.add]. by rewrite Et, Hd.
Qed.


(** * The servers *)

(** What the module does with its list: the parameters, the worker's start and end, the
    requests. *)
Inductive kam_op :=
| KInit (rank : Z) | KDestroy
| KCall (srv_name proc params res : option str) | KEval (srv_name code params res : option str)
| KSave (call_id : option (list Z)) (cid_len : Z) (node_id : option (list Z)) (nid_len : Z)
    (state : option (list Z)) (state_len expires : Z) (payload : option (list Z)) (payload_len : Z)
| KGet (call_id : option (list Z)) (cid_len : Z) (dst : bool) (dst_len : Z).

Definition run_kam_op (p : kam_params) (o : kam_op) : M (list tnt_server) unit :=
  match o with
  | KInit rank => _ ← tnt_child_init p rank; mret tt
  | KDestroy => tnt_child_destroy
  | KCall srv proc params res => _ ← sr_kemi_tarantool_call_srv srv proc params res; mret tt
  | KEval srv code params res => _ ← sr_kemi_tarantool_eval_srv srv code params res; mret tt
  | KSave a b c d e f g h i => _ ← tnt_save_call_sg None a b c d e f g h i; mret tt
  | KGet a b c d => _ ← tnt_get_call_buf None a b c d; mret tt
  end.

Fixpoint run_kam_ops (p : kam_params) (os : list kam_op) : M (list tnt_server) unit :=
  match os with [] => mret tt | o :: r => _ ← run_kam_op p o; run_kam_ops p r end.

Lemma lpreserves_op p o : lpreserves (run_kam_op p o).
Proof.
  destruct o; cbn [run_kam_op];
    try (apply lpreserves_bind; [|intros; apply lpreserves_ret]).
  - apply lpreserves_child_init.
  - apply lpreserves_destroy.
  - apply lpreserves_kemi. intros. apply lpreserves_call.
  - apply lpreserves_kemi. intros. apply lpreserves_eval.
  - apply lpreserves_save.
  - apply lpreserves_get_buf.
Qed.

(** Registering servers from an empty list. *)
Fixpoint add_servers (p : kam_params) (specs : list (option (list Z))) : M (list tnt_server) unit :=
  match specs with [] => mret tt | x :: r => _ ← tnt_add_server p x; add_servers p r end.

(** A server as it is registered: not connected, nothing counted. *)
Definition fresh_srv (s : tnt_server) : Prop :=
  disabled s = false /\ consecutive_errors s = 0 /\ fd s = -1 /\ connected s = false /\ 0 < port s <= 65535.

Lemma fresh_server_inv s : fresh_srv s -> server_inv s.
Proof.
  intros (Hd & He & Hf & Hc & _). split; [right; split; [done|lia]|]. unfold breaker_inv. cbn.
  rewrite Hd, He. split_and!; [lia|by left|by intros [? ?]].
Qed.

Lemma spec_token_keeps {D} tok (d : D) w : forall srv,
  wp (spec_token srv tok) (fun s' d' _ => d' = d /\ disabled s' = disabled srv /\
    consecutive_errors s' = consecutive_errors srv /\ fd s' = fd srv /\ connected s' = connected srv) d w.
Proof.
  intros srv. unfold spec_token. destruct (strchr tok 61) as [[k v]|]; [|by apply wp_ret]. cbv zeta.
  assert (forall bs (g : str -> tnt_server), (forall x, disabled (g x) = disabled srv /\
    consecutive_errors (g x) = consecutive_errors srv /\ fd (g x) = fd srv /\ connected (g x) = connected srv) ->
    wp (x ← tnt_strdup_pkg bs; mret (g x)) (fun s' d' _ => d' = d /\ disabled s' = disabled srv /\
    consecutive_errors s' = consecutive_errors srv /\ fd s' = fd srv /\ connected s' = connected srv) d w) as Hdup.
  { intros bs g Hg. apply wp_bind, wp_bind, wp_sys. intros ok w1 _. apply wp_ret, wp_ret. by split. }
  repeat (match goal with |- context [if ?b then _ else _] => destruct b end;
          [first [by apply Hdup|by apply wp_ret]|]).
  by apply wp_ret.
Qed.

Lemma spec_tokens_keep {D} toks (d : D) : forall srv w,
  wp (spec_tokens srv toks) (fun s' d' _ => d' = d /\ disabled s' = disabled srv /\
    consecutive_errors s' = consecutive_errors srv /\ fd s' = fd srv /\ connected s' = connected srv) d w.
Proof.
  induction toks as [|t toks IH]; intros srv w; [by apply wp_ret|]. cbn [spec_tokens]. apply wp_bind.
  eapply wp_mono; [apply spec_token_keeps|]. intros s1 d1 w1 (-> & H1 & H2 & H3 & H4).
  eapply wp_mono; [apply IH|]. intros s2 d2 w2 (-> & G1 & G2 & G3 & G4). by rewrite G1, G2, G3, G4.
Qed.

(** Whatever the specification, a server is registered fresh and with a valid port, or
    not at all. *)
Lemma add_server_wp p spec l w :
  wp (tnt_add_server p spec) (fun r l' _ => (r = -1 /\ l' = l) \/
    (r = 0 /\ exists s, l' = s :: l /\ fresh_srv s)) l w.
Proof.
  unfold tnt_add_server. destruct spec as [spec|]; [|apply wp_ret; by left].
  apply wp_bind, wp_sys. intros ok1 w1 _. destruct (negb ok1); [apply wp_ret; by left|].
  apply wp_bind, wp_sys. intros ok2 w2 _. destruct (negb ok2); [apply wp_ret; by left|].
  apply wp_bind, wp_bind, wp_sys. intros ok3 w3 _. apply wp_ret, wp_bind, wp_bind, wp_sys. intros ok4 w4 _.
  apply wp_ret, wp_bind. eapply wp_mono; [apply spec_tokens_keep|].
  intros s l1 w5 (-> & H1 & H2 & H3 & H4). destruct (_ || _) eqn:E; [apply wp_ret; by left|].
  apply wp_bind, wp_modify, wp_ret. right. split; [done|]. exists s. split; [done|].
  cbn in *. split_and!; try done; lia.
Qed.

(** C8: servers are registered with a port in range, or not at all; and through any
    sequence of worker starts and ends, calls, evaluations, saves and retrievals, whatever
    the network does, each keeps its configuration, is connected if and only if it has a
    descriptor, is never connected with an open breaker, and its breaker is open exactly
    when its threshold has been reached. *)
Theorem servers_invariant p specs os w :
  wp (add_servers p specs) (fun _ l w1 => Forall (fun s => 0 < port s <= 65535) l /\
    wp (run_kam_ops p os) (fun _ l' _ => Forall server_inv l' /\ Forall2 same_config l l') l w1) [] w.
Proof.
  assert (lpreserves (run_kam_ops p os)) as Hos.
  { induction os as [|o os IH]; [apply lpreserves_ret|]. cbn [run_kam_ops].
    apply lpreserves_bind; [apply lpreserves_op|intros; exact IH]. }
  assert (forall l w, Forall fresh_srv l -> wp (add_servers p specs) (fun _ l' _ => Forall fresh_srv l') l w) as Hadd.
  { clear Hos. induction specs as [|x specs IH]; intros l w0 Hl; [by apply wp_ret|]. cbn [add_servers].
    apply wp_bind. eapply wp_mono; [apply add_server_wp|].
    intros r l1 w1 [[_ ->]|[_ (s & -> & Hs)]]; apply IH; [done|by constructor]. }
  eapply wp_mono; [by apply Hadd|]. intros ? l w1 Hl. split.
  - eapply Forall_impl; [exact Hl|]. by intros s (_ & _ & _ & _ & ?).
  - eapply wp_mono; [apply Hos|by intros ? ? ? [? ?]]. eapply Forall_impl; [exact Hl|apply fresh_server_inv].
Qed.

End driver2.

Lemma exec_times_out_witness : exists s' w' now,
  @tnt_exec_call Ref.ops ex_core None (str_of (lit "f")) (Some (str_of (lit "x"))) None [ex_srv]
    (ex_kworld [RxErr EINTR; RxErr EAGAIN]) = Ret (-1, None) [s'] w' /\
  socks w' !! 5 = None /\ connected s' = false /\ fd s' < 0 /\
  view s' = fail (Policy 3 10) now (view ex_srv).
Proof.
  apply (exec_times_out (mc := Ref.ops) (kc := ex_core) [] ex_srv (ex_kworld [RxErr EINTR; RxErr EAGAIN])
    (Sock [RxErr EINTR; RxErr EAGAIN] [] []) (lit "f") (lit "x") None 1 []).
  - apply ex_srv_inv.
  - apply ex_kup.
  - reflexivity.
  - reflexivity.
  - reflexivity.
  - discriminate.
  - discriminate.
Defined.

(** * Retrieval into a buffer *)

Section driver3.
Context `{mc : !MsgpackC, mcs : !MsgpackCSpec, kc : !KamCore}.

Lemma json_bounded o : 0 < len (json_of o) <= 8191.
Proof.
  unfold json_of. pose proof (print_bounded 8191 o ltac:(lia)) as H.
  destruct (print_buffer 8191 o) as [|b bs]; [vm_compute; split; [reflexivity|discriminate]|].
  rewrite len_cons in *. pose proof (len_nonneg bs). lia.
Qed.

(** The call that retrieving makes. *)
Lemma get_call_answer l s w sk id fh header fb body dv evs :
  kup s -> kam_answers w s (kam_response fh header fb body) evs sk -> response_ok fh header fb body ->
  object_of <$> last_of TNT_IPROTO_REQUEST_TYPE header = Some (POS 0) ->
  last_of TNT_IPROTO_DATA body = Some dv -> id <> [] -> rd id 0 <> Some 91 ->
  exists w', tnt_exec_call None (str_of (lit "rtpe_call_get")) (Some (str_of id)) (Some (Str None 0)) (s :: l) w =
    Ret (1, Some (str_of (json_of (object_of dv)))) (answered s :: l) w'.
Proof.
  intros Hup Hans Hok Hcode Hdata Hne Hb. eexists. unfold tnt_exec_call, on_server. cbn [default lookup list_lookup].
  pose proof (exec_answer TNT_IPROTO_CALL TNT_IPROTO_FUNCTION_NAME (lit "rtpe_call_get") (Some (str_of id)) (Some (Str None 0))
    _ s w sk fh header fb body evs 0 Hup Hans Hok (fun s w => exec_args_one id s w Hne Hb) Hcode) as H.
  cbv zeta in H. rewrite H, Hdata, decide_True by done. reflexivity.
Qed.

(** C38: retrieving a call into a buffer stores the string form of the answer, cut to the
    buffer's size less one, and a terminating NUL: it never writes past a buffer of one
    byte or more, and reports the number of characters stored. *)
Theorem get_call_buf_bounded l s w sk id dst_len fh header fb body dv evs
  (Hup : kup s) (Hans : kam_answers w s (kam_response fh header fb body) evs sk)
  (Hok : response_ok fh header fb body)
  (Hcode : object_of <$> last_of TNT_IPROTO_REQUEST_TYPE header = Some (POS 0))
  (Hdata : last_of TNT_IPROTO_DATA body = Some dv)
  (Hid : id <> []) (Hbracket : rd id 0 <> Some 91) (Hlen : len id < 2 ^ 31)
  (Hbuf : 0 < dst_len < 2 ^ 64) :
  let json := json_of (object_of dv) in
  let n := Z.min (len json) (dst_len - 1) in
  exists w', tnt_get_call_buf None (Some id) (len id) true dst_len (s :: l) w =
    Ret (0, ztake n json ++ [0], n) (answered s :: l) w' /\ len (ztake n json ++ [0]) <= dst_len.
Proof.
  intros json n. pose proof (json_bounded (object_of dv)) as Hj. fold json in Hj.
  destruct (get_call_answer l s w sk id fh header fb body dv evs Hup Hans Hok Hcode Hdata Hid Hbracket) as [w' Hw].
  exists w'. assert (len (ztake n json ++ [0]) <= dst_len) as Hfit.
  { rewrite len_app, len_take. change (len [0]) with 1. unfold n. lia. }
  split; [|exact Hfit]. unfold tnt_get_call_buf. rewrite bind_get.
  rewrite bool_decide_eq_false_2 by (by intros [_ ?]). cbn [orb negb].
  rewrite i32_id by (pose proof (len_nonneg id); lia).
  change (Str (Some id) (len id)) with (str_of id). run Hw. fold json. unfold str_of at 1.
  change (0 <? 1) with true. cbv iota. cbv zeta. rewrite !u64_id by lia.
  assert ((if len json <? dst_len - 1 then len json else dst_len - 1) = n) as ->.
  { unfold n. destruct (_ <? _) eqn:E; lia. }
  assert (copy json 0 n = Some (ztake n json)) as Hc.
  { unfold copy. destruct (n <=? 0) eqn:E.
    - assert (n = 0) as -> by (unfold n in *; lia). done.
    - assert ((0 <=? 0) && (0 + n <=? len json) = true) as -> by (unfold n; lia). done. }
  run Hc. by rewrite bind_buffer.
Qed.

(** A buffer of size 0 is written anyway: the size less one wraps around. *)
Lemma get_call_buf_zero l s w sk id fh header fb body dv evs :
  kup s -> kam_answers w s (kam_response fh header fb body) evs sk -> response_ok fh header fb body ->
  object_of <$> last_of TNT_IPROTO_REQUEST_TYPE header = Some (POS 0) ->
  last_of TNT_IPROTO_DATA body = Some dv -> id <> [] -> rd id 0 <> Some 91 -> len id < 2 ^ 31 ->
  tnt_get_call_buf None (Some id) (len id) true 0 (s :: l) w = Undef.
Proof.
  intros Hup Hans Hok Hcode Hdata Hid Hb Hl. pose proof (json_bounded (object_of dv)) as Hj.
  destruct (get_call_answer l s w sk id fh header fb body dv evs Hup Hans Hok Hcode Hdata Hid Hb) as [w' Hw].
  unfold tnt_get_call_buf. rewrite bind_get. rewrite bool_decide_eq_false_2 by (by intros [_ ?]). cbn [orb negb].
  rewrite i32_id by (pose proof (len_nonneg id); lia).
  change (Str (Some id) (len id)) with (str_of id). run Hw. unfold str_of at 1.
  change (0 <? 1) with true. cbv iota. cbv zeta. change (u64 (0 - 1)) with (2 ^ 64 - 1). rewrite u64_id by lia.
  destruct (_ <? 2 ^ 64 - 1) eqn:E; [|lia].
  run (at_copy _ _ _ (at_whole (json_of (object_of dv)))). apply bind_overflow. rewrite len_app. change (len [0]) with 1. lia.
Qed.

(** Parameters that begin with a bracket, as the documented JSON arrays do, are dropped:
    the procedure is called without arguments. *)
Lemma bracket_args_dropped bs (s : tnt_server) w :
  exec_args (Some (str_of (91 :: bs))) s w = Ret (pack_array 0) s w.
Proof.
  unfold exec_args. cbn -[rd Z.ltb Z.eqb str_bytes].
  destruct (0 <? len (91 :: bs)) eqn:E; [|rewrite len_cons in E; pose proof (len_nonneg bs); lia].
  pose proof (at_whole (91 :: bs)) as [Hrd _]. by run Hrd.
Qed.

(** The tuple that saving packs. *)
Definition save_tuple (cid nid st : list Z) (expires : Z) (pay : list Z) : list Z :=
  pack_array 5 ++ (pack_str (len cid) ++ pack_str_body cid) ++ (pack_str (len nid) ++ pack_str_body nid)
  ++ (pack_str (len st) ++ pack_str_body st) ++ pack_int expires ++ (pack_str (len pay) ++ pack_str_body pay).

(** It is sent as one string, so the stored procedure gets a single argument instead of the
    five it is meant to. *)
Lemma save_sends_one_argument l s w sk cid nid st expires pay fh header fb body evs code :
  let sbuf := save_tuple cid nid st expires pay in
  kup s -> kam_answers w s (kam_response fh header fb body) evs sk -> response_ok fh header fb body ->
  object_of <$> last_of TNT_IPROTO_REQUEST_TYPE header = Some (POS code) -> len sbuf < 2 ^ 31 ->
  exists req w',
    kam_request req
      [(POS TNT_IPROTO_REQUEST_TYPE, POS TNT_IPROTO_CALL); (POS TNT_IPROTO_SYNC, POS (u64 (sync_id s + 1)))]
      [(POS TNT_IPROTO_FUNCTION_NAME, STR (lit "rtpe_call_upsert")); (POS TNT_IPROTO_TUPLE, ARR [STR sbuf])] /\
    wire <$> socks w' !! fd s = Some (wire sk ++ finalize_packet req) /\
    tnt_save_call_sg None (Some cid) (len cid) (Some nid) (len nid) (Some st) (len st) expires (Some pay) (len pay)
      (s :: l) w = if decide (code = 0) then Ret 0 (answered s :: l) w' else Ret (-1) (resynced s :: l) w'.
Proof.
  intros sbuf Hup Hans Hok Hcode Hl. assert (rd sbuf 0 <> Some 91 /\ sbuf <> []) as [Hb Hne].
  { unfold sbuf, save_tuple. destruct (pack_array_ok 5 ltac:(lia)) as (f & Hf & ->).
    destruct f; cbn [hdr fmt_ok app] in *; [|by destruct Hf|..]; by split. }
  set (args := pack_array 1 ++ pack_str (len sbuf) ++ pack_str_body sbuf).
  set (req := exec_body TNT_IPROTO_CALL TNT_IPROTO_FUNCTION_NAME (u64 (sync_id s + 1)) (str_of (lit "rtpe_call_upsert"))
            (lit "rtpe_call_upsert") args).
  exists req, (with_sock w (fd s) (Sock evs [] (wire sk ++ finalize_packet req))). split; [|split].
  - apply exec_body_means; try done; [apply u64_range|].
    pose proof (encodes_array [pack_str (len sbuf) ++ pack_str_body sbuf] [STR sbuf]
      ltac:(repeat constructor; by apply encodes_str) ltac:(done)) as He.
    cbn [concat] in He. rewrite app_nil_r in He. exact He.
  - by rewrite with_sock_lookup.
  - unfold tnt_save_call_sg. rewrite bind_get. rewrite bool_decide_eq_false_2 by (by intros [_ ?]).
    rewrite bool_decide_eq_false_2 by done. cbn [orb].
    assert (forall bs (l : list tnt_server) w, pack_arg (Some bs) (len bs) l w =
      Ret (pack_str (len bs) ++ pack_str_body bs) l w) as Harg.
    { intros bs l0 w0. unfold pack_arg. cbn [default from_option id]. by run (at_copy _ _ _ (at_whole bs)). }
    run (Harg cid (s :: l) w). run (Harg nid (s :: l) w). run (Harg st (s :: l) w). run (Harg pay (s :: l) w).
    fold (save_tuple cid nid st expires pay). fold sbuf. rewrite i32_id by (pose proof (len_nonneg sbuf); lia). fold (str_of sbuf).
    unfold tnt_exec_call, on_server, mbind, M_bind. cbn [default lookup list_lookup from_option id].
    pose proof (exec_answer TNT_IPROTO_CALL TNT_IPROTO_FUNCTION_NAME (lit "rtpe_call_upsert") (Some (str_of sbuf)) None
      args s w sk fh header fb body evs code Hup Hans Hok (fun s w => exec_args_one sbuf s w Hne Hb) Hcode) as H.
    cbv zeta in H. rewrite H. by destruct (decide (code = 0)).
Qed.

End driver3.

Lemma get_call_buf_bounded_witness : exists w',
  @tnt_get_call_buf Ref.ops ex_core None (Some (lit "x")) 1 true 3 [ex_srv] (ex_kworld (ex_kevs 0)) =
    Ret (0, [91; 34; 0], 2) [answered ex_srv] w' /\ 3 <= 3.
Proof.
  apply (get_call_buf_bounded (mc := Ref.ops) (mcs := Ref.ops_spec) (kc := ex_core)
    [] ex_srv (ex_kworld (ex_kevs 0)) (Sock (ex_kevs 0) [] []) (lit "x") 3
    FFix (ex_kheader 0) FFix ex_kbody (MArr FFix [MStr FFix (lit "v")]) []).
  - apply ex_kup.
  - apply ex_kanswers.
  - split; [vm_compute; repeat split; discriminate|]. split; [vm_compute; repeat split; discriminate|].
    split; [by apply bytes_dec|vm_compute; discriminate].
  - reflexivity.
  - reflexivity.
  - discriminate.
  - discriminate.
  - reflexivity.
  - lia.
Defined.
