(* ===== verification/KamConfig.v ===== *)
(** Server specifications of the Kamailio driver: tokens, fields, and the list that
    registering builds. *)
From S2P Require Export KamSpec.

(** * Tokens *)

Lemma strtok_go d tok : forall s cur, d ∉ tok -> strtok_r (tok ++ s) d cur = strtok_r s d (cur ++ tok).
Proof.
  induction tok as [|c tok IH]; intros s cur Hd; [by rewrite app_nil_r|].
  apply not_elem_of_cons in Hd as [Hc Hd]. cbn [app strtok_r].
  destruct (c =? d) eqn:E; [lia|]. rewrite IH by done. by rewrite <- app_assoc.
Qed.

Lemma strtok_cons d tok s : d ∉ tok -> tok <> [] ->
  strtok_r (tok ++ d :: s) d [] = tok :: strtok_r s d [].
Proof.
  intros Hd Hne. rewrite strtok_go by done. cbn [app strtok_r]. rewrite Z.eqb_refl. by destruct tok.
Qed.
Lemma strtok_last d tok : d ∉ tok -> tok <> [] -> strtok_r tok d [] = [tok].
Proof.
  intros Hd Hne. rewrite <- (app_nil_r tok) at 1. rewrite strtok_go by done. cbn [app strtok_r].
  by destruct tok.
Qed.

(** [key=val] *)
Definition field (key : string) (val : list Z) : list Z := lit key ++ 61 :: val.

(** Fields separated by semicolons. *)
Fixpoint spec_bytes (fields : list (list Z)) : list Z :=
  match fields with
  | [] => []
  | [f] => f
  | f :: r => f ++ 59 :: spec_bytes r
  end.

Lemma strtok_spec fields : Forall (fun f => (59 ∉ f) /\ f <> []) fields ->
  strtok_r (spec_bytes fields) 59 [] = fields.
Proof.
  induction 1 as [|f fields [Hd Hne] _ IH]; [done|]. destruct fields as [|g fields].
  - by apply strtok_last.
  - cbn [spec_bytes]. rewrite strtok_cons by done. f_equal. exact IH.
Qed.

(** A value: no separator in it, no blank before it. *)
Definition val_ok (v : list Z) : Prop :=
  (59 ∉ v) /\ skip_blank v = v /\ len v < 2 ^ 31.

Lemma not_in_dec d l : forallb (fun c => negb (c =? d)) l = true -> d ∉ l.
Proof.
  intros H Hin. rewrite forallb_forall in H. apply list_elem_of_In, H in Hin. lia.
Qed.

Lemma field_ok key v : forallb (fun c => negb (c =? 59)) (lit key) = true -> val_ok v ->
  (59 ∉ field key v) /\ field key v <> [].
Proof.
  intros Hk (Hv & _). split; [|by unfold field; destruct (lit key)].
  unfold field. rewrite not_elem_of_app, not_elem_of_cons. split_and!; [|lia|done].
  by apply not_in_dec.
Qed.

(** * Fields *)

Lemma strdup_pkg_ok {D} v (d : D) w : w_malloc w = [] -> len v < 2 ^ 31 ->
  tnt_strdup_pkg v d w = Ret (str_of v) d w.
Proof.
  intros Hm Hl. unfold tnt_strdup_pkg. run (malloc_free d w Hm).
  rewrite i32_id by (pose proof (len_nonneg v); lia). done.
Qed.

(** Decide the comparisons of a closed key. *)
Ltac keys := repeat match goal with |- context [key_is (lit ?a) ?b] =>
    let v := eval vm_compute in (key_is (lit a) b) in change (key_is (lit a) b) with v end;
  cbn [orb]; cbv iota.
Ltac open_field := intros; unfold spec_token, field; rewrite strchr_app by (by apply not_in_dec);
  match goal with |- context [skip_blank (lit ?a)] => change (skip_blank (lit a)) with (lit a) end; cbv zeta; keys.

Section fields.
Context {D : Type} (d : D) (w : world) (Hm : w_malloc w = []) (srv : tnt_server).

Lemma name_field v : val_ok v -> spec_token srv (field "name" v) d w =
  Ret (put_names srv (str_of v) (addr srv) (user srv) (pass srv)) d w.
Proof. intros (_ & Hb & Hl). open_field. rewrite Hb. by run (strdup_pkg_ok v d w Hm Hl). Qed.
Lemma addr_field v : val_ok v -> spec_token srv (field "addr" v) d w =
  Ret (put_names srv (sname srv) (str_of v) (user srv) (pass srv)) d w.
Proof. intros (_ & Hb & Hl). open_field. rewrite Hb. by run (strdup_pkg_ok v d w Hm Hl). Qed.
Lemma user_field v : val_ok v -> spec_token srv (field "user" v) d w =
  Ret (put_names srv (sname srv) (addr srv) (str_of v) (pass srv)) d w.
Proof. intros (_ & Hb & Hl). open_field. rewrite Hb. by run (strdup_pkg_ok v d w Hm Hl). Qed.
Lemma pass_field v : val_ok v -> spec_token srv (field "pass" v) d w =
  Ret (put_names srv (sname srv) (addr srv) (user srv) (str_of v)) d w.
Proof. intros (_ & Hb & Hl). open_field. rewrite Hb. by run (strdup_pkg_ok v d w Hm Hl). Qed.

(** Decimal numbers. *)
Definition num_ok (v : list Z) (n : Z) : Prop :=
  Forall (fun c => is_digit c = true) v /\ v <> [] /\ digits v 0 = n /\ n < 2 ^ 31.

Lemma num_val v n : num_ok v n -> val_ok v \/ 2 ^ 31 <= len v.
Proof.
  intros (Hd & Hne & _). destruct (decide (len v < 2 ^ 31)); [left|right; lia]. split; [|split; [|done]].
  - intros Hin. rewrite Forall_forall in Hd. by apply Hd in Hin.
  - destruct v as [|c v]; [done|]. apply Forall_cons in Hd as [Hc _]. unfold is_digit in Hc.
    cbn [skip_blank]. destruct ((c =? 32) || (c =? 9)) eqn:E; [lia|done].
Qed.
Lemma num_skip v n : num_ok v n -> atoi (skip_blank v) = n.
Proof.
  intros (Hd & Hne & Hn & Hl). assert (skip_blank v = v) as ->.
  { destruct v as [|c v]; [done|]. apply Forall_cons in Hd as [Hc _]. unfold is_digit in Hc.
    cbn [skip_blank]. destruct ((c =? 32) || (c =? 9)) eqn:E; [lia|done]. }
  rewrite atoi_digits by (done || lia). done.
Qed.

Lemma port_field v n : num_ok v n -> spec_token srv (field "port" v) d w =
  Ret (put_numbers srv n (connect_timeout srv) (cmd_timeout srv) (disable_time srv) (allowed_timeouts srv)) d w.
Proof. intros H. open_field. by rewrite (num_skip v n H). Qed.
Lemma disable_field v n : num_ok v n -> spec_token srv (field "disable_time" v) d w =
  Ret (put_numbers srv (port srv) (connect_timeout srv) (cmd_timeout srv) n (allowed_timeouts srv)) d w.
Proof. intros H. open_field. by rewrite (num_skip v n H). Qed.
Lemma allowed_field v n : num_ok v n -> spec_token srv (field "allowed_timeouts" v) d w =
  Ret (put_numbers srv (port srv) (connect_timeout srv) (cmd_timeout srv) (disable_time srv) n) d w.
Proof. intros H. open_field. by rewrite (num_skip v n H). Qed.
End fields.

(** * Registering *)

(** Registering [name=..;addr=..;port=..;user=..;pass=..;disable_time=..;allowed_timeouts=..]
    puts a server with exactly these settings, and the module's timeouts, at the head of
    the list; from then on it is the default server, and the one its name finds. *)
Theorem add_server_reads_spec p l w n a us pw po pn dt dn al an
  (Hm : w_malloc w = []) (Hn : val_ok n) (Hname : n <> []) (Hz : 0 ∉ n) (Ha : val_ok a) (Hu : val_ok us) (Hp : val_ok pw)
  (Hpo : num_ok po pn) (Hport : 0 < pn <= 65535) (Hlpo : len po < 2 ^ 31)
  (Hdt : num_ok dt dn) (Hldt : len dt < 2 ^ 31) (Hal : num_ok al an) (Hlal : len al < 2 ^ 31) :
  let srv := Server (str_of n) (str_of a) pn (str_of us) (str_of pw) (tnt_connect_timeout_param p)
               (tnt_cmd_timeout_param p) dn an false 0 0 (-1) false 0 in
  tnt_add_server p (Some (spec_bytes [field "name" n; field "addr" a; field "port" po; field "user" us;
      field "pass" pw; field "disable_time" dt; field "allowed_timeouts" al])) l w = Ret 0 (srv :: l) w /\
  tnt_get_server (srv :: l) None = Some 0%nat /\
  tnt_get_server (srv :: l) (Some (str_of n)) = Some 0%nat.
Proof.
  intros srv. assert (forall v m, num_ok v m -> len v < 2 ^ 31 -> val_ok v) as Hnv.
  { intros v m H Hl. destruct (num_val v m H); [done|lia]. }
  pose proof (Hnv _ _ Hpo Hlpo). pose proof (Hnv _ _ Hdt Hldt). pose proof (Hnv _ _ Hal Hlal). split; [|split].
  - unfold tnt_add_server. run (malloc_free l w Hm). cbn [negb]. run (malloc_free l w Hm). cbn [negb].
    run (strdup_pkg_ok (lit "default") l w Hm ltac:(done)). run (strdup_pkg_ok TNT_DEFAULT_HOST l w Hm ltac:(done)).
    rewrite strtok_spec by (repeat (apply Forall_cons; split); [by apply field_ok..|by apply Forall_nil]).
    set (s0 := default_server _ _ _).
    assert (spec_tokens s0 [field "name" n; field "addr" a; field "port" po; field "user" us;
      field "pass" pw; field "disable_time" dt; field "allowed_timeouts" al] l w = Ret srv l w) as Htok.
    { cbn [spec_tokens]. run (name_field l w Hm s0 n Hn).
      match goal with |- context [spec_token ?s (field "addr" a)] => run (addr_field l w Hm s a Ha) end.
      match goal with |- context [spec_token ?s (field "port" po)] => run (port_field l w s po pn Hpo) end.
      match goal with |- context [spec_token ?s (field "user" us)] => run (user_field l w Hm s us Hu) end.
      match goal with |- context [spec_token ?s (field "pass" pw)] => run (pass_field l w Hm s pw Hp) end.
      match goal with |- context [spec_token ?s (field "disable_time" dt)] => run (disable_field l w s dt dn Hdt) end.
      match goal with |- context [spec_token ?s (field "allowed_timeouts" al)] => run (allowed_field l w s al an Hal) end.
      reflexivity. }
    run Htok. cbn [port srv]. destruct ((pn <=? 0) || (65535 <? pn)) eqn:E; [lia|]. by rewrite bind_modify.
  - reflexivity.
  - cbn [tnt_get_server str_of]. pose proof (len_nonneg n). destruct (len n =? 0) eqn:E.
    { assert (n = []) by (apply len_zero; lia). done. }
    cbn [list_find]. rewrite decide_True; [done|]. split; [done|].
    cbn [sname srv chars str_of default]. unfold len. rewrite Nat2Z.id.
    assert (forall s, 0 ∉ s -> strneq (length s) s s = true) as Hself; [|by rewrite Hself].
    induction s as [|c s IH]; [done|]. rewrite not_elem_of_cons. intros [Hc Hs]. cbn [length strneq].
    rewrite Z.eqb_refl. rewrite IH by done. by destruct (c =? 0).
Qed.

Definition ex_params : kam_params := KParams false 1000 2000 10 3.

Lemma add_server_reads_spec_witness :
  let srv := Server (str_of (lit "srv1")) (str_of (lit "10.0.0.7")) 3302 (str_of (lit "rtpe")) (str_of (lit "a=b"))
               1000 2000 30 5 false 0 0 (-1) false 0 in
  tnt_add_server ex_params (Some (spec_bytes [field "name" (lit "srv1"); field "addr" (lit "10.0.0.7");
      field "port" (lit "3302"); field "user" (lit "rtpe"); field "pass" (lit "a=b");
      field "disable_time" (lit "30"); field "allowed_timeouts" (lit "5")])) [] (World [] ∅ [] [] [] []) =
    Ret 0 [srv] (World [] ∅ [] [] [] []) /\
  tnt_get_server [srv] None = Some 0%nat /\ tnt_get_server [srv] (Some (str_of (lit "srv1"))) = Some 0%nat.
Proof.
  apply (add_server_reads_spec ex_params [] (World [] ∅ [] [] [] []) (lit "srv1") (lit "10.0.0.7")
    (lit "rtpe") (lit "a=b") (lit "3302") 3302 (lit "30") 30 (lit "5") 5).
  - reflexivity.
  - split; [by apply not_in_dec|]. split; reflexivity.
  - discriminate.
  - by apply not_in_dec.
  - split; [by apply not_in_dec|]. split; reflexivity.
  - split; [by apply not_in_dec|]. split; reflexivity.
  - split; [by apply not_in_dec|]. split; reflexivity.
  - split; [repeat constructor|]. split; [discriminate|]. split; reflexivity.
  - lia.
  - reflexivity.
  - split; [repeat constructor|]. split; [discriminate|]. split; reflexivity.
  - reflexivity.
  - split; [repeat constructor|]. split; [discriminate|]. split; reflexivity.
  - reflexivity.
Defined.
