(* ===== verification/AstMsgpuck.v ===== *)
(** The MessagePack codec of the Asterisk connector, [asterisk_tarantool/include/asterisk/]
    [msgpuck.h]: a text of its own, with a signed encoder, decoders that know no 64-bit
    number, and no function that skips a value. Its names shadow those of [Msgpuck], whose
    format constants and big-endian helpers it shares. *)
From S2P Require Export Msgpuck.

(** * Encoders *)

Definition mp_encode_nil : list Z := [MP_NIL].

Definition mp_encode_bool (val : bool) : list Z := [if val then MP_TRUE else MP_FALSE].

Definition mp_encode_uint (num : Z) : list Z :=
  if num <=? 0x7f then [u8 num]
  else if num <=? 0xff then [MP_UINT8; u8 num]
  else if num <=? 0xffff then [MP_UINT16; u8 (Z.shiftr num 8); u8 num]
  else if num <=? 0xffffffff then
    [MP_UINT32; u8 (Z.shiftr num 24); u8 (Z.shiftr num 16); u8 (Z.shiftr num 8); u8 num]
  else
    [MP_UINT64; u8 (Z.shiftr num 56); u8 (Z.shiftr num 48); u8 (Z.shiftr num 40); u8 (Z.shiftr num 32);
     u8 (Z.shiftr num 24); u8 (Z.shiftr num 16); u8 (Z.shiftr num 8); u8 num].

(** The argument is an [int64_t]; [>>] on a negative number is arithmetic. *)
Definition mp_encode_int (num : Z) : list Z :=
  if 0 <=? num then mp_encode_uint (u64 num)
  else if -32 <=? num then [u8 (Z.lor 0xe0 (num + 32))]
  else if -128 <=? num then [MP_INT8; u8 num]
  else if -32768 <=? num then [MP_INT16; u8 (Z.shiftr num 8); u8 num]
  else if -2147483648 <=? num then
    [MP_INT32; u8 (Z.shiftr num 24); u8 (Z.shiftr num 16); u8 (Z.shiftr num 8); u8 num]
  else
    [MP_INT64; u8 (Z.shiftr num 56); u8 (Z.shiftr num 48); u8 (Z.shiftr num 40); u8 (Z.shiftr num 32);
     u8 (Z.shiftr num 24); u8 (Z.shiftr num 16); u8 (Z.shiftr num 8); u8 num].

Definition mp_encode_str (str : option (list Z)) (n : Z) : list Z :=
  (if n <=? 31 then [u8 (Z.lor MP_FIXSTR n)]
   else if n <=? 0xff then [MP_STR8; u8 n]
   else if n <=? 0xffff then [MP_STR16; u8 (Z.shiftr n 8); u8 n]
   else [MP_STR32; u8 (Z.shiftr n 24); u8 (Z.shiftr n 16); u8 (Z.shiftr n 8); u8 n])
  ++ (if 0 <? n then match str with Some bs => ztake n bs | None => [] end else []).

Definition mp_encode_bin (bin : option (list Z)) (n : Z) : list Z :=
  (if n <=? 0xff then [MP_BIN8; u8 n]
   else if n <=? 0xffff then [MP_BIN16; u8 (Z.shiftr n 8); u8 n]
   else [MP_BIN32; u8 (Z.shiftr n 24); u8 (Z.shiftr n 16); u8 (Z.shiftr n 8); u8 n])
  ++ (if 0 <? n then match bin with Some bs => ztake n bs | None => [] end else []).

Definition mp_encode_array (size : Z) : list Z :=
  if size <=? 15 then [u8 (Z.lor MP_FIXARRAY size)]
  else if size <=? 0xffff then [MP_ARRAY16; u8 (Z.shiftr size 8); u8 size]
  else [MP_ARRAY32; u8 (Z.shiftr size 24); u8 (Z.shiftr size 16); u8 (Z.shiftr size 8); u8 size].

Definition mp_encode_map (size : Z) : list Z :=
  if size <=? 15 then [u8 (Z.lor MP_FIXMAP size)]
  else if size <=? 0xffff then [MP_MAP16; u8 (Z.shiftr size 8); u8 size]
  else [MP_MAP32; u8 (Z.shiftr size 24); u8 (Z.shiftr size 16); u8 (Z.shiftr size 8); u8 size].

(** [mp_encode_str(p, s, strlen(s))] of the string [s]. *)
Definition mp_str (s : list Z) : list Z := mp_encode_str (Some s) (u32 (len s)).

(** * Decoders *)

(** A [uint32_t]: every tag but those of the numbers of up to 32 bits is passed over, as 0. *)
Definition mp_decode_uint : R Z :=
  tag ← getb;
  if tag <=? 0x7f then mret tag
  else if tag =? MP_UINT8 then getb
  else if tag =? MP_UINT16 then get_be16
  else if tag =? MP_UINT32 then get_be32
  else mret 0.

(** The position of the string and its length; no position for another value. *)
Definition mp_decode_str : R (option Z * Z) :=
  tag ← getb;
  if Z.land tag 0xe0 =? MP_FIXSTR then
    s ← tell; _ ← skip (Z.land tag 0x1f); mret (Some s, Z.land tag 0x1f)
  else if tag =? MP_STR8 then n ← getb; s ← tell; _ ← skip n; mret (Some s, n)
  else if tag =? MP_STR16 then n ← get_be16; s ← tell; _ ← skip n; mret (Some s, n)
  else if tag =? MP_STR32 then n ← get_be32; s ← tell; _ ← skip n; mret (Some s, n)
  else mret (None, 0).

Definition mp_decode_array : R Z :=
  tag ← getb;
  if Z.land tag 0xf0 =? MP_FIXARRAY then mret (Z.land tag 0x0f)
  else if tag =? MP_ARRAY16 then get_be16
  else if tag =? MP_ARRAY32 then get_be32
  else mret 0.

Definition mp_decode_map : R Z :=
  tag ← getb;
  if Z.land tag 0xf0 =? MP_FIXMAP then mret (Z.land tag 0x0f)
  else if tag =? MP_MAP16 then get_be16
  else if tag =? MP_MAP32 then get_be32
  else mret 0.
