(* ===== verification/AstMsgpuckFacts.v ===== *)
(** The Asterisk codec against that of [Msgpuck]: the encoders write the same bytes, the
    decoders read the same values but for 64-bit numbers, and the signed encoder writes the
    shortest form of every [int64_t]. *)
From S2P Require Export MsgpackC AstMsgpuck.

(** * Encoders *)

Lemma ast_encode_uint n : mp_encode_uint n = Msgpuck.mp_encode_uint n.
Proof. reflexivity. Qed.
Lemma ast_encode_str s n : mp_encode_str s n = Msgpuck.mp_encode_str s n.
Proof. unfold mp_encode_str, Msgpuck.mp_encode_str, mp_payload. f_equal. by destruct s, (0 <? n). Qed.
Lemma ast_encode_bin s n : mp_encode_bin s n = Msgpuck.mp_encode_bin s n.
Proof. unfold mp_encode_bin, Msgpuck.mp_encode_bin, mp_payload. f_equal. by destruct s, (0 <? n). Qed.
Lemma ast_encode_array n : mp_encode_array n = Msgpuck.mp_encode_array n.
Proof. reflexivity. Qed.
Lemma ast_encode_map n : mp_encode_map n = Msgpuck.mp_encode_map n.
Proof. reflexivity. Qed.
Lemma ast_str s : mp_str s = Msgpuck.mp_str s.
Proof. apply ast_encode_str. Qed.

(** The number as a signed MessagePack value of the least width. *)
Definition int_mp (n : Z) : mp :=
  if 0 <=? n then uint_mp n
  else if -32 <=? n then MFix n
  else if -128 <=? n then MInt W8 n
  else if -32768 <=? n then MInt W16 n
  else if -2147483648 <=? n then MInt W32 n
  else MInt W64 n.

Lemma fixint_tag n : -32 <= n < 0 -> u8 (Z.lor 0xe0 (n + 32)) = u8 n.
Proof.
  intros Hn. by_range (fun z => u8 (Z.lor 0xe0 (z + 32)) =? u8 z) (-32) 32 n Hn. lia.
Qed.

Lemma ast_encode_int n : - 2 ^ 63 <= n < 2 ^ 63 -> mp_encode_int n = mp_bytes (int_mp n).
Proof.
  intros Hn. unfold mp_encode_int, int_mp. destruct (0 <=? n) eqn:E0.
  { rewrite u64_id by lia. rewrite ast_encode_uint. apply mp_encode_uint_bytes. }
  destruct (-32 <=? n) eqn:E1; [by rewrite fixint_tag by lia|].
  by repeat case_match.
Qed.

Lemma signed_id w n : - 2 ^ (8 * Z.of_nat (wbytes w) - 1) <= n < 2 ^ (8 * Z.of_nat (wbytes w) - 1) ->
  signed (wbytes w) n = n.
Proof.
  intros Hn. unfold signed. destruct w; cbn in *; rewrite Z.mod_small; lia.
Qed.

Lemma int_mp_means n : - 2 ^ 63 <= n < 2 ^ 63 -> mp_wf (int_mp n) /\ object_of (int_mp n) = int_object n.
Proof.
  intros Hn. unfold int_mp, uint_mp. repeat case_match; cbn [mp_wf object_of];
    (split; [cbn; lia|]); try done; try (rewrite signed_id by (cbn; lia); done);
    unfold int_object; by destruct (0 <=? n) eqn:?; [|lia].
Qed.

(** * Decoders *)

Lemma ast_decode_array buf off : mp_decode_array buf off = Msgpuck.mp_decode_array buf off.
Proof. reflexivity. Qed.
Lemma ast_decode_map buf off : mp_decode_map buf off = Msgpuck.mp_decode_map buf off.
Proof. reflexivity. Qed.

Lemma ast_decode_uint buf off : rd buf off <> Some MP_UINT64 ->
  mp_decode_uint buf off = Msgpuck.mp_decode_uint buf off.
Proof.
  intros Hne. unfold mp_decode_uint, Msgpuck.mp_decode_uint, mbind, R_bind, getb.
  destruct (rd buf off) as [t|]; [|done].
  destruct (t <=? 0x7f); [done|]. destruct (t =? MP_UINT8); [done|]. destruct (t =? MP_UINT16); [done|].
  destruct (t =? MP_UINT32); [done|]. destruct (t =? MP_UINT64) eqn:E; [|done].
  apply Z.eqb_eq in E. congruence.
Qed.

(** The tags of strings. *)
Definition is_str_tag (t : Z) : bool :=
  (Z.land t 0xe0 =? MP_FIXSTR) || (t =? MP_STR8) || (t =? MP_STR16) || (t =? MP_STR32).

Lemma ast_decode_str buf off t : rd buf off = Some t -> is_str_tag t = true ->
  mp_decode_str buf off = (Msgpuck.mp_decode_str ≫= fun r => mret (Some r.1, r.2)) buf off.
Proof.
  intros Ht Htag. unfold is_str_tag in Htag.
  unfold mp_decode_str, Msgpuck.mp_decode_str, mbind, R_bind, getb. rewrite Ht.
  destruct (Z.land t 0xe0 =? MP_FIXSTR); [done|]. destruct (t =? MP_STR8).
  { by destruct (rd buf (off + 1)). }
  destruct (t =? MP_STR16); [by destruct (get_be16 _ _) as [[??]|]|].
  destruct (t =? MP_STR32); [by destruct (get_be32 _ _) as [[??]|]|done].
Qed.

Lemma ast_decode_not_str buf off t : rd buf off = Some t -> is_str_tag t = false ->
  mp_decode_str buf off = Some ((None, 0), off + 1).
Proof.
  intros Ht Htag. unfold is_str_tag in Htag. unfold mp_decode_str, mbind, R_bind, getb. rewrite Ht.
  destruct (Z.land t 0xe0 =? MP_FIXSTR); [done|]. destruct (t =? MP_STR8); [done|].
  destruct (t =? MP_STR16); [done|]. by destruct (t =? MP_STR32).
Qed.

(** * The two codecs *)

(** The Asterisk codec is that of the other connectors: the encoders write the same bytes, and
    the decoders of arrays and maps, of numbers of at most 32 bits and of strings on the tag of
    a string read the same; its encoder of signed numbers writes the shortest form of every
    64-bit one, which means the number. *)
Theorem codecs_agree :
  (forall n, mp_encode_uint n = Msgpuck.mp_encode_uint n /\ mp_encode_array n = Msgpuck.mp_encode_array n /\
     mp_encode_map n = Msgpuck.mp_encode_map n) /\
  (forall s n, mp_encode_str s n = Msgpuck.mp_encode_str s n /\ mp_encode_bin s n = Msgpuck.mp_encode_bin s n) /\
  (forall buf off, mp_decode_array buf off = Msgpuck.mp_decode_array buf off /\
     mp_decode_map buf off = Msgpuck.mp_decode_map buf off /\
     (rd buf off <> Some MP_UINT64 -> mp_decode_uint buf off = Msgpuck.mp_decode_uint buf off) /\
     (forall t, rd buf off = Some t -> is_str_tag t = true ->
        mp_decode_str buf off = (Msgpuck.mp_decode_str ≫= fun r => mret (Some r.1, r.2)) buf off)) /\
  (forall n, - 2 ^ 63 <= n < 2 ^ 63 ->
     mp_encode_int n = mp_bytes (int_mp n) /\ mp_wf (int_mp n) /\ object_of (int_mp n) = int_object n).
Proof.
  split_and!; intros.
  - done.
  - by rewrite ast_encode_str, ast_encode_bin.
  - split; [apply ast_decode_array|]. split; [apply ast_decode_map|]. split; [apply ast_decode_uint|].
    intros t. apply ast_decode_str.
  - split; [by apply ast_encode_int|by apply int_mp_means].
Qed.
