(* ===== verification/Asterisk.v ===== *)
(** The Asterisk resource, [asterisk_tarantool/res/res_tarantool.c] and [res_tarantool.h]:
    the connection profiles and their pools of sockets, the mutexes that guard them, raw
    requests, procedure calls and evaluations, and the configuration. An operation that
    takes mutexes is a program of [Threads]; a connection is named by the position of its
    profile in the list and its own in the pool. *)
From S2P Require Export Iproto Cstr Reader AstMsgpuckFacts ThreadsFacts.

(** * Asterisk core *)

(** The categories of a configuration file, with their variables. *)
Definition categories : Type := list (list Z * list (list Z * list Z)).

(** [ast_copy_string size src] is the string stored in a buffer of [size] bytes;
    [app_args n data] are the arguments [AST_STANDARD_APP_ARGS] finds for [n] declared
    ones; [ast_true] reads a boolean setting; [ast_variable_retrieve cats category name] is
    the value of a variable, if it is there. *)
Class AstCore := {
  ast_copy_string : Z -> list Z -> list Z;
  app_args : nat -> list Z -> list (list Z);
  ast_true : list Z -> bool;
  ast_variable_retrieve : categories -> list Z -> list Z -> option (list Z)
}.

(** What the modules rely on: a copy ends at the last byte of the buffer. *)
Class AstCoreLaws `{!AstCore} := {
  copy_string_spec size src : 0 < size -> ast_copy_string size src = ztake (size - 1) src
}.

Inductive ast_module_load_result := AST_MODULE_LOAD_SUCCESS | AST_MODULE_LOAD_DECLINE.

(** * State *)

Definition AST_TNT_DEFAULT_HOST := lit "127.0.0.1".
Definition AST_TNT_DEFAULT_PORT := 3301.
Definition AST_TNT_DEFAULT_TIMEOUT_MS := 500.
Definition AST_TNT_DEFAULT_POOL_SIZE := 4.

Record ast_tarantool_socket := Socket { fd : Z; connected : bool; sync_id : Z }.

(** The arrays of characters are the strings they hold. *)
Record ast_tarantool_profile := Profile {
  name : list Z; host : list Z; port : Z; user : list Z; secret : list Z;
  pool_size : Z; timeout_ms : Z; sockets : list ast_tarantool_socket
}.

(** The resource's list of profiles, and the settings of the CDR backend. *)
Record ast := Ast {
  profiles : list ast_tarantool_profile;
  connection_profile : list Z; space_name : list Z; log_uniqueid : bool
}.

(** The mutexes, by the position of what they belong to. *)
Inductive mutex := profiles_lock | prof_lock (j : nat) | sock_lock (j i : nat) | cdr_lock.
#[export] Instance mutex_eq_dec : EqDecision mutex.
Proof. solve_decision. Defined.
#[export] Instance mutex_countable : Countable mutex.
Proof.
  apply (inj_countable'
    (fun m => match m with
              | profiles_lock => inl (inl tt) | cdr_lock => inl (inr tt)
              | prof_lock j => inr (inl j) | sock_lock j i => inr (inr (j, i))
              end)
    (fun x => match x with
              | inl (inl _) => profiles_lock | inl (inr _) => cdr_lock
              | inr (inl j) => prof_lock j | inr (inr (j, i)) => sock_lock j i
              end)).
  by intros [].
Defined.

Notation "'MA'" := (M ast) (only parsing).
Notation "'PA'" := (prog mutex ast) (only parsing).

Definition with_profiles (a : ast) (l : list ast_tarantool_profile) : ast :=
  Ast l (connection_profile a) (space_name a) (log_uniqueid a).
Definition with_sockets (p : ast_tarantool_profile) (l : list ast_tarantool_socket) : ast_tarantool_profile :=
  Profile (name p) (host p) (port p) (user p) (secret p) (pool_size p) (timeout_ms p) l.

(** A profile, and a socket; a position outside the list is an invalid pointer. *)
Definition prof (j : nat) : MA ast_tarantool_profile := a ← get; of_read (profiles a !! j).
Definition sock (j i : nat) : MA ast_tarantool_socket := p ← prof j; of_read (sockets p !! i).
Definition upd (j i : nat) (f : ast_tarantool_socket -> ast_tarantool_socket) : MA unit :=
  modify (fun a => with_profiles a (alter (fun p => with_sockets p (alter f i (sockets p))) j (profiles a))).

Definition set_link (f : Z) (c : bool) (s : ast_tarantool_socket) : ast_tarantool_socket :=
  Socket f c (sync_id s).
Definition set_sync (n : Z) (s : ast_tarantool_socket) : ast_tarantool_socket :=
  Socket (fd s) (connected s) n.

(** * Connecting *)

Definition tnt_socket_connect (j i : nat) : MA Z :=
  p ← prof j;
  s ← sock j i;
  _ ← (if 0 <=? fd s then _ ← close (fd s); upd j i (set_link (-1) false) else mret tt);
  f ← sys sys_socket;
  if f <? 0 then mret (-1) else
  if negb (inet_pton4 (host p)) then _ ← close f; mret (-1) else
  up ← sys (sys_connect f);
  if negb up then _ ← close f; mret (-1) else
  n ← recv_waitall f 128;
  match n with
  | Some greeting =>
      if negb (len greeting =? 128) || negb (bool_decide (ztake 9 greeting = lit "Tarantool"))
      then _ ← close f; mret (-1)
      else _ ← upd j i (set_link f true); mret 0
  | None => _ ← close f; mret (-1)
  end.

(** * The pool *)

(** [!name || !name[0] || strcasecmp(cur->name, name) == 0] *)
Definition named (nm : option (list Z)) (cur : ast_tarantool_profile) : bool :=
  match nm with
  | None | Some [] => true
  | Some n => strcaseeq (name cur) n
  end.

(** The position of the profile, the first one for a null or empty name. *)
Definition find_profile (l : list ast_tarantool_profile) (nm : option (list Z)) : option nat :=
  fst <$> list_find (fun cur => Is_true (named nm cur)) l.

(** [!s->connected || s->fd < 0] *)
Definition is_down (j i : nat) : MA bool := s ← sock j i; mret (negb (connected s) || (fd s <? 0)).

(** The first socket, for which the caller waits. *)
Definition fallback (j : nat) : PA (option (nat * nat)) :=
  _ ← lock (sock_lock j 0);
  down ← atomic [sock_lock j 0] (is_down j 0);
  _ ← (if (down : bool) then _ ← atomic [sock_lock j 0] (tnt_socket_connect j 0); mret tt else mret tt);
  _ ← unlock (prof_lock j);
  mret (Some (j, 0%nat)).

(** The sockets from position [i] on, [k] of them. *)
Fixpoint try_sockets (k : nat) (j i : nat) : PA (option (nat * nat)) :=
  match k with
  | O => fallback j
  | S k' =>
      ok ← trylock (sock_lock j i);
      if (ok : bool) then
        down ← atomic [sock_lock j i] (is_down j i);
        rc ← (if (down : bool) then atomic [sock_lock j i] (tnt_socket_connect j i) else mret 0);
        if rc <? 0 then _ ← unlock (sock_lock j i); try_sockets k' j (S i)
        else _ ← unlock (prof_lock j); mret (Some (j, i))
      else try_sockets k' j (S i)
  end.

Definition ast_tarantool_acquire_conn (nm : option (list Z)) : PA (option (nat * nat)) :=
  _ ← lock profiles_lock;
  found ← atomic [profiles_lock] (a ← get; mret (find_profile (profiles a) nm));
  match found with
  | None => _ ← unlock profiles_lock; mret None
  | Some j =>
      _ ← lock (prof_lock j);
      _ ← unlock profiles_lock;
      n ← atomic [prof_lock j] (p ← prof j; mret (pool_size p));
      try_sockets (Z.to_nat n) j 0
  end.

Definition ast_tarantool_release_conn (s : option (nat * nat)) : PA unit :=
  match s with
  | Some (j, i) => unlock (sock_lock j i)
  | None => mret tt
  end.

(** * Requests *)

(** [sock->connected = 0; close(sock->fd); sock->fd = -1] *)
Definition drop_conn (j i : nat) : MA unit :=
  s ← sock j i; _ ← close (fd s); upd j i (set_link (-1) false).

Definition hdr_payload (req_type sync : Z) : list Z :=
  mp_encode_map 2
  ++ mp_encode_uint IPROTO_REQUEST_TYPE ++ mp_encode_uint req_type
  ++ mp_encode_uint IPROTO_SYNC ++ mp_encode_uint sync.

(** One entry of the response's header: the code found so far. *)
Definition header_entry (code : Z) : R Z :=
  k ← mp_decode_uint;
  if k =? 0x00 then mp_decode_uint else _ ← mp_decode_uint; mret code.

Definition header_code : R Z := map_size ← mp_decode_map; rfor map_size header_entry 0.

(** The result and the bytes stored in [res_buf], none when it is left alone. *)
Definition ast_tarantool_exec_raw (sk : option (nat * nat)) (req_type : Z) (body_buf : option (list Z))
    (body_len : Z) (res_buf : bool) (res_size : Z) : MA (Z * list Z) :=
  match sk with
  | None => mret (-1, [])
  | Some (j, i) =>
      s ← sock j i;
      if (fd s <? 0) || negb (connected s) then mret (-1, []) else
      _ ← upd j i (set_sync (u64 (sync_id s + 1)));
      let hdr_buf := hdr_payload req_type (u64 (sync_id s + 1)) in
      _ ← in_buffer 32 hdr_buf;
      let total_len := u32 (len hdr_buf + body_len) in
      let fixlen_buf := MP_UINT32 :: be_bytes 4 total_len in
      body ← (match body_buf with
              | Some b => if 0 <? body_len then of_read (copy b 0 body_len) else mret []
              | None => mret []
              end);
      sent ← sys (sys_send (fd s) (concat [fixlen_buf; hdr_buf; body]));
      if (match sent with inl n => n | inr _ => -1 end) <? u32 (5 + total_len)
      then _ ← drop_conn j i; mret (-1, []) else
      n ← recv_waitall (fd s) 5;
      let rlen_hdr := default [] n in
      if negb (len rlen_hdr =? 5) || negb (bool_decide (rd rlen_hdr 0 = Some MP_UINT32))
      then _ ← drop_conn j i; mret (-1, []) else
      resp_len ← of_read (prefix_len rlen_hdr);
      ok ← (if 4096 <? resp_len then malloc else mret true);
      if negb ok then mret (-1, []) else
      rbuf ← recv_all retry_none (fd s) resp_len;
      match rbuf with
      | None => _ ← drop_conn j i; mret (-1, [])
      | Some rbuf =>
          '(code, p) ← of_read (header_code rbuf 0);
          if negb (code =? IPROTO_OK) then mret (-1, []) else
          stored ← (if res_buf && (0 <? res_size) then
                      let body_sz := u64 (resp_len - p) in
                      let cpy_sz := if body_sz <? res_size - 1 then body_sz else res_size - 1 in
                      bs ← of_read (copy rbuf p cpy_sz); mret (bs ++ [0])
                    else mret []);
          mret (i32 (resp_len - p), stored)
      end
  end.

(** A request with the body [body], built in an array of 2048 bytes, on a connection of the
    profile; [res_size] is the size of the result buffer. *)
Definition on_conn (profile_name : option (list Z)) (req_type : Z) (body : list Z) (res_size : Z)
  : PA (Z * list Z) :=
  sk ← ast_tarantool_acquire_conn profile_name;
  match sk with
  | None => mret (-1, [])
  | Some (j, i) =>
      _ ← atomic [] (in_buffer 2048 body);
      r ← atomic [sock_lock j i]
            (ast_tarantool_exec_raw (Some (j, i)) req_type (Some body) (len body) true res_size);
      _ ← ast_tarantool_release_conn (Some (j, i));
      mret (if 0 <=? r.1 then 0 else -1, r.2)
  end.

Definition call_body (proc : list Z) (params : option (list Z)) : list Z :=
  mp_encode_map 2
  ++ mp_encode_uint IPROTO_FUNCTION_NAME ++ mp_str proc
  ++ mp_encode_uint IPROTO_TUPLE
  ++ match params with
     | None | Some [] => mp_encode_array 0
     | Some x => mp_encode_array 1 ++ mp_str x
     end.

Definition ast_tarantool_call (profile_name proc_name params_json : option (list Z)) (res_size : Z)
  : PA (Z * list Z) :=
  match proc_name with
  | None => mret (-1, [])
  | Some proc => on_conn profile_name IPROTO_CALL (call_body proc params_json) res_size
  end.

Definition eval_body (expr : list Z) : list Z :=
  mp_encode_map 2
  ++ mp_encode_uint IPROTO_EXPR ++ mp_str expr
  ++ mp_encode_uint IPROTO_TUPLE ++ mp_encode_array 0.

Definition ast_tarantool_eval (profile_name expr : option (list Z)) (res_size : Z) : PA (Z * list Z) :=
  match expr with
  | None => mret (-1, [])
  | Some e => on_conn profile_name IPROTO_EVAL (eval_body e) res_size
  end.

(** * The command line *)

Inductive cli_cmd := CLI_INIT | CLI_GENERATE | CLI_EXEC.

(** A line of the status: name, host, port, user, active and all sockets, time-out. *)
Record status_line := StatusLine {
  l_name : list Z; l_host : list Z; l_port : Z; l_user : list Z; l_active : Z; l_pool : Z; l_timeout : Z
}.

(** The active sockets among [k] from position [i] on: each is looked at without its mutex. *)
Fixpoint count_active (k : nat) (j i : nat) (active : Z) : PA Z :=
  match k with
  | O => mret active
  | S k' =>
      down ← atomic [sock_lock j i] (is_down j i);
      count_active k' j (S i) (if (down : bool) then active else active + 1)
  end.

Fixpoint status_lines (k : nat) (j : nat) (rows : list status_line) : PA (list status_line) :=
  match k with
  | O => mret rows
  | S k' =>
      p ← atomic [profiles_lock] (prof j);
      n ← count_active (Z.to_nat (pool_size p)) j 0 0;
      status_lines k' (S j)
        (rows ++ [StatusLine (name p) (host p) (port p)
                    (match user p with [] => lit "<none>" | u => u end) n (pool_size p) (timeout_ms p)])
  end.

(** The lines shown and the number of profiles; nothing for the other commands. *)
Definition handle_cli_tarantool_show_status (cmd : cli_cmd) : PA (option (list status_line * Z)) :=
  match cmd with
  | CLI_INIT | CLI_GENERATE => mret None
  | CLI_EXEC =>
      _ ← lock profiles_lock;
      k ← atomic [profiles_lock] (a ← get; mret (length (profiles a)));
      rows ← status_lines k 0 [];
      _ ← unlock profiles_lock;
      mret (Some (rows, len rows))
  end.

(** * Configuration *)

(** What [ast_config_load] returns: no file, an invalid or an unchanged one, or categories
    with their variables. *)
Inductive ast_config :=
| CONFIG_STATUS_FILEMISSING | CONFIG_STATUS_FILEINVALID | CONFIG_STATUS_FILEUNCHANGED
| Categories (cats : categories).

Record settings := Settings {
  c_host : list Z; c_port : Z; c_user : list Z; c_secret : list Z; c_pool : Z; c_timeout : Z
}.

Definition default_settings : settings :=
  Settings AST_TNT_DEFAULT_HOST AST_TNT_DEFAULT_PORT [] [] AST_TNT_DEFAULT_POOL_SIZE AST_TNT_DEFAULT_TIMEOUT_MS.

Definition read_var (c : settings) (var : list Z * list Z) : settings :=
  let '(k, v) := var in
  if strcaseeq k (lit "host") then Settings v (c_port c) (c_user c) (c_secret c) (c_pool c) (c_timeout c)
  else if strcaseeq k (lit "port") then Settings (c_host c) (atoi v) (c_user c) (c_secret c) (c_pool c) (c_timeout c)
  else if strcaseeq k (lit "user") then Settings (c_host c) (c_port c) v (c_secret c) (c_pool c) (c_timeout c)
  else if strcaseeq k (lit "secret") || strcaseeq k (lit "password")
  then Settings (c_host c) (c_port c) (c_user c) v (c_pool c) (c_timeout c)
  else if strcaseeq k (lit "pool_size") then Settings (c_host c) (c_port c) (c_user c) (c_secret c) (atoi v) (c_timeout c)
  else if strcaseeq k (lit "timeout_ms") then Settings (c_host c) (c_port c) (c_user c) (c_secret c) (c_pool c) (atoi v)
  else c.

Section config.
Context `{!AstCore}.

Definition new_profile (cat : list Z) (c : settings) : ast_tarantool_profile :=
  let n := if 0 <? c_pool c then c_pool c else AST_TNT_DEFAULT_POOL_SIZE in
  Profile (ast_copy_string 64 cat) (ast_copy_string 128 (c_host c)) (c_port c)
          (ast_copy_string 64 (c_user c)) (ast_copy_string 64 (c_secret c)) n
          (if 0 <? c_timeout c then c_timeout c else AST_TNT_DEFAULT_TIMEOUT_MS)
          (replicate (Z.to_nat n) (Socket (-1) false 0)).

(** One category; the array of sockets is used whether it could be allocated or not. *)
Definition load_category (cat : list Z) (vars : list (list Z * list Z)) : MA unit :=
  if strcaseeq cat (lit "general") then mret tt else
  let c := foldl read_var default_settings vars in
  a ← get;
  match find_profile (profiles a) (Some cat) with
  | Some _ => mret tt
  | None =>
      ok ← malloc;
      if negb ok then mret tt else
      ok ← malloc;
      if negb ok then undef else
      modify (fun a => with_profiles a (profiles a ++ [new_profile cat c]))
  end.

Fixpoint load_categories (cats : categories) : MA unit :=
  match cats with
  | [] => mret tt
  | (cat, vars) :: r => _ ← load_category cat vars; load_categories r
  end.

(** An unchanged file is not told from a loaded one: its status is used as a pointer. *)
Definition load_config (cfg : ast_config) : PA Z :=
  match cfg with
  | CONFIG_STATUS_FILEMISSING | CONFIG_STATUS_FILEINVALID => mret 0
  | CONFIG_STATUS_FILEUNCHANGED =>
      _ ← lock profiles_lock;
      _ ← atomic (X := unit) [profiles_lock] undef;
      _ ← unlock profiles_lock;
      mret 0
  | Categories cats =>
      _ ← lock profiles_lock;
      _ ← atomic [profiles_lock] (load_categories cats);
      _ ← unlock profiles_lock;
      mret 0
  end.

(** Loading and reloading the module: [ast_config_load] answers that the file is unchanged
    only to a reload. *)
Definition load_module (cfg : ast_config) : PA ast_module_load_result :=
  _ ← load_config cfg; mret AST_MODULE_LOAD_SUCCESS.
Definition reload_module (cfg : ast_config) : PA Z := _ ← load_config cfg; mret 0.

(** Unloading closes every socket; no thread uses the module any more. *)
Definition close_sockets (l : list ast_tarantool_socket) : MA unit :=
  foldr (fun s k => _ ← (if 0 <=? fd s then close (fd s) else mret tt); k) (mret tt) l.

Definition unload_module : PA Z :=
  _ ← lock profiles_lock;
  _ ← atomic [profiles_lock]
        (a ← get; _ ← close_sockets (concat (sockets <$> profiles a)); put (with_profiles a []));
  _ ← unlock profiles_lock;
  mret 0.

End config.
