(* ===== verification/AstRealtime.v ===== *)
(** The Asterisk realtime engine, [asterisk_tarantool/res/res_config_tarantool.c]: the JSON
    arguments built in arrays of fixed size, the five operations that send them as the
    single argument of a procedure, and the variables read out of the answer. *)
From S2P Require Export Asterisk.

(** * Text in a buffer *)

(** What [snprintf] leaves of the formatted text in a buffer of [size] bytes, for a positive
    size. *)
Definition snprintf (size : Z) (text : list Z) : list Z := ztake (size - 1) text.

(** [snprintf(buf + off, cap - off, ..)] of a text in an array of [cap] bytes that holds the
    string [s]; [None]: it writes past the array. The length it returns is that of [text]. *)
Definition snprintf_at (cap : Z) (s : list Z) (off : Z) (text : list Z) : option (list Z) :=
  if cap <? off then None
  else if cap =? off then Some s
  else Some (ztake off s ++ snprintf (cap - off) text).

(** The double quote. *)
Definition quote : Z := 34.
Definition quoted (s : list Z) : list Z := [quote] ++ s ++ [quote].
Definition comma : list Z := lit ", ".
Definition variable : Type := list Z * list Z.

(** The name and the value, quoted and joined by a colon, with a comma before another field. *)
Definition json_field (f : variable) (next : list variable) : list Z :=
  quoted f.1 ++ lit ":" ++ quoted f.2 ++ match next with [] => [] | _ => lit "," end.

(** The loop over the fields: the string and the offset; it ends at the first field that
    does not fit. *)
Fixpoint json_fields (cap : Z) (fields : list variable) (s : list Z) (off : Z) : option (list Z * Z) :=
  match fields with
  | [] => Some (s, off)
  | f :: next =>
      let text := json_field f next in
      match snprintf_at cap s off text with
      | None => None
      | Some s' => if cap - off <=? len text then Some (s', off) else json_fields cap next s' (off + len text)
      end
  end.

(** * Encoded values *)

Definition is_hex (c : Z) : bool :=
  ((48 <=? c) && (c <=? 57)) || ((65 <=? c) && (c <=? 70)) || ((97 <=? c) && (c <=? 102)).
Definition hex_val (c : Z) : Z := if c <=? 57 then c - 48 else if c <=? 70 then c - 55 else c - 87.
(** [strchr] among the hexadecimal digits finds their terminator as well. *)
Definition hex_chr (c : Z) : bool := is_hex c || (c =? 0).

(** The number [sscanf] reads by [%02x], for characters that [hex_chr] accepts. *)
Definition sscanf_02x (c1 c2 : Z) : option Z :=
  if c1 =? 0 then None else if c2 =? 0 then Some (hex_val c1) else Some (hex_val c1 * 16 + hex_val c2).

(** [memmove(chunk + 1, chunk + 3, strlen(chunk + 3) + 1)] in the memory [m] from
    [chunk + 1] on. *)
Definition close_gap (m : list Z) : option (list Z) :=
  let r := drop 2 m in
  if bool_decide (0 ∈ r) then let s := cstr r ++ [0] in Some (s ++ drop (length s) m) else None.

(** The memory from [chunk] on, its bytes after the known ones being indeterminate; [None]:
    one of them is looked at. Every turn passes one byte. *)
Fixpoint decode_chunk_loop (k : nat) (m : list Z) : option (list Z) :=
  match k, m with
  | S k', c :: r =>
      if c =? 0 then Some m
      else if c =? 94 then
        match r !! 0%nat with
        | None => None
        | Some c1 =>
            if negb (hex_chr c1) then cons c <$> decode_chunk_loop k' r else
            match r !! 1%nat with
            | None => None
            | Some c2 =>
                if negb (hex_chr c2) then cons c <$> decode_chunk_loop k' r else
                match sscanf_02x c1 c2 with
                | None => cons c <$> decode_chunk_loop k' r
                | Some b => r' ← close_gap r; cons b <$> decode_chunk_loop k' r'
                end
            end
        end
      else cons c <$> decode_chunk_loop k' r
  | _, _ => None
  end.
Definition decode_chunk (m : list Z) : option (list Z) := decode_chunk_loop (length m) m.

(** * The answer *)

(** The bytes [memcpy] copies of a string of [n] bytes into an array of [cap], and the NUL. *)
Definition copy_str (cap p n : Z) : R (list Z) := bytes_at p (if n <? cap - 1 then n else cap - 1).

(** One entry of a map: the variable, if the key and the value are strings that are not
    empty; without such a key the value is not read. *)
Definition map_entry : R (option variable) :=
  '(kstr, klen) ← mp_decode_str;
  match kstr with
  | Some kp =>
      if 0 <? klen then
        kbuf ← copy_str 128 kp klen;
        '(vstr, vlen) ← mp_decode_str;
        match vstr with
        | Some vp =>
            if 0 <? vlen then
              vbuf ← copy_str 512 vp vlen;
              match decode_chunk (vbuf ++ [0]) with
              | Some v => mret (Some (cstr kbuf, cstr v))
              | None => overread
              end
            else mret None
        | None => mret None
        end
      else mret None
  | None => mret None
  end.

Definition app_entry (vars : list variable) : R (list variable) :=
  v ← map_entry; mret (vars ++ match v with Some x => [x] | None => [] end).

(** One item of the array: a map whose tag is that of an empty short map or of a long one;
    any other item is left where it is. *)
Definition answer_item (vars : list variable) : R (list variable) :=
  tag ← peek 0;
  if (tag =? MP_FIXMAP) || (tag =? MP_MAP16) || (tag =? MP_MAP32)
  then n ← mp_decode_map; rfor n app_entry vars
  else mret vars.

(** A loop whose turns may read nothing. *)
Fixpoint rtimes {A} (n : nat) (body : A -> R A) (a : A) : R A :=
  match n with O => mret a | S n' => a' ← body a; rtimes n' body a' end.

(** The variables of an answer whose tag is that of an empty short array or of a long
    one; [None]: the lookup fields are reflected. *)
Definition answer_vars : R (option (list variable)) :=
  tag ← peek 0;
  if (tag =? MP_FIXARRAY) || (tag =? MP_ARRAY16) || (tag =? MP_ARRAY32)
  then n ← mp_decode_array; vars ← rtimes (Z.to_nat n) answer_item []; mret (Some vars)
  else mret None.

(** [ast_variable_new] and its link to the list, for each of the variables; one that cannot
    be allocated is left out. *)
Fixpoint new_variables (vars : list variable) : MA (list variable) :=
  match vars with
  | [] => mret []
  | v :: r => ok ← malloc; l ← new_variables r; mret (if (ok : bool) then v :: l else l)
  end.

(** * Operations *)

Definition lookup_args (table : list Z) (f : variable) : list Z :=
  lit "[" ++ quoted table ++ comma ++ quoted f.1 ++ comma ++ quoted f.2 ++ lit "]".

(** The array [resp] after its first NUL-terminated bytes is indeterminate. *)
Definition read_answer (resp : list Z) (fields : list variable) : MA (list variable) :=
  '(vars, _) ← of_read (answer_vars resp 0);
  new_variables (match vars with Some l => l | None => fields end).

(** The variables found, an empty list for a null pointer. *)
Definition realtime_tarantool (database table : option (list Z)) (fields : list variable) : PA (list variable) :=
  match table, fields with
  | Some table, f :: _ =>
      sk ← ast_tarantool_acquire_conn database;
      match sk with
      | None => mret []
      | Some _ =>
          if 1024 <=? len (lookup_args table f) then _ ← ast_tarantool_release_conn sk; mret [] else
          '(rc, resp) ← ast_tarantool_call database (Some (lit "ast_realtime_get"))
                          (Some (lookup_args table f)) 4096;
          _ ← ast_tarantool_release_conn sk;
          if rc <? 0 then mret [] else
          if bool_decide (rd resp 0 = Some 0) then mret [] else
          atomic [] (read_answer resp fields)
      end
  | _, _ => mret []
  end.

(** The variables of the configuration's only category, which has no name. *)
Definition realtime_multi_tarantool (database table : option (list Z)) (fields : list variable)
  : PA (option (list variable)) :=
  cfg ← atomic [] malloc;
  if negb cfg then mret None else
  cat ← atomic [] malloc;
  if negb cat then mret None else
  var ← realtime_tarantool database table fields;
  match var with [] => mret None | _ => mret (Some var) end.

(** The procedures that change records are called with an answer of at most 511 bytes,
    which is not looked at. *)
Definition call_args (database : option (list Z)) (proc : string) (args : option (list Z)) : PA Z :=
  json_args ← atomic [] (of_read args);
  r ← ast_tarantool_call database (Some (lit proc)) (Some json_args) 512;
  mret r.1.

Definition update_args (table keyfield entity : list Z) (fields : list variable) : option (list Z) :=
  let head := lit "[" ++ quoted table ++ comma ++ quoted keyfield ++ comma ++ quoted entity ++ lit ", {" in
  '(s, off) ← json_fields 2048 fields (snprintf 2048 head) (len head);
  snprintf_at 2048 s off (lit "}]").

Definition update_tarantool (database table keyfield entity : option (list Z)) (fields : list variable) : PA Z :=
  match table, keyfield, entity, fields with
  | Some t, Some k, Some e, _ :: _ => call_args database "ast_realtime_update" (update_args t k e fields)
  | _, _, _, _ => mret (-1)
  end.

Definition update2_args (table : list Z) (lookup_fields update_fields : list variable) : option (list Z) :=
  let head := lit "[" ++ quoted table ++ lit ", {" in
  '(s, off) ← json_fields 2048 lookup_fields (snprintf 2048 head) (len head);
  s ← snprintf_at 2048 s off (lit "}, {");
  '(s, off) ← json_fields 2048 update_fields s (off + len (lit "}, {"));
  snprintf_at 2048 s off (lit "}]").

Definition update2_tarantool (database table : option (list Z)) (lookup_fields update_fields : list variable) : PA Z :=
  match table, lookup_fields, update_fields with
  | Some t, _ :: _, _ :: _ => call_args database "ast_realtime_update2" (update2_args t lookup_fields update_fields)
  | _, _, _ => mret (-1)
  end.

Definition store_args (table : list Z) (fields : list variable) : option (list Z) :=
  let head := lit "[" ++ quoted table ++ lit ", {" in
  '(s, off) ← json_fields 2048 fields (snprintf 2048 head) (len head);
  snprintf_at 2048 s off (lit "}]").

Definition store_tarantool (database table : option (list Z)) (fields : list variable) : PA Z :=
  match table, fields with
  | Some t, _ :: _ => call_args database "ast_realtime_store" (store_args t fields)
  | _, _ => mret (-1)
  end.

Definition destroy_args (table keyfield entity : list Z) : list Z :=
  snprintf 512 (lit "[" ++ quoted table ++ comma ++ quoted keyfield ++ comma ++ quoted entity ++ lit "]").

Definition destroy_tarantool (database table keyfield entity : option (list Z)) : PA Z :=
  match table, keyfield, entity with
  | Some t, Some k, Some e => call_args database "ast_realtime_destroy" (Some (destroy_args t k e))
  | _, _, _ => mret (-1)
  end.

(** Loading a static configuration gives the one it was given, or a new empty one. *)
Definition load_tarantool {C} (new : C) (config : option C) : MA (option C) :=
  match config with
  | Some c => mret (Some c)
  | None => ok ← malloc; mret (if (ok : bool) then Some new else None)
  end.
