(* ===== verification/AstApps.v ===== *)
(** The Asterisk modules beside the realtime engine: the dialplan functions [TARANTOOL] and
    [TARANTOOL_EVAL], [asterisk_tarantool/funcs/func_tarantool.c], and the call detail records,
    [asterisk_tarantool/cdr/cdr_tarantool.c]: the record's text, its logging under a mutex of
    its own, and the settings that logging reads. *)
From S2P Require Export AstRealtime.

(** * Dialplan functions *)

Section func.
Context `{!AstCore}.

(** A function's result code and the string it stores in the caller's buffer of [n] bytes,
    none if it is left alone. *)
Definition func_result : Type := Z * option (list Z).

(** [ast_strlen_zero] of an argument that may be absent. *)
Definition arg (l : list (list Z)) (k : nat) : list Z := default [] (l !! k).
Definition is_nil (s : list Z) : bool := match s with [] => true | _ => false end.

(** The first string of an array whose tag is that of an empty short array or of a short
    one with 16-bit size; [None]: the answer is copied as it is. *)
Definition first_string (n : Z) : R (option (list Z)) :=
  tag ← peek 0;
  if (tag =? MP_FIXARRAY) || (tag =? MP_ARRAY16) then
    arr_sz ← mp_decode_array;
    if 0 <? arr_sz then
      '(s, slen) ← mp_decode_str;
      match s with
      | Some p => if 0 <? slen
                  then bs ← bytes_at p (if slen <? u64 (n - 1) then slen else u64 (n - 1)); mret (Some (cstr bs))
                  else mret None
      | None => mret None
      end
    else mret None
  else mret None.

(** [ast_copy_string(buf, resp, len)] reads the answer up to its first NUL. *)
Definition store_answer (resp : list Z) (n : Z) : MA func_result :=
  '(s, _) ← of_read (first_string n resp 0);
  mret (0, Some (match s with Some str => str | None => ast_copy_string n (cstr resp) end)).

Definition params_json (args : list Z) : list Z :=
  match args with
  | [] => lit "[]"
  | _ => snprintf 2048 (lit "[" ++ quoted args ++ lit "]")
  end.

Definition function_tarantool_read (data : option (list Z)) (n : Z) : PA func_result :=
  match data with
  | None | Some [] => mret (-1, None)
  | Some data =>
      let args_info := app_args 3 data in
      let profile := arg args_info 0 in
      let proc := arg args_info 1 in
      if is_nil profile || is_nil proc then mret (-1, None) else
      '(rc, resp) ← ast_tarantool_call (Some profile) (Some proc) (Some (params_json (arg args_info 2))) 4096;
      if (rc =? 0) && negb (bool_decide (rd resp 0 = Some 0))
      then atomic [] (store_answer resp n)
      else mret (rc, Some [])
  end.

Definition function_tarantool_eval_read (data : option (list Z)) (n : Z) : PA func_result :=
  match data with
  | None | Some [] => mret (-1, None)
  | Some data =>
      let args_info := app_args 2 data in
      let profile := arg args_info 0 in
      let expr := arg args_info 1 in
      if is_nil profile || is_nil expr then mret (-1, None) else
      '(rc, resp) ← ast_tarantool_eval (Some profile) (Some expr) 4096;
      if rc =? 0 then atomic [] (store_answer resp n) else mret (rc, Some [])
  end.

(** Loading the module: whether Asterisk could register each function. *)
Definition func_load_module (registered registered_eval : bool) : ast_module_load_result :=
  if registered && registered_eval then AST_MODULE_LOAD_SUCCESS else AST_MODULE_LOAD_DECLINE.

End func.

(** * Records *)

(** Seconds and microseconds, the latter from 0 to 999999. *)
Definition timeval : Type := Z * Z.

(** The fields of a record that are sent; a null pointer is an empty string. *)
Record ast_cdr := Cdr {
  accountcode : list Z; src : list Z; dst : list Z; dcontext : list Z; clid : list Z; channel : list Z;
  dstchannel : list Z; lastapp : list Z; lastdata : list Z; start : timeval; answer : timeval;
  end_time : timeval; duration : Z; billsec : Z; disposition : Z; uniqueid : list Z; userfield : list Z
}.

(** A time in an array of 32 bytes, empty if it is not set. *)
Definition time_str (tv : timeval) : list Z :=
  if 0 <? tv.1 then snprintf 32 (fmt_ld tv.1 ++ lit "." ++ fmt_06ld tv.2) else [].

(** The arguments, joined by a comma and a space, in brackets. *)
Fixpoint joined (l : list (list Z)) : list Z :=
  match l with
  | [] => []
  | [x] => x
  | x :: r => x ++ comma ++ joined r
  end.

Definition cdr_items (a : ast) (cdr : ast_cdr) : list (list Z) :=
  [quoted (if log_uniqueid a then uniqueid cdr else []); quoted (accountcode cdr); quoted (src cdr); quoted (dst cdr);
   quoted (dcontext cdr); quoted (clid cdr); quoted (channel cdr); quoted (dstchannel cdr); quoted (lastapp cdr);
   quoted (lastdata cdr); quoted (time_str (start cdr)); quoted (time_str (answer cdr)); fmt_ld (duration cdr);
   fmt_ld (billsec cdr); fmt_ld (disposition cdr); quoted (userfield cdr); quoted (space_name a)].

Definition cdr_args (a : ast) (cdr : ast_cdr) : list Z :=
  snprintf 2048 (lit "[" ++ joined (cdr_items a cdr) ++ lit "]").

(** Whether the record was saved changes nothing but a message. *)
Definition tarantool_cdr_log (cdr : option ast_cdr) : PA Z :=
  match cdr with
  | None => mret 0
  | Some cdr =>
      json_args ← atomic [cdr_lock] (a ← get; mret (cdr_args a cdr));
      _ ← lock cdr_lock;
      profile ← atomic [cdr_lock] (a ← get; mret (connection_profile a));
      _ ← ast_tarantool_call (Some profile) (Some (lit "ast_cdr_save")) (Some json_args) 256;
      _ ← unlock cdr_lock;
      mret 0
  end.

(** * Settings *)

Section cdr.
Context `{!AstCore}.

Definition apply_settings (cats : categories) (a : ast) : ast :=
  let val := ast_variable_retrieve cats (lit "general") in
  Ast (profiles a)
      (match val (lit "connection") with Some v => ast_copy_string 64 v | None => connection_profile a end)
      (match val (lit "space") with Some v => ast_copy_string 64 v | None => space_name a end)
      (match val (lit "log_uniqueid") with Some v => ast_true v | None => log_uniqueid a end).

(** As in the resource, the status of an unchanged file is used as a pointer. *)
Definition cdr_load_config (cfg : ast_config) : PA Z :=
  match cfg with
  | CONFIG_STATUS_FILEMISSING | CONFIG_STATUS_FILEINVALID => mret 1
  | CONFIG_STATUS_FILEUNCHANGED =>
      _ ← lock cdr_lock;
      _ ← atomic (X := unit) [cdr_lock] undef;
      _ ← unlock cdr_lock;
      mret 1
  | Categories cats =>
      _ ← lock cdr_lock;
      _ ← atomic [cdr_lock] (modify (apply_settings cats));
      _ ← unlock cdr_lock;
      mret 1
  end.

Definition cdr_reload (cfg : ast_config) : PA Z :=
  rc ← cdr_load_config cfg; mret (if rc =? 0 then -1 else 0).

(** Loading the module: the registration of the backend by Asterisk succeeds or not. *)
Definition cdr_load_module (cfg : ast_config) (registered : bool) : PA ast_module_load_result :=
  rc ← cdr_load_config cfg;
  mret (if rc =? 0 then AST_MODULE_LOAD_DECLINE
        else if registered then AST_MODULE_LOAD_SUCCESS else AST_MODULE_LOAD_DECLINE).

End cdr.
