(* ===== verification/AstText.v ===== *)
(** The texts of the Asterisk modules: which fields fit the arrays of the realtime engine and
    where they overflow, when two look-ups have the same text, and the decoding of encoded
    values. *)
From S2P Require Export AstApps.

(** * Fields in an array *)

(** The texts of the fields that the loop appends from offset [off] on. *)
Fixpoint kept (cap off : Z) (fields : list variable) : list Z :=
  match fields with
  | [] => []
  | f :: next =>
      let text := json_field f next in
      if cap - off <=? len text then [] else text ++ kept cap (off + len text) next
  end.

Lemma ztake_app {A} n (l k : list A) : 0 <= n -> ztake n (l ++ k) = ztake n l ++ ztake (n - len l) k.
Proof.
  intros Hn. unfold ztake, len. rewrite take_app. f_equal. f_equal. lia.
Qed.
Lemma ztake_prefix {A} n (l k : list A) : n <= len l -> ztake n (l ++ k) = ztake n l.
Proof. unfold ztake, len. intros. apply take_app_le. lia. Qed.

Lemma snprintf_at_ok cap s text more : 0 < cap -> s = ztake (cap - 1) text -> len text <= cap ->
  exists s', snprintf_at cap s (len text) more = Some s' /\ s' = ztake (cap - 1) (text ++ more).
Proof.
  intros Hc -> Hl. unfold snprintf_at. destruct (cap <? len text) eqn:E1; [lia|]. destruct (cap =? len text) eqn:E2.
  - eexists. split; [done|]. rewrite ztake_prefix by lia. done.
  - eexists. split; [done|]. pose proof (len_nonneg text). rewrite ztake_app by lia.
    rewrite (ztake_all _ text) by lia. rewrite (ztake_all (len text)) by lia. unfold snprintf. do 2 f_equal. lia.
Qed.

Lemma snprintf_at_past cap s off more : cap < off -> snprintf_at cap s off more = None.
Proof. intros. unfold snprintf_at. by rewrite (proj2 (Z.ltb_lt _ _)). Qed.

(** The loop writes past the array only from an offset past its end, which a non-empty list
    of fields shows; otherwise it leaves a string that begins with what was kept. *)
Lemma json_fields_ok cap fields : 0 < cap -> forall text s, s = ztake (cap - 1) text -> len text <= cap ->
  exists s', json_fields cap fields s (len text) = Some (s', len text + len (kept cap (len text) fields)) /\
    len (text ++ kept cap (len text) fields) <= cap /\
    forall more, snprintf_at cap s' (len (text ++ kept cap (len text) fields)) more =
      Some (ztake (cap - 1) ((text ++ kept cap (len text) fields) ++ more)).
Proof.
  intros Hc. induction fields as [|f next IH]; intros text s Hs Hl; cbn [json_fields kept].
  - exists s. rewrite app_nil_r, Z.add_0_r. split; [done|]. split; [done|]. intros more.
    by destruct (snprintf_at_ok cap s text more Hc Hs Hl) as (s' & -> & ->).
  - set (t := json_field f next). destruct (snprintf_at_ok cap s text t Hc Hs Hl) as (s1 & -> & Hs1).
    destruct (cap - len text <=? len t) eqn:E.
    + exists s1. rewrite app_nil_r, Z.add_0_r. split; [done|]. split; [done|]. intros more. pose proof (len_nonneg text).
      unfold snprintf_at. destruct (cap <? len text) eqn:E1; [lia|]. destruct (cap =? len text) eqn:E2.
      * f_equal. rewrite Hs1, !ztake_prefix by lia. done.
      * f_equal. rewrite Hs1, (ztake_app (cap - 1) text more) by lia. rewrite (ztake_app (cap - 1) text t) by lia.
        rewrite (ztake_all (cap - 1) text) by lia. rewrite ztake_prefix by lia. rewrite (ztake_all (len text)) by lia.
        unfold snprintf. do 2 f_equal. lia.
    + destruct (IH (text ++ t) s1 Hs1 ltac:(rewrite len_app; lia)) as (s' & H1 & H2 & H3).
      rewrite (len_app text t) in H1, H2, H3. rewrite <- app_assoc in H2, H3. exists s'. rewrite H1.
      split; [rewrite (len_app t); do 2 f_equal; lia|done].
Qed.

Lemma json_fields_past cap fields s off : fields <> [] -> cap < off -> json_fields cap fields s off = None.
Proof. intros Hf Ho. destruct fields; [done|]. cbn [json_fields]. by rewrite snprintf_at_past. Qed.

(** All fields are kept if they fit. *)
Fixpoint field_texts (fields : list variable) : list Z :=
  match fields with [] => [] | f :: next => json_field f next ++ field_texts next end.

Lemma kept_fits cap off fields : off + len (field_texts fields) < cap -> kept cap off fields = field_texts fields.
Proof.
  revert off. induction fields as [|f next IH]; intros off Hl; [done|]. cbn [field_texts kept] in *. rewrite len_app in Hl.
  pose proof (len_nonneg (field_texts next)). rewrite (proj2 (Z.leb_gt _ _)) by lia. f_equal. apply IH. lia.
Qed.

Definition update_head (table keyfield entity : list Z) : list Z :=
  lit "[" ++ quoted table ++ comma ++ quoted keyfield ++ comma ++ quoted entity ++ lit ", {".
Definition object_head (table : list Z) : list Z := lit "[" ++ quoted table ++ lit ", {".

(** A head, the fields and an end in one array of 2048 bytes. *)
Lemma object_text head fields : fields <> [] ->
  ('(s, off) ← json_fields 2048 fields (snprintf 2048 head) (len head); snprintf_at 2048 s off (lit "}]")) =
  if 2048 <? len head then None else Some (ztake 2047 (head ++ kept 2048 (len head) fields ++ lit "}]")).
Proof.
  intros Hf. destruct (2048 <? len head) eqn:E; [by rewrite json_fields_past by (done || lia)|].
  destruct (json_fields_ok 2048 fields ltac:(lia) head (snprintf 2048 head) eq_refl ltac:(lia)) as (s' & H1 & _ & H3).
  rewrite H1. cbn [mbind option_bind]. rewrite <- len_app, H3. by rewrite <- app_assoc.
Qed.

(** The argument of an update is the head, the fields in their order, and the end, as long
    as all fits in 2047 bytes; when it does not, the fields from the first that does not fit
    on are left out, which leaves a comma before the end, and what remains is cut to 2047
    bytes; a head longer than the array is written past it. *)
Theorem update_args_text table keyfield entity fields (Hfields : fields <> []) :
  let head := update_head table keyfield entity in
  update_args table keyfield entity fields =
    (if 2048 <? len head then None else Some (ztake 2047 (head ++ kept 2048 (len head) fields ++ lit "}]"))) /\
  (len (head ++ field_texts fields ++ lit "}]") <= 2047 ->
   update_args table keyfield entity fields = Some (head ++ field_texts fields ++ lit "}]")).
Proof.
  intros head. pose proof (object_text head fields Hfields) as Ho. split; [exact Ho|]. intros Hl.
  rewrite !len_app in Hl. change (len (lit "}]")) with 2 in Hl. pose proof (len_nonneg head). pose proof (len_nonneg (field_texts fields)).
  rewrite kept_fits in Ho by lia. rewrite ztake_all in Ho by (rewrite !len_app; change (len (lit "}]")) with 2; lia).
  rewrite (proj2 (Z.ltb_ge 2048 (len head))) in Ho by lia. exact Ho.
Qed.

Lemma update_args_text_witness :
  update_args (lit "t") (lit "k") (lit "e") [(lit "a", lit "1"); (lit "b", lit "2")] =
  Some (update_head (lit "t") (lit "k") (lit "e") ++ field_texts [(lit "a", lit "1"); (lit "b", lit "2")] ++ lit "}]").
Proof. apply (update_args_text (lit "t") (lit "k") (lit "e") [(lit "a", lit "1"); (lit "b", lit "2")]); [discriminate|vm_compute; discriminate]. Defined.

Lemma store_args_text table fields : fields <> [] ->
  store_args table fields = (if 2048 <? len (object_head table) then None
    else Some (ztake 2047 (object_head table ++ kept 2048 (len (object_head table)) fields ++ lit "}]"))).
Proof. intros Hf. exact (object_text (object_head table) fields Hf). Qed.

(** An update by several fields writes past its array of 2048 bytes exactly when the head
    and the look-up fields kept leave less than four bytes of it: the offset is advanced past
    the separator whether it fits or not. *)
Theorem update2_overflows table lookup_fields update_fields (Hl : lookup_fields <> []) (Hu : update_fields <> []) :
  update2_args table lookup_fields update_fields = None <->
  2044 < len (object_head table) + len (kept 2048 (len (object_head table)) lookup_fields).
Proof.
  set (head := object_head table). pose proof (len_nonneg (kept 2048 (len head) lookup_fields)) as Hk.
  unfold update2_args. change (lit "[" ++ quoted table ++ lit ", {") with head.
  destruct (2048 <? len head) eqn:E.
  { rewrite json_fields_past by (done || lia). split; [lia|done]. }
  destruct (json_fields_ok 2048 lookup_fields ltac:(lia) head (snprintf 2048 head) eq_refl ltac:(lia)) as (s1 & H1 & H2 & H3).
  rewrite H1. cbn [mbind option_bind]. rewrite len_app in H2, H3. rewrite H3.
  cbn [mbind option_bind].
  set (text := (head ++ kept 2048 (len head) lookup_fields) ++ lit "}, {").
  assert (len head + len (kept 2048 (len head) lookup_fields) + len (lit "}, {") = len text) as ->
    by (unfold text; by rewrite !len_app).
  assert (len text = len head + len (kept 2048 (len head) lookup_fields) + 4) as Ht by (unfold text; by rewrite !len_app).
  destruct (2048 <? len text) eqn:E2.
  - rewrite json_fields_past by (done || lia). split; [lia|done].
  - destruct (json_fields_ok 2048 update_fields ltac:(lia) text (ztake 2047 text) eq_refl ltac:(lia)) as (s2 & H4 & H5 & H6).
    change (2048 - 1) with 2047 in *. rewrite H4. cbn [mbind option_bind]. rewrite <- len_app, H6. split; [done|lia].
Qed.

Lemma update2_overflows_witness :
  update2_args (lit "t") [(lit "f", replicate 2032 97)] [(lit "g", lit "1")] = None.
Proof. apply update2_overflows; [discriminate|discriminate|vm_compute; reflexivity]. Defined.

(** * Look-ups *)

Lemma quoted_inj s s' r r' : quote ∉ s -> quote ∉ s' -> quoted s ++ r = quoted s' ++ r' -> s = s' /\ r = r'.
Proof.
  unfold quoted. cbn [app]. intros Hs Hs' [= E]. rewrite <- !app_assoc in E. revert s' Hs' E.
  induction s as [|c s IH]; intros [|c' s'] Hs' E; cbn [app] in E; simplify_eq.
  - done.
  - by destruct Hs'; left.
  - by destruct Hs; left.
  - apply not_elem_of_cons in Hs as [_ Hs]. apply not_elem_of_cons in Hs' as [_ Hs'].
    by destruct (IH Hs s' Hs') as [-> ->].
Qed.

(** Look-ups whose table, field and value hold no double quote have different texts if they
    are different; quotes are not escaped, so others can have the same. *)
Theorem lookup_args_unambiguous table table' f f'
  (Ht : quote ∉ table) (Ht' : quote ∉ table') (Hn : quote ∉ f.1) (Hn' : quote ∉ f'.1) (Hv : quote ∉ f.2) (Hv' : quote ∉ f'.2) :
  lookup_args table f = lookup_args table' f' -> table = table' /\ f = f'.
Proof.
  unfold lookup_args. intros E. apply (inj (app (lit "["))) in E.
  apply quoted_inj in E as [-> E]; [|done..]. apply (inj (app comma)) in E.
  apply quoted_inj in E as [En E]; [|done..]. apply (inj (app comma)) in E.
  apply quoted_inj in E as [Ev _]; [|done..]. destruct f, f'; cbn in *. by subst.
Qed.

(** Two different look-ups with the same text. *)
Lemma quotes_collide : exists f f', f <> f' /\ lookup_args (lit "t") f = lookup_args (lit "t") f'.
Proof.
  set (sep := [quote] ++ comma ++ [quote]).
  exists (lit "a" ++ sep ++ lit "b", lit "c"), (lit "a", lit "b" ++ sep ++ lit "c"). split; [done|]. by vm_compute.
Qed.

(** * Encoded values *)

Definition hex_digit (n : Z) : Z := if n <=? 9 then n + 48 else n + 55.
(** The encoding of a string: the bytes that [esc] selects as a caret and two digits. *)
Definition chunk_byte (esc : Z -> bool) (b : Z) : list Z :=
  if esc b then [94; hex_digit (b / 16); hex_digit (b mod 16)] else [b].
Definition encode_chunk (esc : Z -> bool) (s : list Z) : list Z := flat_map (chunk_byte esc) s.

Lemma hex_digit_ok n : 0 <= n < 16 -> hex_chr (hex_digit n) = true /\ hex_val (hex_digit n) = n /\ hex_digit n <> 0.
Proof.
  intros Hn. unfold hex_digit. destruct (n <=? 9) eqn:E; unfold hex_chr, is_hex, hex_val.
  - repeat split; [lia| |lia]. destruct (n + 48 <=? 57) eqn:E1; lia.
  - repeat split; [lia| |lia]. destruct (n + 55 <=? 57) eqn:E1; [lia|]. destruct (n + 55 <=? 70) eqn:E2; lia.
Qed.

Lemma encode_chunk_nonzero esc s : Forall (fun b => 0 < b < 256) s -> 0 ∉ encode_chunk esc s.
Proof.
  intros Hs. induction Hs as [|b s Hb _ IH]; [apply not_elem_of_nil|]. cbn [encode_chunk flat_map].
  apply not_elem_of_app. split; [|exact IH]. unfold chunk_byte.
  destruct (hex_digit_ok (b / 16)) as (_ & _ & H1); [Z.div_mod_to_equations; lia|].
  destruct (hex_digit_ok (b mod 16)) as (_ & _ & H2); [Z.div_mod_to_equations; lia|].
  destruct (esc b); rewrite ?not_elem_of_cons; repeat split; try lia; try congruence; apply not_elem_of_nil.
Qed.

Lemma cstr_app s r : 0 ∉ s -> cstr (s ++ 0 :: r) = s.
Proof.
  induction s as [|b s IH]; intros Hs; [done|]. apply not_elem_of_cons in Hs as [Hb Hs]. cbn [app cstr].
  destruct (b =? 0) eqn:E; [lia|]. by rewrite IH.
Qed.

Lemma decode_chunk_loop_ok esc s : esc 94 = true -> Forall (fun b => 0 < b < 256) s ->
  forall k junk, (length (encode_chunk esc s) < k)%nat ->
  exists junk', decode_chunk_loop k (encode_chunk esc s ++ 0 :: junk) = Some (s ++ 0 :: junk').
Proof.
  intros Hesc Hs. induction Hs as [|b s Hb Hs IH]; intros k junk Hk; (destruct k as [|k]; [lia|]).
  { exists junk. done. }
  cbn [encode_chunk flat_map]. fold (encode_chunk esc s). cbn [encode_chunk flat_map] in Hk. rewrite length_app in Hk.
  fold (encode_chunk esc s) in Hk. pose proof (encode_chunk_nonzero esc s Hs) as H0. unfold chunk_byte in *.
  destruct (esc b) eqn:Eb.
  - destruct (hex_digit_ok (b / 16)) as (X1 & V1 & N1); [Z.div_mod_to_equations; lia|].
    destruct (hex_digit_ok (b mod 16)) as (X2 & V2 & N2); [Z.div_mod_to_equations; lia|].
    cbn [app decode_chunk_loop lookup list_lookup]. change (94 =? 0) with false. change (94 =? 94) with true. cbv iota.
    rewrite X1, X2. cbn [negb]. unfold sscanf_02x. rewrite (proj2 (Z.eqb_neq _ 0) N1), (proj2 (Z.eqb_neq _ 0) N2), V1, V2.
    replace (b / 16 * 16 + b mod 16) with b by (Z.div_mod_to_equations; lia).
    unfold close_gap. cbn [drop]. rewrite !drop_0.
    rewrite bool_decide_eq_true_2 by (apply elem_of_app; right; by left). rewrite cstr_app by done.
    set (junk1 := drop _ _). rewrite <- app_assoc. cbn [app mbind option_bind].
    destruct (IH k junk1 ltac:(cbn in Hk; lia)) as [junk' ->]. by exists junk'.
  - cbn [app decode_chunk_loop]. rewrite (proj2 (Z.eqb_neq b 0)) by lia.
    destruct (b =? 94) eqn:E; [replace b with 94 in Eb by lia; congruence|].
    destruct (IH k junk ltac:(cbn in Hk; lia)) as [junk' ->]. by exists junk'.
Qed.

(** Decoding gives back every string that was encoded, whichever bytes the encoder chose to
    write as a caret and two digits, as long as it chose the caret itself. *)
Theorem decode_chunk_encode esc s (Hesc : esc 94 = true) (Hs : Forall (fun b => 0 < b < 256) s) :
  cstr <$> decode_chunk (encode_chunk esc s ++ [0]) = Some s.
Proof.
  unfold decode_chunk. destruct (decode_chunk_loop_ok esc s Hesc Hs (length (encode_chunk esc s ++ [0])) [])
    as [junk ->]; [rewrite length_app; cbn; lia|].
  cbn. f_equal. apply cstr_app. intros Hin. rewrite Forall_forall in Hs. specialize (Hs 0 Hin). lia.
Qed.

Lemma decode_chunk_encode_witness :
  encode_chunk (fun b => b =? 94) (lit "a^b") = lit "a^5Eb" /\ cstr <$> decode_chunk (lit "a^5Eb" ++ [0]) = Some (lit "a^b").
Proof.
  split; [reflexivity|]. apply (decode_chunk_encode (fun b => b =? 94) (lit "a^b")); [reflexivity|repeat constructor; lia].
Defined.

(** A caret and one digit at the end, or a caret alone: what follows the string is looked at. *)
Lemma decode_chunk_truncated : decode_chunk (lit "a^4" ++ [0]) = None /\ decode_chunk (lit "a^" ++ [0]) = None.
Proof. split; reflexivity. Qed.
