(* ===== verification/AstLocks.v ===== *)
(** The locks of the Asterisk modules: which mutexes each operation holds, in which order it
    waits for them, and what it gives back. *)
From S2P Require Export AstApps.

(** * The order of the mutexes *)

Definition rank (l : mutex) : nat :=
  match l with cdr_lock => 0 | profiles_lock => 1 | prof_lock _ => 2 | sock_lock _ _ => 3 end%nat.

Lemma rank_bound l : (rank l < 4)%nat.
Proof. destruct l; cbn; lia. Qed.

(** If the order matters, the mutexes of [own] all come before the resource's. *)
Definition below (ord : bool) (own : list mutex) : Prop := ord = true -> forall l, l ∈ own -> (rank l < 1)%nat.
Lemma below_nil ord : below ord [].
Proof. by intros _ l ?%elem_of_nil. Qed.
Lemma below_cdr ord : below ord [cdr_lock].
Proof. intros _ l ->%list_elem_of_singleton. cbn. lia. Qed.
#[local] Hint Resolve below_nil below_cdr : core.

#[local] Abbreviation disc := (disciplined rank).
(** The operation ends with the mutexes it began with. *)
Definition same {A} (own : list mutex) : list mutex -> A -> Prop := fun own' _ => own' = own.
(** The socket acquired is locked, and nothing else more than before. *)
Definition got (own : list mutex) (own' : list mutex) (r : option (nat * nat)) : Prop :=
  own' = match r with Some (j, i) => sock_lock j i :: own | None => own end.

(** One rule of [ThreadsFacts] per step, the side conditions on lists of mutexes solved. *)
Ltac mutexes := intros ->; intros; repeat match goal with
  | H : _ ∈ _ :: _ |- _ => rewrite elem_of_cons in H; destruct H as [H|H]; [subst|]
  | Hb : below true ?own, H : ?l ∈ ?own |- _ => pose proof (Hb eq_refl _ H); clear H
  | H : _ ∈ [] |- _ => destruct (not_elem_of_nil _ H)
  end; cbn [rank]; lia.
Ltac subs := intros ?; rewrite ?elem_of_cons, ?elem_of_nil; tauto.
Ltac perms := first [reflexivity | apply perm_swap | solve_Permutation].
Ltac dstep := first
  [ apply d_lock; [mutexes|] | apply d_trylock | eapply d_unlock; [perms|]
  | eapply d_unlock_end; [perms|] | apply d_atomic; [subs|intros] | apply d_atomic_end; [subs|intros]
  | apply d_ret; done ].

Section locks.
Context (grd : strictness) (ord : bool).

(** * The pool *)

Lemma disc_fallback own j : below ord own -> disc grd ord (got own) (prof_lock j :: own) (fallback j).
Proof.
  intros Hb. unfold fallback. dstep. dstep. eapply (disciplined_bind _ _ _ (same (sock_lock j 0 :: prof_lock j :: own))).
  - destruct x; repeat dstep.
  - intros own' [] ->. repeat dstep.
Qed.

Lemma disc_try_sockets own k j i : below ord own -> disc grd ord (got own) (prof_lock j :: own) (try_sockets k j i).
Proof.
  intros Hb. revert i. induction k as [|k IH]; intros i; cbn [try_sockets]; [by apply disc_fallback|].
  dstep; cbn [negb].
  - dstep. eapply (disciplined_bind _ _ _ (same (sock_lock j i :: prof_lock j :: own))).
    + destruct x; repeat dstep.
    + intros own' rc ->. destruct (rc <? 0); [dstep; apply IH|repeat dstep].
  - apply IH.
Qed.

Lemma disc_acquire own nm : below ord own -> disc grd ord (got own) own (ast_tarantool_acquire_conn nm).
Proof.
  intros Hb. unfold ast_tarantool_acquire_conn. dstep. dstep. destruct x as [j|]; [|repeat dstep].
  dstep. dstep. dstep. by apply disc_try_sockets.
Qed.

Lemma disc_release own own' r : got own own' r -> disc grd ord (same own) own' (ast_tarantool_release_conn r).
Proof. intros ->. destruct r as [[j i]|]; cbn; repeat dstep. Qed.

(** * Requests *)

Lemma disc_on_conn own nm rt body n : below ord own -> disc grd ord (same own) own (on_conn nm rt body n).
Proof.
  intros Hb. unfold on_conn. eapply disciplined_bind; [by apply disc_acquire|].
  intros own' [[j i]|] ->; [|repeat dstep]. dstep. dstep.
  eapply disciplined_bind; [by apply disc_release|]. intros own' ? ->. repeat dstep.
Qed.

Lemma disc_call own nm proc params n : below ord own -> disc grd ord (same own) own (ast_tarantool_call nm proc params n).
Proof. intros Hb. destruct proc; [by apply disc_on_conn|repeat dstep]. Qed.
Lemma disc_eval own nm e n : below ord own -> disc grd ord (same own) own (ast_tarantool_eval nm e n).
Proof. intros Hb. destruct e; [by apply disc_on_conn|repeat dstep]. Qed.

(** * Realtime, dialplan functions and records *)

Lemma disc_call_args own db proc args : below ord own -> disc grd ord (same own) own (call_args db proc args).
Proof.
  intros Hb. unfold call_args. dstep. eapply disciplined_bind; [by apply disc_call|].
  intros own' r ->. repeat dstep.
Qed.

Lemma disc_update db t k e fs : disc grd ord (same []) [] (update_tarantool db t k e fs).
Proof. destruct t, k, e, fs; try by constructor. by apply disc_call_args. Qed.
Lemma disc_update2 db t lf fs : disc grd ord (same []) [] (update2_tarantool db t lf fs).
Proof. destruct t, lf, fs; try by constructor. by apply disc_call_args. Qed.
Lemma disc_store db t fs : disc grd ord (same []) [] (store_tarantool db t fs).
Proof. destruct t, fs; try by constructor. by apply disc_call_args. Qed.
Lemma disc_destroy db t k e : disc grd ord (same []) [] (destroy_tarantool db t k e).
Proof. destruct t, k, e; try by constructor. by apply disc_call_args. Qed.

Lemma disc_read `{!AstCore} data n : disc grd ord (same []) [] (function_tarantool_read data n).
Proof.
  destruct data as [[|c data]|]; try by constructor. unfold function_tarantool_read.
  destruct (_ || _); [by constructor|]. eapply disciplined_bind; [by apply disc_call|].
  intros own' [rc resp] ->. destruct (_ && _); [by repeat dstep|by constructor].
Qed.
Lemma disc_eval_read `{!AstCore} data n : disc grd ord (same []) [] (function_tarantool_eval_read data n).
Proof.
  destruct data as [[|c data]|]; try by constructor. unfold function_tarantool_eval_read.
  destruct (_ || _); [by constructor|]. eapply disciplined_bind; [by apply disc_eval|].
  intros own' [rc resp] ->. destruct (_ =? _); [by repeat dstep|by constructor].
Qed.

Lemma disc_load_config `{!AstCore} cfg : disc grd ord (same []) [] (load_config cfg).
Proof. destruct cfg; cbn [load_config]; repeat dstep. Qed.
Lemma disc_cdr_load_config `{!AstCore} cfg : disc grd ord (same []) [] (cdr_load_config cfg).
Proof. destruct cfg; cbn [cdr_load_config]; repeat dstep. Qed.

End locks.

(** A look-up waits for mutexes while it holds one of a socket: it has no order. *)
Lemma disc_realtime grd db t fs : disc grd false (same []) [] (realtime_tarantool db t fs).
Proof.
  destruct t as [t|]; [|by constructor]. destruct fs as [|f fs]; [by constructor|]. unfold realtime_tarantool.
  eapply disciplined_bind; [by apply disc_acquire|]. intros own' sk ->. destruct sk as [[j i]|]; [|by constructor].
  destruct (1024 <=? _); [repeat dstep|].
  eapply disciplined_bind; [by apply disc_call|]. intros own' [rc resp] ->. dstep.
  destruct (rc <? 0); [by constructor|]. case_bool_decide; [by constructor|]. by repeat dstep.
Qed.

Lemma disc_realtime_multi grd db t fs : disc grd false (same []) [] (realtime_multi_tarantool db t fs).
Proof.
  unfold realtime_multi_tarantool. dstep. destruct x; [|by constructor]. dstep. destruct x; [|by constructor].
  cbn [negb]. eapply disciplined_bind; [apply disc_realtime|]. intros own' [|v l] ->; by constructor.
Qed.

(** Looking at a profile or a socket changes nothing. *)
Lemma keeps_prof j : keeps (prof j).
Proof. unfold prof. auto with keeps. Qed.
#[export] Hint Resolve keeps_prof : keeps.
Lemma keeps_sock j i : keeps (sock j i).
Proof. unfold sock. auto with keeps. Qed.
#[export] Hint Resolve keeps_sock : keeps.
Lemma keeps_is_down j i : keeps (is_down j i).
Proof. unfold is_down. auto with keeps. Qed.
#[export] Hint Resolve keeps_is_down : keeps.

(** The record's settings and the sockets' states are read without their mutexes. *)
Lemma disc_cdr_log ord cdr : disc Written ord (same []) [] (tarantool_cdr_log cdr).
Proof.
  destruct cdr as [cdr|]; [|by constructor]. unfold tarantool_cdr_log.
  apply d_look; [done|by apply keeps_bind|]. intros x. dstep. dstep.
  eapply disciplined_bind; [by apply disc_call|]. intros own' r ->. repeat dstep.
Qed.

Lemma disc_count_active ord own k j i n : disc Written ord (same own) own (count_active k j i n).
Proof.
  revert i n. induction k as [|k IH]; intros i n; [by constructor|].
  apply d_look; [done|auto with keeps|]. intros []; apply IH.
Qed.
Lemma disc_status_lines ord own k j rows : disc Written ord (same own) own (status_lines k j rows).
Proof.
  revert j rows. induction k as [|k IH]; intros j rows; [by constructor|].
  apply d_look; [done|auto with keeps|]. intros p.
  eapply disciplined_bind; [apply disc_count_active|]. intros own' n ->. apply IH.
Qed.
Lemma disc_status ord cmd : disc Written ord (same []) [] (handle_cli_tarantool_show_status cmd).
Proof.
  destruct cmd; try by constructor. unfold handle_cli_tarantool_show_status. dstep.
  dstep. eapply disciplined_bind; [apply disc_status_lines|]. intros own' rows ->. repeat dstep.
Qed.

(** * Threads *)

(** What a thread of Asterisk may ask of the modules. *)
Inductive task :=
| Call (profile proc params : option (list Z)) (n : Z)
| Eval (profile expr : option (list Z)) (n : Z)
| Function (data : option (list Z)) (n : Z)
| EvalFunction (data : option (list Z)) (n : Z)
| Update (db table keyfield entity : option (list Z)) (fields : list variable)
| Update2 (db table : option (list Z)) (lookup fields : list variable)
| Store (db table : option (list Z)) (fields : list variable)
| Destroy (db table keyfield entity : option (list Z))
| Reload (cfg : ast_config)
| CdrReload (cfg : ast_config)
| Cdr_log (cdr : option ast_cdr)
| Status (cmd : cli_cmd)
| Realtime (db table : option (list Z)) (fields : list variable)
| RealtimeMulti (db table : option (list Z)) (fields : list variable).

Definition finish {A} (p : PA A) : PA unit := _ ← p; mret tt.

Definition program `{!AstCore} (r : task) : PA unit :=
  match r with
  | Call p q a n => finish (ast_tarantool_call p q a n)
  | Eval p e n => finish (ast_tarantool_eval p e n)
  | Function d n => finish (function_tarantool_read d n)
  | EvalFunction d n => finish (function_tarantool_eval_read d n)
  | Update db t k e fs => finish (update_tarantool db t k e fs)
  | Update2 db t lf fs => finish (update2_tarantool db t lf fs)
  | Store db t fs => finish (store_tarantool db t fs)
  | Destroy db t k e => finish (destroy_tarantool db t k e)
  | Reload cfg => finish (reload_module cfg)
  | CdrReload cfg => finish (cdr_reload cfg)
  | Cdr_log cdr => finish (tarantool_cdr_log cdr)
  | Status cmd => finish (handle_cli_tarantool_show_status cmd)
  | Realtime db t fs => finish (realtime_tarantool db t fs)
  | RealtimeMulti db t fs => finish (realtime_multi_tarantool db t fs)
  end.

(** What the requests touch of what mutexes guard only while they hold them: everything, or
    what they write; and those that wait for mutexes in order. *)
Definition guarded (r : task) : strictness := match r with Cdr_log _ | Status _ => Written | _ => Touched end.
Definition ordered (r : task) : bool := match r with Realtime _ _ _ | RealtimeMulti _ _ _ => false | _ => true end.

Lemma finish_behaved grd ord {A} (p : PA A) : disc grd ord (same []) [] p -> well_behaved rank grd ord (finish p).
Proof. intros Hp. eapply disciplined_bind; [done|]. intros own a ->. by constructor. Qed.

Lemma program_behaved `{!AstCore} r : well_behaved rank (guarded r) (ordered r) (program r).
Proof.
  destruct r; cbn [program guarded ordered]; apply finish_behaved.
  - by apply disc_call.
  - by apply disc_eval.
  - apply disc_read.
  - apply disc_eval_read.
  - apply disc_update.
  - apply disc_update2.
  - apply disc_store.
  - apply disc_destroy.
  - eapply disciplined_bind; [apply disc_load_config|]. intros own a ->. by constructor.
  - eapply disciplined_bind; [apply disc_cdr_load_config|]. intros own a ->. by constructor.
  - apply disc_cdr_log.
  - apply disc_status.
  - apply disc_realtime.
  - apply disc_realtime_multi.
Qed.

(** * An instance of the core, and a pool of one connected socket, for examples *)

(** The arguments of [data] separated by commas, the rest in the last one. *)
Fixpoint split_args (n : nat) (data : list Z) : list (list Z) :=
  match n with
  | O => []
  | S O => [data]
  | S n' => match strchr data 44 with Some (x, y) => x :: split_args n' y | None => [data] end
  end.

Definition value_of (vars : list (list Z * list Z)) (nm : list Z) : option (list Z) :=
  snd <$> (snd <$> list_find (fun v => Is_true (strcaseeq v.1 nm)) vars).

Definition ex_ast_core : AstCore := {|
  ast_copy_string n s := ztake (n - 1) s;
  app_args := split_args;
  ast_true v := strcaseeq v (lit "yes");
  ast_variable_retrieve cats cat nm :=
    c ← list_find (fun c => Is_true (strcaseeq c.1 cat)) cats; value_of c.2.2 nm
|}.

Lemma ex_ast_laws : @AstCoreLaws ex_ast_core.
Proof. by split. Qed.

Definition ex_prof : ast_tarantool_profile :=
  Profile (lit "tnt1") (lit "127.0.0.1") 3301 [] [] 1 500 [Socket 3 true 7].
Definition ex_ast : ast := Ast [ex_prof] (lit "tnt1") (lit "asterisk_cdrs") true.
Definition ex_aworld (evs : list rx_ev) (ms : list bool) : world := World [] {[ 3 := Sock evs [] [] ]} [] [] [] ms.
