(* ===== verification/AstInv.v ===== *)
(** What the operations of the Asterisk modules may change: each only what the mutexes it
    names guard, none the settings of a profile; and the well-formedness of the profiles
    and of their pools, which all of them preserve. *)
From S2P Require Export AstLocks.

(** * What an operation changes *)

Definition same_settings (p p' : ast_tarantool_profile) : Prop :=
  name p' = name p /\ host p' = host p /\ port p' = port p /\ user p' = user p /\ secret p' = secret p /\
  pool_size p' = pool_size p /\ timeout_ms p' = timeout_ms p /\ length (sockets p') = length (sockets p).

(** From [a] to [a']: no profile is lost or has other settings, profiles are added only
    under the list's mutex, sockets change only under their own, the settings of the CDR
    backend under its own. *)
Definition framed (ls : list mutex) (a a' : ast) : Prop :=
  (forall j p, profiles a !! j = Some p -> exists p', profiles a' !! j = Some p' /\ same_settings p p' /\
     forall i, sock_lock j i ∉ ls -> sockets p' !! i = sockets p !! i) /\
  (profiles_lock ∉ ls -> length (profiles a') = length (profiles a)) /\
  (cdr_lock ∉ ls -> connection_profile a' = connection_profile a /\ space_name a' = space_name a /\
     log_uniqueid a' = log_uniqueid a).

#[export] Instance same_settings_preorder : PreOrder same_settings.
Proof. split; [by intros p|]. unfold same_settings. intros p q r (?&?&?&?&?&?&?&?) (?&?&?&?&?&?&?&?).
  repeat split; congruence. Qed.

#[export] Instance framed_preorder ls : PreOrder (framed ls).
Proof.
  split.
  - intros a. split; [|done]. intros j p Hp. exists p. done.
  - intros a b c (P1 & L1 & C1) (P2 & L2 & C2). split; [|split].
    + intros j p Hp. destruct (P1 _ _ Hp) as (q & Hq & S1 & E1). destruct (P2 _ _ Hq) as (r & Hr & S2 & E2).
      exists r. split; [done|]. split; [by transitivity q|]. intros i Hi. by rewrite E2, E1.
    + intros Hl. by rewrite L2, L1.
    + intros Hl. destruct (C1 Hl) as (<- & <- & <-). by apply C2.
Qed.

(** * Well-formed profiles *)

Definition socket_ok (s : ast_tarantool_socket) : Prop :=
  (connected s = true <-> 0 <= fd s) /\ 0 <= sync_id s < 2 ^ 64.

(** The strings fit their arrays, the pool has the sockets its size says, one or more, and
    the time-out is positive. *)
Definition profile_ok (p : ast_tarantool_profile) : Prop :=
  len (name p) <= 63 /\ len (host p) <= 127 /\ len (user p) <= 63 /\ len (secret p) <= 63 /\
  0 < pool_size p /\ len (sockets p) = pool_size p /\ 0 < timeout_ms p /\ Forall socket_ok (sockets p).

Definition ast_ok (a : ast) : Prop := Forall profile_ok (profiles a).

Definition changes (ls : list mutex) (a a' : ast) : Prop := framed ls a a' /\ (ast_ok a -> ast_ok a').
#[export] Instance changes_preorder ls : PreOrder (changes ls).
Proof.
  split.
  - by intros a.
  - intros a b c [F1 W1] [F2 W2]. split; [by transitivity b|auto].
Qed.

#[local] Abbreviation ok ls := (respects (changes ls)).

(** A composition of operations that each change only what the mutexes guard. *)
Create HintDb changes.
Lemma ok_bind ls {X Y} (m : MA X) (k : X -> MA Y) : ok ls m -> (forall x, ok ls (k x)) -> ok ls (m ≫= k).
Proof. apply respects_bind, changes_preorder. Qed.
Lemma ok_keeps ls {X} (m : MA X) : keeps m -> ok ls m.
Proof. apply respects_keeps, changes_preorder. Qed.
#[export] Hint Resolve ok_bind : changes.
#[export] Hint Extern 1 (respects (changes _) (if ?b then _ else _)) => destruct b : changes.
#[export] Hint Extern 1 (respects (changes _) (match ?b with _ => _ end)) => destruct b : changes.
#[export] Hint Extern 3 (respects (changes _) _) => apply ok_keeps; solve [auto with keeps] : changes.

Lemma keeps_close {D} f : keeps (close f : M D unit).
Proof. apply keeps_sys_. Qed.
#[export] Hint Resolve keeps_close : keeps.

(** * Sockets *)

Lemma upd_ok j i f : (forall s, socket_ok s -> socket_ok (f s)) -> ok [sock_lock j i] (upd j i f).
Proof.
  intros Hf. apply respects_modify. intros a. split; [split; [|split]|]; cbn [profiles with_profiles].
  - intros j' p Hp. destruct (decide (j' = j)) as [->|Hj].
    + rewrite list_lookup_alter_eq, Hp. eexists. split; [done|]. split.
      * repeat split; try done. cbn. by rewrite length_alter.
      * intros i' Hi. cbn. rewrite list_lookup_alter_ne; [done|]. set_solver.
    + rewrite list_lookup_alter_ne by done. exists p. done.
  - intros _. by rewrite length_alter.
  - done.
  - unfold ast_ok. cbn. intros Ha. apply Forall_alter; [done|]. intros p _ (H1 & H2 & H3 & H4 & H5 & H6 & H7 & H8).
    repeat split; try done; cbn.
    + unfold len in *. by rewrite length_alter.
    + apply Forall_alter; auto.
Qed.

Lemma set_link_down s : socket_ok s -> socket_ok (set_link (-1) false s).
Proof. intros [_ ?]. split; [|done]. cbn. split; [done|lia]. Qed.
Lemma set_link_up f s : 0 <= f -> socket_ok s -> socket_ok (set_link f true s).
Proof. intros Hf [_ ?]. split; [|done]. by cbn. Qed.
Lemma set_sync_ok n s : 0 <= n < 2 ^ 64 -> socket_ok s -> socket_ok (set_sync n s).
Proof. intros Hn [? _]. by split. Qed.

Lemma down_ok j i : ok [sock_lock j i] (upd j i (set_link (-1) false)).
Proof. apply upd_ok, set_link_down. Qed.
#[export] Hint Resolve down_ok : changes.

Lemma connect_ok j i : ok [sock_lock j i] (tnt_socket_connect j i).
Proof.
  unfold tnt_socket_connect. apply ok_bind; [auto with changes|]. intros p. apply ok_bind; [auto with changes|].
  intros s. apply ok_bind; [auto with changes|]. intros _. apply ok_bind; [auto with changes|]. intros f.
  destruct (f <? 0) eqn:Ef; [auto with changes|].
  assert (ok [sock_lock j i] (upd j i (set_link f true))) by (apply upd_ok; intros; apply set_link_up; [lia|done]).
  auto 10 with changes.
Qed.

Lemma exec_raw_ok j i rt body n res size : ok [sock_lock j i] (ast_tarantool_exec_raw (Some (j, i)) rt body n res size).
Proof.
  assert (ok [sock_lock j i] (drop_conn j i)) by (unfold drop_conn; auto with changes).
  unfold ast_tarantool_exec_raw. apply ok_bind; [auto with changes|]. intros s. destruct (_ || _); [auto with changes|].
  apply ok_bind; [apply upd_ok; intros; apply set_sync_ok; [apply u64_range|done]|]. intros _.
  auto 20 with changes.
Qed.
#[export] Hint Resolve connect_ok exec_raw_ok : changes.

(** * Configuration *)

Section core.
Context `{!AstCore, !AstCoreLaws}.

Lemma len_copy n s : 0 < n -> len (ast_copy_string n s) <= n - 1.
Proof. intros Hn. rewrite copy_string_spec by done. rewrite len_take. lia. Qed.

Lemma new_profile_ok cat c : profile_ok (new_profile cat c).
Proof.
  unfold new_profile, profile_ok. cbn [name host user secret pool_size sockets timeout_ms].
  pose proof (len_copy 64 cat). pose proof (len_copy 128 (c_host c)). pose proof (len_copy 64 (c_user c)).
  pose proof (len_copy 64 (c_secret c)).
  set (n := if 0 <? c_pool c then c_pool c else AST_TNT_DEFAULT_POOL_SIZE).
  assert (0 < n) by (unfold n, AST_TNT_DEFAULT_POOL_SIZE; destruct (0 <? c_pool c) eqn:E; lia).
  assert (0 < if 0 <? c_timeout c then c_timeout c else AST_TNT_DEFAULT_TIMEOUT_MS)
    by (unfold AST_TNT_DEFAULT_TIMEOUT_MS; destruct (0 <? c_timeout c) eqn:E; lia).
  repeat split; try lia.
  - unfold len. rewrite length_replicate. lia.
  - apply Forall_replicate. split; cbn; [split; [done|lia]|lia].
Qed.

Lemma load_category_ok cat vars : ok [profiles_lock] (load_category cat vars).
Proof.
  unfold load_category. destruct (strcaseeq _ _); [auto with changes|].
  apply ok_bind; [auto with changes|]. intros a. destruct (find_profile _ _); [auto with changes|].
  assert (ok [profiles_lock] (modify (fun a => with_profiles a (profiles a ++ [new_profile cat (foldl read_var default_settings vars)])))).
  { apply respects_modify. intros a'. split; [split; [|split]|]; cbn [profiles with_profiles].
    - intros j p Hp. exists p. split; [by apply lookup_app_l_Some|done].
    - intros Hl. by destruct Hl; left.
    - done.
    - intros Ha. apply Forall_app_2; [done|]. constructor; [apply new_profile_ok|done]. }
  auto 10 with changes.
Qed.

Lemma load_categories_ok cats : ok [profiles_lock] (load_categories cats).
Proof.
  induction cats as [|[cat vars] cats IH]; cbn [load_categories]; [auto with changes|].
  apply ok_bind; [apply load_category_ok|]. intros. exact IH.
Qed.

Lemma apply_settings_ok cats : ok [cdr_lock] (modify (apply_settings cats)).
Proof.
  apply respects_modify. intros a. split; [split; [|split]|]; cbn [profiles apply_settings]; try done.
  - intros j p Hp. exists p. done.
  - intros Hl. by destruct Hl; left.
Qed.

(** * Programs *)

#[local] Abbreviation every := (every_respects changes).

Lemma every_bind {A B} (p : PA A) (f : A -> PA B) : every p -> (forall a, every (f a)) -> every (p ≫= f).
Proof. apply every_op_bind. Qed.
Lemma every_atomic {X} ls (op : MA X) : ok ls op -> every (atomic ls op).
Proof. by split. Qed.
Lemma every_ret {A} (a : A) : every (mret a). Proof. done. Qed.
Lemma every_lock l : every (lock l). Proof. done. Qed.
Lemma every_unlock l : every (unlock l). Proof. done. Qed.
Lemma every_trylock l : every (trylock l). Proof. done. Qed.

Create HintDb every.
#[local] Hint Resolve every_bind every_ret every_lock every_unlock every_trylock load_categories_ok apply_settings_ok : every.
#[local] Hint Extern 1 (every_respects changes (if ?b then _ else _)) => destruct b : every.
#[local] Hint Extern 1 (every_respects changes (match ?b with _ => _ end)) => destruct b : every.
#[local] Hint Extern 3 (every_respects changes (atomic _ _)) =>
  apply every_atomic; solve [auto with changes | auto with every] : every.

Lemma every_try_sockets k j i : every (try_sockets k j i).
Proof.
  revert i. induction k as [|k IH]; intros i; cbn [try_sockets]; [unfold fallback|]; auto 10 with every.
Qed.
#[local] Hint Resolve every_try_sockets : every.
Lemma every_acquire nm : every (ast_tarantool_acquire_conn nm).
Proof. unfold ast_tarantool_acquire_conn. auto 10 with every. Qed.
#[local] Hint Resolve every_acquire : every.
Lemma every_release r : every (ast_tarantool_release_conn r).
Proof. unfold ast_tarantool_release_conn. auto with every. Qed.
#[local] Hint Resolve every_release : every.
Lemma every_on_conn nm rt body n : every (on_conn nm rt body n).
Proof. unfold on_conn. auto 10 with every. Qed.
#[local] Hint Resolve every_on_conn : every.
Lemma every_call nm q a n : every (ast_tarantool_call nm q a n).
Proof. unfold ast_tarantool_call. auto with every. Qed.
Lemma every_eval nm e n : every (ast_tarantool_eval nm e n).
Proof. unfold ast_tarantool_eval. auto with every. Qed.
#[local] Hint Resolve every_call every_eval : every.
Lemma every_call_args db q args : every (call_args db q args).
Proof. unfold call_args. auto with every. Qed.
#[local] Hint Resolve every_call_args : every.

Lemma keeps_new_variables vars : keeps (new_variables vars).
Proof. induction vars as [|v vars IH]; cbn [new_variables]; auto with keeps. Qed.
#[local] Hint Resolve keeps_new_variables : keeps.
Lemma every_realtime db t fs : every (realtime_tarantool db t fs).
Proof.
  assert (forall r l, ok [] (read_answer r l)) by (intros; unfold read_answer; auto with changes).
  unfold realtime_tarantool. auto 12 with every.
Qed.
#[local] Hint Resolve every_realtime : every.
Lemma every_store_answer r n : ok [] (store_answer r n).
Proof. unfold store_answer. auto with changes. Qed.
#[local] Hint Resolve every_store_answer : every.
Lemma every_count_active k j i n : every (count_active k j i n).
Proof. revert i n. induction k as [|k IH]; intros; cbn [count_active]; auto with every. Qed.
#[local] Hint Resolve every_count_active : every.
Lemma every_status_lines k j rows : every (status_lines k j rows).
Proof. revert j rows. induction k as [|k IH]; intros; cbn [status_lines]; auto with every. Qed.
#[local] Hint Resolve every_status_lines : every.

Lemma every_program r : every (program r).
Proof.
  destruct r; cbn [program]; unfold finish, function_tarantool_read, function_tarantool_eval_read, update_tarantool,
    update2_tarantool, store_tarantool, destroy_tarantool, reload_module, load_config, cdr_reload, cdr_load_config,
    tarantool_cdr_log, handle_cli_tarantool_show_status, realtime_multi_tarantool; auto 20 with every.
Qed.
End core.
