(* ===== verification/AstThreads.v ===== *)
(** Threads of Asterisk that use the modules at once, in any interleaving: what the mutexes
    protect, that all threads but look-ups make progress, and the deadlock of look-ups. *)
From S2P Require Export AstInv.

Section threads.
Context `{!AstCore} (recursive : bool).

(** Threads that each do one task, from a state where no mutex is held. *)
Definition threads_of (tasks : list task) (a : ast) (w : world) : config mutex ast unit :=
  Config (program <$> tasks) (Shared a ∅) w.

Lemma threads_behaved (grd : strictness) (ord : bool) tasks a w :
  Forall (fun t => stricter (L := mutex) (D := ast) (guarded t) grd /\ (ord = true -> ordered t = true)) tasks ->
  config_ok rank grd ord (threads_of tasks a w).
Proof.
  intros Ht. apply config_ok_init, Forall_fmap. eapply Forall_impl; [exact Ht|]. intros t [Hg Ho]. cbn.
  exact (disciplined_weaken _ _ _ _ _ _ _ _ Hg Ho (program_behaved t)).
Qed.

(** C12: threads that wait for mutexes in their order, which all do but realtime look-ups, never
    block each other: whenever some are not finished, one of them can go on or is inside an
    operation, waiting for the network and not for another thread. *)
Theorem tasks_never_deadlock tasks a w c
  (Htasks : Forall (fun t => ordered t = true) tasks) (Hreach : rtc (step recursive) (threads_of tasks a w) c) :
  (forall i p, threads c !! i = Some p -> finished p = true) \/ (exists i, is_Some (step_of recursive i c)) \/
  (exists i p, threads c !! i = Some p /\ in_operation p = true).
Proof.
  apply (progress recursive rank Unchecked c 4 rank_bound). eapply reachable_ok; [|exact Hreach].
  apply threads_behaved. eapply Forall_impl; [exact Htasks|]. by intros t Ht.
Qed.

Context `{!AstCoreLaws}.

(** C13: no thread writes what a mutex guards without holding it, whatever the threads do
    (requests, look-ups, reloads, records of calls, the status command): a step that changes a
    socket, adds a profile or changes the settings of the call records is made by the owner
    of the socket's, the list's or the settings' mutex. *)
Theorem writes_are_locked tasks a w c c' i
  (Hreach : rtc (step recursive) (threads_of tasks a w) c)
  (Hstep : step_of recursive i c = Some c') :
  let owns l := exists n, held (state c) !! l = Some (i, n) in
  let d := data (state c) in let d' := data (state c') in
  (forall j p p' k, profiles d !! j = Some p -> profiles d' !! j = Some p' -> sockets p' !! k <> sockets p !! k ->
     owns (sock_lock j k)) /\
  (length (profiles d') <> length (profiles d) -> owns profiles_lock) /\
  (connection_profile d' <> connection_profile d \/ space_name d' <> space_name d \/ log_uniqueid d' <> log_uniqueid d ->
     owns cdr_lock).
Proof.
  intros owns d d'.
  assert (config_ok rank Written false c) as Hok.
  { eapply reachable_ok; [|exact Hreach]. apply threads_behaved, Forall_true. intros t. split; [|done].
    destruct t; (apply stricter_refl || apply touched_strictest). }
  assert (Forall (every_respects changes) (threads c)) as Hev.
  { assert (PreOrder (fun _ _ : ast => True)) by done.
    eapply (respects_reachable recursive changes (fun _ _ => True)); [done| |exact Hreach].
    apply Forall_fmap, Forall_true. intros t. apply every_program. }
  destruct (owned_step recursive rank changes false i c c' Hok Hev Hstep) as [Hsame|(ls & [(Hp & Hl & Hc) _] & Hown)].
  { fold d d' in Hsame. rewrite Hsame. split; [|split].
    - intros j p p' k Hj Hj' Hne. simplify_eq.
    - done.
    - by intros [?|[?|?]]. }
  fold d in Hp, Hl, Hc. fold d' in Hp, Hl, Hc. split; [|split].
  - intros j p p' k Hj Hj' Hne. destruct (Hp j p Hj) as (q & Hq & _ & Hs). simplify_eq.
    destruct (decide (sock_lock j k ∈ ls)) as [Hin|Hin]; [by apply Hown|]. by rewrite Hs in Hne.
  - intros Hne. destruct (decide (profiles_lock ∈ ls)) as [Hin|Hin]; [by apply Hown|]. by rewrite Hl in Hne.
  - intros Hne. destruct (decide (cdr_lock ∈ ls)) as [Hin|Hin]; [by apply Hown|].
    destruct (Hc Hin) as (? & ? & ?). by destruct Hne as [?|[?|?]].
Qed.

(** The profiles there were are still there, with the same settings. *)
Definition settings_kept (a a' : ast) : Prop := forall j p, profiles a !! j = Some p ->
  exists p', profiles a' !! j = Some p' /\ same_settings p p'.
#[local] Instance settings_kept_preorder : PreOrder settings_kept.
Proof.
  split; [by intros a j p ?; exists p|]. intros a b c H1 H2 j p Hp. destruct (H1 _ _ Hp) as (q & Hq & ?).
  destruct (H2 _ _ Hq) as (r & Hr & ?). exists r. split; [done|]. by transitivity q.
Qed.
Definition kept (a a' : ast) : Prop := settings_kept a a' /\ (ast_ok a -> ast_ok a').
#[local] Instance kept_preorder : PreOrder kept.
Proof. split; [by intros a|]. intros a b c [? ?] [? ?]. split; [by transitivity b|auto]. Qed.

(** C14: whatever the threads do and the network answers, the profiles stay well-formed - the
    strings fit, each pool has as many sockets as its size, one or more, each socket is
    connected if and only if it has a descriptor - and a profile never disappears or changes
    its settings, reloads of a changed configuration included. *)
Theorem profiles_well_formed tasks a w c
  (Hok : ast_ok a) (Hreach : rtc (step recursive) (threads_of tasks a w) c) :
  ast_ok (data (state c)) /\ settings_kept a (data (state c)).
Proof.
  assert (Forall (every_respects changes) (threads (threads_of tasks a w))) as Hev
    by (apply Forall_fmap, Forall_true; intros t; apply every_program).
  destruct (respects_reachable recursive changes kept (threads_of tasks a w) c) as [[Hk Hw] _]; [|done|done|by auto].
  intros ls d d' [(Hp & _) Hwf]. split; [|done]. intros j p Hj. destruct (Hp j p Hj) as (q & ? & ? & _). eauto.
Qed.

End threads.

(** * Examples *)

(** A call, a look-up and a reload at once; nothing has happened yet. *)
Definition ex_tasks : list task := [Call None (Some (lit "f")) None 16; Reload (Categories [])].

Lemma tasks_never_deadlock_witness :
  (exists i, is_Some (step_of true i (@threads_of ex_ast_core ex_tasks ex_ast (ex_aworld [] [])))) /\
  ((forall i p, threads (@threads_of ex_ast_core ex_tasks ex_ast (ex_aworld [] [])) !! i = Some p -> finished p = true) \/
   (exists i, is_Some (step_of true i (@threads_of ex_ast_core ex_tasks ex_ast (ex_aworld [] [])))) \/
   (exists i p, threads (@threads_of ex_ast_core ex_tasks ex_ast (ex_aworld [] [])) !! i = Some p /\ in_operation p = true)).
Proof.
  split; [exists 0%nat; by eexists|].
  apply (@tasks_never_deadlock ex_ast_core true ex_tasks ex_ast (ex_aworld [] [])); [repeat constructor|reflexivity].
Defined.

(** A reload that has taken the mutex adds a profile. *)
Definition ex_reload : list task := [Reload (Categories [(lit "t2", [])])].
Definition ex_started : config mutex ast unit :=
  default (@threads_of ex_ast_core ex_reload ex_ast (ex_aworld [] []))
    (step_of true 0 (@threads_of ex_ast_core ex_reload ex_ast (ex_aworld [] []))).
Definition ex_added : config mutex ast unit := default ex_started (step_of true 0 ex_started).

Lemma ex_started_step : step true (@threads_of ex_ast_core ex_reload ex_ast (ex_aworld [] [])) ex_started.
Proof. by apply (step_thread _ 0). Qed.

Lemma writes_are_locked_witness :
  length (profiles (data (state ex_added))) = 2%nat /\
  exists n, held (state ex_started) !! profiles_lock = Some (0%nat, n).
Proof.
  split; [reflexivity|].
  destruct (@writes_are_locked ex_ast_core true ex_ast_laws ex_reload ex_ast (ex_aworld [] []) ex_started ex_added 0)
    as (_ & Hl & _); [eapply rtc_once, ex_started_step|reflexivity|].
  apply Hl. by vm_compute.
Defined.

Lemma profiles_well_formed_witness : ast_ok (data (state ex_started)) /\ settings_kept ex_ast (data (state ex_started)).
Proof.
  apply (@profiles_well_formed ex_ast_core true ex_ast_laws ex_reload ex_ast (ex_aworld [] [])).
  - repeat constructor; vm_compute; try discriminate; done.
  - eapply rtc_once, ex_started_step.
Defined.

(** * Look-ups *)

(** A profile with a pool of the default size, all its sockets connected. *)
Definition pool_of_four (nm hst usr sec : list Z) (prt tmo : Z) : ast_tarantool_profile :=
  Profile nm hst prt usr sec AST_TNT_DEFAULT_POOL_SIZE tmo
    [Socket 3 true 0; Socket 4 true 0; Socket 5 true 0; Socket 6 true 0].

Definition five_lookups : list task :=
  replicate 5 (Realtime None (Some (lit "ps_endpoints")) [(lit "id", lit "100")]).

(** The first four look-ups each acquire a socket, the fifth waits for the first socket with
    the profile's mutex, the first for that mutex with the list's, and the others for this. *)
Definition deadly_schedule : list nat :=
  replicate 8 0%nat ++ replicate 9 1%nat ++ replicate 10 2%nat ++ replicate 11 3%nat ++ replicate 9 4%nat ++
  replicate 2 0%nat.

Definition all_wait (recursive : bool) (c : config mutex ast unit) : bool :=
  (length (threads c) =? 5)%nat &&
  forallb (fun i => match threads c !! i with
                    | Some p => match waits_for recursive i p (state c) with Some _ => true | None => false end
                    | None => false
                    end) (seq 0 5).

(** C15: five realtime look-ups on a pool of the default size can block each other for ever:
    each waits for a mutex that another one owns, whether or not the mutexes can be locked
    again by their owner. *)
Theorem lookups_deadlock `{!AstCore} recursive nm hst usr sec prt tmo conn sp lu w :
  exists c, rtc (step recursive) (threads_of five_lookups (Ast [pool_of_four nm hst usr sec prt tmo] conn sp lu) w) c /\
    length (threads c) = 5%nat /\
    forall i p, threads c !! i = Some p ->
      is_Some (waits_for recursive i p (state c)) /\ step_of recursive i c = None.
Proof.
  set (c0 := threads_of _ _ _).
  assert ((match run_schedule recursive deadly_schedule c0 with Some c => all_wait recursive c | None => false end) = true) as Hall
    by (destruct recursive; vm_compute; reflexivity).
  destruct (run_schedule recursive deadly_schedule c0) as [c|] eqn:Hrun; [|done].
  apply andb_true_iff in Hall as [Hl%Nat.eqb_eq Hw]. exists c. split; [by eapply run_schedule_rtc|]. split; [done|].
  intros i p Hi. pose proof (lookup_lt_Some _ _ _ Hi) as Hlt. rewrite forallb_forall in Hw.
  specialize (Hw i ltac:(apply in_seq; lia)). rewrite Hi in Hw.
  assert (is_Some (waits_for recursive i p (state c))) as Hs by (by destruct (waits_for _ _ _ _)).
  split; [done|]. by eapply waits_stuck.
Qed.
