(* ===== verification/AstFacts.v ===== *)
(** Requests of the Asterisk resource against the abstract view: what the header reader
    finds, what one exchange on a connection does, and a whole call from the acquisition of
    a connection to its release. *)
From S2P Require Export MpReader AstLocks.

(** * The header of a response *)

(** The numbers the connector reads: those of at most 32 bits. *)
Definition small_val (v : mp) : option Z := match v with MUint W64 _ => None | _ => uint_val v end.

Lemma small_ok buf p v n : small_val v = Some n -> at_ buf p (mp_bytes v) ->
  mp_decode_uint buf p = Some (n, p + len (mp_bytes v)).
Proof.
  intros Hv Hat. assert (uint_val v = Some n) as Hu by (destruct v as [| | |[]| | | | |]; done).
  rewrite ast_decode_uint; [by apply mp_decode_uint_val|].
  destruct v as [| |m|[] m| | | | |]; try done; cbn [mp_bytes] in Hat; destruct Hat as [-> _]; try done.
  cbn in Hu. destruct (_ && _) eqn:E; [|done]. rewrite u8_id by lia. intros [=]. subst. cbn in E. lia.
Qed.

Definition entry_ok (kv : mp * mp) : Prop := is_Some (small_val kv.1) /\ is_Some (small_val kv.2).
Definition entry_code (code : Z) (kv : mp * mp) : Z :=
  if decide (small_val kv.1 = Some 0) then default 0 (small_val kv.2) else code.
(** The response code of a header: its last entry with the key 0, or 0. *)
Definition code_of (header : list (mp * mp)) : Z := foldl entry_code 0 header.

Lemma ast_header_entry buf code kv p : entry_ok kv -> at_ buf p (kv1 kv) ->
  header_entry code buf p = Some (entry_code code kv, p + len (kv1 kv)).
Proof.
  destruct kv as [k v]. intros [[a Hk] [n Hn]] Hat. unfold kv1 in *. cbn [fst snd] in *.
  apply at_app in Hat as [Ha Hv]. unfold header_entry, entry_code. cbn [fst snd].
  rewrite (R_bind_eq _ _ _ _ _ _ (small_ok _ _ _ _ Hk Ha)), Hk, len_app, Z.add_assoc. destruct (a =? 0) eqn:E.
  - replace a with 0 by lia. rewrite decide_True by done. by rewrite (small_ok _ _ _ _ Hn Hv), Hn.
  - apply Z.eqb_neq in E. rewrite decide_False by congruence. by rewrite (R_bind_eq _ _ _ _ _ _ (small_ok _ _ _ _ Hn Hv)).
Qed.

Lemma ast_header_code f header rest : mp_wf (MMap f header) -> Forall entry_ok header ->
  header_code (mp_bytes (MMap f header) ++ rest) 0 = Some (code_of header, len (mp_bytes (MMap f header))).
Proof.
  intros Hwf Hh.
  exact (fold_entries entry_ok header_entry entry_code _ 0 0 f header
    (fun x a p Hx _ => ast_header_entry _ a x p Hx) Hwf Hh ltac:(lia) (at_start _ _)).
Qed.

(** * One exchange *)

Lemma len_hdr_payload rt sync : len (hdr_payload rt sync) <= 32.
Proof.
  assert (forall n, len (mp_encode_uint n) <= 9) as Hu by (intros; apply len_encode_uint).
  unfold hdr_payload. rewrite !len_app. pose proof (Hu rt). pose proof (Hu sync).
  change (len (mp_encode_map 2)) with 1. change (len (mp_encode_uint IPROTO_REQUEST_TYPE)) with 1.
  change (len (mp_encode_uint IPROTO_SYNC)) with 1. lia.
Qed.

(** What a response gives: the result and the bytes stored in a buffer of [n]. *)
Definition exec_result (resp : list Z) (n : Z) : option (Z * list Z) :=
  '(code, p) ← header_code resp 0;
  if negb (code =? IPROTO_OK) then Some (-1, []) else
  stored ← (if 0 <? n then
              let body_sz := u64 (len resp - p) in
              bs ← copy resp p (if body_sz <? n - 1 then body_sz else n - 1); Some (bs ++ [0])
            else Some []);
  Some (i32 (len resp - p), stored).

(** A connected socket of the pool. *)
Definition up (a : ast) (j i : nat) (f : Z) : Prop := exists p s, profiles a !! j = Some p /\
  sockets p !! i = Some s /\ connected s = true /\ fd s = f /\ 0 <= f.

Lemma sock_eq a j i p s w : profiles a !! j = Some p -> sockets p !! i = Some s -> sock j i a w = Ret s a w.
Proof. intros Hp Hs. unfold sock, prof, mbind, M_bind, get. rewrite Hp. cbn. by rewrite Hs. Qed.

(** The pool after a request on a socket. *)
Definition requested (a : ast) (j i : nat) : ast :=
  with_profiles a (alter (fun p => with_sockets p (alter (fun s => set_sync (u64 (sync_id s + 1)) s) i (sockets p))) j
    (profiles a)).

Lemma list_alter_same {A} (f g : A -> A) (l : list A) i x : l !! i = Some x -> f x = g x -> alter f i l = alter g i l.
Proof. revert i. induction l as [|y l IH]; intros [|i] Hi E; try done; cbn in *; [congruence|]. f_equal. by apply IH. Qed.

Lemma requested_eq a j i p s : profiles a !! j = Some p -> sockets p !! i = Some s ->
  with_profiles a (alter (fun p => with_sockets p (alter (set_sync (u64 (sync_id s + 1))) i (sockets p))) j (profiles a)) =
  requested a j i.
Proof.
  intros Hp Hs. unfold requested. f_equal. apply (list_alter_same _ _ _ _ p Hp). f_equal.
  by apply (list_alter_same _ _ _ _ s Hs).
Qed.

(** The rest of an exchange, when the length of the response has been read. *)
Definition take_response (j i : nat) (f n resp_len : Z) : MA (Z * list Z) :=
  ok ← (if 4096 <? resp_len then malloc else mret true);
  if negb ok then mret (-1, []) else
  rbuf ← recv_all retry_none f resp_len;
  match rbuf with
  | None => _ ← drop_conn j i; mret (-1, [])
  | Some rbuf =>
      '(code, p) ← of_read (header_code rbuf 0);
      if negb (code =? IPROTO_OK) then mret (-1, []) else
      out ← (if true && (0 <? n) then
               let body_sz := u64 (resp_len - p) in
               let cpy_sz := if body_sz <? n - 1 then body_sz else n - 1 in
               bs ← of_read (copy rbuf p cpy_sz); mret (bs ++ [0])
             else mret []);
      mret (i32 (resp_len - p), out)
  end.

(** The request is sent and the length of the response read; the response itself is next in
    the stream. *)
Lemma exec_raw_request a w j i f sk rt body n resp evs : up a j i f ->
  socks w !! f = Some sk -> tx sk = [] -> stream retry_none (rx sk) (finalize_packet resp) evs ->
  len resp < 2 ^ 32 -> 0 < len body < 2 ^ 31 ->
  exists sync mid, 0 <= sync < 2 ^ 64 /\ stream retry_none mid resp evs /\
  ast_tarantool_exec_raw (Some (j, i)) rt (Some body) (len body) true n a w =
    take_response j i f n (len resp) (requested a j i)
      (with_sock w f (Sock mid [] (wire sk ++ finalize_packet (hdr_payload rt sync ++ body)))).
Proof.
  intros (p & s & Hp & Hs & Hc & Hf & Hf0) Hw Htx Hstr Hlen Hbody.
  exists (u64 (sync_id s + 1)). set (sync := u64 _). pose proof (u64_range (sync_id s + 1)).
  set (hdr := hdr_payload rt sync).
  assert (len hdr <= 32) as Hh by apply len_hdr_payload.
  rewrite finalize_split in Hstr by done. destruct (stream_app_inv _ _ _ _ Hstr _ _ eq_refl) as (mid & S1 & S2).
  exists mid. split; [done|]. split; [done|].
  pose proof (len_nonneg hdr). unfold ast_tarantool_exec_raw. run (sock_eq a j i p s w Hp Hs). subst f.
  destruct (fd s <? 0) eqn:E0; [lia|]. rewrite Hc. cbn [orb negb]. fold sync. unfold upd at 1. rewrite bind_modify.
  fold hdr. rewrite bind_buffer by done. rewrite (proj2 (Z.ltb_lt 0 (len body))) by lia.
  run (at_copy _ _ _ (at_whole body)). rewrite (u32_id (len hdr + len body)) by lia.
  rewrite (u32_id (5 + _)) by lia.
  assert (concat [MP_UINT32 :: be_bytes 4 (len hdr + len body); hdr; body] = finalize_packet (hdr ++ body)) as ->.
  { rewrite finalize_split by (lens; lia). cbn [concat]. by rewrite app_nil_r, len_app. }
  pose proof (requested_eq a j i p s Hp Hs) as Hq. fold sync in Hq. rewrite Hq. clear Hq.
  run (sys_send_eq (requested a j i) w (fd s) sk (finalize_packet (hdr ++ body)) Hw).
  unfold send_tx. rewrite Htx. cbn [fst snd]. rewrite len_finalize, len_app.
  destruct (_ <? 5 + _) eqn:E1; [lia|]. set (sk1 := Sock (rx sk) [] _).
  run (recv_waitall_ok (fd s) 5 (requested a j i) _ sk1 _ mid (with_sock_lookup w (fd s) sk1) S1 eq_refl).
  rewrite with_sock_twice. cbn [default from_option id]. change (rd (MP_UINT32 :: _) 0) with (Some MP_UINT32).
  rewrite bool_decide_eq_true_2 by done. change (len (MP_UINT32 :: _) =? 5) with true. cbn [negb orb].
  by rewrite (bind_read _ _ _ _ _ (prefix_len_be (len resp) (conj (len_nonneg resp) Hlen))).
Qed.

Lemma take_response_ok j i f n (a : ast) w sk resp evs : socks w !! f = Some sk -> w_malloc w = [] ->
  stream retry_none (rx sk) resp evs ->
  take_response j i f n (len resp) a w = of_read (exec_result resp n) a (with_sock w f (set_rx sk evs)).
Proof.
  intros Hw Hm Hst. unfold take_response.
  assert ((if 4096 <? len resp then malloc else mret true) a w = Ret true a w) as Ha
    by (destruct (4096 <? _); [by apply malloc_free|done]).
  run Ha. cbn [negb]. run (recv_all_ok retry_none f (len resp) a w sk resp evs Hw Hst eq_refl).
  unfold exec_result. unfold mbind at 4, option_bind. destruct (header_code resp 0) as [[code q]|]; [|done].
  rewrite bind_read with (a := (code, q)) by done. destruct (negb _); [done|].
  cbn [andb]. destruct (0 <? n); [|done]. unfold mbind, M_bind, option_bind. by destruct (copy _ _ _).
Qed.

Lemma exec_raw_answer a w j i f sk rt body n resp evs : up a j i f ->
  socks w !! f = Some sk -> tx sk = [] -> w_malloc w = [] -> stream retry_none (rx sk) (finalize_packet resp) evs ->
  len resp < 2 ^ 32 -> 0 < len body < 2 ^ 31 ->
  exists sync, 0 <= sync < 2 ^ 64 /\
  ast_tarantool_exec_raw (Some (j, i)) rt (Some body) (len body) true n a w =
    of_read (exec_result resp n) (requested a j i)
      (with_sock w f (Sock evs [] (wire sk ++ finalize_packet (hdr_payload rt sync ++ body)))).
Proof.
  intros Hup Hw Htx Hm Hstr Hlen Hbody.
  destruct (exec_raw_request a w j i f sk rt body n resp evs Hup Hw Htx Hstr Hlen Hbody) as (sync & mid & Hs & Hmid & ->).
  exists sync. split; [done|]. set (sk1 := Sock mid [] _).
  rewrite (take_response_ok j i f n _ (with_sock w f sk1) sk1 resp evs (with_sock_lookup _ _ _) Hm Hmid). by rewrite with_sock_twice.
Qed.

Lemma copy_prefix buf pre post m : buf = pre ++ post -> 0 <= m <= len post -> copy buf (len pre) m = Some (ztake m post).
Proof.
  intros -> Hm. replace m with (len (ztake m post)) at 1 by (rewrite len_take; lia). apply at_copy.
  rewrite <- (take_drop (Z.to_nat m) post) at 1. apply at_intro.
Qed.

(** The stored bytes: the body cut to the buffer's size less one, and a NUL. *)
Definition stored (n : Z) (rest : list Z) : list Z := if 0 <? n then ztake (n - 1) rest ++ [0] else [].

Lemma exec_result_stored pre rest n : header_code (pre ++ rest) 0 = Some (0, len pre) -> len (pre ++ rest) < 2 ^ 31 ->
  exec_result (pre ++ rest) n = Some (len rest, stored n rest).
Proof.
  intros Hh Hlen. unfold exec_result. rewrite Hh. cbn [mbind option_bind]. change (negb (0 =? IPROTO_OK)) with false.
  cbv iota. lens. pose proof (len_nonneg rest). pose proof (len_nonneg pre).
  replace (len pre + len rest - len pre) with (len rest) by lia. rewrite u64_id, i32_id by lia. unfold stored.
  destruct (0 <? n) eqn:E; [|done].
  rewrite (copy_prefix _ pre rest _ eq_refl) by (destruct (len rest <? n - 1) eqn:E2; lia).
  assert (ztake (if len rest <? n - 1 then len rest else n - 1) rest = ztake (n - 1) rest) as ->; [|done].
  destruct (len rest <? n - 1) eqn:E2; [|done]. unfold ztake, len in *. by rewrite !take_ge by lia.
Qed.

Lemma exec_result_ok f header rest n : mp_wf (MMap f header) -> Forall entry_ok header ->
  len (mp_bytes (MMap f header) ++ rest) < 2 ^ 31 ->
  exec_result (mp_bytes (MMap f header) ++ rest) n =
    Some (if decide (code_of header = 0) then (len rest, stored n rest) else (-1, [])).
Proof.
  intros Hwf Hh Hlen. pose proof (ast_header_code f header rest Hwf Hh) as Hc. destruct (decide _) as [E|E].
  - apply exec_result_stored; [by rewrite Hc, E|done].
  - unfold exec_result. rewrite Hc. cbn [mbind option_bind]. change IPROTO_OK with 0.
    by rewrite (proj2 (Z.eqb_neq _ _) E).
Qed.

(** * The header the server writes *)

(** A response of Tarantool: its code and the schema's version in 32 bits, the request's
    number in 64 bits. *)
Definition server_header (code sync schema : Z) : list (mp * mp) :=
  [(MFix 0, MUint W32 code); (MFix 1, MUint W64 sync); (MFix 5, MUint W32 schema)].

Lemma rloop_step {A} f n (body : A -> R A) a a' buf p p' : 0 < n -> body a buf p = Some (a', p') ->
  rloop (S f) n body a buf p = rloop f (n - 1) body a' buf p'.
Proof. intros Hn Hb. cbn [rloop]. destruct (n <=? 0) eqn:E; [lia|]. by rewrite (R_bind_eq _ _ _ _ _ _ Hb). Qed.

(** The reader passes over the first bytes of the request's number, takes the next two for
    an entry with the key 0, and stops there. *)
Lemma server_header_code code sync schema rest : 0 <= code < 2 ^ 32 -> 0 <= sync < 2 ^ 48 ->
  header_code (mp_bytes (MMap FFix (server_header code sync schema)) ++ rest) 0 = Some (0, 11).
Proof.
  intros Hc Hs. cbn [mp_bytes server_header flat_map fst snd app hdr uint_tag wbytes].
  assert (be_bytes 8 sync = 0 :: 0 :: be_bytes 6 sync) as ->.
  { unfold be_bytes; fold be_bytes. cbn [be_bytes]. repeat f_equal; unfold u8; rewrite Z.shiftr_div_pow2 by lia.
    - cbn. rewrite Z.div_small by lia. done.
    - cbn. rewrite Z.div_small by lia. done. }
  change (u8 0) with 0. change (u8 1) with 1. change (MP_FIXMAP + len (server_header code sync schema)) with 0x83.
  set (post := be_bytes 6 sync ++ u8 5 :: MP_UINT32 :: be_bytes 4 schema ++ rest).
  set (buf := _ :: _). assert (buf = [0x83] ++ kv1 (MFix 0, MUint W32 code) ++ [1; MP_UINT64; 0; 0] ++ post) as Hb.
  { unfold buf, kv1, post. cbn [mp_bytes fst snd app uint_tag wbytes]. rewrite <- !app_assoc. cbn [app].
    by rewrite <- !app_assoc, app_nil_r. }
  assert (at_ buf 1 (kv1 (MFix 0, MUint W32 code))) as H1 by (rewrite Hb; apply (at_intro [0x83])).
  assert (at_ buf 7 [1; MP_UINT64; 0; 0]) as (H7 & H8 & H9 & H10 & _).
  { rewrite Hb, app_assoc. apply (at_intro ([0x83] ++ kv1 (MFix 0, MUint W32 code))). }
  unfold header_code. rewrite (R_bind_eq _ _ _ _ _ _ (eq_refl : mp_decode_map buf 0 = Some (3, 1))). unfold rfor.
  destruct (length buf) as [|[|k]] eqn:El; [done|done|].
  assert (small_val (MUint W32 code) = Some code) as Hv.
  { change (uint_val (MUint W32 code) = Some code). apply uint_val_ok. by split. }
  rewrite (rloop_step _ _ _ _ code _ _ 7); [|done|].
  2: { assert (entry_ok (MFix 0, MUint W32 code)) as He by (split; [by exists 0|by exists code]).
       rewrite (ast_header_entry _ _ _ _ He H1). unfold entry_code. cbn [fst snd]. by rewrite decide_True, Hv. }
  clearbody buf. change (7 + 1 + 1 + 1) with 10 in *. change (7 + 1 + 1) with 9 in *. change (7 + 1) with 8 in *.
  assert (header_entry code buf 7 = Some (code, 9)) as E7.
  { unfold header_entry, mp_decode_uint, getb, mbind, R_bind. rewrite H7. cbn. change (7 + 1) with 8. by rewrite H8. }
  assert (header_entry code buf 9 = Some (0, 11)) as E9.
  { unfold header_entry, mp_decode_uint, getb, mbind, R_bind. rewrite H9. cbn. change (9 + 1) with 10. by rewrite H10. }
  rewrite (rloop_step _ _ _ _ code _ _ 9), (rloop_step _ _ _ _ 0 _ _ 11) by done.
  by destruct k.
Qed.

(** * Acquiring a connection *)

Lemma is_down_up a j i f w : up a j i f -> is_down j i a w = Ret false a w.
Proof.
  intros (p & s & Hp & Hs & Hc & Hf & Hf0). unfold is_down. rewrite (bind_ret _ _ _ _ _ _ _ (sock_eq a j i p s w Hp Hs)).
  rewrite Hc, Hf. cbn [negb orb]. by rewrite (proj2 (Z.ltb_ge f 0)).
Qed.

Section alone.
Context (recursive : bool) (me : nat).

(** What lets a thread acquire the socket [i] of the profile [j] by the name [nm]: the
    mutexes of the list and of the profile are free, the socket's can be taken, which gives
    [h'], and those of the sockets before it cannot; the socket is connected. *)
Record acquires (a : ast) (h : gmap mutex (nat * nat)) (nm : option (list Z)) (j i : nat) (f : Z)
    (h' : gmap mutex (nat * nat)) : Prop := {
  acq_found : find_profile (profiles a) nm = Some j;
  acq_pool : exists p, profiles a !! j = Some p /\ Z.of_nat i < pool_size p;
  acq_up : up a j i f;
  acq_list : h !! profiles_lock = None;
  acq_prof : h !! prof_lock j = None;
  acq_sock : take_mutex recursive me (sock_lock j i) h = Some h';
  acq_count : forall o n, h !! sock_lock j i = Some (o, n) -> (0 < n)%nat;
  acq_busy : forall k, (k < i)%nat -> take_mutex recursive me (sock_lock j k) h = None
}.

Lemma try_sockets_run a h h' w nm j i f : acquires a h nm j i f h' ->
  forall n k, (k <= i)%nat -> (i - k < n)%nat ->
  alone recursive me (try_sockets n j k) (Shared a (<[prof_lock j := (me, 1%nat)]> h)) w = Ret (Some (j, i)) (Shared a h') w.
Proof.
  intros Hacq n. induction n as [|n IH]; intros k Hk Hn; [lia|]. cbn [try_sockets].
  rewrite alone_trylock, take_mutex_other by done. destruct (decide (k = i)) as [->|Hne].
  - rewrite (acq_sock _ _ _ _ _ _ _ Hacq). cbn [fmap option_fmap option_map]. cbv iota.
    rewrite (alone_atomic _ _ _ _ _ _ _ _ _ _ _ (is_down_up a j i f w (acq_up _ _ _ _ _ _ _ Hacq))).
    cbv beta iota. change ((mret 0 : PA Z) ≫= ?k) with (k 0). cbv beta. change (0 <? 0) with false. cbv iota.
    rewrite alone_unlock by (by rewrite lookup_insert_eq). rewrite delete_insert_id; [done|].
    rewrite (take_mutex_keeps _ _ (sock_lock j i) (prof_lock j) _ _ ltac:(done) (acq_sock _ _ _ _ _ _ _ Hacq)).
    apply (acq_prof _ _ _ _ _ _ _ Hacq).
  - rewrite (acq_busy _ _ _ _ _ _ _ Hacq) by lia. cbn [fmap option_fmap option_map]. cbv iota. apply IH; lia.
Qed.

Lemma acquire_run a h h' w nm j i f : acquires a h nm j i f h' ->
  alone recursive me (ast_tarantool_acquire_conn nm) (Shared a h) w = Ret (Some (j, i)) (Shared a h') w.
Proof.
  intros Hacq. pose proof Hacq as [Hf (p & Hp & Hi) Hup H1 H2 H3 _ Hbusy].
  unfold ast_tarantool_acquire_conn. rewrite alone_lock by done.
  rewrite (alone_atomic _ _ _ _ _ _ _ _ (Some j) a w) by (by rewrite bind_get, Hf).
  rewrite alone_lock by (by rewrite lookup_insert_ne).
  rewrite alone_unlock by (by rewrite lookup_insert_ne, lookup_insert_eq).
  rewrite (alone_atomic _ _ _ _ _ _ _ _ (pool_size p) a w).
  2: { unfold prof, mbind, M_bind, get. cbn. by rewrite Hp. }
  assert (delete profiles_lock (<[prof_lock j := (me, 1%nat)]> (<[profiles_lock := (me, 1%nat)]> h)) =
          <[prof_lock j := (me, 1%nat)]> h) as ->.
  { rewrite delete_insert_ne, delete_insert_id by done. done. }
  apply (try_sockets_run a h h' w nm j i f Hacq); lia.
Qed.

(** A request on a connection: acquired, used and released. *)
Lemma on_conn_run a h h' w nm j i f sk rt body n resp evs : acquires a h nm j i f h' ->
  socks w !! f = Some sk -> tx sk = [] -> w_malloc w = [] ->
  stream retry_none (rx sk) (finalize_packet resp) evs -> len resp < 2 ^ 32 -> 0 < len body <= 2048 ->
  forall r out, exec_result resp n = Some (r, out) -> exists sync, 0 <= sync < 2 ^ 64 /\
  alone recursive me (on_conn nm rt body n) (Shared a h) w =
    Ret (if 0 <=? r then 0 else -1, out) (Shared (requested a j i) h)
      (with_sock w f (Sock evs [] (wire sk ++ finalize_packet (hdr_payload rt sync ++ body)))).
Proof.
  intros Hacq Hw Htx Hm Hst Hl Hb r out Hr. pose proof (acq_up _ _ _ _ _ _ _ Hacq) as Hup.
  destruct (exec_raw_answer a w j i f sk rt body n resp evs Hup Hw Htx Hm Hst Hl ltac:(lia)) as (sync & Hs & He).
  exists sync. split; [done|]. unfold on_conn. rewrite alone_bind.
  rewrite (bind_ret _ _ _ _ _ _ _ (acquire_run a h h' w nm j i f Hacq)).
  rewrite (alone_atomic _ _ _ _ _ _ _ _ tt a w) by (unfold in_buffer; by rewrite (proj2 (Z.leb_le _ _)) by lia).
  rewrite Hr in He. rewrite (alone_atomic _ _ _ _ _ _ _ _ _ _ _ He). cbn [ast_tarantool_release_conn fst snd].
  by rewrite (alone_drop _ _ _ _ _ _ _ _ (acq_sock _ _ _ _ _ _ _ Hacq) (acq_count _ _ _ _ _ _ _ Hacq)).
Qed.

(** A request too long for the array of the body is never sent: the array is overrun. *)
Lemma on_conn_overflow a h h' w nm j i f rt body n : acquires a h nm j i f h' -> 2048 < len body ->
  alone recursive me (on_conn nm rt body n) (Shared a h) w = Undef.
Proof.
  intros Hacq Hb. unfold on_conn. rewrite alone_bind.
  rewrite (bind_ret _ _ _ _ _ _ _ (acquire_run a h h' w nm j i f Hacq)). cbn. unfold in_buffer.
  by rewrite (proj2 (Z.leb_gt _ _)) by lia.
Qed.

End alone.

(** * Requests as values *)

Lemma ast_str_bytes s : len s < 2 ^ 32 -> mp_str s = mp_bytes (mstr s).
Proof. intros. rewrite ast_str. by apply mp_str_bytes. Qed.

Definition request_header (rt sync : Z) : list (mp * mp) :=
  [(uint_mp IPROTO_REQUEST_TYPE, uint_mp rt); (uint_mp IPROTO_SYNC, uint_mp sync)].
(** A single string, or nothing. *)
Definition arg_list (params : option (list Z)) : list mp :=
  match params with None | Some [] => [] | Some x => [mstr x] end.

Lemma ast_call_request rt sync proc params : len proc < 2 ^ 32 -> len (default [] params) < 2 ^ 32 ->
  hdr_payload rt sync ++ call_body proc params =
  request (request_header rt sync)
    [(uint_mp IPROTO_FUNCTION_NAME, mstr proc); (uint_mp IPROTO_TUPLE, MArr FFix (arg_list params))].
Proof.
  intros H1 H2. unfold hdr_payload, call_body, arg_list, request_header. rewrite (ast_str_bytes proc) by done.
  destruct params as [[|c x]|]; cbn [default from_option id] in H2; rewrite ?ast_str_bytes by done;
    request_bytes; reflexivity.
Qed.

Lemma ast_eval_request rt sync e : len e < 2 ^ 32 ->
  hdr_payload rt sync ++ eval_body e =
  request (request_header rt sync) [(uint_mp IPROTO_EXPR, mstr e); (uint_mp IPROTO_TUPLE, MArr FFix [])].
Proof.
  intros H. unfold hdr_payload, eval_body, request_header. rewrite (ast_str_bytes e) by done. request_bytes. reflexivity.
Qed.

Lemma len_call_body proc params : len (call_body proc params) <= 14 + len proc + len (default [] params).
Proof.
  assert (forall s : list Z, len (mp_str s) <= 5 + len s) as Hs.
  { intros s. unfold mp_str, mp_encode_str. rewrite len_app.
    assert (len (if 0 <? u32 (len s) then ztake (u32 (len s)) s else []) <= len s).
    { destruct (0 <? _); [|apply len_nonneg]. rewrite len_take. pose proof (len_nonneg s). lia. }
    repeat case_match; lens; lia. }
  unfold call_body. rewrite !len_app. pose proof (Hs proc).
  change (len (mp_encode_map 2)) with 1. change (len (mp_encode_uint IPROTO_FUNCTION_NAME)) with 1.
  change (len (mp_encode_uint IPROTO_TUPLE)) with 1.
  destruct params as [[|c x]|]; cbn [default from_option id]; rewrite ?len_app; try pose proof (Hs (c :: x));
    rewrite ?len_cons in *; change (len (mp_encode_array 0)) with 1; change (len (mp_encode_array 1)) with 1;
    change (len (@nil Z)) with 0; lia.
Qed.
