(* ===== verification/AstSpec.v ===== *)
(** What the Asterisk modules do with a server's answer: calls, evaluations, realtime
    look-ups and dialplan functions, from the acquisition of a connection to its release;
    and what becomes of the answers a Tarantool server gives. *)
From S2P Require Export AstFacts AstText.

(** The server answers [resp] to the next request on the connection [f], whatever the cuts. *)
Definition ast_answers (w : world) (f : Z) (resp : list Z) (evs : list rx_ev) (sk : Net.sock) : Prop :=
  socks w !! f = Some sk /\ tx sk = [] /\ w_malloc w = [] /\ stream retry_none (rx sk) (finalize_packet resp) evs.

(** The world after the request. *)
Definition exchanged (w : world) (f : Z) (sk : Net.sock) (evs : list rx_ev) (req : list Z) : world :=
  with_sock w f (Sock evs [] (wire sk ++ finalize_packet req)).

(** A response the connector understands: numbers of at most 32 bits in the header. *)
Definition plain (f : mpfmt) (header : list (mp * mp)) (rest : list Z) : Prop :=
  mp_wf (MMap f header) /\ Forall entry_ok header /\ len (mp_bytes (MMap f header) ++ rest) < 2 ^ 31.

Section spec.
Context (recursive : bool) (me : nat).

(** * Calls *)

(** The request and the result of a call to which the server answers [resp]. *)
Lemma call_run a h h' w nm proc params n j i f sk resp evs r out :
  acquires recursive me a h nm j i f h' -> ast_answers w f resp evs sk -> len resp < 2 ^ 32 ->
  len proc + len (default [] params) <= 2034 -> exec_result resp n = Some (r, out) ->
  exists sync, 0 <= sync < 2 ^ 64 /\
  alone recursive me (ast_tarantool_call nm (Some proc) params n) (Shared a h) w =
    Ret (if 0 <=? r then 0 else -1, out) (Shared (requested a j i) h)
      (exchanged w f sk evs (request (request_header IPROTO_CALL sync)
         [(uint_mp IPROTO_FUNCTION_NAME, mstr proc); (uint_mp IPROTO_TUPLE, MArr FFix (arg_list params))])).
Proof.
  intros Hacq (Hw & Htx & Hm & Hst) Hl Hlen Hr. pose proof (len_call_body proc params). pose proof (len_nonneg proc).
  assert (0 < len (call_body proc params)).
  { unfold call_body. rewrite len_app. change (len (mp_encode_map 2)) with 1.
    pose proof (len_nonneg (mp_encode_uint IPROTO_FUNCTION_NAME ++ mp_str proc ++ mp_encode_uint IPROTO_TUPLE ++
      match params with None | Some [] => mp_encode_array 0 | Some x => mp_encode_array 1 ++ mp_str x end)). lia. }
  pose proof (len_nonneg (default [] params)).
  destruct (on_conn_run recursive me a h h' w nm j i f sk IPROTO_CALL (call_body proc params) n resp evs
    Hacq Hw Htx Hm Hst Hl ltac:(lia) r out Hr) as (sync & Hs & He).
  exists sync. split; [done|]. unfold ast_tarantool_call, exchanged. rewrite He. by rewrite ast_call_request by lia.
Qed.

(** C11: calling a procedure over the pool, with a name and an argument of at most 2034 bytes
    together, acquires a connection, sends one CALL with the name and the single argument, and
    gives every mutex back. For a response whose header has only numbers of at most 32 bits
    (so not for those of a Tarantool server, which writes the request's number in 64 bits: the
    misreading of these is another property): when the response type is 0 the result is 0 and
    the buffer holds the response's body, cut to the buffer's size less one, and a NUL; any
    other type gives -1 and leaves the buffer alone. *)
Theorem call_returns_body a h h' w nm proc params n j i f sk fh header rest evs
  (Hacq : acquires recursive me a h nm j i f h')
  (Hok : plain fh header rest) (Hans : ast_answers w f (mp_bytes (MMap fh header) ++ rest) evs sk)
  (Hlen : len proc + len (default [] params) <= 2034) :
  exists sync, 0 <= sync < 2 ^ 64 /\
  alone recursive me (ast_tarantool_call nm (Some proc) params n) (Shared a h) w =
    Ret (if decide (code_of header = 0) then (0, stored n rest) else (-1, [])) (Shared (requested a j i) h)
      (exchanged w f sk evs (request (request_header IPROTO_CALL sync)
         [(uint_mp IPROTO_FUNCTION_NAME, mstr proc); (uint_mp IPROTO_TUPLE, MArr FFix (arg_list params))])).
Proof.
  destruct Hok as (Hwf & Hh & Hl). pose proof (exec_result_ok fh header rest n Hwf Hh Hl) as Hr.
  pose proof (len_nonneg rest). destruct (decide (code_of header = 0)).
  - destruct (call_run _ _ _ _ _ _ _ _ _ _ _ _ _ _ _ _ Hacq Hans ltac:(lia) Hlen Hr) as (sync & Hs & ->).
    exists sync. split; [done|]. by rewrite (proj2 (Z.leb_le 0 _)).
  - destruct (call_run _ _ _ _ _ _ _ _ _ _ _ _ _ _ _ _ Hacq Hans ltac:(lia) Hlen Hr) as (sync & Hs & ->).
    by exists sync.
Qed.

(** * The answers of a Tarantool server *)

(** The bytes the connector takes for the body of such an answer. *)
Definition misread (code sync schema : Z) (rest : list Z) : list Z :=
  zdrop 11 (mp_bytes (MMap FFix (server_header code sync schema)) ++ rest).

Lemma server_result code sync schema rest n : 0 <= code < 2 ^ 32 -> 0 <= sync < 2 ^ 48 -> len rest < 2 ^ 30 ->
  exists r, 0 <= r /\ exec_result (mp_bytes (MMap FFix (server_header code sync schema)) ++ rest) n =
    Some (r, stored n (misread code sync schema rest)).
Proof.
  intros Hc Hs Hl. unfold misread. pose proof (server_header_code code sync schema rest Hc Hs) as Hh.
  assert (len (mp_bytes (MMap FFix (server_header code sync schema))) = 23) as Hn by reflexivity.
  set (bs := mp_bytes (MMap FFix (server_header code sync schema)) ++ rest) in *.
  assert (len bs < 2 ^ 31) as Hb by (unfold bs; rewrite len_app; lia).
  assert (bs = ztake 11 bs ++ zdrop 11 bs) as E by (symmetry; apply take_drop).
  assert (len (ztake 11 bs) = 11) as H11 by (rewrite len_take; unfold bs; rewrite len_app; pose proof (len_nonneg rest); lia).
  exists (len (zdrop 11 bs)). split; [apply len_nonneg|]. rewrite E at 1. apply exec_result_stored; rewrite <- E; [|done].
  by rewrite H11.
Qed.

(** The first of them is the third byte of the request's number. *)
Lemma misread_first code sync schema rest : 0 <= sync < 2 ^ 40 ->
  exists tl, misread code sync schema rest = 0 :: tl.
Proof.
  intros Hs. assert (u8 (Z.shiftr sync 40) = 0) as H0.
  { rewrite Z.shiftr_div_pow2 by lia. by rewrite Z.div_small. }
  unfold misread. cbn [mp_bytes server_header flat_map fst snd app hdr uint_tag wbytes].
  rewrite (be_bytes_4 code). 
  change (be_bytes 8 sync) with (u8 (Z.shiftr sync 56) :: u8 (Z.shiftr sync 48) :: u8 (Z.shiftr sync 40) :: be_bytes 5 sync).
  rewrite H0. eexists. reflexivity.
Qed.

(** C35: the answer of a Tarantool server, whose header has the request's number in 64 bits,
    is taken for a success whatever its code: up to the 2^48th request of a connection the
    result is 0 and the buffer holds, instead of the body, the rest of the header from the
    number's third byte on. *)
Theorem server_errors_are_successes a h h' w nm proc params n j i f sk code sync schema rest evs
  (Hacq : acquires recursive me a h nm j i f h') (Hc : 0 <= code < 2 ^ 32) (Hs : 0 <= sync < 2 ^ 48)
  (Hans : ast_answers w f (mp_bytes (MMap FFix (server_header code sync schema)) ++ rest) evs sk)
  (Hl : len rest < 2 ^ 30) (Hlen : len proc + len (default [] params) <= 2034) :
  exists req,
  alone recursive me (ast_tarantool_call nm (Some proc) params n) (Shared a h) w =
    Ret (0, stored n (misread code sync schema rest)) (Shared (requested a j i) h) (exchanged w f sk evs req).
Proof.
  destruct (server_result code sync schema rest n Hc Hs Hl) as (r & Hr0 & Hr).
  assert (len (mp_bytes (MMap FFix (server_header code sync schema))) = 23) as Hn by reflexivity.
  destruct (call_run _ _ _ _ _ _ _ _ _ _ _ _ _ _ _ _ Hacq Hans ltac:(rewrite len_app; lia) Hlen Hr) as (s & _ & ->).
  eexists. by rewrite (proj2 (Z.leb_le 0 r)).
Qed.

(** A procedure's name and argument that together leave the array of the body, of 2048
    bytes, overrun it: an update whose text has from 2022 to 2047 bytes fits the array of its
    own and overruns that of the call. *)
Theorem long_update_overruns a h h' w db table keyfield entity fields j i f args
  (Hacq : acquires recursive me a h db j i f h') (Hfields : fields <> [])
  (Hargs : update_args table keyfield entity fields = Some args) (Hlen : 2021 < len args) :
  alone recursive me (update_tarantool db (Some table) (Some keyfield) (Some entity) fields) (Shared a h) w = Undef.
Proof.
  destruct fields as [|x fields]; [done|]. unfold update_tarantool, call_args. rewrite Hargs.
  rewrite (alone_atomic _ _ _ _ _ _ _ _ args a w) by done. rewrite alone_bind. unfold ast_tarantool_call.
  rewrite bind_undef; [done|]. apply (on_conn_overflow recursive me a h h' w db j i f); [done|].
  assert (len args <= 2047) as Hmax.
  { pose proof (object_text (update_head table keyfield entity) (x :: fields) Hfields : update_args _ _ _ _ = _) as Ht.
    rewrite Hargs in Ht. destruct (2048 <? _); [done|]. injection Ht as ->. rewrite len_take. lia. }
  destruct args as [|c args]; [done|]. unfold call_body. rewrite !len_app.
  change (len (mp_encode_map 2)) with 1. change (len (mp_encode_uint IPROTO_FUNCTION_NAME)) with 1.
  change (len (mp_encode_uint IPROTO_TUPLE)) with 1. change (len (mp_str (lit "ast_realtime_update"))) with 20.
  change (len (mp_encode_array 1)) with 1. set (s := c :: args) in *. unfold mp_str, mp_encode_str.
  rewrite u32_id by lia. rewrite (proj2 (Z.leb_gt _ 31)), (proj2 (Z.leb_gt _ 0xff)), (proj2 (Z.leb_le _ 0xffff)) by lia.
  rewrite (proj2 (Z.ltb_lt 0 _)) by lia. rewrite len_app, ztake_all by lia. lens. lia.
Qed.

(** When no memory can be had for a response of more than 4096 bytes the request fails,
    but the connection stays up with the whole response still to be read: the next request
    on it will take these bytes for its own answer. *)
Theorem no_memory_leaves_response a w j i f sk rt body n resp evs ms
  (Hup : up a j i f) (Hw : socks w !! f = Some sk) (Htx : tx sk = [])
  (Hst : stream retry_none (rx sk) (finalize_packet resp) evs) (Hl : 4096 < len resp < 2 ^ 32)
  (Hbody : 0 < len body < 2 ^ 31) (Hm : w_malloc w = false :: ms) :
  exists w' sk', ast_tarantool_exec_raw (Some (j, i)) rt (Some body) (len body) true n a w =
      Ret (-1, []) (requested a j i) w' /\
    up (requested a j i) j i f /\ socks w' !! f = Some sk' /\ stream retry_none (rx sk') resp evs.
Proof.
  destruct (exec_raw_request a w j i f sk rt body n resp evs Hup Hw Htx Hst ltac:(lia) Hbody) as (sync & mid & _ & Hmid & ->).
  set (sk1 := Sock mid [] _). exists (sys_malloc (with_sock w f sk1)).2, sk1.
  assert (sys_malloc (with_sock w f sk1) = (false, (sys_malloc (with_sock w f sk1)).2)) as Hsm.
  { unfold sys_malloc. cbn [w_malloc with_sock set_socks]. by rewrite Hm. }
  split; [|split; [|split; [|done]]].
  - unfold take_response. rewrite (proj2 (Z.ltb_lt 4096 _)) by lia.
    rewrite (bind_ret _ _ _ _ false (requested a j i) (sys_malloc (with_sock w f sk1)).2); [done|].
    unfold malloc, sys. by rewrite Hsm.
  - destruct Hup as (p & s & Hp & Hs & Hc & Hf & Hf0). unfold up, requested. cbn [profiles with_profiles].
    rewrite list_lookup_alter_eq, Hp. eexists _, _. split; [done|]. cbn [sockets with_sockets].
    by rewrite list_lookup_alter_eq, Hs.
  - unfold sys_malloc. cbn [w_malloc with_sock set_socks]. rewrite Hm. apply (with_sock_lookup w f).
Qed.

(** * Call records *)

(** A record is logged by one call of [ast_cdr_save] with the record's text, made while the
    mutex of the settings is held; the result is 0 whatever the server answers, if the driver
    can read it, and the mutex is given back. *)
Theorem cdr_log_calls_save a h h' w cdr j i f sk resp evs r
  (Hfree : h !! cdr_lock = None)
  (Hacq : acquires recursive me a (<[cdr_lock := (me, 1%nat)]> h) (Some (connection_profile a)) j i f h')
  (Hans : ast_answers w f resp evs sk) (Hl : len resp < 2 ^ 32) (Hr : exec_result resp 256 = Some r)
  (Hlen : len (cdr_args a cdr) <= 2022) :
  exists sync, 0 <= sync < 2 ^ 64 /\
  alone recursive me (tarantool_cdr_log (Some cdr)) (Shared a h) w =
    Ret 0 (Shared (requested a j i) h)
      (exchanged w f sk evs (request (request_header IPROTO_CALL sync)
         [(uint_mp IPROTO_FUNCTION_NAME, mstr (lit "ast_cdr_save"));
          (uint_mp IPROTO_TUPLE, MArr FFix [mstr (cdr_args a cdr)])])).
Proof.
  destruct (call_run a _ h' w (Some (connection_profile a)) (lit "ast_cdr_save") (Some (cdr_args a cdr)) 256 j i f sk _ evs
    r.1 r.2 Hacq Hans ltac:(lia) ltac:(change (len (lit "ast_cdr_save")) with 12; cbn [default from_option id]; lia)
    ltac:(by rewrite <- surjective_pairing)) as (sync & Hs & He).
  exists sync. split; [done|]. unfold tarantool_cdr_log.
  rewrite (alone_atomic _ _ _ _ _ _ _ _ (cdr_args a cdr) a w) by done. rewrite alone_lock by done.
  rewrite (alone_atomic _ _ _ _ _ _ _ _ (connection_profile a) a w) by done. rewrite alone_bind.
  rewrite (bind_ret _ _ _ _ _ _ _ He). rewrite alone_unlock by (by rewrite lookup_insert_eq).
  rewrite delete_insert_id by done. unfold arg_list. by destruct (cdr_args a cdr) eqn:E.
Qed.

(** * Look-ups *)

(** A look-up acquires two connections: one that it only holds, and the call's. *)
Definition acquires_two (a : ast) (h : gmap mutex (nat * nat)) (nm : option (list Z)) (j i : nat) (f : Z) : Prop :=
  exists i0 f0 h1 h2, acquires recursive me a h nm j i0 f0 h1 /\ acquires recursive me a h1 nm j i f h2.

Lemma realtime_run a h w db table x fs j i f sk resp evs r out :
  acquires_two a h db j i f -> ast_answers w f resp evs sk -> len resp < 2 ^ 32 -> len (lookup_args table x) < 1024 ->
  exec_result resp 4096 = Some (r, out) -> exists req,
  alone recursive me (realtime_tarantool db (Some table) (x :: fs)) (Shared a h) w =
  alone recursive me
    (if r <? 0 then mret [] else if bool_decide (rd out 0 = Some 0) then mret [] else atomic [] (read_answer out (x :: fs)))
    (Shared (requested a j i) h) (exchanged w f sk evs req).
Proof.
  intros (i0 & f0 & h1 & h2 & H1 & H2) Hans Hl Ht Hr. pose proof (len_nonneg (lookup_args table x)).
  destruct (call_run a h1 h2 w db (lit "ast_realtime_get") (Some (lookup_args table x)) 4096 j i f sk resp evs r out
    H2 Hans Hl ltac:(change (len (lit "ast_realtime_get")) with 16; cbn [default from_option id]; lia) Hr) as (sync & _ & He).
  eexists. unfold realtime_tarantool. rewrite alone_bind.
  rewrite (bind_ret _ _ _ _ _ _ _ (acquire_run recursive me a h h1 w db j i0 f0 H1)). cbv beta iota.
  destruct (1024 <=? _) eqn:E; [lia|]. rewrite alone_bind, (bind_ret _ _ _ _ _ _ _ He). cbn [ast_tarantool_release_conn].
  rewrite (alone_drop _ _ _ _ _ _ _ _ (acq_sock _ _ _ _ _ _ _ _ _ H1) (acq_count _ _ _ _ _ _ _ _ _ H1)).
  destruct (0 <=? r) eqn:E0; [|rewrite (proj2 (Z.ltb_lt r 0)) by lia; reflexivity].
  rewrite (proj2 (Z.ltb_ge r 0)) by lia. reflexivity.
Qed.

Lemma new_variables_ok vars (a : ast) w : w_malloc w = [] -> new_variables vars a w = Ret vars a w.
Proof.
  intros Hm. induction vars as [|v vars IH]; [done|]. cbn [new_variables]. run (malloc_free a w Hm). run IH. done.
Qed.

(** The first byte of a map is not the tag of an array the modules look for. *)
Lemma map_first f kvs rest : mp_wf (MMap f kvs) -> exists t tl, mp_bytes (MMap f kvs) ++ rest = t :: tl /\
  (t =? MP_FIXARRAY) || (t =? MP_ARRAY16) || (t =? MP_ARRAY32) = false /\ t <> 0.
Proof.
  intros (Hf & _)%mp_wf_map. pose proof (len_nonneg kvs). cbn [mp_bytes].
  destruct f; cbn [hdr fmt_ok app] in *; try (destruct Hf; discriminate); eexists _, _; (split; [done|]).
  - unfold MP_FIXMAP, MP_FIXARRAY, MP_ARRAY16, MP_ARRAY32. lia.
  - done.
  - done.
Qed.

Lemma stored_first n t tl : 1 < n -> exists tl', stored n (t :: tl) = t :: tl'.
Proof.
  intros Hn. unfold stored. rewrite (proj2 (Z.ltb_lt 0 n)) by lia. unfold ztake.
  destruct (Z.to_nat (n - 1)) eqn:E; [lia|]. cbn. eauto.
Qed.

(** A look-up that the server answers with a response body, which is a map, gives the
    fields that were looked up: whatever the record, none of its columns is ever read. *)
Theorem lookup_reflects_fields a h w db table x fs j i f sk fh header fb body evs
  (Hacq : acquires_two a h db j i f) (Hok : plain fh header (mp_bytes (MMap fb body)))
  (Hcode : code_of header = 0) (Hbody : mp_wf (MMap fb body))
  (Hans : ast_answers w f (mp_bytes (MMap fh header) ++ mp_bytes (MMap fb body)) evs sk)
  (Ht : len (lookup_args table x) < 1024) :
  exists req, alone recursive me (realtime_tarantool db (Some table) (x :: fs)) (Shared a h) w =
    Ret (x :: fs) (Shared (requested a j i) h) (exchanged w f sk evs req).
Proof.
  destruct Hok as (Hwf & Hh & Hl). pose proof (exec_result_ok fh header _ 4096 Hwf Hh Hl) as Hr.
  rewrite Hcode, decide_True in Hr by done. pose proof Hans as (_ & _ & Hm & _).
  destruct (realtime_run a h w db table x fs j i f sk _ evs _ _ Hacq Hans ltac:(lia) Ht Hr) as [req ->].
  exists req. rewrite (proj2 (Z.ltb_ge _ 0)) by apply len_nonneg.
  destruct (map_first fb body [] Hbody) as (t & tl & Et & Htag & H0). rewrite app_nil_r in Et. rewrite Et.
  destruct (stored_first 4096 t tl ltac:(done)) as [tl' ->].
  rewrite bool_decide_eq_false_2 by (intros [=]; congruence).
  assert (answer_vars (t :: tl') 0 = Some (None, 0)) as Hv.
  { unfold answer_vars. rewrite (R_bind_eq _ _ _ _ _ _ (eq_refl : peek 0 (t :: tl') 0 = Some (t, 0))). by rewrite Htag. }
  change (alone recursive me (atomic [] (read_answer (t :: tl') (x :: fs)) : PA (list variable)) (Shared ?d ?h) ?w)
    with (match read_answer (t :: tl') (x :: fs) d w with Ret v d' w' => Ret v (Shared d' h) w' | Hang => Hang | Undef => Undef end).
  unfold read_answer. rewrite (bind_read _ _ _ _ _ Hv). cbv beta iota. by rewrite new_variables_ok.
Qed.

(** Against a Tarantool server a look-up finds nothing up to the 2^40th request of the
    connection, whatever the server answers. *)
Theorem lookup_finds_nothing a h w db table x fs j i f sk code sync schema rest evs
  (Hacq : acquires_two a h db j i f) (Hc : 0 <= code < 2 ^ 32) (Hs : 0 <= sync < 2 ^ 40) (Hl : len rest < 2 ^ 30)
  (Hans : ast_answers w f (mp_bytes (MMap FFix (server_header code sync schema)) ++ rest) evs sk)
  (Ht : len (lookup_args table x) < 1024) :
  exists req, alone recursive me (realtime_tarantool db (Some table) (x :: fs)) (Shared a h) w =
    Ret [] (Shared (requested a j i) h) (exchanged w f sk evs req).
Proof.
  destruct (server_result code sync schema rest 4096 Hc ltac:(lia) Hl) as (r & Hr0 & Hr).
  assert (len (mp_bytes (MMap FFix (server_header code sync schema))) = 23) as Hn by reflexivity.
  destruct (realtime_run a h w db table x fs j i f sk _ evs _ _ Hacq Hans ltac:(rewrite len_app; lia) Ht Hr) as [req ->].
  exists req. rewrite (proj2 (Z.ltb_ge _ 0)) by done.
  destruct (misread_first code sync schema rest Hs) as [tl ->]. destruct (stored_first 4096 0 tl ltac:(done)) as [tl' ->].
  by rewrite bool_decide_eq_true_2.
Qed.

(** * Dialplan functions *)

(** The arguments the function finds in its data: a profile, a procedure, and perhaps the
    rest of the data. *)
Definition function_args `{!AstCore} (data profile proc rest : list Z) : Prop :=
  data <> [] /\ profile <> [] /\ proc <> [] /\ arg (app_args 3 data) 0 = profile /\
  arg (app_args 3 data) 1 = proc /\ arg (app_args 3 data) 2 = rest.

Lemma len_params_json args : len (params_json args) <= 4 + len args.
Proof.
  destruct args as [|c args]; [done|]. unfold params_json, snprintf, quoted. rewrite len_take, !len_app.
  change (len (lit "[")) with 1. change (len (lit "]")) with 1. change (len [quote]) with 1.
  pose proof (len_nonneg (c :: args)). lia.
Qed.

Lemma function_run `{!AstCore} a h h' w data profile proc args n j i f sk resp evs r out :
  acquires recursive me a h (Some profile) j i f h' -> ast_answers w f resp evs sk -> len resp < 2 ^ 32 ->
  function_args data profile proc args -> len proc + len args <= 2030 -> exec_result resp 4096 = Some (r, out) ->
  0 <= r -> exists req,
  alone recursive me (function_tarantool_read (Some data) n) (Shared a h) w =
  alone recursive me
    (if bool_decide (rd out 0 = Some 0) then mret (0, Some []) else atomic [] (store_answer out n))
    (Shared (requested a j i) h) (exchanged w f sk evs req).
Proof.
  intros Hacq Hans Hl (Hd & Hp & Hq & E0 & E1 & E2) Hlen Hr Hr0. pose proof (len_params_json args).
  destruct (call_run a h h' w (Some profile) proc (Some (params_json args)) 4096 j i f sk resp evs r out
    Hacq Hans Hl ltac:(cbn [default from_option id]; lia) Hr) as (sync & _ & He).
  eexists. unfold function_tarantool_read. destruct data as [|c data]; [done|]. cbv zeta.
  rewrite E0, E1, E2. destruct profile; [done|]. destruct proc; [done|]. cbn [is_nil orb].
  rewrite alone_bind, (bind_ret _ _ _ _ _ _ _ He), (proj2 (Z.leb_le 0 r) Hr0). cbn [Z.eqb andb].
  by destruct (bool_decide _).
Qed.

(** The dialplan function gives, for an answer with a response body, which is a map, the
    body's MessagePack bytes up to the first that is 0; the procedure's result is not taken
    out of it. *)
Theorem function_copies_raw_body `{!AstCore} a h h' w data profile proc args n j i f sk fh header fb body evs
  (Hacq : acquires recursive me a h (Some profile) j i f h') (Hok : plain fh header (mp_bytes (MMap fb body)))
  (Hcode : code_of header = 0) (Hbody : mp_wf (MMap fb body))
  (Hans : ast_answers w f (mp_bytes (MMap fh header) ++ mp_bytes (MMap fb body)) evs sk)
  (Hargs : function_args data profile proc args) (Hlen : len proc + len args <= 2030) :
  exists req, alone recursive me (function_tarantool_read (Some data) n) (Shared a h) w =
    Ret (0, Some (ast_copy_string n (cstr (stored 4096 (mp_bytes (MMap fb body)))))) (Shared (requested a j i) h)
      (exchanged w f sk evs req).
Proof.
  destruct Hok as (Hwf & Hh & Hl). pose proof (exec_result_ok fh header _ 4096 Hwf Hh Hl) as Hr.
  rewrite Hcode, decide_True in Hr by done.
  destruct (function_run a h h' w data profile proc args n j i f sk _ evs _ _ Hacq Hans ltac:(lia) Hargs Hlen Hr
    (len_nonneg _)) as [req ->].
  exists req. destruct (map_first fb body [] Hbody) as (t & tl & Et & Htag & H0). rewrite app_nil_r in Et. rewrite Et.
  destruct (stored_first 4096 t tl ltac:(done)) as [tl' ->]. rewrite bool_decide_eq_false_2 by (intros [=]; congruence).
  assert (first_string n (t :: tl') 0 = Some (None, 0)) as Hv.
  { unfold first_string. rewrite (R_bind_eq _ _ _ _ _ _ (eq_refl : peek 0 (t :: tl') 0 = Some (t, 0))).
    apply orb_false_iff in Htag as [-> _]. done. }
  change (alone recursive me (atomic [] ?op) (Shared ?d ?h) ?w)
    with (match op d w with Ret v d' w' => Ret v (Shared d' h) w' | Hang => Hang | Undef => Undef end).
  unfold store_answer. by rewrite (bind_read _ _ _ _ _ Hv).
Qed.

(** Against a Tarantool server the function gives the empty string. *)
Lemma function_gives_nothing `{!AstCore} a h h' w data profile proc args n j i f sk code sync schema rest evs :
  acquires recursive me a h (Some profile) j i f h' -> 0 <= code < 2 ^ 32 -> 0 <= sync < 2 ^ 40 -> len rest < 2 ^ 30 ->
  ast_answers w f (mp_bytes (MMap FFix (server_header code sync schema)) ++ rest) evs sk ->
  function_args data profile proc args -> len proc + len args <= 2030 ->
  exists req, alone recursive me (function_tarantool_read (Some data) n) (Shared a h) w =
    Ret (0, Some []) (Shared (requested a j i) h) (exchanged w f sk evs req).
Proof.
  intros Hacq Hc Hs Hl Hans Hargs Hlen. destruct (server_result code sync schema rest 4096 Hc ltac:(lia) Hl) as (r & Hr0 & Hr).
  assert (len (mp_bytes (MMap FFix (server_header code sync schema))) = 23) as Hn by reflexivity.
  destruct (function_run a h h' w data profile proc args n j i f sk _ evs _ _ Hacq Hans ltac:(rewrite len_app; lia)
    Hargs Hlen Hr Hr0) as [req ->].
  exists req. destruct (misread_first code sync schema rest Hs) as [tl ->].
  destruct (stored_first 4096 0 tl ltac:(done)) as [tl' ->]. by rewrite bool_decide_eq_true_2.
Qed.

End spec.

(** * Examples *)

Definition ex_ares (header body : list (mp * mp)) : list Z := mp_bytes (MMap FFix header) ++ mp_bytes (MMap FFix body).
Definition ex_aheader (code : Z) : list (mp * mp) := [(MFix 0, MFix code); (MFix 1, MFix 8)].
Definition ex_abody : list (mp * mp) := [(MFix 0x30, MArr FFix [MStr FFix (lit "v")])].
Definition ex_aevs (resp : list Z) : list rx_ev := [RxData MP_UINT32 (tail (finalize_packet resp))].

Lemma ex_aanswers resp : ast_answers (ex_aworld (ex_aevs resp) []) 3 resp [] (Sock (ex_aevs resp) [] []).
Proof.
  split; [apply lookup_insert_eq|]. split; [done|]. split; [done|]. cbn [rx].
  assert (exists tl, finalize_packet resp = MP_UINT32 :: tl) as [tl E] by (by eexists).
  unfold ex_aevs. rewrite E. cbn [tail]. rewrite <- (app_nil_r (MP_UINT32 :: tl)). apply stream_data, stream_nil.
Qed.

(** The first and the second acquisition of the pool's socket, whose mutex is recursive. *)
Definition ex_held (n : nat) : gmap mutex (nat * nat) := {[ sock_lock 0 0 := (0%nat, n) ]}.
Lemma ex_up : up ex_ast 0 0 3.
Proof. exists ex_prof, (Socket 3 true 7). done. Qed.
Lemma ex_acquires nm : find_profile [ex_prof] nm = Some 0%nat -> acquires true 0 ex_ast ∅ nm 0 0 3 (ex_held 1).
Proof. intros Hn. split; try done; [by exists ex_prof|apply ex_up|intros; lia]. Qed.
Lemma ex_acquires_two : acquires_two true 0 ex_ast ∅ None 0 0 3.
Proof.
  exists 0%nat, 3, (ex_held 1), (ex_held 2). split; [by apply ex_acquires|].
  split; try done; [by exists ex_prof|apply ex_up|intros o n; vm_compute; intros [=]; lia|intros; lia].
Qed.
Lemma ex_plain code rest : 0 <= code <= 127 -> len rest < 100 -> plain FFix (ex_aheader code) rest.
Proof.
  intros Hc Hr. split; [cbn; split_and!; (done || lia || (unfold len; cbn; lia))|]. split.
  - constructor; [split; cbn; [by eexists|]|constructor; [split; by eexists|constructor]].
    unfold is_Some. destruct (_ && _) eqn:E; [by eexists|lia].
  - rewrite len_app. change (len (mp_bytes (MMap FFix (ex_aheader code)))) with 5. lia.
Qed.

Lemma call_returns_body_witness : exists w',
  alone true 0 (ast_tarantool_call None (Some (lit "f")) (Some (lit "x")) 3) (Shared ex_ast ∅)
    (ex_aworld (ex_aevs (ex_ares (ex_aheader 0) ex_abody)) []) =
  Ret (0, ztake 2 (mp_bytes (MMap FFix ex_abody)) ++ [0]) (Shared (requested ex_ast 0 0) ∅) w'.
Proof.
  destruct (call_returns_body true 0 ex_ast ∅ (ex_held 1) (ex_aworld (ex_aevs (ex_ares (ex_aheader 0) ex_abody)) []) None
    (lit "f") (Some (lit "x")) 3 0 0 3 (Sock (ex_aevs (ex_ares (ex_aheader 0) ex_abody)) [] []) FFix (ex_aheader 0)
    (mp_bytes (MMap FFix ex_abody)) []) as (sync & _ & H).
  - by apply ex_acquires.
  - by apply ex_plain.
  - apply ex_aanswers.
  - vm_compute. discriminate.
  - eexists. exact H.
Defined.

Lemma server_errors_are_successes_witness : exists w' tl,
  alone true 0 (ast_tarantool_call None (Some (lit "f")) None 16) (Shared ex_ast ∅)
    (ex_aworld (ex_aevs (mp_bytes (MMap FFix (server_header 0x8020 8 80)) ++ mp_bytes (MMap FFix ex_abody))) []) =
  Ret (0, 0 :: tl) (Shared (requested ex_ast 0 0) ∅) w'.
Proof.
  destruct (server_errors_are_successes true 0 ex_ast ∅ (ex_held 1)
    (ex_aworld (ex_aevs (mp_bytes (MMap FFix (server_header 0x8020 8 80)) ++ mp_bytes (MMap FFix ex_abody))) []) None
    (lit "f") None 16 0 0 3 (Sock (ex_aevs (mp_bytes (MMap FFix (server_header 0x8020 8 80)) ++ mp_bytes (MMap FFix ex_abody))) [] [])
    0x8020 8 80 (mp_bytes (MMap FFix ex_abody)) []) as (req & H).
  - by apply ex_acquires.
  - lia.
  - lia.
  - apply ex_aanswers.
  - reflexivity.
  - vm_compute. discriminate.
  - eexists _, _. exact H.
Defined.

Lemma lookup_reflects_fields_witness : exists w',
  alone true 0 (realtime_tarantool None (Some (lit "ps_endpoints")) [(lit "id", lit "100")]) (Shared ex_ast ∅)
    (ex_aworld (ex_aevs (ex_ares (ex_aheader 0) ex_abody)) []) =
  Ret [(lit "id", lit "100")] (Shared (requested ex_ast 0 0) ∅) w'.
Proof.
  destruct (lookup_reflects_fields true 0 ex_ast ∅ (ex_aworld (ex_aevs (ex_ares (ex_aheader 0) ex_abody)) []) None
    (lit "ps_endpoints") (lit "id", lit "100") [] 0 0 3 (Sock (ex_aevs (ex_ares (ex_aheader 0) ex_abody)) [] [])
    FFix (ex_aheader 0) FFix ex_abody []) as (req & H).
  - apply ex_acquires_two.
  - by apply ex_plain.
  - reflexivity.
  - vm_compute. repeat split; discriminate.
  - apply ex_aanswers.
  - reflexivity.
  - eexists. exact H.
Defined.

Lemma function_copies_raw_body_witness : exists w',
  alone true 0 (@function_tarantool_read ex_ast_core (Some (lit "tnt1,f,x")) 16) (Shared ex_ast ∅)
    (ex_aworld (ex_aevs (ex_ares (ex_aheader 0) ex_abody)) []) =
  Ret (0, Some (mp_bytes (MMap FFix ex_abody))) (Shared (requested ex_ast 0 0) ∅) w'.
Proof.
  destruct (@function_copies_raw_body true 0 ex_ast_core ex_ast ∅ (ex_held 1)
    (ex_aworld (ex_aevs (ex_ares (ex_aheader 0) ex_abody)) []) (lit "tnt1,f,x") (lit "tnt1") (lit "f") (lit "x") 16 0 0 3
    (Sock (ex_aevs (ex_ares (ex_aheader 0) ex_abody)) [] []) FFix (ex_aheader 0) FFix ex_abody []) as (req & H).
  - by apply ex_acquires.
  - by apply ex_plain.
  - reflexivity.
  - vm_compute. repeat split; discriminate.
  - apply ex_aanswers.
  - repeat split; discriminate.
  - vm_compute. discriminate.
  - eexists. exact H.
Defined.

Lemma cdr_log_calls_save_witness (cdr := Cdr [] (lit "100") (lit "200") [] [] [] [] [] [] (5, 6) (7, 8) (9, 0) 4 2 8 (lit "u") []) :
  exists w', alone true 0 (tarantool_cdr_log (Some cdr)) (Shared ex_ast ∅)
    (ex_aworld (ex_aevs (ex_ares (ex_aheader 2) ex_abody)) []) = Ret 0 (Shared (requested ex_ast 0 0) ∅) w'.
Proof.
  destruct (cdr_log_calls_save true 0 ex_ast ∅ (<[cdr_lock := (0%nat, 1%nat)]> (ex_held 1))
    (ex_aworld (ex_aevs (ex_ares (ex_aheader 2) ex_abody)) []) cdr 0 0 3 (Sock (ex_aevs (ex_ares (ex_aheader 2) ex_abody)) [] [])
    (ex_ares (ex_aheader 2) ex_abody) [] (-1, [])) as (sync & _ & H).
  - reflexivity.
  - split; try done; [by exists ex_prof|apply ex_up|intros; lia].
  - apply ex_aanswers.
  - by vm_compute.
  - by vm_compute.
  - vm_compute. discriminate.
  - eexists. exact H.
Defined.

Lemma long_update_overruns_witness :
  alone true 0 (update_tarantool None (Some (lit "t")) (Some (lit "k")) (Some (lit "e")) [(lit "f", replicate 2000 97)])
    (Shared ex_ast ∅) (ex_aworld [] []) = Undef.
Proof.
  eapply (long_update_overruns true 0 ex_ast ∅ (ex_held 1) (ex_aworld [] []) None (lit "t") (lit "k") (lit "e")
    [(lit "f", replicate 2000 97)] 0 0 3).
  - by apply ex_acquires.
  - discriminate.
  - vm_compute. reflexivity.
  - vm_compute. reflexivity.
Defined.
