(* ===== verification/AstConfig.v ===== *)
(** Loading the configuration of the Asterisk resource: which profiles a file defines, and
    that a reload changes none that exists. *)
From S2P Require Export AstFacts AstText.

Section config.
Context `{!AstCore, !AstCoreLaws} (recursive : bool) (me : nat).

(** * The profiles of a file *)

Definition load_one (l : list ast_tarantool_profile) (c : list Z * list (list Z * list Z)) : list ast_tarantool_profile :=
  if strcaseeq c.1 (lit "general") then l else
  match find_profile l (Some c.1) with
  | Some _ => l
  | None => l ++ [new_profile c.1 (foldl read_var default_settings c.2)]
  end.
Definition loaded (l : list ast_tarantool_profile) (cats : categories) : list ast_tarantool_profile := foldl load_one l cats.

Lemma load_categories_run cats a w : w_malloc w = [] ->
  load_categories cats a w = Ret tt (with_profiles a (loaded (profiles a) cats)) w.
Proof.
  intros Hm. revert a. induction cats as [|[cat vars] cats IH]; intros a; [by destruct a|].
  cbn [load_categories loaded foldl].
  assert (load_category cat vars a w = Ret tt (with_profiles a (load_one (profiles a) (cat, vars))) w) as Hc.
  { unfold load_category, load_one. cbn [fst snd]. destruct (strcaseeq _ _); [by destruct a|]. rewrite bind_get.
    destruct (find_profile _ _); [by destruct a|]. run (malloc_free a w Hm). cbn [negb]. by run (malloc_free a w Hm). }
  run Hc. by rewrite IH.
Qed.

Lemma find_profile_None l nm : find_profile l nm = None <-> Forall (fun p => named nm p = false) l.
Proof.
  unfold find_profile. rewrite fmap_None, list_find_None. apply Forall_proper; [|done]. intros p.
  destruct (named nm p); cbn; split; try done. by intros _ [].
Qed.

Lemma find_profile_app l k nm j : find_profile l nm = Some j -> find_profile (l ++ k) nm = Some j.
Proof.
  unfold find_profile. destruct (list_find _ l) as [[i p]|] eqn:E; [|done]. cbn. intros [= <-].
  by rewrite (list_find_app_l _ _ k _ _ E).
Qed.

Lemma find_profile_last l nm p : find_profile l nm = None -> named nm p = true -> find_profile (l ++ [p]) nm = Some (length l).
Proof.
  intros Hl Hp. unfold find_profile in *. apply fmap_None in Hl. rewrite list_find_app_r by done. cbn.
  rewrite decide_True by (by rewrite Hp). done.
Qed.

Lemma loaded_prefix cats l : exists k, loaded l cats = l ++ k.
Proof.
  revert l. induction cats as [|c cats IH]; intros l; [exists []; by rewrite app_nil_r|]. cbn [loaded foldl].
  assert (exists k, load_one l c = l ++ k) as [k ->].
  { unfold load_one. destruct (strcaseeq _ _); [exists []; by rewrite app_nil_r|].
    destruct (find_profile _ _); [exists []; by rewrite app_nil_r|by eexists]. }
  destruct (IH (l ++ k)) as [k' Hk]. exists (k ++ k'). rewrite app_assoc. exact Hk.
Qed.

Lemma loaded_none cats l cat : cat <> [] -> Forall (fun c => strcaseeq (ast_copy_string 64 c.1) cat = false) cats ->
  find_profile l (Some cat) = None -> find_profile (loaded l cats) (Some cat) = None.
Proof.
  intros Hcat Hall. revert l. induction Hall as [|c cats Hc _ IH]; intros l Hl; [done|]. cbn [loaded foldl]. apply IH.
  unfold load_one. destruct (strcaseeq _ (lit _)); [done|]. destruct (find_profile l (Some c.1)); [done|].
  rewrite find_profile_None in *. apply Forall_app_2; [done|]. constructor; [|done]. by destruct cat.
Qed.

(** ** The settings of a category *)

(** The value of the last variable with one of the names [keys], in any case of letters. *)
Definition last_value (keys : list string) (vars : list (list Z * list Z)) : option (list Z) :=
  last (snd <$> filter (fun kv => existsb (fun k => strcaseeq kv.1 (lit k)) keys = true) vars).

Definition text_of (keys : list string) (d : list Z) (vars : list (list Z * list Z)) : list Z :=
  match last_value keys vars with Some v => v | None => d end.
Definition number_of (key : string) (d : Z) (vars : list (list Z * list Z)) : Z :=
  match last_value [key] vars with Some v => atoi v | None => d end.

Lemma last_value_snoc keys vars k v :
  last_value keys (vars ++ [(k, v)])
  = if existsb (fun x => strcaseeq k (lit x)) keys then Some v else last_value keys vars.
Proof.
  unfold last_value. rewrite filter_app, fmap_app, filter_cons, filter_nil.
  case_decide as Hd; cbn [fst] in Hd.
  - rewrite Hd. apply last_snoc.
  - apply not_true_is_false in Hd. rewrite Hd. cbn [fmap list_fmap]. by rewrite app_nil_r.
Qed.

(** A name that is one key is no other. *)
Lemma strcaseeq_key k x y : strcaseeq k x = true -> strcaseeq k y = strcaseeq x y.
Proof. unfold strcaseeq. by intros ->%bool_decide_eq_true. Qed.

Ltac other_keys H := rewrite ?(strcaseeq_key _ _ _ H); repeat
  match goal with |- context [strcaseeq (lit ?a) (lit ?b)] =>
    let r := eval vm_compute in (strcaseeq (lit a) (lit b)) in change (strcaseeq (lit a) (lit b)) with r end;
  cbn [orb]; try done.

Lemma read_vars_last vars : foldl read_var default_settings vars =
  Settings (text_of ["host"] (lit "127.0.0.1") vars) (number_of "port" 3301 vars) (text_of ["user"] [] vars)
    (text_of ["secret"; "password"] [] vars) (number_of "pool_size" 4 vars) (number_of "timeout_ms" 500 vars).
Proof.
  induction vars as [|[k v] vars IH] using rev_ind; [done|].
  rewrite foldl_app, IH. cbn [foldl read_var c_host c_port c_user c_secret c_pool c_timeout].
  unfold text_of, number_of. rewrite !last_value_snoc. cbn [existsb]. rewrite !orb_false_r.
  destruct (strcaseeq k (lit "host")) eqn:E1; [by other_keys E1|].
  destruct (strcaseeq k (lit "port")) eqn:E2; [by other_keys E2|].
  destruct (strcaseeq k (lit "user")) eqn:E3; [by other_keys E3|].
  destruct (strcaseeq k (lit "secret")) eqn:E4; [by other_keys E4|].
  destruct (strcaseeq k (lit "password")) eqn:E5; [by other_keys E5|].
  destruct (strcaseeq k (lit "pool_size")) eqn:E6; [by other_keys E6|]. by destruct (strcaseeq k (lit "timeout_ms")).
Qed.

(** C36: loading a file that can be read gives back the mutex of the list, keeps the profiles
    there were, whatever the file says of them, and defines a profile for each category with a
    name of 1 to 63 bytes other than [general], if no profile and no category before it has the
    name. The profile has the category's name; host, user and secret (or password) are the last
    values the category gives them, cut to 127, 63 and 63 bytes, or 127.0.0.1 and empty texts;
    port, pool size and time-out are the numbers of the last values, or 3301, 4 and 500, these
    last two also in place of a number that is not positive; and its sockets, as many as the
    pool size, are not connected. *)
Theorem load_config_defines_profiles a h w cats (Hfree : h !! profiles_lock = None) (Hm : w_malloc w = []) :
  exists a', alone recursive me (load_config (Categories cats)) (Shared a h) w = Ret 0 (Shared a' h) w /\
  (forall nm j, find_profile (profiles a) nm = Some j ->
     find_profile (profiles a') nm = Some j /\ profiles a' !! j = profiles a !! j) /\
  (forall pre cat vars post, cats = pre ++ (cat, vars) :: post -> strcaseeq cat (lit "general") = false ->
     0 < len cat <= 63 -> Forall (fun c => strcaseeq (ast_copy_string 64 c.1) cat = false) pre ->
     find_profile (profiles a) (Some cat) = None ->
     let size := number_of "pool_size" 4 vars in
     let timeout := number_of "timeout_ms" 500 vars in
     exists j, find_profile (profiles a') (Some cat) = Some j /\
       profiles a' !! j = Some {|
         name := cat;
         host := ztake 127 (text_of ["host"] (lit "127.0.0.1") vars);
         port := number_of "port" 3301 vars;
         user := ztake 63 (text_of ["user"] [] vars);
         secret := ztake 63 (text_of ["secret"; "password"] [] vars);
         pool_size := if 0 <? size then size else 4;
         timeout_ms := if 0 <? timeout then timeout else 500;
         sockets := replicate (Z.to_nat (if 0 <? size then size else 4)) (Socket (-1) false 0)
       |}).
Proof.
  exists (with_profiles a (loaded (profiles a) cats)). split; [|split]; cbn [profiles with_profiles].
  - unfold load_config. rewrite alone_lock by done. rewrite (alone_atomic _ _ _ _ _ _ _ _ _ _ _ (load_categories_run cats a w Hm)).
    rewrite alone_unlock by (by rewrite lookup_insert_eq). by rewrite delete_insert_id.
  - intros nm j Hj. destruct (loaded_prefix cats (profiles a)) as [k ->]. split; [by apply find_profile_app|].
    unfold find_profile in Hj. apply fmap_Some in Hj as ([i p] & Hi & ->). apply list_find_Some in Hi as (Hi & _).
    cbn. by eapply lookup_app_l, lookup_lt_Some.
  - intros pre cat vars post -> Hg Hlen Hpre Hnone. cbv zeta. unfold loaded. rewrite foldl_app. cbn [foldl].
    assert (cat <> []) as Hne by (intros ->; unfold len in Hlen; cbn in Hlen; lia).
    pose proof (loaded_none pre (profiles a) cat Hne Hpre Hnone) as Hn. set (l := foldl load_one (profiles a) pre) in *.
    set (p := new_profile cat (foldl read_var default_settings vars)).
    assert (load_one l (cat, vars) = l ++ [p]) as ->.
    { unfold load_one. cbn [fst snd]. rewrite Hg. unfold loaded in Hn. fold l in Hn. by rewrite Hn. }
    assert (ast_copy_string 64 cat = cat) as Hcat by (rewrite copy_string_spec, ztake_all by lia; done).
    destruct (loaded_prefix post (l ++ [p])) as [k Hk].
    unfold loaded in Hk. rewrite Hk. exists (length l). split.
    + apply find_profile_app, find_profile_last; [done|]. destruct cat as [|c cat]; [done|]. cbn [named].
      subst p. unfold new_profile. cbn [name]. rewrite Hcat. by apply bool_decide_eq_true_2.
    + rewrite lookup_app_l by (rewrite length_app; cbn; lia). rewrite lookup_app_r by lia. rewrite Nat.sub_diag.
      subst p. rewrite read_vars_last. unfold new_profile. cbn [c_host c_port c_user c_secret c_pool c_timeout].
      rewrite Hcat, !copy_string_spec by lia. done.
Qed.

End config.

Lemma load_config_defines_profiles_witness : exists a' j,
  alone true 0 (@load_config ex_ast_core (Categories [(lit "t2", [(lit "port", lit "3302"); (lit "Secret", lit "x")])]))
    (Shared ex_ast ∅) (ex_aworld [] []) = Ret 0 (Shared a' ∅) (ex_aworld [] []) /\
  find_profile (profiles a') (Some (lit "t2")) = Some j /\
  profiles a' !! j = Some (Profile (lit "t2") (lit "127.0.0.1") 3302 [] (lit "x") 4 500 (replicate 4 (Socket (-1) false 0))).
Proof.
  destruct (@load_config_defines_profiles ex_ast_core ex_ast_laws true 0 ex_ast ∅ (ex_aworld [] [])
    [(lit "t2", [(lit "port", lit "3302"); (lit "Secret", lit "x")])]) as (a' & H & _ & H3); [reflexivity|reflexivity|].
  destruct (H3 [] (lit "t2") [(lit "port", lit "3302"); (lit "Secret", lit "x")] []) as (j & Hj & Hp);
    [reflexivity|reflexivity|by vm_compute|by apply Forall_nil|reflexivity|].
  exists a', j. split; [exact H|]. split; [exact Hj|]. rewrite Hp. reflexivity.
Defined.
