(* ===== verification/KamModule.v ===== *)
(** The Kamailio module itself, [ndb_tarantool_mod.c]: its parameters, the start of a worker
    and the functions for the configuration script. What it uses of the Kamailio core (the
    kinds of parameters, the ranks of special processes, the evaluation of a script argument)
    is an argument. *)
From S2P Require Export KamFacts.

Class KamModuleCore := {
  sip_msg : Type;
  gparam : Type;
  (** The string an argument has for a message, or nothing when it has none. *)
  fixup_get_svalue : sip_msg -> gparam -> option str;
  PARAM_STRING : Z;
  PROC_INIT : Z; PROC_MAIN : Z; PROC_TCP_MAIN : Z
}.

(** ** What a module registers

    A parameter is an int that is set in place or a function that is called with the kind and
    the value of a setting. *)
Inductive param_export :=
| ParamFunc (type : Z) (f : kam_params -> Z -> option (list Z) -> ML Z)
| ParamInt (set : Z -> kam_params -> kam_params).

Record cmd_export `{!KamModuleCore} := Cmd {
  cmd_name : list Z;
  cmd_function : sip_msg -> option gparam -> option gparam -> option gparam -> ML Z;
  cmd_param_no : Z
}.

(** A function for scripts in other languages takes the message and strings. *)
Inductive kemi_function :=
| Kemi3 (f : option str -> option str -> option str -> ML (Z * option str))
| Kemi4 (f : option str -> option str -> option str -> option str -> ML (Z * option str)).
Record kemi_export := Kemi { ke_module : list Z; ke_name : list Z; ke_func : kemi_function; ke_strings : nat }.

Record kam_exports `{!KamModuleCore} := KExports {
  e_name : list Z; e_cmds : list cmd_export; e_params : list (list Z * param_export);
  e_init : ML Z; e_child_init : kam_params -> Z -> ML Z; e_destroy : ML unit
}.

Section module.
Context `{!MsgpackC, !KamCore, !KamModuleCore}.

(** The parameters before the configuration sets them. *)
Definition default_kam_params : kam_params := KParams false 1000 1000 10 3.

(** The handler of the parameter [server]; [val] is [None] for a null pointer. *)
Definition tnt_srv_param (p : kam_params) (type : Z) (val : option (list Z)) : ML Z :=
  match val with
  | Some v => if type =? PARAM_STRING then tnt_add_server p (Some v) else mret (-1)
  | None => mret (-1)
  end.

Definition kam_mod_init : ML Z := mret 0.

Definition kam_child_init (p : kam_params) (rank : Z) : ML Z :=
  if (rank =? PROC_INIT) || (rank =? PROC_MAIN) || (rank =? PROC_TCP_MAIN) then mret 0 else
  rc ← tnt_child_init p rank;
  mret (if rc <? 0 then -1 else 0).

Definition mod_destroy : ML unit := tnt_destroy_all.

(** The arguments of a script function: the name must have a value, and the parameters too
    if they are given. *)
Definition script_args (msg : sip_msg) (name params : option gparam) : option (str * str) :=
  s_name ← name ≫= fixup_get_svalue msg;
  match params with
  | None => Some (s_name, Str None 0)
  | Some g => s_params ← fixup_get_svalue msg g; Some (s_name, s_params)
  end.

(** The argument [res] is not looked at; the value of the call is freed. *)
Definition w_tarantool_call (msg : sip_msg) (proc params res : option gparam) : ML Z :=
  match script_args msg proc params with
  | None => mret (-1)
  | Some (s_proc, s_params) =>
      '(rc, _) ← sr_kemi_tarantool_call (Some s_proc) (Some s_params) (Some (Str None 0));
      mret rc
  end.

Definition w_tarantool_eval (msg : sip_msg) (code params res : option gparam) : ML Z :=
  match script_args msg code params with
  | None => mret (-1)
  | Some (s_code, s_params) =>
      '(rc, _) ← sr_kemi_tarantool_eval (Some s_code) (Some s_params) (Some (Str None 0));
      mret rc
  end.

(** ** The tables *)

Definition mod_params : list (list Z * param_export) :=
  [(lit "server", ParamFunc PARAM_STRING tnt_srv_param);
   (lit "init_without_tarantool", ParamInt (fun n p =>
      KParams (negb (n =? 0)) (tnt_connect_timeout_param p) (tnt_cmd_timeout_param p)
              (tnt_disable_time_param p) (tnt_allowed_timeouts_param p)));
   (lit "connect_timeout", ParamInt (fun n p =>
      KParams (init_without_tarantool p) n (tnt_cmd_timeout_param p)
              (tnt_disable_time_param p) (tnt_allowed_timeouts_param p)));
   (lit "cmd_timeout", ParamInt (fun n p =>
      KParams (init_without_tarantool p) (tnt_connect_timeout_param p) n
              (tnt_disable_time_param p) (tnt_allowed_timeouts_param p)));
   (lit "disable_time", ParamInt (fun n p =>
      KParams (init_without_tarantool p) (tnt_connect_timeout_param p) (tnt_cmd_timeout_param p)
              n (tnt_allowed_timeouts_param p)));
   (lit "allowed_timeouts", ParamInt (fun n p =>
      KParams (init_without_tarantool p) (tnt_connect_timeout_param p) (tnt_cmd_timeout_param p)
              (tnt_disable_time_param p) n))].

Definition cmds : list cmd_export :=
  [Cmd _ (lit "tarantool_call") w_tarantool_call 3; Cmd _ (lit "tarantool_eval") w_tarantool_eval 3].

Definition exports : kam_exports :=
  KExports _ (lit "ndb_tarantool") cmds mod_params kam_mod_init kam_child_init mod_destroy.

Definition sr_kemi_ndb_tarantool_exports : list kemi_export :=
  [Kemi (lit "tarantool") (lit "call") (Kemi3 sr_kemi_tarantool_call) 3;
   Kemi (lit "tarantool") (lit "eval") (Kemi3 sr_kemi_tarantool_eval) 3;
   Kemi (lit "tarantool") (lit "call_srv") (Kemi4 sr_kemi_tarantool_call_srv) 4;
   Kemi (lit "tarantool") (lit "eval_srv") (Kemi4 sr_kemi_tarantool_eval_srv) 4].

(** [sr_kemi_modules_add] is the core's. *)
Definition sr_kemi_ndb_tarantool_register {D} (sr_kemi_modules_add : list kemi_export -> M D unit) : M D Z :=
  _ ← sr_kemi_modules_add sr_kemi_ndb_tarantool_exports; mret 0.
Definition mod_register {D} (sr_kemi_modules_add : list kemi_export -> M D unit) : M D Z :=
  _ ← sr_kemi_ndb_tarantool_register sr_kemi_modules_add; mret 0.

(** The numbers of strings that the table states are those that the functions take. *)
Lemma kemi_strings_right : Forall (fun k => ke_strings k = match ke_func k with Kemi3 _ => 3%nat | Kemi4 _ => 4%nat end)
  sr_kemi_ndb_tarantool_exports.
Proof. repeat constructor. Qed.

(** The processes without SIP traffic open no connection. *)
Lemma special_processes_stay_idle p rank :
  rank ∈ [PROC_INIT; PROC_MAIN; PROC_TCP_MAIN] -> kam_child_init p rank = mret 0.
Proof.
  intros Hr. unfold kam_child_init. rewrite !elem_of_cons, elem_of_nil in Hr.
  by destruct_or! Hr; subst; rewrite ?Z.eqb_refl, ?orb_true_r.
Qed.

(** An argument without a value ends a script function before the driver is called. *)
Lemma script_call_needs_args msg name params res :
  script_args msg name params = None ->
  w_tarantool_call msg name params res = mret (-1) /\ w_tarantool_eval msg name params res = mret (-1).
Proof. intros E. unfold w_tarantool_call, w_tarantool_eval. by rewrite E. Qed.

End module.
