(* ===== verification/OsModule.v ===== *)
(** The OpenSIPS module itself, [cachedb_tarantool.c]: the URLs of the configuration, the
    registration of the engine and the start of a worker. The CacheDB core of OpenSIPS, which
    keeps the URLs, the engines and the connections, is an argument. *)
From S2P Require Export OpenSips NetFacts.

(** The functions of the CacheDB core, on its state [D]; [C] is a connection it hands out. *)
Class CacheDbCore (D C : Type) := {
  cachedb_store_url : list str -> option (list Z) -> option (list str);
  (** Opens a connection for a URL with the constructor of the engine. *)
  cachedb_do_init : (option cachedb_id -> MT bool) -> str -> M D (option C);
  (** Gives a connection back; the engine frees it at the last use. *)
  cachedb_do_close : MT unit -> C -> M D unit;
  cachedb_put_connection : list Z -> C -> M D Z;
  cachedb_end_connections : list Z -> M D unit
}.

(** The functions an engine offers. *)
Record cachedb_engine (D C : Type) := Engine {
  cde_name : list Z;
  cde_init : str -> M D (option C);
  cde_destroy : C -> M D unit;
  cde_get : option str -> MT (Z * option str);
  cde_set : option str -> option str -> Z -> MT Z;
  cde_remove : option str -> MT Z;
  cde_raw_query : option str -> bool -> MT (Z * option Z);
  cde_get_buf : option (option str -> Z -> MT (Z * list Z * option Z * option Z))
}.
Arguments Engine {D C}.

(** A parameter is an int that is set in place, or a function of the list of URLs. *)
Inductive os_param_export :=
| OsParamFunc (f : list str -> option (list Z) -> option (list str))
| OsParamInt (set : Z -> tnt_params -> tnt_params).

(** What the module tells the core of itself. *)
Record os_module_exports (D C : Type) := OsExports {
  x_name : list Z; x_params : list (list Z * os_param_export);
  x_init_f : (cachedb_engine D C -> M D Z) -> bool -> M D Z;
  x_destroy_f : M D unit;
  x_child_init_f : list str -> M D (Z * bool)
}.
Arguments OsExports {D C}.

Section module.
Context {D C : Type} `{!CacheDbCore D C} (g : tnt_params).

Definition cache_mod_name : list Z := lit "tarantool".

(** The handler of the parameter [cachedb_url]: the new list, or a failure. *)
Definition set_connection (tnt_script_urls : list str) (val : option (list Z)) : option (list str) :=
  cachedb_store_url tnt_script_urls val.

(** [tarantool_init] of the build inside OpenSIPS. *)
Definition tarantool_open (url : str) : M D (option C) := cachedb_do_init (tnt_new_connection g) url.

Definition tarantool_destroy (con : C) : M D unit := cachedb_do_close tnt_teardown con.

(** [have_get_buf]: whether the core is one with [CACHEDB_HAVE_GET_BUF]. *)
Definition engine (have_get_buf : bool) : cachedb_engine D C :=
  Engine cache_mod_name tarantool_open tarantool_destroy tarantool_get tarantool_set
         tarantool_remove tarantool_raw_query (if have_get_buf then Some tarantool_get_buf else None).

Definition os_mod_init (register_cachedb : cachedb_engine D C -> M D Z) (have_get_buf : bool) : M D Z :=
  rc ← register_cachedb (engine have_get_buf);
  mret (if rc <? 0 then -1 else 0).

(** The loop over the URLs. *)
Fixpoint open_urls (urls : list str) : M D Z :=
  match urls with
  | [] => mret 0
  | url :: urls' =>
      con ← tarantool_open url;
      match con with
      | None => if p_init_without_tnt g =? 0 then mret (-1) else open_urls urls'
      | Some con =>
          rc ← cachedb_put_connection cache_mod_name con;
          if rc <? 0 then mret (-1) else open_urls urls'
      end
  end.

(** The result, and whether the list of URLs was freed. *)
Definition os_child_init (tnt_script_urls : list str) : M D (Z * bool) :=
  rc ← open_urls tnt_script_urls;
  mret (rc, rc =? 0).

Definition destroy : M D unit := cachedb_end_connections cache_mod_name.

(** ** The tables *)

Definition params : list (list Z * os_param_export) :=
  [(lit "cachedb_url", OsParamFunc set_connection);
   (lit "connect_timeout", OsParamInt (fun n g => OpenSips.Params n (p_query_tout g) (p_lazy_connect g) (p_disable_time g)
      (p_allowed_errors g) (p_init_without_tnt g) (p_pool_size g) (p_tcp_keepalive g)));
   (lit "query_timeout", OsParamInt (fun n g => OpenSips.Params (p_connect_tout g) n (p_lazy_connect g) (p_disable_time g)
      (p_allowed_errors g) (p_init_without_tnt g) (p_pool_size g) (p_tcp_keepalive g)));
   (lit "lazy_connect", OsParamInt (fun n g => OpenSips.Params (p_connect_tout g) (p_query_tout g) n (p_disable_time g)
      (p_allowed_errors g) (p_init_without_tnt g) (p_pool_size g) (p_tcp_keepalive g)));
   (lit "disable_time", OsParamInt (fun n g => OpenSips.Params (p_connect_tout g) (p_query_tout g) (p_lazy_connect g) n
      (p_allowed_errors g) (p_init_without_tnt g) (p_pool_size g) (p_tcp_keepalive g)));
   (lit "allowed_errors", OsParamInt (fun n g => OpenSips.Params (p_connect_tout g) (p_query_tout g) (p_lazy_connect g)
      (p_disable_time g) n (p_init_without_tnt g) (p_pool_size g) (p_tcp_keepalive g)));
   (lit "pool_size", OsParamInt (fun n g => OpenSips.Params (p_connect_tout g) (p_query_tout g) (p_lazy_connect g)
      (p_disable_time g) (p_allowed_errors g) (p_init_without_tnt g) n (p_tcp_keepalive g)));
   (lit "init_without_tarantool", OsParamInt (fun n g => OpenSips.Params (p_connect_tout g) (p_query_tout g) (p_lazy_connect g)
      (p_disable_time g) (p_allowed_errors g) n (p_pool_size g) (p_tcp_keepalive g)));
   (lit "tcp_keepalive", OsParamInt (fun n g => OpenSips.Params (p_connect_tout g) (p_query_tout g) (p_lazy_connect g)
      (p_disable_time g) (p_allowed_errors g) (p_init_without_tnt g) (p_pool_size g) n))].

Definition exports : os_module_exports D C :=
  OsExports (lit "cachedb_tarantool") params os_mod_init destroy os_child_init.

(** With an optional database a worker starts whatever URLs cannot be opened, if the core
    takes the connections. *)
Lemma optional_start (urls : list str) d w rc freed d' w' :
  p_init_without_tnt g <> 0 ->
  (forall name con d w z d' w', cachedb_put_connection name con d w = Ret z d' w' -> 0 <= z) ->
  os_child_init urls d w = Ret (rc, freed) d' w' -> rc = 0 /\ freed = true.
Proof.
  intros Hopt Hput E. enough (rc = 0) as ->.
  { unfold os_child_init in E. apply bind_inv in E as (z & ? & ? & _ & [= -> <- _ _]). done. }
  unfold os_child_init in E. apply bind_inv in E as (z & d1 & w1 & E & [= -> _ -> ->]).
  revert d w E. induction urls as [|u urls IH]; intros d w E; cbn in E; [by injection E|].
  apply bind_inv in E as (con & d2 & w2 & _ & E). destruct con as [con|].
  - apply bind_inv in E as (r & d3 & w3 & P & E). apply Hput in P.
    destruct (r <? 0) eqn:?; [lia|]. by eapply IH.
  - destruct (_ =? 0) eqn:?; [lia|]. by eapply IH.
Qed.

(** Without it the first URL that cannot be opened ends the start, and the list of URLs
    is not freed. *)
Lemma failed_start_keeps_urls url urls d w d' w' :
  p_init_without_tnt g = 0 -> tarantool_open url d w = Ret None d' w' ->
  os_child_init (url :: urls) d w = Ret (-1, false) d' w'.
Proof.
  intros Hopt E. unfold os_child_init. cbn [open_urls]. rewrite bind_assoc. run E.
  by rewrite Hopt.
Qed.

End module.
