(* ===== verification/Sessions.v ===== *)
(** The table of the calls in progress kept by the two SIP proxies of [docker/]
    ([kamailio_entrypoint.c] and [opensips_entrypoint.c] have the same text, with tables of
    different sizes): open addressing over an array, at most 1024 slots from the hash of the
    Call-ID on; and the Call-ID of a SIP message. *)
From S2P Require Export Cstr.

(** An address and port. *)
Record sockaddr_in := SockAddr { sin_addr : Z; sin_port : Z }.
#[export] Instance sockaddr_in_eq_dec : EqDecision sockaddr_in.
Proof. solve_decision. Defined.

Record uac_session := Session { s_call_id : list Z; s_addr : sockaddr_in; s_addr_len : Z }.

(** The array [g_sessions]; a slot without an entry still has its initial contents. *)
Abbreviation sessions := (gmap Z uac_session).
Definition free_slot : uac_session := Session [] (SockAddr 0 0) 0.
Definition slot (t : sessions) (i : Z) : uac_session := default free_slot (t !! i).

(** The loops look at no more slots than this. *)
Definition MAX_PROBES : nat := Z.to_nat 1024.

Section table.
Context (MAX_SESSIONS : Z).

Definition hash_step (hash c : Z) : Z := u32 (u32 (u32 (Z.shiftl hash 5) + hash) + c).
Definition hash_call_id (id : list Z) : Z := foldl hash_step 5381 id mod MAX_SESSIONS.

(** The slot of turn [i]. *)
Definition cur (id : list Z) (i : Z) : Z := u32 (hash_call_id id + i) mod MAX_SESSIONS.

(** The first of the [n] slots from turn [i] on that satisfies [p]. *)
Fixpoint probe (p : uac_session -> bool) (t : sessions) (id : list Z) (n : nat) (i : Z) : option Z :=
  match n with
  | O => None
  | S n' => if p (slot t (cur id i)) then Some (cur id i) else probe p t id n' (i + 1)
  end.

Definition is_free (s : uac_session) : bool := bool_decide (s_call_id s = []).
Definition has_id (id : list Z) (s : uac_session) : bool := bool_decide (s_call_id s = id).

Definition store_session (id : list Z) (a : sockaddr_in) (n : Z) (t : sessions) : sessions :=
  match probe (fun s => is_free s || has_id id s) t id MAX_PROBES 0 with
  | Some c => <[c := Session (ztake 127 id) a n]> t
  | None => t
  end.

(** [if (call_id[0] == 0) continue; if (strcmp(call_id, id) == 0) ...] *)
Definition find_slot (id : list Z) (t : sessions) : option Z :=
  probe (fun s => negb (is_free s) && has_id id s) t id MAX_PROBES 0.

(** The address and its length. *)
Definition find_session (id : list Z) (t : sessions) : option (sockaddr_in * Z) :=
  c ← find_slot id t; let s := slot t c in Some (s_addr s, s_addr_len s).

Definition delete_session (id : list Z) (t : sessions) : sessions :=
  match find_slot id t with
  | Some c => let s := slot t c in <[c := Session [] (s_addr s) (s_addr_len s)]> t
  | None => t
  end.

End table.

(** * The Call-ID of a message *)

(** [strcasestr(p, pat)]: the string from the match on. *)
Fixpoint strcasestr (p pat : list Z) : option (list Z) :=
  match after_prefix (tolower <$> pat) (tolower <$> p) with
  | Some _ => Some p
  | None => match p with [] => None | _ :: p' => strcasestr p' pat end
  end.

(** [strncmp(p, pat, strlen(pat)) == 0] *)
Definition starts (pat : list Z) (p : list Z) : bool := bool_decide (is_Some (after_prefix pat p)).

(** Spaces and tabs. *)
Fixpoint skip_lws (p : list Z) : list Z :=
  match p with
  | c :: p' => if (c =? 32) || (c =? 9) then skip_lws p' else p
  | [] => []
  end.

(** At most [n] characters, up to the end of the line. *)
Fixpoint line_chars (n : nat) (p : list Z) : list Z :=
  match n, p with
  | S n', c :: p' => if (c =? 13) || (c =? 10) then [] else c :: line_chars n' p'
  | _, _ => []
  end.

Definition call_id_header (sip_msg : list Z) : option (list Z) :=
  match strcasestr sip_msg (lit "Call-ID:") with
  | Some p => Some p
  | None => match strcasestr sip_msg (10 :: lit "i:") with
            | Some p => Some p
            | None => if starts (lit "i:") sip_msg || starts (lit "I:") sip_msg
                      then Some sip_msg else None
            end
  end.

Definition default_call_id : list Z := lit "default-call-id".

Definition extract_call_id (sip_msg : list Z) (out_len : Z) : list Z :=
  match p ← call_id_header sip_msg; strchr p 58 with
  | Some (_, p) => line_chars (Z.to_nat (out_len - 1)) (skip_lws p)
  | None => ztake (out_len - 1) default_call_id
  end.
