(* ===== verification/SessionFacts.v ===== *)
(** The table of calls as a finite map: probing, the effect of each operation on every
    Call-ID, the invariant (an entry is in its chain, and no Call-ID has two), and room. *)
From S2P Require Export Sessions.

(** A Call-ID a slot can hold: at least one character, and room for the NUL. *)
Definition valid_id (id : list Z) : Prop := id <> [] /\ len id <= 127.

#[export] Instance valid_id_dec id : Decision (valid_id id).
Proof. unfold valid_id. apply _. Defined.

Lemma slot_insert_eq t c s : slot (<[c := s]> t) c = s.
Proof. unfold slot. by rewrite lookup_insert_eq. Qed.
Lemma slot_insert_ne t c s i : i <> c -> slot (<[c := s]> t) i = slot t i.
Proof. unfold slot. intros. by rewrite lookup_insert_ne. Qed.

Section table.
Context (MAX : Z) (HM : 1024 <= MAX <= 2 ^ 31).

Lemma hash_bounds id : 0 <= hash_call_id MAX id < MAX.
Proof using HM. unfold hash_call_id. apply Z.mod_pos_bound. lia. Qed.

Lemma cur_eq id i : 0 <= i < 1024 -> cur MAX id i = (hash_call_id MAX id + i) mod MAX.
Proof using HM.
  intros. unfold cur, u32. pose proof (hash_bounds id).
  by rewrite (Z.mod_small (_ + i) (2 ^ 32)) by lia.
Qed.

Lemma cur_bounds id i : 0 <= cur MAX id i < MAX.
Proof using HM. unfold cur. apply Z.mod_pos_bound. lia. Qed.

Lemma cur_inj id i j :
  0 <= i < 1024 -> 0 <= j < 1024 -> cur MAX id i = cur MAX id j -> i = j.
Proof using HM.
  intros Hi Hj. rewrite !cur_eq by done. generalize (hash_call_id MAX id); intros h E.
  assert (((h + i) - (h + j)) mod MAX = 0) as D by (rewrite Zminus_mod, E, Z.sub_diag; done).
  apply Z.mod_divide in D; [|lia]. destruct D as [q D].
  assert (q = 0) by nia. lia.
Qed.

(** ** Probing *)

Lemma probe_Some p t id n i c :
  probe MAX p t id n i = Some c ->
  exists j, i <= j < i + Z.of_nat n /\ c = cur MAX id j /\ p (slot t c) = true
            /\ forall k, i <= k < j -> p (slot t (cur MAX id k)) = false.
Proof.
  revert i. induction n as [|n IH]; intros i E; cbn in E; [done|].
  destruct (p (slot t (cur MAX id i))) eqn:P.
  - simplify_eq. exists i. repeat split; [lia..|done|lia].
  - apply IH in E as (j & ? & ? & ? & F). exists j. repeat split; [lia..|done|done|].
    intros k Hk. destruct (decide (k = i)) as [->|]; [done|]. apply F. lia.
Qed.

Lemma probe_None p t id n i :
  probe MAX p t id n i = None <->
  forall j, i <= j < i + Z.of_nat n -> p (slot t (cur MAX id j)) = false.
Proof.
  revert i. induction n as [|n IH]; intros i; cbn.
  - split; [lia|done].
  - destruct (p (slot t (cur MAX id i))) eqn:P.
    + split; [done|]. intros F. rewrite F in P by lia. done.
    + rewrite IH. split; intros F j Hj; [|apply F; lia].
      destruct (decide (j = i)) as [->|]; [done|]. apply F. lia.
Qed.

Lemma probe_ext p p' t t' id n i :
  (forall j, i <= j < i + Z.of_nat n ->
     p (slot t (cur MAX id j)) = p' (slot t' (cur MAX id j))) ->
  probe MAX p t id n i = probe MAX p' t' id n i.
Proof.
  revert i. induction n as [|n IH]; intros i E; cbn; [done|].
  rewrite <- E by lia. case_match; [done|]. apply IH. intros. apply E. lia.
Qed.

Lemma probe_first p t id n j :
  0 <= j < Z.of_nat n -> p (slot t (cur MAX id j)) = true ->
  (forall k, 0 <= k < j -> p (slot t (cur MAX id k)) = false) ->
  probe MAX p t id n 0 = Some (cur MAX id j).
Proof.
  intros Hj P F. destruct (probe MAX p t id n 0) as [c|] eqn:E.
  - apply probe_Some in E as (k & Hk & -> & P' & F'). do 2 f_equal.
    destruct (Z.lt_trichotomy k j) as [?|[?|?]]; [|done|].
    + rewrite F in P' by lia. done.
    + rewrite F' in P by lia. done.
  - rewrite (proj1 (probe_None _ _ _ _ _) E) in P by lia. done.
Qed.

(** ** Entries *)

(** Slot [i] holds the entry of [id]. *)
Definition holds (t : sessions) (i : Z) (id : list Z) : Prop :=
  s_call_id (slot t i) = id /\ id <> [].

Lemma holds_bool t i id :
  negb (is_free (slot t i)) && has_id id (slot t i) = true <-> holds t i id.
Proof.
  unfold is_free, has_id, holds. rewrite andb_true_iff, negb_true_iff, bool_decide_eq_true,
    bool_decide_eq_false. naive_solver.
Qed.

Lemma other_id id s :
  s_call_id s <> id \/ id = [] -> negb (is_free s) && has_id id s = false.
Proof.
  unfold is_free, has_id. intros. apply andb_false_iff.
  rewrite negb_false_iff, bool_decide_eq_true, bool_decide_eq_false.
  destruct (decide (s_call_id s = [])); naive_solver.
Qed.

Lemma find_slot_holds id t c :
  find_slot MAX id t = Some c -> holds t c id /\ exists j, 0 <= j < 1024 /\ c = cur MAX id j.
Proof.
  intros E. apply probe_Some in E as (j & Hj & -> & P & _). split; [by apply holds_bool|].
  exists j. split; [|done]. unfold MAX_PROBES in Hj. lia.
Qed.

Lemma find_slot_None id t :
  find_slot MAX id t = None <-> forall j, 0 <= j < 1024 -> ~ holds t (cur MAX id j) id.
Proof.
  unfold find_slot. rewrite probe_None. unfold MAX_PROBES. rewrite Z2Nat.id by lia.
  split; intros F j Hj.
  - rewrite <- holds_bool, F by lia. done.
  - apply not_true_is_false. rewrite holds_bool. apply F. lia.
Qed.

Lemma find_session_None id t : find_session MAX id t = None <-> find_slot MAX id t = None.
Proof. unfold find_session. by destruct (find_slot MAX id t). Qed.

(** Writing a slot that neither held nor gets an entry of [id] does not concern [id]. *)
Lemma find_session_update id t c s :
  s_call_id (slot t c) <> id \/ id = [] -> s_call_id s <> id \/ id = [] ->
  find_session MAX id (<[c := s]> t) = find_session MAX id t.
Proof.
  intros H1 H2. unfold find_session.
  assert (find_slot MAX id (<[c := s]> t) = find_slot MAX id t) as ->.
  { apply probe_ext. intros j _. destruct (decide (cur MAX id j = c)) as [->|].
    - by rewrite slot_insert_eq, !other_id.
    - by rewrite slot_insert_ne. }
  destruct (find_slot MAX id t) as [c'|] eqn:E; cbn; [|done].
  apply find_slot_holds in E as [[] _]. rewrite slot_insert_ne; [done|]. naive_solver.
Qed.

(** ** Storing *)

Definition room (id : list Z) (t : sessions) : option Z :=
  probe MAX (fun s => is_free s || has_id id s) t id MAX_PROBES 0.

Lemma room_cases id t c :
  room id t = Some c ->
  (exists j, 0 <= j < 1024 /\ c = cur MAX id j
             /\ forall k, 0 <= k < j -> s_call_id (slot t (cur MAX id k)) <> []
                                       /\ s_call_id (slot t (cur MAX id k)) <> id)
  /\ (s_call_id (slot t c) = [] \/ s_call_id (slot t c) = id).
Proof.
  unfold room. intros E. apply probe_Some in E as (j & Hj & -> & P & F). split.
  - exists j. split; [unfold MAX_PROBES in Hj; lia|]. split; [done|].
    intros k Hk. specialize (F k ltac:(lia)). apply orb_false_iff in F.
    unfold is_free, has_id in F. rewrite !bool_decide_eq_false in F. done.
  - apply orb_true_iff in P. unfold is_free, has_id in P. by rewrite !bool_decide_eq_true in P.
Qed.

Lemma stored_id (id : list Z) : len id <= 127 -> ztake 127 id = id.
Proof. apply ztake_all. Qed.

(** The entry just stored is found, if there was room for it. *)
Lemma find_stored id a n t :
  valid_id id ->
  find_session MAX id (store_session MAX id a n t)
  = match room id t with Some _ => Some (a, n) | None => None end.
Proof using HM.
  intros [Hid Hlen]. unfold store_session. fold (room id t).
  destruct (room id t) as [c|] eqn:E.
  - apply room_cases in E as [(j & Hj & -> & F) _]. unfold find_session.
    assert (find_slot MAX id (<[cur MAX id j := Session (ztake 127 id) a n]> t)
            = Some (cur MAX id j)) as ->.
    { apply probe_first.
      - unfold MAX_PROBES. lia.
      - apply holds_bool. split; [|done]. rewrite slot_insert_eq. by apply stored_id.
      - intros k Hk. apply other_id. left.
        rewrite slot_insert_ne by (intros C%cur_inj; lia). by apply F. }
    cbn. by rewrite slot_insert_eq.
  - apply find_session_None, find_slot_None. intros j Hj [S _].
    unfold room in E. rewrite probe_None in E. specialize (E j ltac:(unfold MAX_PROBES; lia)).
    apply orb_false_iff in E as [_ E]. by apply bool_decide_eq_false in E.
Qed.

Lemma find_other id id' a n t :
  len id <= 127 -> id' <> id ->
  find_session MAX id' (store_session MAX id a n t) = find_session MAX id' t.
Proof.
  intros Hlen Hne. unfold store_session. fold (room id t).
  destruct (room id t) as [c|] eqn:E; [|done]. apply room_cases in E as [_ Hc].
  destruct (decide (id' = [])); apply find_session_update; cbn [s_call_id];
    rewrite ?stored_id by done; naive_solver.
Qed.

(** The first two turns. *)
Lemma store_first id a n t :
  len id <= 127 -> s_call_id (slot t (cur MAX id 0)) = [] ->
  store_session MAX id a n t = <[cur MAX id 0 := Session id a n]> t.
Proof using HM.
  intros Hl E. unfold store_session. erewrite (probe_first _ _ _ _ 0).
  - by rewrite stored_id.
  - unfold MAX_PROBES. lia.
  - unfold is_free. by rewrite bool_decide_eq_true_2.
  - lia.
Qed.

Lemma store_second id a n t :
  len id <= 127 -> s_call_id (slot t (cur MAX id 0)) <> [] -> s_call_id (slot t (cur MAX id 0)) <> id ->
  s_call_id (slot t (cur MAX id 1)) = [] ->
  store_session MAX id a n t = <[cur MAX id 1 := Session id a n]> t.
Proof using HM.
  intros Hl E1 E2 E. unfold store_session. erewrite (probe_first _ _ _ _ 1).
  - by rewrite stored_id.
  - unfold MAX_PROBES. lia.
  - unfold is_free. by rewrite bool_decide_eq_true_2.
  - intros k Hk. assert (k = 0) as -> by lia. unfold is_free, has_id.
    by rewrite !bool_decide_eq_false_2.
Qed.

Lemma find_first id t : holds t (cur MAX id 0) id -> find_slot MAX id t = Some (cur MAX id 0).
Proof using HM.
  intros H. apply probe_first; [unfold MAX_PROBES; lia|by apply holds_bool|lia].
Qed.

Lemma find_second id t :
  s_call_id (slot t (cur MAX id 0)) <> id -> holds t (cur MAX id 1) id ->
  find_slot MAX id t = Some (cur MAX id 1).
Proof using HM.
  intros H0 H. apply probe_first; [unfold MAX_PROBES; lia|by apply holds_bool|].
  intros k Hk. assert (k = 0) as -> by lia. apply other_id. by left.
Qed.

(** ** Deleting *)

Lemma delete_other id id' t :
  id' <> id -> find_session MAX id' (delete_session MAX id t) = find_session MAX id' t.
Proof.
  intros Hne. unfold delete_session. destruct (find_slot MAX id t) as [c|] eqn:E; [|done].
  apply find_slot_holds in E as [[Hc ?] _].
  destruct (decide (id' = [])); apply find_session_update; cbn [s_call_id]; naive_solver.
Qed.

(** ** The invariant *)

Record table_ok (t : sessions) : Prop := {
  ok_size : forall i, len (s_call_id (slot t i)) <= 127;
  ok_placed : forall i id, 0 <= i < MAX -> holds t i id ->
                exists j, 0 <= j < 1024 /\ i = cur MAX id j;
  ok_unique : forall i j id, 0 <= i < MAX -> 0 <= j < MAX ->
                holds t i id -> holds t j id -> i = j
}.

Lemma slot_empty i : slot ∅ i = free_slot.
Proof. unfold slot. by rewrite lookup_empty. Qed.

Lemma table_ok_empty : table_ok ∅.
Proof.
  split; [intros i; by rewrite slot_empty|..];
    intros *; unfold holds; rewrite !slot_empty; cbn; naive_solver.
Qed.

Lemma delete_holds id t i id' :
  holds (delete_session MAX id t) i id' -> holds t i id'.
Proof.
  unfold delete_session. destruct (find_slot MAX id t) as [c|]; [|done].
  unfold holds. destruct (decide (i = c)) as [->|].
  - rewrite slot_insert_eq. cbn. naive_solver.
  - by rewrite slot_insert_ne.
Qed.

Lemma delete_ok id t : table_ok t -> table_ok (delete_session MAX id t).
Proof.
  intros [S P U]. split.
  - intros i. unfold delete_session. destruct (find_slot MAX id t) as [c|]; [|done].
    destruct (decide (i = c)) as [->|]; [by rewrite slot_insert_eq|by rewrite slot_insert_ne].
  - intros i id' Hi H%delete_holds. eauto.
  - intros i j id' Hi Hj H1%delete_holds H2%delete_holds. eauto.
Qed.

(** Without a second entry, deleting removes the Call-ID. *)
Lemma delete_found id t :
  table_ok t -> find_session MAX id (delete_session MAX id t) = None.
Proof using HM.
  intros [_ _ U]. unfold delete_session. destruct (find_slot MAX id t) as [c|] eqn:E.
  2: by apply find_session_None.
  apply find_slot_holds in E as [Hc (j0 & _ & ->)].
  apply find_session_None, find_slot_None. intros j Hj [S Hid].
  destruct (decide (cur MAX id j = cur MAX id j0)) as [E|E].
  - rewrite E, slot_insert_eq in S. cbn in S. congruence.
  - rewrite slot_insert_ne in S by done.
    by apply E, (U _ _ id); [apply cur_bounds..|split|].
Qed.

Lemma store_ok id a n t :
  valid_id id -> find_session MAX id t = None -> table_ok t ->
  table_ok (store_session MAX id a n t).
Proof using HM.
  intros [Hid Hlen] N [S P U]. unfold store_session. fold (room id t).
  destruct (room id t) as [c|] eqn:E; [|done].
  apply room_cases in E as [(j0 & Hj0 & Hc & _) _]. rewrite stored_id by done.
  set (t' := <[c := _]> t).
  assert (forall i id', holds t' i id' -> i = c /\ id' = id \/ holds t i id' /\ i <> c) as HH.
  { intros i id'. subst t'. unfold holds. destruct (decide (i = c)) as [->|].
    - rewrite slot_insert_eq. cbn. naive_solver.
    - rewrite slot_insert_ne by done. naive_solver. }
  assert (forall i, 0 <= i < MAX -> ~ holds t i id) as No.
  { intros i Hi Hh. destruct (P i id Hi Hh) as (j & Hj & ->).
    rewrite find_session_None, find_slot_None in N. by apply (N j). }
  split.
  - intros i. subst t'. destruct (decide (i = c)) as [->|];
      [by rewrite slot_insert_eq|by rewrite slot_insert_ne].
  - intros i id' Hi [[-> ->]|[Hh _]]%HH; [by exists j0|by apply P].
  - intros i j id' Hi Hj [[-> ->]|[Hh1 ?]]%HH [[-> E]|[Hh2 ?]]%HH; try done.
    + by destruct (No j).
    + subst id'. by destruct (No i).
    + by apply (U i j id').
Qed.

(** ** Room *)

Definition chain_ids (t : sessions) (id : list Z) : list (list Z) :=
  (fun j => s_call_id (slot t (cur MAX id j))) <$> seqZ 0 1024.

(** With fewer than 1024 Call-IDs in a correct table there is a free slot in every chain. *)
Lemma room_if_few (t : sessions) (ids : gset (list Z)) id :
  table_ok t -> (forall id', valid_id id' -> is_Some (find_session MAX id' t) -> id' ∈ ids) ->
  Z.of_nat (size ids) < 1024 -> is_Some (room id t).
Proof using HM.
  intros [S P U] Hids Hsize. destruct (room id t) as [c|] eqn:E; [done|]. exfalso.
  unfold room in E. rewrite probe_None in E.
  assert (forall j, 0 <= j < 1024 -> holds t (cur MAX id j) (s_call_id (slot t (cur MAX id j))))
    as Full.
  { intros j Hj. specialize (E j ltac:(unfold MAX_PROBES; lia)). split; [done|].
    apply orb_false_iff in E as [E _]. unfold is_free in E. by apply bool_decide_eq_false in E. }
  assert (NoDup (chain_ids t id)) as ND.
  { apply NoDup_fmap_2_strong; [|apply NoDup_seqZ].
    intros i j Hi%elem_of_seqZ Hj%elem_of_seqZ Eq.
    apply (cur_inj id); [lia..|].
    apply (U _ _ (s_call_id (slot t (cur MAX id i)))); [apply cur_bounds..| |].
    - apply Full. lia.
    - rewrite Eq. apply Full. lia. }
  assert (list_to_set (chain_ids t id) ⊆ ids) as Sub.
  { intros x. rewrite elem_of_list_to_set. unfold chain_ids. rewrite list_elem_of_fmap.
    intros (j & -> & Hj%elem_of_seqZ). destruct (Full j ltac:(lia)) as [_ Hne].
    apply Hids; [by split|]. destruct (find_session MAX _ t) as [r|] eqn:F; [done|]. exfalso.
    rewrite find_session_None, find_slot_None in F.
    destruct (P (cur MAX id j) _ (cur_bounds _ _) (Full j ltac:(lia))) as (k & Hk & Ek).
    apply (F k Hk). rewrite <- Ek. apply Full. lia. }
  apply subseteq_size in Sub. rewrite size_list_to_set in Sub by done.
  unfold chain_ids in Sub. rewrite length_fmap, length_seqZ in Sub. lia.
Qed.

End table.
