(* ===== verification/Proxy.v ===== *)
(** The SIP proxies of [docker/], which route between a caller, a fixed called party and
    rtpengine, and ask the database for a node at each INVITE. [kamailio_entrypoint.c] and
    [opensips_entrypoint.c] have the same loop; what differs is an argument: the size of the
    table, the cookies, the addresses and the request to the database.

    A packet received is its bytes, its sender and the length of the sender's address; the
    packets sent are part of the result, in order ([sendto] is never checked). *)
From S2P Require Export Sessions.

Definition BUFFER_SIZE : Z := 8192.
Definition sizeof_sockaddr_in : Z := 16.

Definition datagram : Type := list Z * (sockaddr_in * Z).

Record proxy := Proxy {
  MAX_SESSIONS : Z;
  offer_cookie : list Z; delete_cookie : list Z;
  uas_addr : sockaddr_in; rtpe_addr : sockaddr_in
}.

(** [inet_pton] into the address of a zeroed [sockaddr_in], most significant octet first. *)
Definition in_addr_step (st : Z * Z) (c : Z) : Z * Z :=
  if c =? 46 then (st.1 * 256 + st.2, 0) else (st.1, st.2 * 10 + (c - 48)).
Definition in_addr (s : list Z) : Z :=
  if inet_pton4 s then let '(a, b) := foldl in_addr_step (0, 0) s in a * 256 + b else 0.

(** A command for rtpengine, with the Call-ID between quotation marks (34). *)
Definition quoted_word (w : list Z) : list Z := [34] ++ w ++ [34].
Definition ng_command (cookie verb id : list Z) : list Z :=
  cookie ++ lit " " ++ verb ++ lit " {" ++ quoted_word (lit "call-id") ++ lit ":" ++ quoted_word id
  ++ lit "," ++ quoted_word (lit "command") ++ lit ":" ++ quoted_word verb ++ lit "}".

Section proxy.
Context {D : Type} (P : proxy) (select_node : M D unit).

Definition to_uas (buf : list Z) : datagram := (buf, (uas_addr P, sizeof_sockaddr_in)).
(** The text goes through an array of 1024 bytes. *)
Definition to_rtpe (text : list Z) : datagram :=
  (ztake 1023 text, (rtpe_addr P, sizeof_sockaddr_in)).

Definition on_packet (t : sessions) (buffer : list Z) (cliaddr : sockaddr_in) (n : Z)
  : M D (sessions * list datagram) :=
  let msg := cstr buffer in
  let first_line := line_chars 255 msg in
  let id := extract_call_id msg 128 in
  if starts (lit "INVITE") first_line then
    let t := store_session (MAX_SESSIONS P) id cliaddr n t in
    _ ← select_node;
    mret (t, [to_rtpe (ng_command (offer_cookie P) (lit "offer") id); to_uas buffer])
  else if starts (lit "SIP/2.0 180") first_line || starts (lit "SIP/2.0 200") first_line then
    mret (t, [match find_session (MAX_SESSIONS P) id t with
              | Some uac => (buffer, uac)
              | None => to_uas buffer
              end])
  else if starts (lit "ACK") first_line then mret (t, [to_uas buffer])
  else if starts (lit "BYE") first_line then
    let del := to_rtpe (ng_command (delete_cookie P) (lit "delete") id) in
    if sin_addr cliaddr =? sin_addr (uas_addr P) then
      mret (delete_session (MAX_SESSIONS P) id t,
            del :: match find_session (MAX_SESSIONS P) id t with
                   | Some uac => [(buffer, uac)]
                   | None => []
                   end)
    else mret (t, [del; to_uas buffer])
  else mret (t, []).

(** What one [recvfrom] gives: nothing after an error. *)
Definition received : Type := option (list Z * sockaddr_in * Z).

(** One turn of the loop; a packet is cut at the size of the buffer. *)
Definition proxy_turn (t : sessions) (ev : received) : M D (sessions * list datagram) :=
  match ev with
  | Some (packet, cliaddr, n) =>
      let buffer := ztake (BUFFER_SIZE - 1) packet in
      if len buffer <=? 0 then mret (t, []) else on_packet t buffer cliaddr n
  | None => mret (t, [])
  end.

(** The loop over the packets that arrive. *)
Fixpoint proxy_loop (t : sessions) (evs : list received) : M D (sessions * list datagram) :=
  match evs with
  | [] => mret (t, [])
  | ev :: evs' =>
      '(t, out) ← proxy_turn t ev;
      '(t, outs) ← proxy_loop t evs';
      mret (t, out ++ outs)
  end.

(** [main] from the creation of its socket on, [bound] being the success of [bind]: what is
    sent in answer to the packets, or nothing when the socket cannot be made. *)
Definition proxy_main (bound : bool) (evs : list received) : M D (option (list datagram)) :=
  sockfd ← sys sys_socket;
  if sockfd <? 0 then mret None
  else if negb bound then _ ← close sockfd; mret None
  else '(_, outs) ← proxy_loop ∅ evs; mret (Some outs).

End proxy.

(** The variables of the environment. *)
Record environment := Env {
  TARANTOOL_HOST : option (list Z); TARANTOOL_PORT : option (list Z);
  RTPENGINE_HOST : option (list Z); NODE_ID : option (list Z)
}.

Definition tnt_host (e : environment) : list Z := default (lit "172.28.0.10") (TARANTOOL_HOST e).
Definition tnt_port (e : environment) : Z :=
  match TARANTOOL_PORT e with Some p => atoi p | None => 3301 end.
Definition rtpe_host (e : environment) : list Z := default (lit "172.28.0.20") (RTPENGINE_HOST e).

Definition UAS_IP : list Z := lit "172.28.0.40".
Definition UAS_PORT : Z := 5080.
