(* ===== verification/Containers.v ===== *)
(** The proxies of [docker/kamailio_entrypoint.c] and [docker/opensips_entrypoint.c]: the loop of
    [Proxy] over the driver of [Kamailio], and over the driver of [OpenSips] in its standalone
    build. *)
From S2P Require Export Proxy Kamailio.

(** * Kamailio *)

Section main.
Context `{!MsgpackC, !KamCore}.

(** The module parameters of the container. *)
Definition container_params : kam_params := KParams false 1000 1000 60 3.

Definition kam_proxy (e : environment) : proxy :=
  Proxy 32768 (lit "kam_cookie_1") (lit "kam_cookie_2")
        (SockAddr (in_addr UAS_IP) UAS_PORT) (SockAddr (in_addr (rtpe_host e)) 22222).

(** The call of a procedure at each INVITE; its result is freed. *)
Definition kam_select_node : ML unit :=
  '(_, _) ← sr_kemi_tarantool_call (Some (Str (Some (lit "rtpe_select_node")) 16))
              (Some (Str (Some (lit "[]")) 2)) (Some (Str None 0));
  mret tt.

Definition srv_spec (e : environment) : list Z :=
  ztake 511 (lit "name=default;addr=" ++ tnt_host e ++ lit ";port=" ++ fmt_ld (tnt_port e)
             ++ lit ";user=rtpe_user;pass=rtpe_secret_password").

Definition kam_main (e : environment) (bound : bool) (evs : list received)
  : ML (option (list datagram)) :=
  _ ← tnt_add_server container_params (Some (srv_spec e));
  _ ← tnt_child_init container_params 1;
  proxy_main (kam_proxy e) kam_select_node bound evs.

End main.

(** * OpenSIPS *)

From S2P Require Export OpenSips.

Definition os_proxy (e : environment) : proxy :=
  Proxy 65536 (lit "opensips_cookie_1") (lit "opensips_cookie_2")
        (SockAddr (in_addr UAS_IP) UAS_PORT) (SockAddr (in_addr (rtpe_host e)) 22222).

(** Without a handle the database is not asked. *)
Definition os_select_node (con : bool) : MT unit :=
  if con then
    '(_, _) ← tarantool_call_proc (Some (Str (Some (lit "rtpe_select_node")) 16))
                (Some (Str (Some (lit "[]")) 2)) true;
    mret tt
  else mret tt.

Definition url_str (e : environment) : list Z :=
  ztake 511 (lit "tarantool:cluster1://rtpe_user:rtpe_secret_password@" ++ tnt_host e ++ lit ":"
             ++ fmt_ld (tnt_port e) ++ lit "/rtpe_calls").

Definition os_main (e : environment) (bound : bool) (evs : list received)
  : MT (option (list datagram)) :=
  con ← tarantool_init default_params (Some (str_of (url_str e)));
  proxy_main (os_proxy e) (os_select_node con) bound evs.
