(* ===== verification/RtpeDaemon.v ===== *)
(** The daemon of [docker/rtpengine_entrypoint.c]: it answers the NG commands of the proxies,
    a cookie, a command and a text in JSON, and keeps the calls with the driver of [Rtpe]. *)
From S2P Require Export Proxy Rtpe.

Definition NG_BUFFER_SIZE : Z := 4096.

(** At most [n] characters up to white space ([%ns]), and what is left. *)
Fixpoint word_chars (n : nat) (p : list Z) : list Z * list Z :=
  match n, p with
  | S n', c :: p' => if isspace c then ([], p)
                     else let '(w, r) := word_chars n' p' in (c :: w, r)
  | _, _ => ([], p)
  end.

(** [sscanf(buffer, "%63s %31s", cookie, command)] on two empty arrays. *)
Definition scan_words (buffer : list Z) : list Z * list Z :=
  let '(cookie, r) := word_chars 63 (skip_space buffer) in
  let '(command, _) := word_chars 31 (skip_space r) in
  (cookie, command).

(** At most [n] characters up to a quotation mark. *)
Fixpoint quoted_chars (n : nat) (p : list Z) : list Z :=
  match n, p with
  | S n', c :: p' => if c =? 34 then [] else c :: quoted_chars n' p'
  | _, _ => []
  end.

Definition sample_call_id : list Z := lit "sample-call-id-12345".

(** The Call-ID of a command: what [sscanf] finds after the first [call-id], a quotation mark,
    a colon and a quotation mark; the identifier set before when it finds nothing. *)
Definition command_call_id (buffer : list Z) : list Z :=
  match strstr buffer (lit "call-id") with
  | Some (_, p) =>
      match after_prefix [34; 58; 34] p with
      | Some p => match quoted_chars 127 p with [] => sample_call_id | id => id end
      | None => sample_call_id
      end
  | None => sample_call_id
  end.

Definition daemon_info (node id : list Z) : rtpe_call_info :=
  Info (Some id) (len id) (Some node) (Some (lit "172.28.0.100")) 30002
       (Some (lit "172.28.0.101")) 30004 (Some (lit "AES_CM_128_HMAC_SHA1_80")) None 120.

Definition node_name (e : environment) : list Z := default (lit "rtpe-node-01") (NODE_ID e).

(** The answers, after the cookie. *)
Definition media_answer : list Z := lit " d8:result2:ok4:porti30002ee".
Definition ok_answer : list Z := lit " d8:result2:okee".
Definition pong_answer : list Z := lit " d8:result4:pongee".

Definition is_command (command : list Z) (name : string) : bool := bool_decide (command = lit name).

(** One command, and the text of the answer. *)
Definition ng_answer (node buffer : list Z) : MR (list Z) :=
  let msg := cstr buffer in
  let '(cookie, command) := scan_words msg in
  if is_command command "offer" || is_command command "answer" then
    _ ← rtpe_tarantool_save_call (Some (daemon_info node (command_call_id msg)));
    mret (cookie ++ media_answer)
  else if is_command command "delete" then
    _ ← rtpe_tarantool_delete_call (Some sample_call_id) (len sample_call_id);
    mret (cookie ++ ok_answer)
  else if is_command command "ping" then mret (cookie ++ pong_answer)
  else mret (cookie ++ ok_answer).

Definition ng_turn (node : list Z) (ev : received) : MR (list datagram) :=
  match ev with
  | Some (packet, cliaddr, n) =>
      let buffer := ztake (NG_BUFFER_SIZE - 1) packet in
      if len buffer <=? 0 then mret [] else
      response ← ng_answer node buffer;
      mret [(ztake (NG_BUFFER_SIZE - 1) response, (cliaddr, n))]
  | None => mret []
  end.

Fixpoint ng_loop (node : list Z) (evs : list received) : MR (list datagram) :=
  match evs with
  | [] => mret []
  | ev :: evs' => out ← ng_turn node ev; outs ← ng_loop node evs'; mret (out ++ outs)
  end.

(** [main], as [proxy_main]. *)
Definition ng_main (e : environment) (bound : bool) (evs : list received)
  : MR (option (list datagram)) :=
  ok ← rtpe_tarantool_new (Some (default (lit "127.0.0.1") (TARANTOOL_HOST e))) (tnt_port e)
         (Some (lit "rtpe_user")) (Some (lit "rtpe_secret_password")) (Some (node_name e));
  if negb ok then mret None else
  sockfd ← sys sys_socket;
  if sockfd <? 0 then mret None
  else if negb bound then _ ← close sockfd; mret None
  else outs ← ng_loop (node_name e) evs; mret (Some outs).
