(* ===== verification/ProxyFacts.v ===== *)
(** Lemmas on the proxies: the Call-ID of a message, the routing of one packet and of a
    sequence of packets; and the scanning of a command by the daemon. *)
From S2P Require Export SessionFacts CstrFacts Proxy.

(** ** Call-IDs *)

Lemma line_chars_len n p : len (line_chars n p) <= Z.of_nat n.
Proof.
  revert p. induction n as [|n IH]; intros [|c p]; cbn [line_chars]; try by (unfold len; cbn; lia).
  case_match; rewrite ?len_nil, ?len_cons; [lia|]. specialize (IH p). lia.
Qed.

Lemma line_chars_nonzero n p : 0 ∉ p -> 0 ∉ line_chars n p.
Proof.
  revert p. induction n as [|n IH]; intros [|c p] Hp; cbn; try by set_solver.
  case_match; set_solver.
Qed.

Lemma cstr_nonzero bs : 0 ∉ cstr bs.
Proof. induction bs as [|b bs IH]; cbn; [set_solver|]. case_match; set_solver by lia. Qed.

Lemma skip_lws_sub p x : x ∈ skip_lws p -> x ∈ p.
Proof. induction p as [|c p IH]; cbn; [done|]. case_match; set_solver. Qed.

Lemma strcasestr_sub p pat r x : strcasestr p pat = Some r -> x ∈ r -> x ∈ p.
Proof.
  revert r. induction p as [|c p IH]; intros r E Hx; cbn in E; case_match; simplify_eq; try done.
  set_solver.
Qed.

Lemma call_id_header_sub m p x : call_id_header m = Some p -> x ∈ p -> x ∈ m.
Proof.
  unfold call_id_header. intros E Hx.
  repeat (case_match; simplify_eq); eauto using strcasestr_sub.
Qed.

(** A Call-ID has no NUL and at most 127 characters. *)
Lemma extract_call_id_wf bs :
  0 ∉ extract_call_id (cstr bs) 128 /\ len (extract_call_id (cstr bs) 128) <= 127.
Proof.
  unfold extract_call_id. destruct (call_id_header (cstr bs)) as [p|] eqn:E; cbn [mbind option_bind].
  - destruct (strchr p 58) as [[a q]|] eqn:S.
    + split; [|apply line_chars_len]. apply line_chars_nonzero. intros H%skip_lws_sub.
      apply strchr_sound in S as [-> _]. apply (cstr_nonzero bs).
      eapply call_id_header_sub; [done|]. set_solver.
    + split; vm_compute; set_solver.
  - split; vm_compute; set_solver.
Qed.

(** ** Packets *)

Definition first_line (buf : list Z) : list Z := line_chars 255 (cstr buf).
Definition id_of (buf : list Z) : list Z := extract_call_id (cstr buf) 128.

Definition is_invite (buf : list Z) : bool := starts (lit "INVITE") (first_line buf).
Definition is_answer (buf : list Z) : bool :=
  starts (lit "SIP/2.0 180") (first_line buf) || starts (lit "SIP/2.0 200") (first_line buf).
Definition is_bye (buf : list Z) : bool := starts (lit "BYE") (first_line buf).

Lemma starts_sound pat p : starts pat p = true -> exists r, p = pat ++ r.
Proof.
  unfold starts. rewrite bool_decide_eq_true. intros [r E]. exists r. by apply after_prefix_sound.
Qed.

(** A line does not start with two words whose first letters differ. *)
Lemma starts_excl a b pat pat' p :
  starts (a :: pat) p = true -> a <> b -> starts (b :: pat') p = false.
Proof.
  intros [r ->]%starts_sound Hab. apply bool_decide_eq_false. cbn.
  destruct (b =? a) eqn:E; [lia|]. by intros [].
Qed.

Lemma starts_nonempty a pat buf : starts (a :: pat) (first_line buf) = true -> 0 < len buf.
Proof.
  intros [r E]%starts_sound. destruct buf as [|b buf]; [done|]. rewrite len_cons.
  pose proof (len_nonneg buf). lia.
Qed.

Lemma invite_nonempty buf : is_invite buf = true -> 0 < len buf.
Proof. apply starts_nonempty. Qed.

Lemma answer_nonempty buf : is_answer buf = true -> 0 < len buf.
Proof. unfold is_answer. intros [H|H]%orb_true_iff; by eapply starts_nonempty. Qed.

Lemma answer_not_invite buf : is_answer buf = true -> is_invite buf = false.
Proof. unfold is_answer, is_invite. intros [H|H]%orb_true_iff; by eapply starts_excl. Qed.

Lemma bye_only buf :
  is_bye buf = true ->
  is_invite buf = false /\ is_answer buf = false /\ starts (lit "ACK") (first_line buf) = false.
Proof.
  intros H. unfold is_answer. rewrite orb_false_iff.
  repeat split; (by eapply (starts_excl 66 _ _ _ _ H)).
Qed.

(** ** Routing *)

(** A packet received whole. *)
Definition packet (buf : list Z) (a : sockaddr_in) (n : Z) : received := Some (buf, a, n).

(** An event that is no packet of the call [id]. *)
Definition about_other (id : list Z) (ev : received) : Prop :=
  match ev with Some (buf, _, _) => id_of (ztake (BUFFER_SIZE - 1) buf) <> id | None => True end.

(** [n] requests to the database, one after the other, are all answered: each of them returns,
    in the state and the world the ones before it left. *)
Fixpoint serves {D} (select_node : M D unit) (n : nat) (d : D) (w : world) : Prop :=
  match n with
  | O => True
  | S n' => exists d' w', select_node d w = Ret tt d' w' /\ serves select_node n' d' w'
  end.

(** The requests a packet leads to: one for an INVITE. *)
Definition is_invite_event (ev : received) : bool :=
  match ev with Some (buf, _, _) => is_invite (ztake (BUFFER_SIZE - 1) buf) | None => false end.
Definition requests (evs : list received) : nat :=
  sum_list ((fun ev => if is_invite_event ev then 1%nat else 0%nat) <$> evs).

Lemma requests_cons ev evs :
  requests (ev :: evs) = ((if is_invite_event ev then 1 else 0) + requests evs)%nat.
Proof. done. Qed.

Section routing.
Context {D : Type} (P : proxy) (select_node : M D unit).
Context (HM : 1024 <= MAX_SESSIONS P <= 2 ^ 31).

Lemma turn_whole t buf a n :
  0 < len buf < BUFFER_SIZE ->
  proxy_turn P select_node t (packet buf a n) = on_packet P select_node t buf a n.
Proof.
  intros Hl. cbn. rewrite ztake_all by lia.
  destruct (len buf <=? 0) eqn:E; [lia|done].
Qed.

Lemma turn_invite t buf a n m d w :
  is_invite buf = true -> len buf < BUFFER_SIZE -> serves select_node (S m) d w ->
  exists d' w', proxy_turn P select_node t (packet buf a n) d w
    = Ret (store_session (MAX_SESSIONS P) (id_of buf) a n t,
           [to_rtpe P (ng_command (offer_cookie P) (lit "offer") (id_of buf)); to_uas P buf]) d' w'
    /\ serves select_node m d' w'.
Proof.
  intros Hi Hl (d' & w' & E & Hs). rewrite turn_whole by (apply invite_nonempty in Hi; lia).
  unfold on_packet. fold (first_line buf) (id_of buf) (is_invite buf). rewrite Hi.
  run E. by exists d', w'.
Qed.

Lemma turn_answer t buf a n :
  is_answer buf = true -> len buf < BUFFER_SIZE ->
  proxy_turn P select_node t (packet buf a n)
  = mret (t, [match find_session (MAX_SESSIONS P) (id_of buf) t with
              | Some uac => (buf, uac) | None => to_uas P buf end]).
Proof.
  intros Ha Hl. rewrite turn_whole by (apply answer_nonempty in Ha; lia). unfold on_packet.
  fold (first_line buf) (id_of buf) (is_invite buf) (is_answer buf).
  by rewrite (answer_not_invite buf Ha), Ha.
Qed.

(** A turn about another call leaves the entry of [id] as it is; it asks the database once if
    its packet is an INVITE, and not at all otherwise. *)
Lemma turn_other t ev id m d w :
  about_other id ev -> serves select_node (requests [ev] + m) d w ->
  exists t' out d' w', proxy_turn P select_node t ev d w = Ret (t', out) d' w'
    /\ find_session (MAX_SESSIONS P) id t' = find_session (MAX_SESSIONS P) id t
    /\ serves select_node m d' w'.
Proof using HM.
  destruct ev as [[[buf a] n]|]; [|by intros _ ?; exists t, [], d, w].
  unfold requests. cbn [fmap list_fmap sum_list sum_list_with about_other proxy_turn is_invite_event].
  set (b := ztake _ buf). intros Ho Hs. destruct (len b <=? 0) eqn:Hb.
  { exists t, [], d, w. split_and!; [done..|].
    destruct (is_invite b) eqn:Hi; [apply invite_nonempty in Hi; lia|done]. }
  unfold on_packet. fold (id_of b) (first_line b) (is_invite b).
  destruct (is_invite b).
  { destruct Hs as (d' & w' & E & Hs). run E. do 4 eexists. split; [done|]. split; [|done].
    apply find_other; [done|apply extract_call_id_wf|done]. }
  destruct (_ || _); [by do 4 eexists|].
  destruct (starts (lit "ACK") _); [by do 4 eexists|].
  destruct (starts (lit "BYE") _); [|by do 4 eexists].
  destruct (_ =? _); [|by do 4 eexists].
  do 4 eexists. split; [done|]. split; [|done]. by apply delete_other.
Qed.

Lemma loop_other t evs id m d w :
  Forall (about_other id) evs -> serves select_node (requests evs + m) d w ->
  exists t' out d' w', proxy_loop P select_node t evs d w = Ret (t', out) d' w'
    /\ find_session (MAX_SESSIONS P) id t' = find_session (MAX_SESSIONS P) id t
    /\ serves select_node m d' w'.
Proof using HM.
  intros F. revert t d w. induction F as [|ev evs He F IH]; intros t d w Hs; cbn [proxy_loop].
  - by exists t, [], d, w.
  - destruct (turn_other t ev id (requests evs + m) d w He) as (t1 & out & d1 & w1 & E & F1 & Hs1).
    { rewrite requests_cons in Hs. unfold requests at 1. cbn. by rewrite Nat.add_0_r, Nat.add_assoc. }
    run E. destruct (IH t1 d1 w1 Hs1) as (t2 & outs & d2 & w2 & E2 & F2 & Hs2). run E2.
    exists t2, (out ++ outs), d2, w2. split; [done|]. split; [by rewrite F2, F1|done].
Qed.

Lemma loop_app t evs evs' d w t1 out d1 w1 :
  proxy_loop P select_node t evs d w = Ret (t1, out) d1 w1 ->
  proxy_loop P select_node t (evs ++ evs') d w
  = ('(t2, outs) ← proxy_loop P select_node t1 evs'; mret (t2, out ++ outs)) d1 w1.
Proof.
  revert t d w out. induction evs as [|ev evs IH]; intros t d w out; cbn [proxy_loop app].
  - intros [= <- <- <- <-]. unfold mbind, M_bind, mret, M_ret. by case_match; repeat case_match.
  - destruct (proxy_turn P select_node t ev d w) as [[t' o] d' w'| |] eqn:E;
      unfold mbind, M_bind; rewrite E; try done.
    destruct (proxy_loop P select_node t' evs d' w') as [[t'' o'] d'' w''| |] eqn:E';
      try done. intros [= <- <- <- <-]. rewrite (IH _ _ _ _ E').
    unfold mbind, M_bind, mret, M_ret.
    destruct (proxy_loop P select_node t'' evs' d'' w'') as [[? ?] ? ?| |]; try done.
    by rewrite (assoc_L (++)).
Qed.

End routing.
