(* ===== verification/ProxySpec.v ===== *)
(** The properties of the proxies: the table of calls implements a finite map, answers go back
    to the caller, and what the daemon of rtpengine does with the commands of a proxy. *)
From S2P Require Import KamSpec.
From S2P Require Export ProxyFacts Containers RtpeDaemon.

(** * The table as a finite map *)

Inductive session_op :=
| OpStore (id : list Z) (a : sockaddr_in) (n : Z)
| OpDelete (id : list Z).

Definition run_op (MAX : Z) (t : sessions) (op : session_op) : sessions :=
  match op with
  | OpStore id a n => store_session MAX id a n t
  | OpDelete id => delete_session MAX id t
  end.

(** The finite map of the calls in progress. *)
Definition spec_op (m : gmap (list Z) (sockaddr_in * Z)) (op : session_op)
  : gmap (list Z) (sockaddr_in * Z) :=
  match op with
  | OpStore id a n => <[id := (a, n)]> m
  | OpDelete id => delete id m
  end.

(** A call is stored once, and fewer than 1024 calls are in progress before it. *)
Definition op_ok (m : gmap (list Z) (sockaddr_in * Z)) (op : session_op) : Prop :=
  match op with
  | OpStore id _ _ => valid_id id /\ m !! id = None /\ Z.of_nat (size m) < 1024
  | OpDelete _ => True
  end.

Fixpoint ops_ok (m : gmap (list Z) (sockaddr_in * Z)) (ops : list session_op) : Prop :=
  match ops with
  | [] => True
  | op :: ops' => op_ok m op /\ ops_ok (spec_op m op) ops'
  end.

Definition represents (MAX : Z) (t : sessions) (m : gmap (list Z) (sockaddr_in * Z)) : Prop :=
  table_ok MAX t /\ forall id, valid_id id -> find_session MAX id t = m !! id.

Lemma op_refines MAX t m op :
  1024 <= MAX <= 2 ^ 31 -> represents MAX t m -> op_ok m op ->
  represents MAX (run_op MAX t op) (spec_op m op).
Proof.
  intros HM [T F] Hop. destruct op as [id a n|id]; cbn in *.
  - destruct Hop as (V & N & S). split.
    + apply store_ok; [done..| |done]. by rewrite F.
    + intros id' V'. destruct (decide (id' = id)) as [->|Hne].
      * rewrite find_stored, lookup_insert_eq by done.
        assert (is_Some (room MAX id t)) as [c ->]; [|done].
        apply (room_if_few MAX HM t (dom m)); [done| |by rewrite size_dom].
        intros x Vx. rewrite F by done. apply elem_of_dom.
      * rewrite find_other by (done || apply V). rewrite lookup_insert_ne by done. by apply F.
  - split; [by apply delete_ok|]. intros id' V'. destruct (decide (id' = id)) as [->|Hne].
    + rewrite lookup_delete_eq. by apply delete_found.
    + rewrite delete_other, lookup_delete_ne by done. by apply F.
Qed.

Lemma represents_empty MAX : 1024 <= MAX <= 2 ^ 31 -> represents MAX ∅ ∅.
Proof.
  intros HM. split; [by apply table_ok_empty|]. intros id [Hid _]. rewrite lookup_empty.
  apply find_session_None, find_slot_None; [done|]. intros j _ [H _]. by rewrite slot_empty in H.
Qed.

Lemma ops_refine MAX ops t m :
  1024 <= MAX <= 2 ^ 31 -> represents MAX t m -> ops_ok m ops ->
  represents MAX (foldl (run_op MAX) t ops) (foldl spec_op m ops).
Proof.
  intros HM. revert t m. induction ops as [|op ops IH]; intros t m R; cbn; [done|].
  intros [Ho Hops]. apply IH; [|done]. by apply op_refines.
Qed.

(** C28: as long as no call is stored while it is in the table and fewer than 1024 calls are in
    progress, any sequence of [store_session] and [delete_session] from the empty table makes
    [find_session] the look-up in the finite map on which the same insertions and deletions
    were made, collisions of hashes and free slots inside chains included. *)
Theorem sessions_refine_map (MAX : Z) (ops : list session_op) (id : list Z) :
  1024 <= MAX <= 2 ^ 31 -> ops_ok ∅ ops -> valid_id id ->
  find_session MAX id (foldl (run_op MAX) ∅ ops) = foldl spec_op ∅ ops !! id.
Proof.
  intros HM Hops V. by apply (ops_refine MAX ops _ _ HM (represents_empty MAX HM) Hops).
Qed.

(** Two Call-IDs with the same hash; the first is deleted before the second comes again. *)
Definition collision_ops (a b : string) : list session_op :=
  [OpStore (lit a) (SockAddr 1 1) 16; OpStore (lit b) (SockAddr 2 2) 16; OpDelete (lit a);
   OpStore (lit b) (SockAddr 3 3) 16; OpDelete (lit b)].

Lemma sessions_refine_map_witness :
  let ops := [OpStore (lit "ba") (SockAddr 1 1) 16; OpStore (lit "c@") (SockAddr 2 2) 16;
              OpDelete (lit "ba")] in
  find_session 32768 (lit "c@") (foldl (run_op 32768) ∅ ops) = foldl spec_op ∅ ops !! lit "c@".
Proof.
  apply sessions_refine_map; [done| |by vm_compute].
  repeat split; vm_compute; done.
Defined.

(** What [cur] gives for the first two turns of two Call-IDs with the same hash. *)
Lemma cur_same MAX a b i : hash_call_id MAX a = hash_call_id MAX b -> cur MAX a i = cur MAX b i.
Proof. unfold cur. by intros ->. Qed.

(** What the slots written so far hold. *)
Ltac slots := repeat first
    [rewrite slot_insert_eq | rewrite slot_insert_ne by congruence | rewrite slot_empty];
  cbn [s_call_id s_addr s_addr_len free_slot]; try congruence.

(** C37: a Call-ID that comes again when an entry before its own has been deleted gets a second
    entry, and the deletion of the call leaves the first. Of two calls with the same hash,
    let the second come, the first be deleted, the second come again, with another address,
    and be deleted in its turn: the table still answers for the second call, which is over,
    with the address of its first request (for Call-IDs of 1 to 127 bytes and a table of 1024
    to 2^31 entries, as those of the proxies). *)
Theorem repeated_call_outlives_delete (MAX : Z) (a b : list Z) (x y z : sockaddr_in) (n : Z) :
  1024 <= MAX <= 2 ^ 31 -> valid_id a -> valid_id b -> a <> b ->
  hash_call_id MAX a = hash_call_id MAX b ->
  find_session MAX b (foldl (run_op MAX) ∅
    [OpStore a x n; OpStore b y n; OpDelete a; OpStore b z n; OpDelete b]) = Some (y, n).
Proof.
  intros HM [Ha La] [Hb Lb] Hne Hh. cbn [foldl run_op].
  assert (cur MAX b 0 <> cur MAX b 1) as C by (intros E%cur_inj; lia).
  pose proof (cur_same MAX a b 0 Hh) as C0.
  rewrite (store_first MAX HM a x), C0; [|done|slots].
  rewrite (store_second MAX HM b y); [|done|slots..].
  unfold delete_session. rewrite (find_first MAX HM a) by (split; rewrite ?C0; slots). rewrite C0.
  rewrite (store_first MAX HM b z); [|done|slots].
  rewrite (find_first MAX HM b) by (split; slots).
  unfold find_session. rewrite (find_second MAX HM b) by (try split; slots).
  cbn [mbind option_bind]. by slots.
Qed.

Lemma repeated_call_outlives_delete_witness :
  find_session 32768 (lit "c@") (foldl (run_op 32768) ∅ (collision_ops "ba" "c@"))
  = Some (SockAddr 2 2, 16).
Proof.
  apply repeated_call_outlives_delete; [done|by vm_compute..|reflexivity].
Defined.

(** * Routing *)

(** C30: the answers to an INVITE (180 or 200) go to the address the INVITE came from, whatever
    packets of other calls come between: on either proxy, if its table has room for the call
    and the database answers the requests of this run, one for each INVITE, the loop sends the
    offer to rtpengine, the INVITE to the called party, what the other packets cause, and then
    the answer to the caller. *)
Theorem answers_return_to_caller {D} (P : proxy) (select_node : M D unit) t inv a n evs ans b k d w :
  1024 <= MAX_SESSIONS P <= 2 ^ 31 -> serves select_node (1 + requests evs) d w ->
  is_invite inv = true -> len inv < BUFFER_SIZE -> id_of inv <> [] ->
  is_Some (room (MAX_SESSIONS P) (id_of inv) t) ->
  Forall (about_other (id_of inv)) evs ->
  is_answer ans = true -> len ans < BUFFER_SIZE -> id_of ans = id_of inv ->
  exists t' outs d' w',
    proxy_loop P select_node t (packet inv a n :: evs ++ [packet ans b k]) d w
    = Ret (t', [to_rtpe P (ng_command (offer_cookie P) (lit "offer") (id_of inv)); to_uas P inv]
               ++ outs ++ [(ans, (a, n))]) d' w'.
Proof.
  intros HM Hsel Hi Li Hid [c Hr] Ho Ha La Hids.
  destruct (turn_invite P select_node t inv a n _ d w Hi Li Hsel) as (d1 & w1 & E1 & Hs1).
  rewrite <- (Nat.add_0_r (requests evs)) in Hs1.
  destruct (loop_other P select_node HM
              (store_session (MAX_SESSIONS P) (id_of inv) a n t) evs (id_of inv) _ d1 w1 Ho Hs1)
    as (t2 & outs & d2 & w2 & E2 & F & _).
  assert (proxy_loop P select_node (store_session (MAX_SESSIONS P) (id_of inv) a n t)
            (evs ++ [packet ans b k]) d1 w1 = Ret (t2, outs ++ [(ans, (a, n))]) d2 w2) as E3.
  { rewrite (loop_app P select_node _ _ _ _ _ _ _ _ _ E2).
    cbn [proxy_loop]. rewrite turn_answer by done. rewrite Hids, F.
    rewrite find_stored; [|done|split; [done|apply extract_call_id_wf]]. by rewrite Hr. }
  cbn [proxy_loop]. run E1. run E3. by exists t2, outs, d2, w2.
Qed.

Definition crlf : list Z := [13; 10].
Definition sip (line id : string) : list Z :=
  lit line ++ crlf ++ lit "Call-ID: " ++ lit id ++ crlf ++ crlf.

Definition ex_env : environment := Env None None None None.
Definition ex_uac : sockaddr_in := SockAddr 7 5062.
Definition ex_inv : list Z := sip "INVITE sip:bob SIP/2.0" "a1".
Definition ex_ok : list Z := sip "SIP/2.0 200 OK" "a1".
(** Another INVITE, a BYE of another call and an error of [recvfrom]. *)
Definition ex_between : list received :=
  [packet (sip "INVITE sip:eve SIP/2.0" "a3") ex_uac 16;
   packet (sip "BYE sip:bob SIP/2.0" "a2") (uas_addr (kam_proxy ex_env)) 16; None].

(** The driver of Kamailio, connected, with a server that answers two calls. *)
Definition ex_select : ML unit := @kam_select_node Ref.ops ex_core.
Definition ex_db_world : world := ex_kworld (ex_kevs 0 ++ ex_kevs 0).

Lemma ex_serves : serves ex_select 2 [ex_srv] ex_db_world.
Proof. eexists _, _. split; [by vm_compute|]. eexists _, _. split; [by vm_compute|done]. Qed.

Lemma answers_return_to_caller_witness :
  exists t' outs d' w',
    proxy_loop (kam_proxy ex_env) ex_select ∅
      (packet ex_inv ex_uac 16
       :: ex_between ++ [packet ex_ok (uas_addr (kam_proxy ex_env)) 16]) [ex_srv] ex_db_world
    = Ret (t', [to_rtpe (kam_proxy ex_env)
                  (ng_command (offer_cookie (kam_proxy ex_env)) (lit "offer") (id_of ex_inv));
                to_uas (kam_proxy ex_env) ex_inv]
               ++ outs ++ [(ex_ok, (ex_uac, 16))]) d' w'.
Proof.
  apply answers_return_to_caller.
  - done.
  - exact ex_serves.
  - by vm_compute.
  - by vm_compute.
  - by vm_compute.
  - eexists. by vm_compute.
  - repeat (apply Forall_cons; split); [by vm_compute..|done|by apply Forall_nil].
  - by vm_compute.
  - by vm_compute.
  - by vm_compute.
Defined.

(** The other side: an answer that refuses a call, and every other one but 180 and 200, goes
    nowhere and the entry of the call stays. *)
Lemma refusals_are_dropped {D} (P : proxy) (select_node : M D unit) t buf a n r :
  first_line buf = lit "SIP/2.0 4" ++ r ->
  on_packet P select_node t buf a n = mret (t, []).
Proof. intros E. unfold on_packet. fold (first_line buf). by rewrite E. Qed.

(** A BYE of the caller leaves the entry of the call. *)
Lemma bye_of_caller_keeps_entry {D} (P : proxy) (select_node : M D unit) t buf a n :
  is_bye buf = true -> sin_addr a <> sin_addr (uas_addr P) ->
  on_packet P select_node t buf a n
  = mret (t, [to_rtpe P (ng_command (delete_cookie P) (lit "delete") (id_of buf)); to_uas P buf]).
Proof.
  intros Hb Ha. unfold on_packet. fold (first_line buf) (id_of buf).
  fold (is_invite buf) (is_answer buf) (is_bye buf).
  destruct (bye_only buf Hb) as (-> & -> & ->).
  rewrite Hb. by destruct (sin_addr a =? sin_addr (uas_addr P)) eqn:E; [lia|].
Qed.

(** * Commands for rtpengine *)

Lemma cstr_app_nonzero a b : 0 ∉ a -> cstr (a ++ b) = a ++ cstr b.
Proof.
  induction a as [|x a IH]; [done|]. rewrite not_elem_of_cons. intros [Hx Ha]. cbn.
  destruct (x =? 0) eqn:E; [lia|]. by rewrite IH.
Qed.

Lemma quoted_chars_app n id r :
  len id <= Z.of_nat n -> 34 ∉ id -> quoted_chars n (id ++ 34 :: r) = id.
Proof.
  revert id. induction n as [|n IH]; intros [|x id] Hl Hq; cbn; try done.
  rewrite len_cons in Hl. apply not_elem_of_cons in Hq as [Hx Hq].
  destruct (x =? 34) eqn:E; [lia|]. rewrite IH; [done|lia|done].
Qed.

(** The cookies of the two proxies. *)
Definition cookies : list (list Z) :=
  [lit "kam_cookie_1"; lit "kam_cookie_2"; lit "opensips_cookie_1"; lit "opensips_cookie_2"].

(** What the daemon reads in a command of a proxy. *)
Lemma command_words cookie verb id :
  cookie ∈ cookies -> verb = lit "offer" \/ verb = lit "delete" ->
  scan_words (ng_command cookie verb id) = (cookie, verb).
Proof.
  intros Hc Hv. unfold cookies in Hc. rewrite !elem_of_cons, elem_of_nil in Hc.
  destruct_or! Hc; destruct Hv; subst; solve [reflexivity|destruct Hc].
Qed.

Lemma command_id cookie verb id :
  cookie ∈ cookies -> verb = lit "offer" \/ verb = lit "delete" ->
  id <> [] -> len id <= 127 -> 34 ∉ id ->
  command_call_id (ng_command cookie verb id) = id.
Proof.
  intros Hc Hv Hne Hl Hq. set (rest := lit "," ++ quoted_word (lit "command") ++ lit ":"
                                       ++ quoted_word verb ++ lit "}").
  assert (exists x, strstr (ng_command cookie verb id) (lit "call-id")
                    = Some (x, [34; 58; 34] ++ id ++ 34 :: rest)) as [x E].
  { unfold cookies in Hc. rewrite !elem_of_cons, elem_of_nil in Hc.
    unfold ng_command, quoted_word. rewrite <- !(assoc_L (++)). fold rest.
    destruct_or! Hc; destruct Hv; subst cookie verb; try (by destruct Hc); by eexists. }
  unfold command_call_id. rewrite E, after_prefix_app, quoted_chars_app by done.
  by destruct id.
Qed.

(** A command has no NUL and fits the arrays it goes through. *)
Lemma command_shape cookie verb id :
  cookie ∈ cookies -> verb = lit "offer" \/ verb = lit "delete" -> 0 ∉ id -> len id <= 127 ->
  0 ∉ ng_command cookie verb id /\ 0 < len (ng_command cookie verb id) < 1000.
Proof.
  intros Hc Hv Hz Hl. pose proof (len_nonneg id).
  unfold cookies in Hc. rewrite !elem_of_cons, elem_of_nil in Hc. unfold ng_command, quoted_word.
  split.
  - rewrite !not_elem_of_app. destruct_or! Hc; destruct Hv; subst;
      try (by destruct Hc); repeat split; try done; vm_compute; set_solver.
  - rewrite !len_app. destruct_or! Hc; destruct Hv; subst; try (by destruct Hc); 
      unfold len in *; cbn -[Z.add Z.of_nat length]; cbn [length]; lia.
Qed.

Lemma answer_short cookie text :
  cookie ∈ cookies -> text ∈ [media_answer; ok_answer] ->
  ztake (NG_BUFFER_SIZE - 1) (cookie ++ text) = cookie ++ text.
Proof.
  intros Hc Ht. apply ztake_all.
  unfold cookies in Hc. rewrite !elem_of_cons, elem_of_nil in Hc. rewrite !elem_of_cons, elem_of_nil in Ht.
  destruct_or! Hc; destruct_or! Ht; subst; try (by destruct Hc); try (by destruct Ht);
    vm_compute; done.
Qed.

(** What the daemon does with a command of a proxy. *)
Lemma daemon_command (P : proxy) node cookie verb id b k c w :
  cookie ∈ cookies -> verb = lit "offer" \/ verb = lit "delete" -> 0 ∉ id -> len id <= 127 ->
  ng_turn node (Some ((to_rtpe P (ng_command cookie verb id)).1, b, k)) c w
  = (response ← ng_answer node (ng_command cookie verb id);
     mret [(ztake (NG_BUFFER_SIZE - 1) response, (b, k))]) c w.
Proof.
  intros Hc Hv Hz Hl. destruct (command_shape cookie verb id Hc Hv Hz Hl) as [_ Hs].
  unfold to_rtpe, ng_turn, NG_BUFFER_SIZE. cbn [fst]. rewrite !ztake_all by (rewrite ?ztake_all; lia).
  destruct (len _ <=? 0) eqn:E; [lia|done].
Qed.

(** An offer makes the daemon save the Call-ID. *)
Lemma daemon_saves (P : proxy) node cookie id b k c w :
  cookie ∈ cookies -> 0 ∉ id -> len id <= 127 -> id <> [] -> 34 ∉ id ->
  ng_turn node (Some ((to_rtpe P (ng_command cookie (lit "offer") id)).1, b, k)) c w
  = (_ ← rtpe_tarantool_save_call (Some (daemon_info node id));
     mret [(cookie ++ media_answer, (b, k))]) c w.
Proof.
  intros Hc Hz Hl Hid Hq. rewrite (daemon_command P) by auto. unfold ng_answer.
  rewrite cstr_id by (by apply command_shape; auto).
  rewrite command_words, command_id by auto.
  change (is_command (lit "offer") "offer") with true. cbn [orb]. rewrite bind_assoc.
  unfold mbind at 1 3, M_bind. case_match; try done. unfold mbind, M_bind, mret, M_ret.
  by rewrite answer_short by set_solver.
Qed.

Lemma offer_cookie_known e (P : proxy) :
  P = kam_proxy e \/ P = os_proxy e -> offer_cookie P ∈ cookies.
Proof. intros HP. destruct HP; subst P; cbn; set_solver. Qed.

(** The path of an INVITE through the two containers: for a Call-ID that is not empty and
    has no quotation mark, the first packet either proxy sends makes the daemon of rtpengine
    save exactly that Call-ID with [rtpe_tarantool_save_call], under the name of its node, and
    answer with the cookie of the proxy. *)
Theorem offers_save_calls {D} e node (P : proxy) (select_node : M D unit) t inv a n b k d w :
  P = kam_proxy e \/ P = os_proxy e -> serves select_node 1 d w ->
  is_invite inv = true -> len inv < BUFFER_SIZE -> id_of inv <> [] -> 34 ∉ id_of inv ->
  exists t' offer d' w',
    proxy_turn P select_node t (packet inv a n) d w = Ret (t', [offer; to_uas P inv]) d' w'
    /\ offer.2 = (rtpe_addr P, sizeof_sockaddr_in)
    /\ forall c w, ng_turn node (Some (offer.1, b, k)) c w
         = (_ ← rtpe_tarantool_save_call (Some (daemon_info node (id_of inv)));
            mret [(offer_cookie P ++ media_answer, (b, k))]) c w.
Proof.
  intros HP Hsel Hi Li Hid Hq.
  destruct (turn_invite P select_node t inv a n _ d w Hi Li Hsel) as (d' & w' & E & _).
  do 4 eexists. split; [exact E|]. split; [done|]. intros c w0.
  destruct (extract_call_id_wf inv). apply daemon_saves; [|done..]. by eapply offer_cookie_known.
Qed.

Lemma offers_save_calls_witness :
  exists t' offer d' w',
    proxy_turn (kam_proxy ex_env) ex_select ∅ (packet ex_inv ex_uac 16) [ex_srv] ex_db_world
      = Ret (t', [offer; to_uas (kam_proxy ex_env) ex_inv]) d' w'
    /\ offer.2 = (rtpe_addr (kam_proxy ex_env), sizeof_sockaddr_in)
    /\ forall c w, ng_turn (lit "n1") (Some (offer.1, ex_uac, 16)) c w
         = (_ ← rtpe_tarantool_save_call (Some (daemon_info (lit "n1") (id_of ex_inv)));
            mret [(offer_cookie (kam_proxy ex_env) ++ media_answer, (ex_uac, 16))]) c w.
Proof.
  apply (offers_save_calls ex_env).
  - by left.
  - eexists _, _. split; [by vm_compute|done].
  - by vm_compute.
  - by vm_compute.
  - by vm_compute.
  - vm_compute. set_solver.
Defined.

Lemma turn_bye {D} (P : proxy) (select_node : M D unit) t buf a n d w :
  is_bye buf = true -> len buf < BUFFER_SIZE ->
  exists t' rest, proxy_turn P select_node t (packet buf a n) d w
    = Ret (t', to_rtpe P (ng_command (delete_cookie P) (lit "delete") (id_of buf)) :: rest) d w.
Proof.
  intros Hb Hl. pose proof Hb as H0. apply starts_nonempty in H0.
  rewrite turn_whole by lia. unfold on_packet. fold (first_line buf) (id_of buf).
  fold (is_invite buf) (is_answer buf) (is_bye buf).
  destruct (bye_only buf Hb) as (-> & -> & ->). rewrite Hb. case_match; by do 2 eexists.
Qed.

(** A delete makes the daemon delete the sample. *)
Lemma daemon_deletes (P : proxy) node cookie id b k c w :
  cookie ∈ cookies -> 0 ∉ id -> len id <= 127 ->
  ng_turn node (Some ((to_rtpe P (ng_command cookie (lit "delete") id)).1, b, k)) c w
  = (_ ← rtpe_tarantool_delete_call (Some (lit "sample-call-id-12345")) 20;
     mret [(cookie ++ ok_answer, (b, k))]) c w.
Proof.
  intros Hc Hz Hlen. rewrite (daemon_command P) by auto. unfold ng_answer.
  rewrite cstr_id by (by apply command_shape; auto). rewrite command_words by auto.
  change (is_command (lit "delete") "offer" || is_command (lit "delete") "answer") with false.
  change (is_command (lit "delete") "delete") with true. cbv iota. rewrite bind_assoc.
  change (len sample_call_id) with 20. change sample_call_id with (lit "sample-call-id-12345").
  unfold mbind, M_bind, mret, M_ret. destruct (rtpe_tarantool_delete_call _ 20 c w); try done.
  by rewrite answer_short by set_solver.
Qed.

(** No BYE deletes its call: whatever its Call-ID, the first packet either proxy sends for
    a BYE makes the daemon of rtpengine delete the identifier [sample-call-id-12345], a
    constant of the program, so the call that the INVITE saved stays until it expires. *)
Theorem deletes_miss_calls {D} e node (P : proxy) (select_node : M D unit) t bye a n b k d w :
  P = kam_proxy e \/ P = os_proxy e -> is_bye bye = true -> len bye < BUFFER_SIZE ->
  exists t' del rest,
    proxy_turn P select_node t (packet bye a n) d w = Ret (t', del :: rest) d w
    /\ del.2 = (rtpe_addr P, sizeof_sockaddr_in)
    /\ forall c w, ng_turn node (Some (del.1, b, k)) c w
         = (_ ← rtpe_tarantool_delete_call (Some (lit "sample-call-id-12345")) 20;
            mret [(delete_cookie P ++ ok_answer, (b, k))]) c w.
Proof.
  intros HP Hb Hl. destruct (turn_bye P select_node t bye a n d w Hb Hl) as (t' & rest & E).
  do 3 eexists. split; [exact E|]. split; [done|]. intros c w0.
  destruct (extract_call_id_wf bye) as [Hz Hlen]. fold (id_of bye) in Hz, Hlen.
  apply daemon_deletes; [|done..]. destruct HP; subst P; cbn; set_solver.
Qed.

Definition ex_bye : list Z := sip "BYE sip:bob SIP/2.0" "a1".

Lemma deletes_miss_calls_witness :
  exists t' del rest,
    proxy_turn (kam_proxy ex_env) (mret tt) ∅ (packet ex_bye ex_uac 16) [] (World [] ∅ [] [] [] [])
    = Ret (t', del :: rest) (@nil tnt_server) (World [] ∅ [] [] [] [])
    /\ del.2 = (rtpe_addr (kam_proxy ex_env), sizeof_sockaddr_in)
    /\ forall c w, ng_turn (lit "n1") (Some (del.1, ex_uac, 16)) c w
         = (_ ← rtpe_tarantool_delete_call (Some (lit "sample-call-id-12345")) 20;
            mret [(delete_cookie (kam_proxy ex_env) ++ ok_answer, (ex_uac, 16))]) c w.
Proof.
  apply (deletes_miss_calls ex_env).
  - by left.
  - by vm_compute.
  - by vm_compute.
Defined.

(** * The answers of the daemon are not Bencode *)

(** A string in Bencode, of fewer than ten characters: a digit, a colon and the characters. *)
Definition bencode_string (p : list Z) : option (list Z * list Z) :=
  match p with
  | d :: c :: p' => if is_digit d && (c =? 58) && (d - 48 <=? len p')
                    then Some (ztake (d - 48) p', zdrop (d - 48) p') else None
  | _ => None
  end.

Definition bencode_int (p : list Z) : option (list Z) :=
  match p with 105 :: p' => '(ds, r) ← strchr p' 101; if forallb is_digit ds then Some r else None
  | _ => None end.

(** A dictionary of strings and integers: the rest after it. *)
Fixpoint bencode_entries (fuel : nat) (p : list Z) : option (list Z) :=
  match fuel, p with
  | S f, 101 :: r => Some r
  | S f, _ => '(_, p) ← bencode_string p;
              match bencode_string p with
              | Some (_, p) => bencode_entries f p
              | None => p ← bencode_int p; bencode_entries f p
              end
  | O, _ => None
  end.

Definition bencode_dict (p : list Z) : bool :=
  match p with
  | 100 :: p' => match bencode_entries (S (length p')) p' with Some [] => true | _ => false end
  | _ => false
  end.

Example bencode_of_ng : bencode_dict (lit "d6:result2:ok4:porti30002ee") = true.
Proof. reflexivity. Qed.

(** In none of the answers is the text after the cookie a dictionary: the word [result], of six
    characters, is announced with eight. *)
Lemma answers_are_not_bencode :
  forallb (fun text => negb (bencode_dict (zdrop 1 text))) [media_answer; ok_answer; pong_answer] = true.
Proof. reflexivity. Qed.
