(* ===== verification/Lua.v ===== *)
(** What the stored procedures of [tarantool_backend/] use of Lua: its values, as far as the
    procedures make and receive them, and the passage between these values and MessagePack,
    which is a part of Tarantool. *)
From Stdlib Require SpecFloat.
From S2P Require Export IprotoFacts.

#[local] Set Warnings "-register-all".

(** * Numbers

    The doubles of IEEE 754, without the payload of a NaN. *)

Abbreviation dbl := SpecFloat.spec_float.
Definition dbl_of (n : Z) : dbl := SpecFloat.binary_normalize 53 1024 n 0 false.
Definition dadd (x y : dbl) : dbl := SpecFloat.SFadd 53 1024 x y.
Definition dsub (x y : dbl) : dbl := SpecFloat.SFsub 53 1024 x y.
Definition dmul (x y : dbl) : dbl := SpecFloat.SFmul 53 1024 x y.
Definition ddiv (x y : dbl) : dbl := SpecFloat.SFdiv 53 1024 x y.
Definition dlt (x y : dbl) : bool := SpecFloat.SFltb x y.
Definition dle (x y : dbl) : bool := SpecFloat.SFleb x y.

(** The double nearest to [n / 10 ^ k], for the decimals of the source. *)
Definition decimal (n k : Z) : dbl := ddiv (dbl_of n) (dbl_of (10 ^ k)).

(** A mantissa with its sign. *)
Definition signed (s : bool) (m : positive) : Z := if s then Z.neg m else Z.pos m.

Definition to_int (x : dbl) : option Z :=
  match x with
  | SpecFloat.S754_zero _ => Some 0
  | SpecFloat.S754_finite s m e =>
      if 0 <=? e then Some (signed s m * 2 ^ e)
      else if signed s m mod 2 ^ (- e) =? 0 then Some (signed s m / 2 ^ (- e)) else None
  | _ => None
  end.

(** [math.floor], [math.ceil] and [math.max]. *)
Definition dfloor (x : dbl) : dbl :=
  match x with
  | SpecFloat.S754_finite s m e => if 0 <=? e then x else dbl_of (signed s m / 2 ^ (- e))
  | _ => x
  end.
Definition dceil (x : dbl) : dbl := SpecFloat.SFopp (dfloor (SpecFloat.SFopp x)).
Definition dmax (x y : dbl) : dbl := if dlt x y then y else x.

(** * Values

    A number that is an integer is [LNum]; a table is an array or has keys. The nil of
    MessagePack, which Lua sees as the value [box.NULL], is [LNil] as an absent value is: no
    driver sends one. *)
Inductive lua :=
| LNil
| LBool (b : bool)
| LNum (n : Z)
| LStr (s : list Z)
| LArr (vs : list lua)
| LTab (kvs : list (lua * lua))
| LDbl (x : dbl).

Definition is_nil (v : lua) : bool := match v with LNil => true | _ => false end.
(** [v] as a condition. *)
Definition truthy (v : lua) : bool := match v with LNil | LBool false => false | _ => true end.

Definition lua_of (x : dbl) : lua := match to_int x with Some n => LNum n | None => LDbl x end.

Definition text (s : string) : lua := LStr (lit s).

(** A table constructor with names; an entry whose value is nil is no entry. *)
Definition tab (kvs : list (string * lua)) : lua :=
  LTab (omap (fun kv => if is_nil kv.2 then None else Some (text kv.1, kv.2)) kvs).

(** The argument or field of number [i], from 1 on; nil when there is none. *)
Definition nth_value (i : nat) (vs : list lua) : lua := default LNil (vs !! pred i).

(** [math.min] of nothing: a number, or [math.huge]. *)
Definition below (n : Z) (limit : option Z) : bool :=
  match limit with Some m => n <? m | None => true end.

(** How Tarantool turns arguments into values, and the value a procedure returns into the
    items under the data key of the response. The two request types of a call differ in that. *)
Class LuaMsgpack := {
  of_mp : mp -> lua;
  to_mp : lua -> mp;
  call_data : Z -> lua -> list mp
}.

(** [mp] has no floating-point numbers, and nothing is said of a double.
    Strings, unsigned numbers (below 2^53, which a Lua number holds) and maps come as values of
    their kind; a value goes out as the shortest encoding of its kind, the entries of a table
    in any order. A procedure called by the request type 0x06 that returns an array whose items
    are not arrays answers with this one array, and with nothing for the empty one; called by
    0x0a it answers with the value itself. *)
Class LuaMsgpackLaws `{!LuaMsgpack} := {
  of_mp_str f s : of_mp (MStr f s) = LStr s;
  of_mp_uint v n : uint_val v = Some n -> n < 2 ^ 53 -> of_mp v = LNum n;
  of_mp_map f kvs : Forall (fun kv => exists g k, kv.1 = MStr g k) kvs ->
    of_mp (MMap f kvs) = LTab ((fun kv => (of_mp kv.1, of_mp kv.2)) <$> kvs);
  to_mp_str s : to_mp (LStr s) = mstr s;
  to_mp_num n : 0 <= n < 2 ^ 53 -> to_mp (LNum n) = uint_mp n;
  to_mp_tab kvs : (length kvs <= 15)%nat -> exists kvs',
    kvs' ≡ₚ (fun kv => (to_mp kv.1, to_mp kv.2)) <$> kvs /\ to_mp (LTab kvs) = MMap FFix kvs';
  to_mp_arr vs : to_mp (LArr vs) = MArr (cnt_fmt (len vs)) (to_mp <$> vs);
  call_data_16 vs : Forall (fun v => exists kvs, v = LTab kvs) vs ->
    call_data 0x06 (LArr vs) = [to_mp (LArr vs)]
}.

(** * An instance *)

Fixpoint plain_of (v : mp) : lua :=
  match v with
  | MNil => LNil
  | MBool b => LBool b
  | MFix n | MUint _ n | MInt _ n => LNum n
  | MStr _ s | MBin _ s => LStr s
  | MArr _ xs => LArr (map plain_of xs)
  | MMap _ kvs => LTab (map (fun kv => (plain_of kv.1, plain_of kv.2)) kvs)
  end.

Fixpoint plain_to (v : lua) : mp :=
  match v with
  | LNil => MNil
  | LBool b => MBool b
  | LNum n => if 0 <=? n then uint_mp n else MInt W64 n
  | LStr s => mstr s
  | LArr vs => MArr (cnt_fmt (len vs)) (map plain_to vs)
  | LTab kvs => MMap (cnt_fmt (len kvs)) (map (fun kv => (plain_to kv.1, plain_to kv.2)) kvs)
  | LDbl _ => MNil
  end.

(** By the type 0x06 an item that is no array is put into one; an empty table is one empty tuple. *)
Definition plain_data (type : Z) (v : lua) : list mp :=
  if type =? 0x06 then
    match v with
    | LArr (LArr x :: vs) => map (fun v => match v with LArr _ => plain_to v | _ => MArr FFix [plain_to v] end)
                                 (LArr x :: vs)
    | LArr _ => [plain_to v]
    | _ => [MArr FFix [plain_to v]]
    end
  else [plain_to v].

#[export] Instance plain_msgpack : LuaMsgpack :=
  {| of_mp := plain_of; to_mp := plain_to; call_data := plain_data |}.

#[export] Instance plain_msgpack_laws : LuaMsgpackLaws.
Proof.
  split; cbn [of_mp to_mp call_data plain_msgpack]; try done.
  - intros v n Hv Hn. unfold uint_val in Hv. destruct v; try done; case_match; by simplify_eq.
  - intros n [Hn _]. cbn. destruct (0 <=? n) eqn:E; [done|lia].
  - intros kvs Hl. eexists. split; [reflexivity|]. cbn [plain_to]. f_equal.
    unfold cnt_fmt, len. destruct (_ <=? 15) eqn:E; [done|lia].
  - intros vs Hall. destruct Hall as [|v vs [kvs ->] _]; done.
Qed.
