(* ===== verification/Box.v ===== *)
(** The database of Tarantool as the stored procedures use it: spaces of tuples with a format
    and indexes. The module [box] is a part of Tarantool, so it is a class of operations and a
    class of the laws its documentation gives; an instance keeps the tuples in a finite map. *)
From S2P Require Export Lua.

(** * Tuples and formats *)

Abbreviation tuple := (list lua).

Inductive field_type := FString | FUnsigned | FInteger | FNumber | FAny.
Record field := Field { f_name : list Z; f_type : field_type; f_nullable : bool }.

(** An index by its first part, the number of a field. *)
Record index_def := Index { ix_name : list Z; ix_field : nat }.

Definition fits_type (ty : field_type) (v : lua) : bool :=
  match ty, v with
  | FString, LStr _ => true
  | FUnsigned, LNum n => (0 <=? n) && (n <? 2 ^ 64)
  | FInteger, LNum n => (- 2 ^ 63 <=? n) && (n <? 2 ^ 64)
  | FNumber, (LNum _ | LDbl _) => true
  | FAny, v => negb (is_nil v)
  | _, _ => false
  end.

Definition fits_field (f : field) (v : lua) : bool :=
  (f_nullable f && is_nil v) || fits_type (f_type f) v.

(** A tuple has every field of the format; one that is not there counts as nil. *)
Fixpoint fits (format : list field) (t : tuple) : bool :=
  match format with
  | [] => true
  | f :: format' => fits_field f (nth_value 1 t) && fits format' (drop 1 t)
  end.

(** Replace fields by number, from 1 on; an assignment behind the end adds nothing here. *)
Definition assign (ops : list (nat * lua)) (t : tuple) : tuple :=
  foldl (fun t op => <[pred op.1 := op.2]> t) t ops.

(** Addition in an update: of integers as integers, of others as doubles. *)
Definition plus (v w : lua) : option lua :=
  match v, w with
  | LNum a, LNum b => if (- 2 ^ 63 <=? a + b) && (a + b <? 2 ^ 64) then Some (LNum (a + b)) else None
  | LNum a, LDbl y => Some (lua_of (dadd (dbl_of a) y))
  | LDbl x, LNum b => Some (lua_of (dadd x (dbl_of b)))
  | LDbl x, LDbl y => Some (lua_of (dadd x y))
  | _, _ => None
  end.

(** * The operations *)

(** An operation without a result raises an error. *)
Class Box := {
  space : Type;
  box_create : list field -> list index_def -> space;
  box_format : space -> list field;
  box_has_index : space -> list Z -> bool;
  box_get : space -> lua -> option (option tuple);
  box_insert : space -> tuple -> option space;
  box_replace : space -> tuple -> option space;
  box_delete : space -> lua -> option (option tuple * space);
  box_update : space -> lua -> list (nat * lua) -> option space;
  (** The tuple, or the assignments to the tuple that has its key. *)
  box_upsert : space -> tuple -> list (nat * lua) -> option space;
  (** An addition to a field, then assignments; the tuple that results. *)
  box_add : space -> lua -> nat * lua -> list (nat * lua) -> option (option tuple * space);
  box_pairs : space -> list tuple;
  (** The tuples of an index whose first part equals a key, and those where it is at most
      a number. *)
  box_index_eq : space -> list Z -> lua -> list tuple;
  box_index_le : space -> list Z -> Z -> list tuple
}.

Definition is_str (k : list Z) (v : lua) : bool := match v with LStr s => bool_decide (s = k) | _ => false end.
Definition at_most (n : Z) (v : lua) : bool := match v with LNum m => m <=? n | _ => false end.

(** A space is a map from the first field to the tuples, all of which fit the format. *)
Class BoxLaws `{!Box} := {
  rows : space -> gmap (list Z) tuple;
  indexes : space -> list index_def;
  rows_create fmt ixs : rows (box_create fmt ixs) = ∅;
  format_create fmt ixs : box_format (box_create fmt ixs) = fmt;
  indexes_create fmt ixs : indexes (box_create fmt ixs) = ixs;
  rows_key sp k t : rows sp !! k = Some t -> nth_value 1 t = LStr k;
  rows_fit sp k t : rows sp !! k = Some t -> fits (box_format sp) t = true;
  has_index_ok sp n : box_has_index sp n = bool_decide (Exists (fun ix => ix_name ix = n) (indexes sp));
  get_ok sp k : box_get sp (LStr k) = Some (rows sp !! k);
  insert_ok sp k t : nth_value 1 t = LStr k ->
    if fits (box_format sp) t && bool_decide (rows sp !! k = None)
    then exists sp', box_insert sp t = Some sp' /\ rows sp' = <[k := t]> (rows sp)
                     /\ box_format sp' = box_format sp /\ indexes sp' = indexes sp
    else box_insert sp t = None;
  replace_ok sp k t : nth_value 1 t = LStr k ->
    if fits (box_format sp) t
    then exists sp', box_replace sp t = Some sp' /\ rows sp' = <[k := t]> (rows sp)
                     /\ box_format sp' = box_format sp /\ indexes sp' = indexes sp
    else box_replace sp t = None;
  delete_ok sp k : exists sp', box_delete sp (LStr k) = Some (rows sp !! k, sp')
    /\ rows sp' = delete k (rows sp) /\ box_format sp' = box_format sp /\ indexes sp' = indexes sp;
  (** Fields behind the first one may change, as long as the tuple fits. *)
  update_ok sp k t ops : rows sp !! k = Some t ->
    Forall (fun op => (1 < op.1 <= length t)%nat) ops -> fits (box_format sp) (assign ops t) = true ->
    exists sp', box_update sp (LStr k) ops = Some sp' /\ rows sp' = <[k := assign ops t]> (rows sp)
                /\ box_format sp' = box_format sp /\ indexes sp' = indexes sp;
  upsert_ok sp k t ops : nth_value 1 t = LStr k ->
    if negb (fits (box_format sp) t) then box_upsert sp t ops = None else
    match rows sp !! k with
    | None => exists sp', box_upsert sp t ops = Some sp' /\ rows sp' = <[k := t]> (rows sp)
                /\ box_format sp' = box_format sp /\ indexes sp' = indexes sp
    | Some old => Forall (fun op => (1 < op.1 <= length old)%nat) ops ->
        fits (box_format sp) (assign ops old) = true ->
        exists sp', box_upsert sp t ops = Some sp' /\ rows sp' = <[k := assign ops old]> (rows sp)
          /\ box_format sp' = box_format sp /\ indexes sp' = indexes sp
    end;
  add_ok sp k old i v sum ops : rows sp !! k = Some old -> plus (nth_value i old) v = Some sum ->
    Forall (fun op => (1 < op.1 <= length old)%nat) ((i, sum) :: ops) ->
    fits (box_format sp) (assign ((i, sum) :: ops) old) = true ->
    exists sp', box_add sp (LStr k) (i, v) ops = Some (Some (assign ((i, sum) :: ops) old), sp')
      /\ rows sp' = <[k := assign ((i, sum) :: ops) old]> (rows sp)
      /\ box_format sp' = box_format sp /\ indexes sp' = indexes sp;
  add_fails sp k old i v ops : rows sp !! k = Some old -> plus (nth_value i old) v = None ->
    box_add sp (LStr k) (i, v) ops = None;
  pairs_ok sp : box_pairs sp ≡ₚ (map_to_list (rows sp)).*2;
  index_eq_ok sp n ix key : ix ∈ indexes sp -> ix_name ix = n ->
    NoDup (ix_name <$> indexes sp) ->
    box_index_eq sp n (LStr key)
    ≡ₚ filter (fun t => is_str key (nth_value (ix_field ix) t)) (map_to_list (rows sp)).*2;
  index_le_ok sp n ix limit : ix ∈ indexes sp -> ix_name ix = n ->
    NoDup (ix_name <$> indexes sp) ->
    box_index_le sp n limit
    ≡ₚ filter (fun t => at_most limit (nth_value (ix_field ix) t)) (map_to_list (rows sp)).*2
}.

(** * An instance *)

Definition keyed (format : list field) (m : gmap (list Z) tuple) : Prop :=
  map_Forall (fun k t => nth_value 1 t = LStr k /\ fits format t = true) m.

Record mem_space := Mem {
  m_rows : gmap (list Z) tuple; m_format : list field; m_indexes : list index_def;
  m_keyed : keyed m_format m_rows
}.

Lemma keyed_insert f m k t : keyed f m -> nth_value 1 t = LStr k -> fits f t = true ->
  keyed f (<[k := t]> m).
Proof. intros Hm Ht Hf. by apply map_Forall_insert_2. Qed.

Lemma keyed_delete f m k : keyed f m -> keyed f (delete k m).
Proof. intros Hm. by apply map_Forall_delete. Qed.

Definition as_key (v : lua) : {k | v = LStr k} + (forall k, v <> LStr k).
Proof. destruct v as [| | |s| | |]; try (by right). left. by exists s. Defined.

Definition as_true (b : bool) : {b = true} + {b = false} :=
  match b with true => left eq_refl | false => right eq_refl end.

Definition mem_put (sp : mem_space) (t : tuple) : option mem_space :=
  match as_key (nth_value 1 t) with
  | inl (exist _ k Hk) =>
      match as_true (fits (m_format sp) t) with
      | left Hf => Some (Mem (<[k := t]> (m_rows sp)) (m_format sp) (m_indexes sp)
                             (keyed_insert _ _ _ _ (m_keyed sp) Hk Hf))
      | right _ => None
      end
  | inr _ => None
  end.

Definition mem_get (sp : mem_space) (v : lua) : option (option tuple) :=
  match v with LStr k => Some (m_rows sp !! k) | _ => None end.

Definition mem_insert (sp : mem_space) (t : tuple) : option mem_space :=
  old ← mem_get sp (nth_value 1 t);
  match old with Some _ => None | None => mem_put sp t end.

Definition mem_delete (sp : mem_space) (v : lua) : option (option tuple * mem_space) :=
  match v with
  | LStr k => Some (m_rows sp !! k, Mem (delete k (m_rows sp)) (m_format sp) (m_indexes sp)
                                        (keyed_delete _ _ _ (m_keyed sp)))
  | _ => None
  end.

Definition mem_update (sp : mem_space) (v : lua) (ops : list (nat * lua)) : option mem_space :=
  old ← mem_get sp v;
  match old with
  | None => Some sp
  | Some t => if forallb (fun op => Nat.ltb 1 op.1) ops then mem_put sp (assign ops t) else None
  end.

Definition mem_upsert (sp : mem_space) (t : tuple) (ops : list (nat * lua)) : option mem_space :=
  old ← mem_get sp (nth_value 1 t);
  if negb (fits (m_format sp) t) then None else
  match old with None => mem_put sp t | Some _ => mem_update sp (nth_value 1 t) ops end.

Definition mem_add (sp : mem_space) (v : lua) (add : nat * lua) (ops : list (nat * lua)) : option (option tuple * mem_space) :=
  old ← mem_get sp v;
  match old with
  | None => Some (None, sp)
  | Some t => sum ← plus (nth_value add.1 t) add.2;
              sp' ← mem_update sp v ((add.1, sum) :: ops);
              Some (Some (assign ((add.1, sum) :: ops) t), sp')
  end.

Definition mem_pairs (sp : mem_space) : list tuple := (map_to_list (m_rows sp)).*2.

(** The field of the index [n]. *)
Definition mem_field (sp : mem_space) (n : list Z) : nat :=
  match list_find (fun ix => ix_name ix = n) (m_indexes sp) with Some (_, ix) => ix_field ix | None => 0%nat end.

Definition same_key (key v : lua) : bool := match key with LStr k => is_str k v | _ => false end.

#[export] Instance mem_box : Box := {|
  space := mem_space;
  box_create fmt ixs := Mem ∅ fmt ixs (map_Forall_empty _);
  box_format := m_format;
  box_has_index sp n := bool_decide (Exists (fun ix => ix_name ix = n) (m_indexes sp));
  box_get := mem_get; box_insert := mem_insert; box_replace := mem_put; box_delete := mem_delete;
  box_update := mem_update; box_upsert := mem_upsert; box_add := mem_add; box_pairs := mem_pairs;
  box_index_eq sp n key := filter (fun t => same_key key (nth_value (mem_field sp n) t)) (mem_pairs sp);
  box_index_le sp n limit := filter (fun t => at_most limit (nth_value (mem_field sp n) t)) (mem_pairs sp)
|}.

Lemma as_key_str k : as_key (LStr k) = inl (exist _ k eq_refl).
Proof. done. Qed.

Lemma mem_put_ok sp k t : nth_value 1 t = LStr k ->
  if fits (m_format sp) t
  then exists sp', mem_put sp t = Some sp' /\ m_rows sp' = <[k := t]> (m_rows sp)
                   /\ m_format sp' = m_format sp /\ m_indexes sp' = m_indexes sp
  else mem_put sp t = None.
Proof.
  intros Hk. unfold mem_put. destruct (as_key (nth_value 1 t)) as [[k' Hk']|Hno]; [|by destruct (Hno k)].
  assert (k' = k) as -> by congruence.
  destruct (as_true (fits (m_format sp) t)) as [Hf|Hf].
  - assert (forall A B : Prop, A -> if fits (m_format sp) t then A else B) as Hif by by rewrite Hf.
    apply Hif. by eexists.
  - assert (forall A B : Prop, B -> if fits (m_format sp) t then A else B) as Hif by by rewrite Hf.
    by apply Hif.
Qed.

Lemma assign_length ops t : length (assign ops t) = length t.
Proof.
  revert t. unfold assign. induction ops as [|op ops IH]; intros t; [done|]. cbn [foldl].
  by rewrite IH, length_insert.
Qed.

Lemma assign_other ops t i : Forall (fun op => pred op.1 <> i) ops -> assign ops t !! i = t !! i.
Proof.
  unfold assign. intros H. revert t. induction H as [|op ops Hop _ IH]; intros t; [done|]. cbn [foldl].
  by rewrite IH, list_lookup_insert_ne.
Qed.

Lemma mem_field_ok sp n ix : ix ∈ m_indexes sp -> ix_name ix = n ->
  NoDup (ix_name <$> m_indexes sp) -> mem_field sp n = ix_field ix.
Proof.
  intros Hin Hn Hnd. unfold mem_field. destruct (list_find _ _) as [[i ix']|] eqn:E.
  - apply list_find_Some in E as (Hi & Hn' & _). apply list_elem_of_lookup in Hin as [j Hj].
    assert (i = j) as ->.
    { eapply (NoDup_lookup _ i j n Hnd); rewrite list_lookup_fmap; [rewrite Hi|rewrite Hj]; cbn; by f_equal. }
    congruence.
  - apply list_find_None in E. rewrite Forall_forall in E. by destruct (E ix Hin).
Qed.

Lemma mem_update_ok sp k t ops : m_rows sp !! k = Some t ->
  Forall (fun op => (1 < op.1 <= length t)%nat) ops -> fits (m_format sp) (assign ops t) = true ->
  exists sp', mem_update sp (LStr k) ops = Some sp' /\ m_rows sp' = <[k := assign ops t]> (m_rows sp)
    /\ m_format sp' = m_format sp /\ m_indexes sp' = m_indexes sp.
Proof.
  intros Hr Hops Hf. unfold mem_update. cbn [mem_get mbind option_bind]. rewrite Hr.
  assert (forallb (fun op => Nat.ltb 1 op.1) ops = true) as ->.
  { apply forallb_forall. intros op Hop%list_elem_of_In. rewrite Forall_forall in Hops.
    apply Nat.ltb_lt. by apply Hops. }
  pose proof (m_keyed sp k t Hr) as [Hk _].
  assert (nth_value 1 (assign ops t) = LStr k) as Hk'.
  { rewrite <- Hk. unfold nth_value. cbn [pred]. rewrite assign_other; [done|].
    eapply Forall_impl; [exact Hops|]. cbn. lia. }
  pose proof (mem_put_ok sp k (assign ops t) Hk') as H. cbn in Hf. by rewrite Hf in H.
Qed.

#[export] Program Instance mem_box_laws : BoxLaws := {| rows := m_rows; indexes := m_indexes |}.
Next Obligation. done. Qed.
Next Obligation. done. Qed.
Next Obligation. done. Qed.
Next Obligation. intros sp k t H. by destruct (m_keyed sp k t H). Qed.
Next Obligation. intros sp k t H. by destruct (m_keyed sp k t H). Qed.
Next Obligation. done. Qed.
Next Obligation. done. Qed.
Next Obligation.
  intros sp k t Hk. cbn. unfold mem_insert. rewrite Hk. cbn [mem_get mbind option_bind].
  pose proof (mem_put_ok sp k t Hk) as H. case_bool_decide as Hr; rewrite ?andb_true_r, ?andb_false_r.
  - by rewrite Hr.
  - by destruct (m_rows sp !! k).
Qed.
Next Obligation. intros sp k t Hk. by apply mem_put_ok. Qed.
Next Obligation. intros sp k. by eexists. Qed.
Next Obligation. intros sp k t ops Hr Hops Hf. by apply mem_update_ok. Qed.
Next Obligation.
  intros sp k t ops Hk. cbn in *. unfold mem_upsert. rewrite Hk. cbn [mem_get mbind option_bind].
  destruct (fits (m_format sp) t) eqn:Hf; cbn [negb]; [|done]. destruct (m_rows sp !! k) as [old|] eqn:Ho.
  - intros Hops Hfo. by apply mem_update_ok.
  - pose proof (mem_put_ok sp k t Hk) as H. by rewrite Hf in H.
Qed.
Next Obligation.
  intros sp k old i v sum ops Hr Hs Hops Hf. change (box_add sp) with (mem_add sp). change (m_rows sp !! k = Some old) in Hr.
  unfold mem_add. cbn [mem_get mbind option_bind fst snd]. rewrite Hr. cbn [fst snd]. rewrite Hs.
  destruct (mem_update_ok sp k old ((i, sum) :: ops) Hr Hops Hf) as (sp' & E & H').
  exists sp'. split; [|exact H']. change (mem_update sp (LStr k) ((i, sum) :: ops) = Some sp') in E.
  cbn [mbind option_bind]. by rewrite E.
Qed.
Next Obligation.
  intros sp k old i v ops Hr Hs. change (box_add sp) with (mem_add sp). change (m_rows sp !! k = Some old) in Hr.
  unfold mem_add. cbn [mem_get mbind option_bind fst snd]. rewrite Hr. cbn [fst snd]. by rewrite Hs.
Qed.
Next Obligation. done. Qed.
Next Obligation. intros sp n ix key H1 H2 H3. cbn. by rewrite (mem_field_ok sp n ix). Qed.
Next Obligation. intros sp n ix limit H1 H2 H3. cbn. by rewrite (mem_field_ok sp n ix). Qed.
