(* ===== verification/Backend.v ===== *)
(** The stored procedures of [tarantool_backend/app/]: the schema, the calls of rtpengine and
    the nodes ([rtpe_service.lua]), the expiry of rows ([ttl_worker.lua]), the tables and call
    records of Asterisk ([asterisk_service.lua]), and the procedures a client can name
    ([init.lua]). The database is the map from names to spaces, [box.space]. *)
From S2P Require Export Box Cstr.

(** * The schema *)

Definition fld (n : string) (ty : field_type) : field := Field (lit n) ty false.
Definition nullable_fld (n : string) (ty : field_type) : field := Field (lit n) ty true.

Definition rtpe_calls_format : list field :=
  [fld "call_id" FString; fld "node_id" FString; fld "state" FString; fld "created_at" FUnsigned;
   fld "updated_at" FUnsigned; fld "expires_at" FUnsigned; fld "payload" FAny].
Definition rtpe_calls_indexes : list index_def :=
  [Index (lit "primary") 1; Index (lit "by_node") 2; Index (lit "by_expire") 6].

Definition cluster_nodes_format : list field :=
  [fld "node_id" FString; fld "address" FString; fld "status" FString; fld "active_calls" FUnsigned;
   fld "last_ping" FUnsigned].
Definition cluster_nodes_indexes : list index_def :=
  [Index (lit "primary") 1; Index (lit "by_status_calls") 3].

Definition kam_dialogs_format : list field :=
  [fld "call_id" FString; fld "from_tag" FString; fld "to_tag" FString; fld "state" FUnsigned;
   fld "expires_at" FUnsigned; nullable_fld "extra_data" FAny].
Definition kam_dialogs_indexes : list index_def :=
  [Index (lit "primary") 1; Index (lit "by_expire") 5; Index (lit "by_caller") 2].

Definition kam_usrloc_format : list field :=
  [fld "contact_key" FString; fld "username" FString; fld "domain" FString; fld "contact" FString;
   nullable_fld "received" FString; fld "expires_at" FUnsigned; nullable_fld "socket" FString;
   nullable_fld "user_agent" FString].
Definition kam_usrloc_indexes : list index_def :=
  [Index (lit "primary") 1; Index (lit "by_user") 2; Index (lit "by_expire") 6].

Definition subscribers_format : list field :=
  [fld "subscriber_id" FString; fld "balance" FNumber; fld "currency" FString; fld "status" FString;
   fld "max_concurrent_calls" FUnsigned; fld "tariff_id" FString; fld "updated_at" FUnsigned].
Definition tariffs_format : list field :=
  [fld "prefix" FString; fld "description" FString; fld "cost_per_minute" FNumber; fld "connect_fee" FNumber].
Definition cdrs_format : list field :=
  [fld "cdr_id" FString; fld "call_id" FString; fld "caller" FString; fld "callee" FString;
   fld "start_time" FUnsigned; fld "end_time" FUnsigned; fld "duration_sec" FUnsigned;
   fld "billed_amount" FNumber; fld "mos_score" FNumber; fld "jitter_ms" FNumber;
   fld "packet_loss_pct" FNumber; fld "node_id" FString].
Definition cdrs_indexes : list index_def :=
  [Index (lit "primary") 1; Index (lit "by_call_id") 2; Index (lit "by_caller") 3].

Definition ps_endpoints_format : list field :=
  fld "id" FString :: ((fun n => nullable_fld n FString) <$>
    ["transport"; "aors"; "auth"; "context"; "disallow"; "allow"; "direct_media"; "data_json"]%string).
Definition ps_auths_format : list field :=
  fld "id" FString :: ((fun n => nullable_fld n FString) <$>
    ["auth_type"; "password"; "username"; "realm"]%string).
Definition ps_aors_format : list field :=
  [fld "id" FString; nullable_fld "max_contacts" FUnsigned; nullable_fld "remove_existing" FString;
   nullable_fld "default_expiration" FUnsigned].
Definition asterisk_cdrs_format : list field :=
  fld "uniqueid" FString :: ((fun n => nullable_fld n FString) <$>
    ["accountcode"; "src"; "dst"; "dcontext"; "clid"; "channel"; "dstchannel"; "lastapp"; "lastdata";
     "start_time"; "answer_time"; "end_time"]%string)
  ++ [nullable_fld "duration" FUnsigned; nullable_fld "billsec" FUnsigned;
      nullable_fld "disposition" FInteger; nullable_fld "userfield" FString; fld "created_at" FNumber].

Definition primary : list index_def := [Index (lit "primary") 1].

(** The spaces [schema.init] and the [init] of the Asterisk service create. *)
Definition schema_spaces : list (list Z * (list field * list index_def)) :=
  [(lit "rtpe_calls", (rtpe_calls_format, rtpe_calls_indexes));
   (lit "cluster_nodes", (cluster_nodes_format, cluster_nodes_indexes));
   (lit "kam_dialogs", (kam_dialogs_format, kam_dialogs_indexes));
   (lit "kam_usrloc", (kam_usrloc_format, kam_usrloc_indexes));
   (lit "subscribers", (subscribers_format, primary));
   (lit "tariffs", (tariffs_format, primary));
   (lit "cdrs", (cdrs_format, cdrs_indexes))].
Definition asterisk_spaces : list (list Z * (list field * list index_def)) :=
  [(lit "ps_endpoints", (ps_endpoints_format, primary)); (lit "ps_auths", (ps_auths_format, primary));
   (lit "ps_aors", (ps_aors_format, primary));
   (lit "asterisk_cdrs", (asterisk_cdrs_format, primary ++ [Index (lit "by_src") 3]))].

Section backend.
Context `{!Box}.

Abbreviation db := (gmap (list Z) space).

(** A space that exists is kept; [schema.init] would add an index it lacks, and here a space
    that exists is taken to have those of the list. *)
Definition create_space (d : db) (x : list Z * (list field * list index_def)) : db :=
  match d !! x.1 with Some _ => d | None => <[x.1 := box_create x.2.1 x.2.2]> d end.
Definition schema_init (d : db) : db := foldl create_space d schema_spaces.
Definition asterisk_init (d : db) : db := foldl create_space d asterisk_spaces.

(** * Procedures

    A procedure changes the database and returns a value or raises an error; what it wrote
    before an error stays. *)

Definition proc (A : Type) : Type := db -> option A * db.
#[export] Instance proc_ret : MRet proc := fun A a d => (Some a, d).
#[export] Instance proc_bind : MBind proc := fun A B k m d =>
  match m d with (Some a, d') => k a d' | (None, d') => (None, d') end.

Definition raise {A} : proc A := fun d => (None, d).
Definition of_box {A} (o : option A) : proc A := match o with Some a => mret a | None => raise end.

(** [box.space[name]]. *)
Definition space_of (n : list Z) : proc (option space) := fun d => (Some (d !! n), d).
Definition put_space (n : list Z) (sp : space) : proc unit := fun d => (Some tt, <[n := sp]> d).

Definition space_insert (n : list Z) (sp : space) (t : tuple) : proc unit :=
  sp' ← of_box (box_insert sp t); put_space n sp'.
Definition space_replace (n : list Z) (sp : space) (t : tuple) : proc unit :=
  sp' ← of_box (box_replace sp t); put_space n sp'.
Definition space_delete (n : list Z) (sp : space) (k : lua) : proc (option tuple) :=
  '(old, sp') ← of_box (box_delete sp k); _ ← put_space n sp'; mret old.

Definition failure (message : string) : lua := tab [("ok", LBool false); ("error", text message)]%string.

(** ** The calls *)

Definition calls_space : list Z := lit "rtpe_calls".

(** [now + ttl], where [ttl] is
    [(type(ttl_sec) == 'number' and ttl_sec > 0) and ttl_sec or 3600]. *)
Definition expiry_after (now : Z) (ttl_sec : lua) : lua :=
  match ttl_sec with
  | LNum n => LNum (now + if 0 <? n then n else 3600)
  | LDbl x => if dlt (dbl_of 0) x then lua_of (dadd (dbl_of now) x) else LNum (now + 3600)
  | _ => LNum (now + 3600)
  end.
(** [(x and type(x) == 'string') and x or d] *)
Definition string_or (d : string) (v : lua) : lua := match v with LStr s => LStr s | _ => text d end.

Definition call_upsert (now : Z) (args : list lua) : proc lua :=
  match nth_value 1 args with
  | LStr call_id =>
      let expires_at := expiry_after now (nth_value 4 args) in
      sp ← space_of calls_space;
      match sp with
      | None => mret (failure "Space rtpe_calls not initialized")
      | Some sp =>
          let node := string_or "default-node" (nth_value 2 args) in
          old ← of_box (box_get sp (LStr call_id));
          _ ← match old with
              | None => space_insert calls_space sp
                  [LStr call_id; node; text "active"; LNum now; LNum now; expires_at; nth_value 3 args]
              | Some t => space_replace calls_space sp
                  [LStr call_id; node; text "active"; nth_value 4 t; LNum now; expires_at; nth_value 3 args]
              end;
          mret (tab [("ok", LBool true); ("call_id", LStr call_id); ("updated_at", LNum now);
                     ("expires_at", expires_at)]%string)
      end
  | _ => mret (failure "Invalid call_id parameter")
  end.

Definition call_delete (args : list lua) : proc lua :=
  match nth_value 1 args with
  | LStr call_id =>
      sp ← space_of calls_space;
      match sp with
      | None => mret (failure "Space rtpe_calls not found")
      | Some sp =>
          old ← space_delete calls_space sp (LStr call_id);
          mret (match old with
                | None => tab [("ok", LBool true); ("deleted", LBool false);
                               ("message", text "Call not found in database")]%string
                | Some _ => tab [("ok", LBool true); ("deleted", LBool true); ("call_id", LStr call_id)]%string
                end)
      end
  | _ => mret (failure "Missing call_id parameter")
  end.

Definition call_record (t : tuple) : lua :=
  tab [("call_id", nth_value 1 t); ("node_id", nth_value 2 t); ("state", nth_value 3 t);
       ("created_at", nth_value 4 t); ("updated_at", nth_value 5 t); ("expires_at", nth_value 6 t);
       ("payload", nth_value 7 t)]%string.

Definition call_get (args : list lua) : proc lua :=
  match nth_value 1 args with
  | LStr call_id =>
      sp ← space_of calls_space;
      match sp with
      | None => mret LNil
      | Some sp => old ← of_box (box_get sp (LStr call_id));
                   mret (match old with None => LNil | Some t => call_record t end)
      end
  | _ => mret LNil
  end.

(** [v > now], of a field that holds a number. *)
Definition later (now : Z) (v : lua) : bool := match v with LNum n => now <? n | _ => false end.

Definition restore_record (t : tuple) : lua :=
  tab [("call_id", nth_value 1 t); ("node_id", nth_value 2 t); ("payload", nth_value 7 t)]%string.

(** The tuples that are not expired, in the order of the index. *)
Definition restore_records (now : Z) (ts : list tuple) : list lua :=
  omap (fun t => if later now (nth_value 6 t) then Some (restore_record t) else None) ts.

Definition call_restore (now : Z) (args : list lua) : proc lua :=
  sp ← space_of calls_space;
  match sp with
  | None => mret (LArr [])
  | Some sp =>
      mret (LArr (restore_records now
        (match nth_value 1 args with
         | LStr (b :: n) => box_index_eq sp (lit "by_node") (LStr (b :: n))
         | _ => box_pairs sp
         end)))
  end.

(** ** The nodes *)

Definition nodes_space : list Z := lit "cluster_nodes".

Definition node_heartbeat (now : Z) (args : list lua) : proc lua :=
  match nth_value 1 args with
  | LStr node_id =>
      sp ← space_of nodes_space;
      match sp with
      | None => mret (failure "Space cluster_nodes not found")
      | Some sp =>
          let active_calls := match nth_value 3 args with
                              | LNum n => LNum (if 0 <=? n then n else 0)
                              | LDbl x => if dle (dbl_of 0) x then LDbl x else LNum 0
                              | _ => LNum 0
                              end in
          _ ← space_replace nodes_space sp
                [LStr node_id; string_or "127.0.0.1:22222" (nth_value 2 args); text "active";
                 active_calls; LNum now];
          mret (tab [("ok", LBool true); ("node_id", LStr node_id); ("updated_at", LNum now)]%string)
      end
  | _ => mret (failure "Invalid node_id")
  end.

Definition number (v : lua) : Z := match v with LNum n => n | _ => 0 end.

(** [status == 'active' and (now - last_ping) < 10] *)
Definition online (now : Z) (t : tuple) : bool :=
  is_str (lit "active") (nth_value 3 t) && (now - number (nth_value 5 t) <? 10).

Definition node_record (t : tuple) : lua :=
  tab [("node_id", nth_value 1 t); ("address", nth_value 2 t); ("active_calls", nth_value 4 t)]%string.

(** One turn of the loop: [min_calls], which starts as [math.huge], and [best_node]. *)
Definition select_turn (now : Z) (best : option Z * lua) (t : tuple) : option Z * lua :=
  if online now t && below (number (nth_value 4 t)) best.1
  then (Some (number (nth_value 4 t)), node_record t) else best.

Definition select_optimal_node (now : Z) : proc lua :=
  sp ← space_of nodes_space;
  mret (match sp with
        | None => LNil
        | Some sp => (foldl (select_turn now) (None, LNil) (box_pairs sp)).2
        end).

End backend.
