(* ===== verification/Procedures.v ===== *)
(** The rest of the backend: the worker that removes expired rows ([ttl_worker.lua]), the
    procedures of Asterisk ([asterisk_service.lua]), and the table of the procedures a client
    can call ([init.lua]). *)
From S2P Require Export Backend.

Section procedures.
Context `{!Box}.

(** * Expiry *)

Definition by_expire : list Z := lit "by_expire".

Fixpoint delete_keys (n : list Z) (keys : list lua) : proc unit :=
  match keys with
  | [] => mret tt
  | k :: keys' =>
      sp ← space_of n;
      match sp with
      | None => raise
      | Some sp => _ ← space_delete n sp k; delete_keys n keys'
      end
  end.

(** One turn of [drain_space]: at most 500 expired rows are removed; then the fiber yields. The
    number removed. The rows are removed one by one, and the log of the server can let other
    fibers run between two of them; the turn as a whole is the one in which none does. *)
Definition drain_turn (n : list Z) (now : Z) : proc Z :=
  sp ← space_of n;
  match sp with
  | None => mret 0
  | Some sp =>
      let expired_keys := take (Z.to_nat 500) (nth_value 1 <$> box_index_le sp by_expire now) in
      _ ← delete_keys n expired_keys;
      mret (len expired_keys)
  end.

(** The loop while the worker runs and no other fiber does; [fuel] turns at most. *)
Fixpoint drain_loop (fuel : nat) (n : list Z) (now purged : Z) : proc Z :=
  match fuel with
  | O => raise
  | S f => k ← drain_turn n now; if k =? 0 then mret purged else drain_loop f n now (purged + k)
  end.

(** The rows of the space are enough turns. Like [purge] and [sweep] below, it is the run of the
    worker with no other fiber between its yields, as [drain_loop] says; the worker among
    other fibers, one deletion at a time, is [worker_step] of [Fibers], of which
    [worker_alone_sweeps] proves that, undisturbed, it does what [sweep] does. *)
Definition drain_space (n : list Z) (now : Z) : proc Z := fun d =>
  match d !! n with
  | Some sp => if box_has_index sp by_expire
               then drain_loop (S (length (box_pairs sp))) n now 0 d else (Some 0, d)
  | None => (Some 0, d)
  end.

Record worker := Worker {
  purged_calls : Z; purged_dialogs : Z; purged_usrloc : Z; last_sweep : Z; sweeps_count : Z
}.
Definition idle_worker : worker := Worker 0 0 0 0 0.

(** [pcall]: the count, or 0 after an error. *)
Definition purge (n : string) (now : Z) (d : gmap (list Z) space) : Z * gmap (list Z) space :=
  let '(k, d') := drain_space (lit n) now d in (default 0 k, d').

(** One turn of the fiber, if no other runs in between. *)
Definition sweep (now : Z) (w : worker) (d : gmap (list Z) space) : worker * gmap (list Z) space :=
  let '(n_calls, d) := purge "rtpe_calls" now d in
  let '(n_dia, d) := purge "kam_dialogs" now d in
  let '(n_loc, d) := purge "kam_usrloc" now d in
  (Worker (purged_calls w + n_calls) (purged_dialogs w + n_dia) (purged_usrloc w + n_loc)
          now (sweeps_count w + 1), d).

(** * The procedures of Asterisk *)

(** The space a value names; a number, which would name one by identifier, is sent by no
    driver. *)
Definition space_by (v : lua) : proc (option space) :=
  match v with LStr n => space_of n | _ => mret None end.

(** [tostring] of the value of a field; [table_text] is the text of a table,
    an address, and of a number that is no integer. *)
Context (table_text : lua -> list Z).

Definition tostring (v : lua) : list Z :=
  match v with
  | LNil => lit "nil"
  | LBool b => if b then lit "true" else lit "false"
  | LNum n => fmt_ld n
  | LStr s => s
  | _ => table_text v
  end.

(** The non-nil fields of a tuple by name. *)
Fixpoint named_fields (format : list field) (t : tuple) : list (lua * lua) :=
  match format with
  | [] => []
  | f :: format' =>
      let v := nth_value 1 t in
      (if is_nil v then [] else [(LStr (f_name f), LStr (tostring v))]) ++ named_fields format' (drop 1 t)
  end.

Definition ast_realtime_get (args : list lua) : proc lua :=
  sp ← space_by (nth_value 1 args);
  match sp with
  | None => mret (LArr [])
  | Some sp =>
      t ← of_box (box_get sp (nth_value 3 args));
      mret (match t with None => LArr [] | Some t => LArr [LTab (named_fields (box_format sp) t)] end)
  end.

(** [fields[name]]: a string has no such field; other values cannot be indexed. *)
Definition field_of (fields : lua) (name : list Z) : proc lua :=
  match fields with
  | LTab kvs => mret (match list_find (fun kv => is_str name kv.1) kvs with
                      | Some (_, kv) => kv.2 | None => LNil end)
  | LStr _ | LArr _ => mret LNil
  | _ => raise
  end.

(** The operations of an update, or the tuple of a new row: the fields that have a value. *)
Fixpoint field_ops (i : nat) (format : list field) (fields : lua) : proc (list (nat * lua)) :=
  match format with
  | [] => mret []
  | f :: format' =>
      v ← field_of fields (f_name f);
      ops ← field_ops (S i) format' fields;
      mret (if is_nil v then ops else (i, v) :: ops)
  end.

Definition ast_realtime_update (args : list lua) : proc lua :=
  sp ← space_by (nth_value 1 args);
  match sp, nth_value 1 args with
  | Some sp, LStr n =>
      t ← of_box (box_get sp (nth_value 3 args));
      match t with
      | None => mret (LNum (-1))
      | Some t =>
          ops ← field_ops 1 (box_format sp) (nth_value 4 args);
          _ ← (if bool_decide (ops = []) then mret tt
               else sp' ← of_box (box_update sp (nth_value 3 args) ops); put_space n sp');
          mret (LNum 0)
      end
  | _, _ => mret (LNum (-1))
  end.

Definition ast_realtime_update2 (args : list lua) : proc lua :=
  sp ← space_by (nth_value 1 args);
  match sp with
  | None => mret (LNum (-1))
  | Some _ =>
      key ← field_of (nth_value 2 args) (lit "id");
      if truthy key then ast_realtime_update [nth_value 1 args; text "id"; key; nth_value 3 args]
      else mret (LNum (-1))
  end.

Fixpoint field_tuple (format : list field) (fields : lua) : proc tuple :=
  match format with
  | [] => mret []
  | f :: format' => v ← field_of fields (f_name f); t ← field_tuple format' fields; mret (v :: t)
  end.

Definition ast_realtime_store (args : list lua) : proc lua :=
  sp ← space_by (nth_value 1 args);
  match sp, nth_value 1 args with
  | Some sp, LStr n =>
      key ← field_of (nth_value 2 args) (lit "id");
      if truthy key then
        t ← field_tuple (box_format sp) (nth_value 2 args);
        _ ← space_replace n sp t;
        mret (LNum 0)
      else mret (LNum (-1))
  | _, _ => mret (LNum (-1))
  end.

Definition ast_realtime_destroy (args : list lua) : proc lua :=
  sp ← space_by (nth_value 1 args);
  match sp, nth_value 1 args with
  | Some sp, LStr n => _ ← space_delete n sp (nth_value 3 args); mret (LNum 0)
  | _, _ => mret (LNum (-1))
  end.

Definition asterisk_cdrs : list Z := lit "asterisk_cdrs".

(** [x or d] *)
Definition or_value (v d : lua) : lua := if truthy v then v else d.

(** [random] is the result of [math.random(1000, 9999)]. *)
Definition ast_cdr_save (now random : Z) (args : list lua) : proc lua :=
  named ← space_by (or_value (nth_value 17 args) (LStr asterisk_cdrs));
  default_ ← space_of asterisk_cdrs;
  let target := match named, or_value (nth_value 17 args) (LStr asterisk_cdrs) with
                | Some sp, LStr n => Some (n, sp)
                | _, _ => (fun sp => (asterisk_cdrs, sp)) <$> default_
                end in
  match target with
  | None => mret (LNum (-1))
  | Some (n, sp) =>
      let uid := match nth_value 1 args with
                 | LNil | LBool false | LStr [] =>
                     LStr (lit "ast-" ++ fmt_ld now ++ lit "-" ++ fmt_ld random)
                 | v => v
                 end in
      _ ← space_replace n sp
            (uid :: ((fun i => or_value (nth_value i args) (LStr [])) <$> seq 2 11)
             ++ [LStr (fmt_ld now)]
             ++ ((fun i => or_value (nth_value i args) (LNum 0)) <$> seq 13 3)
             ++ [or_value (nth_value 16 args) (LStr []); LNum now]);
      mret (LNum 0)
  end.

(** * What a client can call *)

Context `{!LuaMsgpack}.

(** The procedures of [billing_service.lua] and the two procedures of statistics and routing;
    [Billing] has them. *)
Context (other_procedures : list Z -> option (Z -> list lua -> proc lua)).

Definition procedure (now random : Z) (name : list Z) : option (list lua -> proc lua) :=
  let named (n : string) := bool_decide (name = lit n) in
  if named "rtpe_call_upsert" then Some (call_upsert now)
  else if named "rtpe_call_delete" then Some call_delete
  else if named "rtpe_call_get" then Some call_get
  else if named "rtpe_call_restore" then Some (call_restore now)
  else if named "rtpe_node_heartbeat" then Some (node_heartbeat now)
  else if named "rtpe_select_node" then Some (fun _ => select_optimal_node now)
  else if named "ast_realtime_get" then Some ast_realtime_get
  else if named "ast_realtime_update" then Some ast_realtime_update
  else if named "ast_realtime_update2" then Some ast_realtime_update2
  else if named "ast_realtime_store" then Some ast_realtime_store
  else if named "ast_realtime_destroy" then Some ast_realtime_destroy
  else if named "ast_cdr_save" then Some (ast_cdr_save now random)
  else (fun f => f now) <$> other_procedures name.

(** A request for a procedure, with the arguments of the request. *)
Definition serve (now random : Z) (name : list Z) (args : list mp) : proc lua :=
  match procedure now random name with
  | Some f => f (of_mp <$> args)
  | None => raise
  end.

End procedures.
