(* ===== verification/Billing.v ===== *)
(** The rating of calls, [tarantool_backend/app/billing_service.lua]: authorizing a call against
    the balance and the number of calls of a subscriber, charging it when it ends, and the
    tables of subscribers and tariffs. Numbers are doubles; a string in arithmetic, which Lua
    converts when it can, is an error here. [time] is [fiber.time()], [now] its integer part. *)
From S2P Require Export Procedures.

Section billing.
Context `{!Box}.

(** The value of an operand. *)
Definition num (v : lua) : proc dbl :=
  match v with LNum n => mret (dbl_of n) | LDbl x => mret x | _ => raise end.

Definition subscribers : list Z := lit "subscribers".
Definition tariffs : list Z := lit "tariffs".
Definition kam_dialogs : list Z := lit "kam_dialogs".
Definition cdrs : list Z := lit "cdrs".

Definition space_upsert (n : list Z) (sp : space) (t : tuple) (ops : list (nat * lua)) : proc unit :=
  sp' ← of_box (box_upsert sp t ops); put_space n sp'.

(** A space that must be there: nil has no methods. *)
Definition the_space (n : list Z) : proc space :=
  sp ← space_of n; match sp with Some sp => mret sp | None => raise end.

(** [round] *)
Definition round (x : dbl) (places : Z) : dbl :=
  let mult := dbl_of (10 ^ places) in ddiv (dfloor (dadd (dmul x mult) (decimal 5 1))) mult.

(** ** Tariffs *)

(** The price of a minute, the fee of a connection and the description. *)
Definition tariff_of (t : tuple) : lua * lua * lua := (nth_value 3 t, nth_value 4 t, nth_value 2 t).
Definition no_tariff (description : string) : lua * lua * lua := (lua_of (decimal 5 2), LNum 0, text description).

(** The loop from the [k]-th prefix down to the first. *)
Fixpoint longest_match (sp : space) (destination : list Z) (k : nat) : proc (option tuple) :=
  match k with
  | O => mret None
  | S k' =>
      t ← of_box (box_get sp (LStr (take k destination)));
      match t with Some t => mret (Some t) | None => longest_match sp destination k' end
  end.

(** The text whose prefixes are tried; a table without an array has length 0, and
    [string.sub] takes no other table. *)
Definition digits_of (destination : lua) : proc (list Z) :=
  match destination with LStr s => mret s | LArr [] | LTab _ => mret [] | _ => raise end.

Definition match_tariff (destination : lua) : proc (lua * lua * lua) :=
  sp ← space_of tariffs;
  match sp with
  | None => mret (no_tariff "Standard Default")
  | Some sp =>
      dest ← digits_of destination;
      t ← longest_match sp dest (length dest);
      match t with
      | Some t => mret (tariff_of t)
      | None =>
          def ← of_box (box_get sp (text "default"));
          mret (match def with Some t => tariff_of t | None => no_tariff "Default Fallback" end)
      end
  end.

(** ** Authorizing *)

Definition by_caller : list Z := lit "by_caller".

(** [string.find] without patterns. *)
Definition occurs (what within : lua) : bool :=
  match what, within with
  | LStr w, LStr s => match strstr s w with Some _ => true | None => false end
  | _, _ => false
  end.

Definition count_active_calls (caller : lua) : proc Z :=
  sp ← space_of kam_dialogs;
  mret (match sp with
        | None => 0
        | Some sp => if box_has_index sp by_caller then len (box_index_eq sp by_caller caller)
                     else len (filter (fun t => occurs caller (nth_value 2 t)) (box_pairs sp))
        end).

Definition refused (reason : string) : lua := tab [("allowed", LBool false); ("reason", text reason)]%string.

(** The seconds the balance is enough for, a day at most. *)
Definition max_duration (balance rate fee : dbl) : dbl :=
  let d := dfloor (dmul (ddiv (dsub balance fee) rate) (dbl_of 60)) in
  if dlt (dbl_of 86400) d then dbl_of 86400 else d.

Definition authorize_call (time : dbl) (args : list lua) : proc lua :=
  let caller := nth_value 1 args in let callee := nth_value 2 args in let call_id := nth_value 3 args in
  subs ← space_of subscribers;
  dialogs ← space_of kam_dialogs;
  match subs, dialogs with
  | Some subs, Some dialogs =>
      sub ← of_box (box_get subs caller);
      match sub with
      | None => mret (refused "SUBSCRIBER_NOT_FOUND")
      | Some sub =>
          if negb (is_str (lit "active") (nth_value 4 sub)) then mret (refused "SUBSCRIBER_BLOCKED") else
          active_now ← count_active_calls caller;
          if number (nth_value 5 sub) <=? active_now then mret (refused "MAX_CONCURRENT_CALLS_EXCEEDED") else
          '(rate_per_min, connect_fee, tariff_name) ← match_tariff callee;
          rate ← num rate_per_min;
          fee ← num connect_fee;
          balance ← num (nth_value 2 sub);
          if dlt balance (dadd fee (ddiv rate (dbl_of 6))) then mret (refused "INSUFFICIENT_FUNDS") else
          let max_duration_sec := max_duration balance rate fee in
          let expires := lua_of (dfloor (dadd (dadd time max_duration_sec) (dbl_of 300))) in
          _ ← space_upsert kam_dialogs dialogs
                [call_id; caller; callee; LNum 1; expires;
                 tab [("tariff", tariff_name); ("rate", rate_per_min); ("connect_fee", connect_fee);
                      ("start_epoch", lua_of (dfloor time))]%string]
                [(4%nat, LNum 1); (5%nat, expires)];
          mret (tab [("allowed", LBool true); ("max_duration_sec", lua_of max_duration_sec);
                     ("rate_per_min", rate_per_min); ("tariff", tariff_name); ("currency", nth_value 3 sub)]%string)
      end
  | _, _ => mret (refused "BACKEND_NOT_INITIALIZED")
  end.

(** ** Charging *)

(** The minutes of a call, rounded up. *)
Definition billable_minutes (dur : dbl) : dbl :=
  if SpecFloat.SFeqb dur (dbl_of 0) then dbl_of 0 else dceil (ddiv dur (dbl_of 60)).

(** [string.format] of an integer. *)
Definition format_d (x : dbl) : proc (list Z) :=
  match to_int x with Some n => mret (fmt_ld n) | None => raise end.

(** What is known of the end of a call once it is charged: who called whom, when it started and
    ended, its seconds, the amount and the balance left. *)
Record charge := Charge {
  ch_caller : lua; ch_callee : lua; ch_start : lua; ch_end : dbl; ch_dur : lua; ch_billed : dbl; ch_left : dbl
}.

(** [finalize_cdr] is four parts. Each write of a database with a log yields to the other fibers
    until the log has it, so requests of other clients, and the worker that removes expired
    rows, run between the parts; each part reads the space it writes as it is then. The first
    one: up to the update of the balance. *)
Definition charge_call (time : dbl) (args : list lua) : proc charge :=
  let call_id := nth_value 1 args in let duration_sec := nth_value 2 args in
  dialogs ← the_space kam_dialogs;
  dlg ← of_box (box_get dialogs call_id);
  let caller := match dlg with Some t => or_value (nth_value 2 t) (text "unknown") | None => text "unknown" end in
  let callee := match dlg with Some t => or_value (nth_value 3 t) (text "unknown") | None => text "unknown" end in
  let extra := match dlg with
               | Some t => match nth_value 6 t with (LTab _ | LArr _) as x => x | _ => LTab [] end
               | None => LTab []
               end in
  e_rate ← field_of extra (lit "rate");
  e_fee ← field_of extra (lit "connect_fee");
  e_start ← field_of extra (lit "start_epoch");
  let end_epoch := dfloor time in
  let dur := or_value duration_sec (LNum 0) in
  dur_sec ← num dur;
  rate ← num (or_value e_rate (lua_of (decimal 5 2)));
  fee ← num (or_value e_fee (LNum 0));
  let start_epoch := or_value e_start (lua_of (dsub (dfloor time) dur_sec)) in
  let billed_amount := dadd fee (dmul (billable_minutes dur_sec) rate) in
  subs ← the_space subscribers;
  sub ← of_box (box_get subs caller);
  new_balance ← (match sub with
    | None => mret (dbl_of 0)
    | Some sub =>
        balance ← num (nth_value 2 sub);
        let new_balance := dmax (dbl_of 0) (dsub balance billed_amount) in
        subs' ← of_box (box_update subs caller [(2%nat, lua_of new_balance); (7%nat, lua_of end_epoch)]);
        _ ← put_space subscribers subs';
        mret new_balance
    end);
  mret (Charge caller callee start_epoch end_epoch dur billed_amount new_balance).

(** The record of the call; its key. *)
Definition write_cdr (args : list lua) (c : charge) : proc lua :=
  let call_id := nth_value 1 args in
  end_text ← format_d (ch_end c);
  let cdr_id := LStr (lit "cdr-" ++ match call_id with LStr s => s | _ => [] end ++ lit "-" ++ end_text) in
  records ← the_space cdrs;
  _ ← space_replace cdrs records
        [cdr_id; call_id; ch_caller c; ch_callee c; ch_start c; lua_of (ch_end c); ch_dur c; lua_of (ch_billed c);
         or_value (nth_value 7 args) (lua_of (decimal 44 1)); or_value (nth_value 5 args) (lua_of (decimal 12 1));
         or_value (nth_value 6 args) (LNum 0); or_value (nth_value 8 args) (text "rtpe-node-01")];
  mret cdr_id.

(** The end of the dialog, and of the media session. *)
Definition end_dialog (call_id : lua) : proc unit :=
  dialogs ← the_space kam_dialogs;
  _ ← space_delete kam_dialogs dialogs call_id;
  mret tt.
Definition end_media (call_id : lua) : proc unit :=
  calls ← space_of calls_space;
  match calls with
  | Some calls => _ ← space_delete calls_space calls call_id; mret tt
  | None => mret tt
  end.

(** The whole, when no other fiber runs in between. *)
Definition finalize_cdr (time : dbl) (args : list lua) : proc lua :=
  c ← charge_call time args;
  cdr_id ← write_cdr args c;
  _ ← end_dialog (nth_value 1 args);
  _ ← end_media (nth_value 1 args);
  mret (tab [("status", text "ok"); ("cdr_id", cdr_id); ("duration_sec", ch_dur c);
             ("billed_amount", lua_of (ch_billed c)); ("remaining_balance", lua_of (ch_left c))]%string).

(** ** Provisioning *)

Definition add_subscriber (now : Z) (args : list lua) : proc lua :=
  subs ← space_of subscribers;
  match subs with
  | None => mret (failure "Space not found")
  | Some subs =>
      _ ← space_replace subscribers subs
            [nth_value 1 args; or_value (nth_value 2 args) (LNum 0); or_value (nth_value 3 args) (text "USD");
             text "active"; or_value (nth_value 4 args) (LNum 5); or_value (nth_value 5 args) (text "1"); LNum now];
      mret (tab [("ok", LBool true); ("subscriber_id", nth_value 1 args); ("balance", nth_value 2 args)]%string)
  end.

Definition update_balance (now : Z) (args : list lua) : proc lua :=
  subs ← space_of subscribers;
  match subs with
  | None => mret (failure "Space not found")
  | Some subs =>
      sub ← of_box (box_get subs (nth_value 1 args));
      match sub with
      | None => mret (failure "Subscriber not found")
      | Some _ =>
          '(updated, subs') ← of_box (box_add subs (nth_value 1 args) (2%nat, nth_value 2 args) [(7%nat, LNum now)]);
          _ ← put_space subscribers subs';
          match updated with
          | Some t => mret (tab [("ok", LBool true); ("subscriber_id", nth_value 1 args); ("balance", nth_value 2 t)]%string)
          | None => raise
          end
      end
  end.

Definition set_tariff (args : list lua) : proc lua :=
  sp ← space_of tariffs;
  match sp with
  | None => mret (failure "Space not found")
  | Some sp =>
      _ ← space_replace tariffs sp
            [nth_value 1 args; or_value (nth_value 2 args) (nth_value 1 args);
             or_value (nth_value 3 args) (lua_of (decimal 5 2)); or_value (nth_value 4 args) (LNum 0)];
      mret (tab [("ok", LBool true); ("prefix", nth_value 1 args)]%string)
  end.

(** ** Statistics *)

Record totals := Totals { total_cdrs : Z; total_revenue : dbl; total_duration : dbl; sum_mos : dbl; mos_count : Z }.

(** One record of the loop. *)
Definition add_cdr (s : totals) (t : tuple) : proc totals :=
  revenue ← num (or_value (nth_value 8 t) (LNum 0));
  duration ← num (or_value (nth_value 7 t) (LNum 0));
  let s := Totals (total_cdrs s + 1) (dadd (total_revenue s) revenue) (dadd (total_duration s) duration)
                  (sum_mos s) (mos_count s) in
  if truthy (nth_value 9 t) then
    mos ← num (nth_value 9 t);
    mret (if dlt (dbl_of 0) mos
          then Totals (total_cdrs s) (total_revenue s) (total_duration s) (dadd (sum_mos s) mos) (mos_count s + 1)
          else s)
  else mret s.

Fixpoint add_cdrs (s : totals) (ts : list tuple) : proc totals :=
  match ts with [] => mret s | t :: ts' => s' ← add_cdr s t; add_cdrs s' ts' end.

Definition get_live_stats : proc lua :=
  records ← space_of cdrs;
  dialogs ← space_of kam_dialogs;
  s ← add_cdrs (Totals 0 (dbl_of 0) (dbl_of 0) (dbl_of 0) 0) (match records with Some sp => box_pairs sp | None => [] end);
  let avg_mos := if 0 <? mos_count s then ddiv (sum_mos s) (dbl_of (mos_count s)) else decimal 45 1 in
  let avg_duration := if 0 <? total_cdrs s then ddiv (total_duration s) (dbl_of (total_cdrs s)) else dbl_of 0 in
  mret (tab [("active_calls", LNum (match dialogs with Some sp => len (box_pairs sp) | None => 0 end));
             ("total_cdrs_processed", LNum (total_cdrs s)); ("total_revenue", lua_of (round (total_revenue s) 4));
             ("average_call_duration_sec", lua_of (dfloor avg_duration));
             ("average_fleet_mos", lua_of (round avg_mos 2))]%string).

(** ** The state of the worker and the rows of a call *)

Definition get_stats (w : worker) (is_running : bool) : lua :=
  tab [("purged_calls", LNum (purged_calls w)); ("purged_dialogs", LNum (purged_dialogs w));
       ("purged_usrloc", LNum (purged_usrloc w)); ("last_sweep", LNum (last_sweep w));
       ("sweeps_count", LNum (sweeps_count w)); ("is_running", LBool is_running)]%string.

(** A table constructor without names: an array, if no value after the first nil is there. *)
Definition positional (vs : list lua) : lua :=
  let entries := imap (fun i v => (LNum (Z.of_nat i + 1), v)) vs in
  let kept := filter (fun kv => is_nil kv.2 = false) entries in
  if forallb (fun v => negb (is_nil v)) (take (length kept) vs) then LArr kept.*2 else LTab kept.

(** The row of a space, or nil; a key that is nil has a default. *)
Definition looked_up (n : list Z) (key : lua) (d : string) : proc lua :=
  sp ← space_of n;
  match sp with
  | None => mret LNil
  | Some sp => t ← of_box (box_get sp (or_value key (text d)));
               mret (match t with Some t => LArr t | None => LNil end)
  end.

Definition voip_routing_lookup (args : list lua) : proc lua :=
  sub ← looked_up subscribers (nth_value 1 args) "alice@example.com";
  tariff ← looked_up tariffs (nth_value 2 args) "1";
  endpoint ← looked_up (lit "ps_endpoints") (nth_value 3 args) "1001";
  mret (positional [sub; tariff; endpoint]).

(** The names by which clients call these procedures, in a server whose worker has the counters
    [w]; with those of [procedure] they are all of [init.lua] and of the Asterisk service. *)
Definition billing_procedures (time : dbl) (w : worker) (is_running : bool) (name : list Z)
  : option (Z -> list lua -> proc lua) :=
  let named (n : string) := bool_decide (name = lit n) in
  if named "billing_authorize_call" then Some (fun _ => authorize_call time)
  else if named "billing_finalize_cdr" then Some (fun _ => finalize_cdr time)
  else if named "billing_get_live_stats" then Some (fun _ _ => get_live_stats)
  else if named "billing_add_subscriber" then Some add_subscriber
  else if named "billing_update_balance" then Some update_balance
  else if named "billing_set_tariff" then Some (fun _ => set_tariff)
  else if named "ttl_get_stats" then Some (fun _ _ => mret (get_stats w is_running))
  else if named "voip_routing_lookup" then Some (fun _ => voip_routing_lookup)
  else None.

End billing.
