(* ===== verification/BackendFacts.v ===== *)
(** The stored procedures of the calls against their specification, a finite map from
    Call-IDs to calls: each procedure, then sequences of requests. *)
From S2P Require Export Procedures.

(** * Running procedures *)

Lemma proc_step `{!Box} {A B} (m : proc A) (k : A -> proc B) d a d' :
  m d = (Some a, d') -> (m ≫= k) d = k a d'.
Proof. intros E. unfold mbind, proc_bind. by rewrite E. Qed.

Lemma proc_raise `{!Box} {A B} (m : proc A) (k : A -> proc B) d d' :
  m d = (None, d') -> (m ≫= k) d = (None, d').
Proof. intros E. unfold mbind, proc_bind. by rewrite E. Qed.

(** One step of a procedure whose first part is known to return. *)
Ltac step H := rewrite (proc_step _ _ _ _ _ H).

(** * Calls *)

Record call_row := Row {
  row_id : list Z; row_node : list Z; row_state : list Z;
  row_created : Z; row_updated : Z; row_expires : Z; row_payload : lua
}.

Definition row_tuple (r : call_row) : tuple :=
  [LStr (row_id r); LStr (row_node r); LStr (row_state r); LNum (row_created r); LNum (row_updated r);
   LNum (row_expires r); row_payload r].

(** The calls of a database. *)
Definition calls_db `{!Box, !BoxLaws} (d : gmap (list Z) space) (m : gmap (list Z) call_row) : Prop :=
  exists sp, d !! calls_space = Some sp /\ box_format sp = rtpe_calls_format
             /\ indexes sp = rtpe_calls_indexes /\ rows sp = row_tuple <$> m.

Definition in_u64 (n : Z) : bool := (0 <=? n) && (n <? 2 ^ 64).

Lemma fits_row r :
  fits rtpe_calls_format (row_tuple r)
  = in_u64 (row_created r) && in_u64 (row_updated r) && in_u64 (row_expires r)
    && negb (is_nil (row_payload r)).
Proof. cbn. unfold in_u64. by destruct (row_payload r); cbn; rewrite ?andb_true_r, ?andb_false_r, <- ?andb_assoc. Qed.

(** The time to live of an upsert, if it is a whole number or none. *)
Definition ttl_or_default (v : lua) : Z := match v with LNum n => if 0 <? n then n else 3600 | _ => 3600 end.
Definition is_fraction (v : lua) : bool := match v with LDbl _ => true | _ => false end.

Lemma expiry_after_whole now v : is_fraction v = false -> expiry_after now v = LNum (now + ttl_or_default v).
Proof. by destruct v. Qed.

(** What an upsert stores. *)
Definition upserted (now : Z) (id : list Z) (node payload ttl : lua) (m : gmap (list Z) call_row) : call_row :=
  Row id (match string_or "default-node" node with LStr n => n | _ => [] end) (lit "active")
      (match m !! id with Some r => row_created r | None => now end) now (now + ttl_or_default ttl) payload.

Definition upsert_response (now : Z) (id : list Z) (ttl : lua) : lua :=
  tab [("ok", LBool true); ("call_id", LStr id); ("updated_at", LNum now);
       ("expires_at", LNum (now + ttl_or_default ttl))]%string.

(** The calls that a restore for [node] at [now] should give: the live ones of the node. *)
Definition live_on (now : Z) (node : list Z) (r : call_row) : Prop :=
  row_node r = node /\ now < row_expires r.
#[export] Instance live_on_dec now node r : Decision (live_on now node r).
Proof. unfold live_on. apply _. Defined.

Definition live_calls (now : Z) (node : list Z) (m : gmap (list Z) call_row) : list call_row :=
  filter (live_on now node) (map_to_list m).*2.

Definition restored_record (r : call_row) : lua :=
  LTab ([(text "call_id", LStr (row_id r)); (text "node_id", LStr (row_node r))]
        ++ if is_nil (row_payload r) then [] else [(text "payload", row_payload r)]).

Lemma restore_record_row r : restore_record (row_tuple r) = restored_record r.
Proof. unfold restore_record, restored_record, tab. cbn. by destruct (row_payload r). Qed.

Section facts.
Context `{!Box, !BoxLaws}.
Implicit Types (d : gmap (list Z) space) (m : gmap (list Z) call_row).

Lemma calls_ids d m k r : calls_db d m -> m !! k = Some r -> row_id r = k.
Proof.
  intros (sp & _ & _ & _ & Hr) Hk. assert (rows sp !! k = Some (row_tuple r)) as Hlk.
  { by rewrite Hr, lookup_fmap, Hk. }
  apply rows_key in Hlk. cbn in Hlk. by simplify_eq.
Qed.

Lemma lookup_calls sp m k : rows sp = row_tuple <$> m -> rows sp !! k = row_tuple <$> m !! k.
Proof. intros ->. by rewrite lookup_fmap. Qed.

(** Writing a row that fits the format. *)
Lemma calls_put d m sp sp' r :
  d !! calls_space = Some sp -> box_format sp = rtpe_calls_format -> indexes sp = rtpe_calls_indexes ->
  rows sp = row_tuple <$> m ->
  rows sp' = <[row_id r := row_tuple r]> (rows sp) -> box_format sp' = box_format sp ->
  indexes sp' = indexes sp ->
  calls_db (<[calls_space := sp']> d) (<[row_id r := r]> m).
Proof.
  intros Hd Hf Hi Hr Hr' Hf' Hi'. exists sp'. rewrite lookup_insert_eq, Hf', Hi', Hr', Hr.
  by rewrite fmap_insert.
Qed.

Lemma fits_upserted sp m now id node payload ttl :
  box_format sp = rtpe_calls_format -> rows sp = row_tuple <$> m -> 0 <= now -> now + ttl_or_default ttl < 2 ^ 64 ->
  fits (box_format sp) (row_tuple (upserted now id node payload ttl m)) = negb (is_nil payload).
Proof.
  intros Hf Hr Hnow Hexp. assert (0 < ttl_or_default ttl) as Httl by (unfold ttl_or_default; repeat case_match; lia).
  rewrite Hf, fits_row. unfold upserted. cbn [row_created row_updated row_expires row_payload].
  assert (in_u64 (match m !! id with Some r => row_created r | None => now end) = true) as ->.
  { destruct (m !! id) as [r0|] eqn:E; [|unfold in_u64; lia].
    assert (fits rtpe_calls_format (row_tuple r0) = true) as Hf0.
    { rewrite <- Hf. apply (rows_fit sp id). by rewrite Hr, lookup_fmap, E. }
    rewrite fits_row in Hf0. by do 3 apply andb_prop in Hf0 as [Hf0 _]. }
  assert (in_u64 now = true) as -> by (unfold in_u64; lia).
  by assert (in_u64 (now + ttl_or_default ttl) = true) as -> by (unfold in_u64; lia).
Qed.

(** Writing a row: an insert when its key is free, else a replace; an error when it does not fit. *)
Lemma write_row d m sp r (b : bool) : d !! calls_space = Some sp -> box_format sp = rtpe_calls_format ->
  indexes sp = rtpe_calls_indexes -> rows sp = row_tuple <$> m -> fits (box_format sp) (row_tuple r) = negb b ->
  exists d', match row_tuple <$> m !! row_id r with
      | None => space_insert calls_space sp (row_tuple r)
      | Some _ => space_replace calls_space sp (row_tuple r) end d = (if b then None else Some tt, d')
    /\ calls_db d' (if b then m else <[row_id r := r]> m) /\ forall n, n <> calls_space -> d' !! n = d !! n.
Proof.
  intros Hd Hf Hi Hr Hfit. pose proof (replace_ok sp (row_id r) (row_tuple r) eq_refl) as Hrep.
  pose proof (insert_ok sp (row_id r) (row_tuple r) eq_refl) as Hins.
  rewrite Hfit in Hrep, Hins. rewrite (lookup_calls sp m) in Hins by done.
  assert (forall sp', rows sp' = <[row_id r := row_tuple r]> (rows sp) -> box_format sp' = box_format sp ->
    indexes sp' = indexes sp -> calls_db (<[calls_space := sp']> d) (<[row_id r := r]> m)
    /\ forall n, n <> calls_space -> <[calls_space := sp']> d !! n = d !! n) as Hput.
  { intros sp' Hr' Hf' Hi'. split; [by apply (calls_put d m sp sp' r)|]. intros n Hn. by rewrite lookup_insert_ne. }
  destruct b; cbn [negb andb] in Hrep, Hins.
  - exists d. split; [|split; [by exists sp|done]].
    destruct (m !! row_id r); cbn; unfold space_replace, space_insert; by rewrite ?Hrep, ?Hins.
  - destruct (m !! row_id r) as [r0|]; cbn in Hins |- *; [destruct Hrep as (sp' & Es & Hsp)|destruct Hins as (sp' & Es & Hsp)];
      exists (<[calls_space := sp']> d); unfold space_replace, space_insert; rewrite Es;
      (split; [done|apply Hput; by destruct Hsp as (? & ? & ?)]).
Qed.

Lemma upsert_refines d m now id node payload ttl :
  calls_db d m -> 0 <= now -> is_fraction ttl = false -> now + ttl_or_default ttl < 2 ^ 64 ->
  exists d', call_upsert now [LStr id; node; payload; ttl] d
             = (if is_nil payload then None else Some (upsert_response now id ttl), d')
    /\ calls_db d' (if is_nil payload then m else <[id := upserted now id node payload ttl m]> m)
    /\ forall n, n <> calls_space -> d' !! n = d !! n.
Proof.
  intros (sp & Hd & Hf & Hi & Hr) Hnow Hwhole Hexp. set (r := upserted now id node payload ttl m).
  assert (exists nd, string_or "default-node" node = LStr nd) as [nd Hnd] by (destruct node; by eexists).
  destruct (write_row d m sp r (is_nil payload) Hd Hf Hi Hr) as (d' & E & Hd' & Hother); [by apply fits_upserted|].
  exists d'. split; [|done]. set (sent := [LStr id; node; payload; ttl]).
  unfold call_upsert. change (nth_value 1 sent) with (LStr id). change (nth_value 2 sent) with node.
  change (nth_value 3 sent) with payload. change (nth_value 4 sent) with ttl.
  rewrite (expiry_after_whole now ttl Hwhole). cbv iota zeta.
  step (eq_refl : space_of calls_space d = (Some (d !! calls_space), d)). rewrite Hd.
  assert (of_box (box_get sp (LStr id)) d = (Some (row_tuple <$> m !! id), d)) as Hg.
  { by rewrite get_ok, (lookup_calls sp m). }
  step Hg. rewrite Hnd.
  assert (match row_tuple <$> m !! id with
     | Some t => space_replace calls_space sp
         [LStr id; LStr nd; text "active"; nth_value 4 t; LNum now; LNum (now + ttl_or_default ttl); payload]
     | None => space_insert calls_space sp
         [LStr id; LStr nd; text "active"; LNum now; LNum now; LNum (now + ttl_or_default ttl); payload]
     end d = (if is_nil payload then None else Some tt, d')) as E'.
  { rewrite <- E. subst r. unfold row_tuple, upserted.
    cbn [row_id row_node row_state row_created row_updated row_expires row_payload].
    rewrite Hnd. by destruct (m !! id). }
  destruct (is_nil payload); [by rewrite (proc_raise _ _ _ _ E')|]. by step E'.
Qed.

Lemma delete_refines d m id : calls_db d m ->
  exists d', call_delete [LStr id] d
    = (Some (match m !! id with
             | None => tab [("ok", LBool true); ("deleted", LBool false);
                            ("message", text "Call not found in database")]%string
             | Some _ => tab [("ok", LBool true); ("deleted", LBool true); ("call_id", LStr id)]%string
             end), d')
    /\ calls_db d' (delete id m) /\ forall n, n <> calls_space -> d' !! n = d !! n.
Proof.
  intros (sp & Hd & Hf & Hi & Hr). destruct (delete_ok sp id) as (sp' & E & Hr' & Hf' & Hi').
  exists (<[calls_space := sp']> d). split.
  - unfold call_delete. change (nth_value 1 [LStr id]) with (LStr id). cbv iota.
    step (eq_refl : space_of calls_space d = (Some (d !! calls_space), d)). rewrite Hd.
    assert (space_delete calls_space sp (LStr id) d = (Some (rows sp !! id), <[calls_space := sp']> d)) as E'.
    { unfold space_delete. by rewrite E. }
    step E'. rewrite (lookup_calls sp m) by done. by destruct (m !! id).
  - split; [|intros n Hn; by rewrite lookup_insert_ne].
    exists sp'. rewrite lookup_insert_eq, Hf', Hi', Hr', Hr. by rewrite fmap_delete.
Qed.

Lemma get_refines d m id : calls_db d m ->
  call_get [LStr id] d
  = (Some (match m !! id with None => LNil | Some r => call_record (row_tuple r) end), d).
Proof.
  intros (sp & Hd & _ & _ & Hr). unfold call_get. change (nth_value 1 [LStr id]) with (LStr id). cbv iota.
  step (eq_refl : space_of calls_space d = (Some (d !! calls_space), d)). rewrite Hd.
  assert (of_box (box_get sp (LStr id)) d = (Some (row_tuple <$> m !! id), d)) as Hg.
  { by rewrite get_ok, (lookup_calls sp m). }
  step Hg. by destruct (m !! id).
Qed.

(** The records of a list of rows: those that are not expired. *)
Lemma restore_records_rows now (rs : list call_row) :
  restore_records now (row_tuple <$> rs)
  = restored_record <$> filter (fun r => now < row_expires r) rs.
Proof.
  unfold restore_records. induction rs as [|r rs IH]; [done|]. rewrite filter_cons, fmap_cons. cbn [omap list_omap].
  rewrite restore_record_row. change (later now (nth_value 6 (row_tuple r))) with (now <? row_expires r).
  case_decide as Hlt.
  - assert ((now <? row_expires r) = true) as -> by lia. by rewrite fmap_cons, IH.
  - assert ((now <? row_expires r) = false) as -> by lia. done.
Qed.

Lemma restore_records_perm now ts ts' : ts ≡ₚ ts' -> restore_records now ts ≡ₚ restore_records now ts'.
Proof. intros E. unfold restore_records. by rewrite E. Qed.

Lemma filter_rows node (rs : list call_row) :
  filter (fun t => is_str node (nth_value 2 t)) (row_tuple <$> rs)
  = row_tuple <$> filter (fun r => row_node r = node) rs.
Proof.
  induction rs as [|r rs IH]; [done|]. rewrite fmap_cons, !filter_cons, IH.
  change (is_str node (nth_value 2 (row_tuple r))) with (bool_decide (row_node r = node)).
  case_decide as H1; rewrite bool_decide_spec in H1; by case_decide.
Qed.

Lemma rows_list sp m : rows sp = row_tuple <$> m -> (map_to_list (rows sp)).*2 = row_tuple <$> (map_to_list m).*2.
Proof. intros ->. rewrite map_to_list_fmap, <- !list_fmap_compose. apply list_fmap_ext. by intros i [k r]. Qed.

Lemma live_calls_filter now node m :
  live_calls now node m = filter (fun r => now < row_expires r) (filter (fun r => row_node r = node) (map_to_list m).*2).
Proof.
  unfold live_calls. rewrite list_filter_filter. apply list_filter_iff. intros r. unfold live_on. naive_solver.
Qed.

Lemma restore_refines d m now node : calls_db d m -> node <> [] ->
  exists rs, rs ≡ₚ live_calls now node m
    /\ call_restore now [LStr node] d = (Some (LArr (restored_record <$> rs)), d).
Proof.
  intros (sp & Hd & Hf & Hi & Hr) Hne. destruct node as [|b n] eqn:En; [done|]. rewrite <- En in *.
  pose proof (index_eq_ok sp (lit "by_node") (Index (lit "by_node") 2) node) as HP.
  specialize (HP ltac:(by rewrite Hi; right; left) eq_refl ltac:(rewrite Hi; by apply (bool_decide_unpack _))).
  cbn [ix_field] in HP. rewrite (rows_list sp m Hr), filter_rows in HP.
  destruct (Permutation_map_inv _ _ HP) as (rs & Hrs & Hp).
  exists (filter (fun r => now < row_expires r) rs). split.
  - rewrite live_calls_filter. by rewrite Hp.
  - unfold call_restore. step (eq_refl : space_of calls_space d = (Some (d !! calls_space), d)).
    rewrite Hd. change (nth_value 1 [LStr node]) with (LStr node). rewrite En at 1. cbv iota. rewrite <- En.
    unfold mret, proc_ret. do 2 f_equal. rewrite Hrs. by rewrite <- restore_records_rows.
Qed.

End facts.
