(* ===== verification/ExpiryFacts.v ===== *)
(** The worker that removes expired rows: what one turn and a whole drain do to a space, and
    that the drain ends. *)
From S2P Require Export BackendFacts.

(** Rows that a drain at [now] leaves: field [i] is after [now]. *)
Definition kept (i : nat) (now : Z) (kt : list Z * tuple) : Prop := at_most now (nth_value i kt.2) = false.
#[export] Instance kept_dec i now kt : Decision (kept i now kt).
Proof. unfold kept. apply _. Defined.

(** A space with an index by expiry on field [i]. *)
Definition expiring `{!Box, !BoxLaws} (i : nat) (sp : space) : Prop :=
  Index by_expire i ∈ indexes sp /\ NoDup (ix_name <$> indexes sp).

Section facts.
Context `{!Box, !BoxLaws}.
Implicit Types (d : gmap (list Z) space).

Lemma delete_keys_ok n ks : forall d sp, d !! n = Some sp ->
  exists sp', delete_keys n (LStr <$> ks) d = (Some tt, <[n := sp']> d)
    /\ rows sp' = foldl (fun m k => delete k m) (rows sp) ks
    /\ box_format sp' = box_format sp /\ indexes sp' = indexes sp.
Proof.
  induction ks as [|k ks IH]; intros d sp Hd; cbn [fmap list_fmap delete_keys foldl].
  - exists sp. by rewrite insert_id.
  - step (eq_refl : space_of n d = (Some (d !! n), d)). rewrite Hd.
    destruct (delete_ok sp k) as (sp1 & E & Hr & Hf & Hi).
    assert (space_delete n sp (LStr k) d = (Some (rows sp !! k), <[n := sp1]> d)) as Es.
    { unfold space_delete. by rewrite E. }
    step Es. destruct (IH (<[n := sp1]> d) sp1) as (sp' & E' & Hr' & Hf' & Hi'); [by rewrite lookup_insert_eq|].
    exists sp'. rewrite E', insert_insert_eq, Hr', Hr, Hf', Hi'. by repeat split.
Qed.

Lemma deleted_lookup {A} (ks : list (list Z)) : forall (m : gmap (list Z) A) k,
  foldl (fun m k => delete k m) m ks !! k = if decide (k ∈ ks) then None else m !! k.
Proof.
  induction ks as [|k' ks IH]; intros m k; cbn [foldl]; [by rewrite decide_False by set_solver|].
  rewrite IH. destruct (decide (k = k')) as [->|Hne].
  - rewrite lookup_delete_eq. rewrite (decide_True (P := k' ∈ k' :: ks)) by by left. by destruct (decide _).
  - rewrite lookup_delete_ne by done. assert (k ∈ k' :: ks <-> k ∈ ks) as Hx by by set_solver.
    destruct (decide (k ∈ ks)), (decide (k ∈ k' :: ks)); tauto.
Qed.

(** The tuples the worker takes from the index, with their keys. *)
Lemma expired_rows i sp now : expiring i sp ->
  exists kts : list (list Z * tuple), (kts.*2 = box_index_le sp by_expire now)
    /\ NoDup kts.*1
    /\ forall k t, (k, t) ∈ kts <-> rows sp !! k = Some t /\ ~ kept i now (k, t).
Proof.
  intros [Hin Hnd]. pose proof (index_le_ok sp by_expire _ now Hin eq_refl Hnd) as HP. cbn [ix_field] in HP.
  assert (filter (fun t => at_most now (nth_value i t)) (map_to_list (rows sp)).*2
          = (filter (fun kt => ~ kept i now kt) (map_to_list (rows sp))).*2) as E.
  { clear HP. induction (map_to_list (rows sp)) as [|[k t] l IH]; [done|].
    rewrite fmap_cons, !filter_cons, IH.
    assert (at_most now (nth_value i t) <-> ~ kept i now (k, t)) as Hx.
    { unfold kept. cbn [snd]. by destruct (at_most now (nth_value i t)). }
    case_decide as H1; case_decide as H2; tauto. }
  rewrite E in HP. destruct (Permutation_map_inv _ _ HP) as (kts & Hk & Hp).
  exists kts. split; [done|]. split.
  - rewrite <- Hp. apply NoDup_fmap_fst.
    + intros k t1 t2 H1 H2. apply list_elem_of_filter in H1 as [_ H1], H2 as [_ H2].
      apply elem_of_map_to_list in H1, H2. congruence.
    + apply NoDup_filter, NoDup_map_to_list.
  - intros k t. rewrite <- Hp, list_elem_of_filter, elem_of_map_to_list. tauto.
Qed.

(** One turn: the keys [ks], all of expired rows, are gone; none is left when it counts 0. *)
Lemma drain_turn_ok i n now d sp : d !! n = Some sp -> expiring i sp ->
  exists ks sp', drain_turn n now d = (Some (len ks), <[n := sp']> d)
    /\ NoDup ks /\ (forall k, k ∈ ks -> exists t, rows sp !! k = Some t /\ ~ kept i now (k, t))
    /\ (ks = [] -> forall k t, rows sp !! k = Some t -> kept i now (k, t))
    /\ len ks <= 500
    /\ rows sp' = foldl (fun m k => delete k m) (rows sp) ks
    /\ box_format sp' = box_format sp /\ indexes sp' = indexes sp.
Proof.
  intros Hd Hix. destruct (expired_rows i sp now Hix) as (kts & Hk & Hnd & Hin).
  assert (nth_value 1 <$> box_index_le sp by_expire now = LStr <$> kts.*1) as Ekeys.
  { rewrite <- Hk, <- !list_fmap_compose. apply list_fmap_ext. intros j [k t] Hj. cbn.
    apply list_elem_of_lookup_2, Hin in Hj as [Hj _]. by apply (rows_key sp k). }
  set (ks := take (Z.to_nat 500) kts.*1).
  destruct (delete_keys_ok n ks d sp Hd) as (sp' & E & Hr & Hf & Hi).
  exists ks, sp'. split_and!; try done.
  - unfold drain_turn. step (eq_refl : space_of n d = (Some (d !! n), d)). rewrite Hd, Ekeys.
    rewrite <- fmap_take. fold ks. step E. unfold mret, proc_ret. unfold len. by rewrite length_fmap.
  - rewrite <- (take_drop (Z.to_nat 500) kts.*1) in Hnd. by apply NoDup_app in Hnd as [Hnd _].
  - intros k Hks. apply elem_of_take in Hks as (j & Hj & _).
    rewrite list_lookup_fmap in Hj. destruct (kts !! j) as [[k' t]|] eqn:Ej; [|done].
    cbn in Hj. simplify_eq. exists t. apply Hin. by apply list_elem_of_lookup_2 in Ej.
  - intros Hks k t Hkt. destruct (decide (kept i now (k, t))) as [|Hx]; [done|].
    assert ((k, t) ∈ kts) as Hx' by by apply Hin. subst ks. destruct kts as [|kt kts]; [by apply not_elem_of_nil in Hx'|done].
  - unfold len. subst ks. rewrite length_take. lia.
Qed.

(** ** A whole drain *)

Lemma deleted_size {A} (ks : list (list Z)) : forall m : gmap (list Z) A,
  NoDup ks -> (forall k, k ∈ ks -> is_Some (m !! k)) ->
  len ks + Z.of_nat (size (foldl (fun m k => delete k m) m ks)) = Z.of_nat (size m).
Proof.
  induction ks as [|k ks IH]; intros m Hnd Hin; [done|]. cbn [foldl].
  apply NoDup_cons in Hnd as [Hk Hnd]. destruct (Hin k (list_elem_of_here _ _)) as [x Hx].
  assert (size m = S (size (delete k m))) as Hs.
  { rewrite <- (insert_delete_id m k x Hx) at 1. apply map_size_insert_None, lookup_delete_eq. }
  rewrite len_cons, <- Z.add_assoc, (IH (delete k m) Hnd); [lia|].
  intros k' Hk'. rewrite lookup_delete_ne by (intros ->; done). apply Hin. by right.
Qed.

(** Taking expired rows away does not change which rows are kept. *)
Lemma kept_deleted (i : nat) (now : Z) (m : gmap (list Z) tuple) (ks : list (list Z)) :
  (forall k, k ∈ ks -> exists t, m !! k = Some t /\ ~ kept i now (k, t)) ->
  filter (kept i now) (foldl (fun m k => delete k m) m ks) = filter (kept i now) m.
Proof.
  intros Hks. apply map_eq. intros k. apply option_eq. intros t.
  rewrite !map_lookup_filter_Some, deleted_lookup. destruct (decide (k ∈ ks)) as [Hk|]; [|done].
  split; [by intros [? _]|]. intros [Ht Hkept]. destruct (Hks k Hk) as (t' & Ht' & Hx). by simplify_eq.
Qed.

Lemma drain_rounds_ok i n now fuel : forall d sp p,
  (size (rows sp) < fuel)%nat -> d !! n = Some sp -> expiring i sp ->
  exists sp', drain_loop fuel n now p d
      = (Some (p + (Z.of_nat (size (rows sp)) - Z.of_nat (size (rows sp')))), <[n := sp']> d)
    /\ rows sp' = filter (kept i now) (rows sp)
    /\ box_format sp' = box_format sp /\ indexes sp' = indexes sp.
Proof.
  induction fuel as [|f IH]; intros d sp p Hf Hd Hix; [lia|]. cbn [drain_loop].
  destruct (drain_turn_ok i n now d sp Hd Hix) as (ks & sp1 & E & Hnd & Hks & Hnone & _ & Hr & Hfm & Hi).
  step E. assert (forall k, k ∈ ks -> is_Some (rows sp !! k)) as Hin.
  { intros k Hk. destruct (Hks k Hk) as (t & Ht & _). by exists t. }
  pose proof (deleted_size ks (rows sp) Hnd Hin) as Hsz. rewrite <- Hr in Hsz.
  destruct (len ks =? 0) eqn:E0.
  - assert (ks = []) as -> by (destruct ks as [|k ks]; [done|rewrite len_cons in E0; pose proof (len_nonneg ks); lia]).
    exists sp1. cbn in Hr, Hsz. rewrite Hr. split_and!; [|symmetry|done..].
    + by rewrite Z.sub_diag, Z.add_0_r.
    + apply map_filter_id. intros k t Hkt. by apply Hnone.
  - destruct (IH (<[n := sp1]> d) sp1 (p + len ks)) as (sp' & E' & Hr' & Hf' & Hi').
    + unfold len in *. lia.
    + by rewrite lookup_insert_eq.
    + unfold expiring. by rewrite Hi.
    + exists sp'. split_and!; [| |congruence..].
      * rewrite E', insert_insert_eq. do 2 f_equal. lia.
      * by rewrite Hr', Hr, kept_deleted.
Qed.

Lemma drain_space_ok i n now d sp : d !! n = Some sp -> expiring i sp ->
  exists sp', drain_space n now d
      = (Some (Z.of_nat (size (rows sp)) - Z.of_nat (size (rows sp'))), <[n := sp']> d)
    /\ rows sp' = filter (kept i now) (rows sp)
    /\ box_format sp' = box_format sp /\ indexes sp' = indexes sp.
Proof.
  intros Hd Hix. unfold drain_space. rewrite Hd, has_index_ok.
  rewrite bool_decide_true by (apply Exists_exists; exists (Index by_expire i); by destruct Hix).
  destruct (drain_rounds_ok i n now (S (length (box_pairs sp))) d sp 0) as (sp' & E & H'); [|done..|].
  - rewrite (pairs_ok sp), length_fmap, length_map_to_list. apply Nat.lt_succ_diag_r.
  - exists sp'. by rewrite E.
Qed.

End facts.
