(* ===== verification/BackendRun.v ===== *)
(** Sequences of what happens to the backend: requests of clients and turns of the worker, the
    abstract service they should be (a finite map from Call-IDs to calls), and the lemmas that
    relate one step of the two. *)
From S2P Require Export ExpiryFacts.

(** * What happens *)

Inductive event :=
| Upsert (id : list Z) (node payload ttl : lua)
| Delete (id : list Z)
| Get (id : list Z)
| Restore (node : list Z)
| Sweep.

(** The name and the arguments of a request; the turn of the worker is none. *)
Definition event_request (e : event) : option (string * list lua) :=
  match e with
  | Upsert id node payload ttl => Some ("rtpe_call_upsert"%string, [LStr id; node; payload; ttl])
  | Delete id => Some ("rtpe_call_delete"%string, [LStr id])
  | Get id => Some ("rtpe_call_get"%string, [LStr id])
  | Restore node => Some ("rtpe_call_restore"%string, [LStr node])
  | Sweep => None
  end.

Section run.
Context `{!Box} (table_text : lua -> list Z) (other : list Z -> option (Z -> list lua -> proc lua)).
Abbreviation state := (worker * gmap (list Z) space)%type.

(** An event at a time, with what the client gets: nothing after an error. *)
Definition happen (now : Z) (e : event) (s : state) : option lua * state :=
  match event_request e with
  | Some (name, args) =>
      match procedure table_text other now 0 (lit name) with
      | Some f => let '(a, d') := f args s.2 in (a, (s.1, d'))
      | None => (None, s)
      end
  | None => (None, sweep now s.1 s.2)
  end.

Fixpoint happens (es : list (Z * event)) (s : state) : list (option lua) * state :=
  match es with
  | [] => ([], s)
  | (now, e) :: es' =>
      let '(a, s1) := happen now e s in let '(answers, s2) := happens es' s1 in (a :: answers, s2)
  end.
End run.

(** * The service they should be *)

Abbreviation calls := (gmap (list Z) call_row).

Definition unexpired (now : Z) (kr : list Z * call_row) : Prop := now < row_expires kr.2.
#[export] Instance unexpired_dec now kr : Decision (unexpired now kr).
Proof. unfold unexpired. apply _. Defined.

Definition spec_next (now : Z) (e : event) (m : calls) : calls :=
  match e with
  | Upsert id node payload ttl =>
      if is_nil payload then m else <[id := upserted now id node payload ttl m]> m
  | Delete id => delete id m
  | Get _ | Restore _ => m
  | Sweep => filter (unexpired now) m
  end.

Definition spec_answer (now : Z) (e : event) (m : calls) (a : option lua) : Prop :=
  match e with
  | Upsert id _ payload ttl => a = if is_nil payload then None else Some (upsert_response now id ttl)
  | Delete id =>
      a = Some (tab (match m !! id with
                     | None => [("ok", LBool true); ("deleted", LBool false);
                                ("message", text "Call not found in database")]
                     | Some _ => [("ok", LBool true); ("deleted", LBool true); ("call_id", LStr id)]
                     end)%string)
  | Get id => a = Some (match m !! id with None => LNil | Some r => call_record (row_tuple r) end)
  | Restore node => exists rs, rs ≡ₚ live_calls now node m /\ a = Some (LArr (restored_record <$> rs))
  | Sweep => a = None
  end.

Fixpoint spec_run (es : list (Z * event)) (m : calls) : calls :=
  match es with [] => m | (now, e) :: es' => spec_run es' (spec_next now e m) end.

Fixpoint spec_answers (es : list (Z * event)) (m : calls) (answers : list (option lua)) : Prop :=
  match es, answers with
  | [], [] => True
  | (now, e) :: es', a :: answers' => spec_answer now e m a /\ spec_answers es' (spec_next now e m) answers'
  | _, _ => False
  end.

(** Calls taken away by sweeps. *)
Fixpoint spec_purged (es : list (Z * event)) (m : calls) : Z :=
  match es with
  | [] => 0
  | (now, e) :: es' =>
      (match e with Sweep => Z.of_nat (size m) - Z.of_nat (size (spec_next now e m)) | _ => 0 end)
      + spec_purged es' (spec_next now e m)
  end.

(** Times that are unsigned, and a node to restore. *)
Definition sensible (now_e : Z * event) : Prop :=
  0 <= now_e.1 /\
  match now_e.2 with
  | Upsert _ _ _ ttl => is_fraction ttl = false /\ now_e.1 + ttl_or_default ttl < 2 ^ 64
  | Restore node => node <> []
  | _ => True
  end.
#[export] Instance sensible_dec ne : Decision (sensible ne).
Proof. unfold sensible. destruct ne as [now []]; apply _. Defined.

(** * One step *)

Section steps.
Context `{!Box, !BoxLaws}.
Context (table_text : lua -> list Z) (other : list Z -> option (Z -> list lua -> proc lua)).
Implicit Types (d : gmap (list Z) space) (m : calls).

(** ** Procedures that change one space *)

Definition only {A} (n : list Z) (p : proc A) : Prop := forall d n', n' <> n -> (p d).2 !! n' = d !! n'.

Lemma only_still {A} n (p : proc A) : (forall d, (p d).2 = d) -> only n p.
Proof. intros Hp d n' _. by rewrite Hp. Qed.

Lemma only_bind {A B} n (p : proc A) (k : A -> proc B) :
  only n p -> (forall a, only n (k a)) -> only n (p ≫= k).
Proof.
  intros Hp Hk d n' Hn. unfold mbind, proc_bind. pose proof (Hp d n' Hn) as E.
  destruct (p d) as [[a|] d']; [|done]. cbn in E. rewrite <- E. by apply Hk.
Qed.

Lemma only_put n sp : only n (put_space n sp).
Proof. intros d n' Hn. cbn. by rewrite lookup_insert_ne. Qed.

Lemma only_delete n sp k : only n (space_delete n sp k).
Proof.
  apply only_bind; [by apply only_still; intros d; destruct (box_delete sp k)|]. intros [old sp'].
  apply only_bind; [apply only_put|]. intros _. by apply only_still.
Qed.

Lemma only_delete_keys n keys : only n (delete_keys n keys).
Proof.
  induction keys as [|k keys IH]; cbn [delete_keys]; [by apply only_still|].
  apply only_bind; [by apply only_still|]. intros [sp|]; [|by apply only_still].
  apply only_bind; [apply only_delete|by intros _].
Qed.

Lemma only_drain_turn n now : only n (drain_turn n now).
Proof.
  apply only_bind; [by apply only_still|]. intros [sp|]; [|by apply only_still].
  apply only_bind; [apply only_delete_keys|]. intros _. by apply only_still.
Qed.

Lemma only_drain_loop n now fuel : forall p, only n (drain_loop fuel n now p).
Proof.
  induction fuel as [|f IH]; intros p; cbn [drain_loop]; [by apply only_still|].
  apply only_bind; [apply only_drain_turn|]. intros k. destruct (k =? 0); [by apply only_still|apply IH].
Qed.

Lemma purge_other n now d n' : n' <> lit n -> (purge n now d).2 !! n' = d !! n'.
Proof.
  intros Hn. unfold purge. destruct (drain_space (lit n) now d) as [k d'] eqn:E. cbn.
  unfold drain_space in E. destruct (d !! lit n) as [sp|]; [|by simplify_eq].
  destruct (box_has_index sp by_expire); [|by simplify_eq].
  pose proof (only_drain_loop (lit n) now (S (length (box_pairs sp))) 0 d n' Hn) as H'. by rewrite E in H'.
Qed.

(** ** A step of the service *)

Lemma calls_expiring sp : indexes sp = rtpe_calls_indexes -> expiring 6 sp.
Proof. intros Hi. unfold expiring. rewrite Hi. split; [by right; right; left|by apply (bool_decide_unpack _)]. Qed.

Lemma kept_rows now m : filter (kept 6 now) (row_tuple <$> m) = row_tuple <$> filter (unexpired now) m.
Proof.
  rewrite map_filter_fmap. f_equal. apply map_filter_ext. intros k r _. unfold kept, unexpired.
  change (at_most now (nth_value 6 (row_tuple r)) = false <-> now < row_expires r).
  change (at_most now (nth_value 6 (row_tuple r))) with (row_expires r <=? now). lia.
Qed.

Lemma sweep_refines d m now w : calls_db d m ->
  calls_db (sweep now w d).2 (filter (unexpired now) m)
  /\ purged_calls (sweep now w d).1
     = purged_calls w + (Z.of_nat (size m) - Z.of_nat (size (filter (unexpired now) m))).
Proof.
  intros (sp & Hd & Hf & Hi & Hr).
  destruct (drain_space_ok 6 calls_space now d sp Hd (calls_expiring sp Hi)) as (sp' & E & Hr' & Hf' & Hi').
  rewrite Hr, kept_rows in Hr'. rewrite Hr, Hr', !map_size_fmap in E.
  set (d1 := <[calls_space := sp']> d) in E.
  assert (purge "rtpe_calls" now d = (Z.of_nat (size m) - Z.of_nat (size (filter (unexpired now) m)), d1)) as Ep.
  { unfold purge. change (lit "rtpe_calls") with calls_space. by rewrite E. }
  unfold sweep. rewrite Ep.
  pose proof (purge_other "kam_dialogs" now d1 calls_space ltac:(done)) as E2.
  destruct (purge "kam_dialogs" now d1) as [n_dia d2]. cbn [snd] in E2.
  pose proof (purge_other "kam_usrloc" now d2 calls_space ltac:(done)) as E3.
  destruct (purge "kam_usrloc" now d2) as [n_loc d3]. cbn [snd] in E3.
  split; [|done]. exists sp'. cbn [snd]. rewrite E3, E2. subst d1. by rewrite lookup_insert_eq, Hf', Hi'.
Qed.

(** One event: the answer is one the specification allows, and the calls are as it says. *)
Lemma happen_refines now e m s : sensible (now, e) -> calls_db s.2 m ->
  let '(a, s') := happen table_text other now e s in
  spec_answer now e m a /\ calls_db s'.2 (spec_next now e m)
  /\ purged_calls s'.1 = purged_calls s.1 + spec_purged [(now, e)] m.
Proof.
  destruct s as [w d]. cbn [snd fst]. intros [Hnow He] Hm. cbn [fst snd] in Hnow, He.
  cbn [spec_purged]. destruct e as [id node payload ttl|id|id|node|]; cbn [spec_answer spec_next].
  - destruct (upsert_refines d m now id node payload ttl Hm Hnow (proj1 He) (proj2 He)) as (d' & E & Hd' & _).
    change (happen table_text other now (Upsert id node payload ttl) (w, d))
      with (let '(a, d') := call_upsert now [LStr id; node; payload; ttl] d in (a, (w, d'))).
    rewrite E. split_and!; [done..|by cbn; lia].
  - destruct (delete_refines d m id Hm) as (d' & E & Hd' & _).
    change (happen table_text other now (Delete id) (w, d))
      with (let '(a, d') := call_delete [LStr id] d in (a, (w, d'))).
    rewrite E. split_and!; [by destruct (m !! id)|done|by cbn; lia].
  - change (happen table_text other now (Get id) (w, d))
      with (let '(a, d') := call_get [LStr id] d in (a, (w, d'))).
    rewrite (get_refines d m id Hm). split_and!; [done..|by cbn; lia].
  - destruct (restore_refines d m now node Hm He) as (rs & Hp & E).
    change (happen table_text other now (Restore node) (w, d))
      with (let '(a, d') := call_restore now [LStr node] d in (a, (w, d'))).
    rewrite E. split_and!; [by exists rs|done|by cbn; lia].
  - destruct (sweep_refines d m now w Hm) as [Hd Hw].
    change (happen table_text other now Sweep (w, d)) with (@None lua, sweep now w d).
    split_and!; [done..|]. rewrite Hw. cbn [fst]. lia.
Qed.

Lemma happens_refines es : forall m s, Forall sensible es -> calls_db s.2 m ->
  let '(answers, s') := happens table_text other es s in
  spec_answers es m answers /\ calls_db s'.2 (spec_run es m)
  /\ purged_calls s'.1 = purged_calls s.1 + spec_purged es m.
Proof.
  induction es as [|[now e] es IH]; intros m s Hes Hm.
  - split_and!; [done..|by cbn; lia].
  - apply Forall_cons in Hes as [He Hes]. cbn [happens spec_run].
    pose proof (happen_refines now e m s He Hm) as H1.
    destruct (happen table_text other now e s) as [a s1]. destruct H1 as (Ha & Hm1 & Hw1).
    pose proof (IH _ s1 Hes Hm1) as H2.
    destruct (happens table_text other es s1) as [answers s2]. destruct H2 as (Has & Hm2 & Hw2).
    split_and!; [done..|]. rewrite Hw2, Hw1. cbn [spec_purged]. lia.
Qed.

End steps.

(** * Sweeps and the restore *)

(** What a restore shows of a call. *)
Definition shown (r : call_row) : call_row := Row (row_id r) (row_node r) [] 0 0 (row_expires r) (row_payload r).

(** The same live calls, as far as a restore shows them. *)
Definition same_live (now : Z) (m m' : calls) : Prop :=
  shown <$> filter (unexpired now) m = shown <$> filter (unexpired now) m'.

#[export] Instance same_live_equivalence now : Equivalence (same_live now).
Proof. unfold same_live. split; [by intros m|by intros m m'|by intros m1 m2 m3 -> ->]. Qed.

Lemma same_live_lookup now m m' : same_live now m m' <->
  forall id, (r ← m !! id; if decide (unexpired now (id, r)) then Some (shown r) else None)
             = (r ← m' !! id; if decide (unexpired now (id, r)) then Some (shown r) else None).
Proof.
  assert (forall (m : calls) id, (shown <$> filter (unexpired now) m) !! id
    = (r ← m !! id; if decide (unexpired now (id, r)) then Some (shown r) else None)) as E.
  { intros m0 id. rewrite lookup_fmap, map_lookup_filter. destruct (m0 !! id) as [r|]; [|done]. cbn [mbind option_bind].
    destruct (decide (unexpired now (id, r))) as [H|H];
      [by rewrite option_guard_True|by rewrite option_guard_False]. }
  unfold same_live. split.
  - intros Hs id. by rewrite <- !E, Hs.
  - intros Hs. apply map_eq. intros id. by rewrite !E.
Qed.

(** Later, fewer of them are live. *)
Lemma same_live_later now now' m m' : now <= now' -> same_live now m m' -> same_live now' m m'.
Proof.
  rewrite !same_live_lookup. intros Hle Hs id. specialize (Hs id). unfold unexpired in *. cbn [snd] in *.
  destruct (m !! id) as [r|], (m' !! id) as [r'|]; cbn [mbind option_bind] in *; [| | |done];
    repeat case_decide; first [done|lia|by injection Hs; intros; lia].
Qed.

Lemma same_live_sweep now m : same_live now (filter (unexpired now) m) m.
Proof.
  unfold same_live. f_equal. rewrite map_filter_filter. apply map_filter_ext. intros k r _. tauto.
Qed.

Lemma same_live_next now e m m' : same_live now m m' -> same_live now (spec_next now e m) (spec_next now e m').
Proof.
  intros Hs. destruct e as [id node payload ttl|id|id|node|]; cbn [spec_next]; try done.
  - destruct (is_nil payload); [done|]. rewrite same_live_lookup in Hs |- *. intros id'. specialize (Hs id').
    destruct (decide (id' = id)) as [->|Hne]; [by rewrite !lookup_insert_eq|by rewrite !lookup_insert_ne].
  - rewrite same_live_lookup in Hs |- *. intros id'. specialize (Hs id').
    destruct (decide (id' = id)) as [->|Hne]; [by rewrite !lookup_delete_eq|by rewrite !lookup_delete_ne].
  - by rewrite !same_live_sweep.
Qed.

(** What a restore shows depends on that only. *)
Lemma same_live_restored now node m m' : same_live now m m' ->
  restored_record <$> live_calls now node m ≡ₚ restored_record <$> live_calls now node m'.
Proof.
  assert (forall m : calls, restored_record <$> live_calls now node m
    ≡ₚ restored_record <$> filter (fun r => row_node r = node)
         (map_to_list (shown <$> filter (unexpired now) m)).*2) as E.
  { intros m0. rewrite map_filter_alt, map_to_list_fmap.
    rewrite map_to_list_to_map by (apply NoDup_fmap_fst; [intros k r1 r2 [_ H1]%list_elem_of_filter [_ H2]%list_elem_of_filter;
      apply elem_of_map_to_list in H1, H2; congruence|apply NoDup_filter, NoDup_map_to_list]).
    apply Permutation_refl'. unfold live_calls, live_on, unexpired.
    induction (map_to_list m0) as [|[k r] l IH]; [done|]. cbn [fmap list_fmap]. rewrite !filter_cons.
    cbn [snd]. destruct (decide (now < row_expires r)) as [Hlt|Hge].
    - cbn [fmap list_fmap prod_map snd]. rewrite filter_cons. cbn [shown row_node].
      destruct (decide (row_node r = node)) as [Hn|Hn];
        [rewrite decide_True by done|rewrite decide_False by tauto]; cbn [fmap list_fmap]; by rewrite IH.
    - rewrite decide_False by tauto. apply IH. }
  intros Hs. by rewrite !E, Hs.
Qed.
