(* ===== verification/BackendSpec.v ===== *)
(** What the backend promises: the calls are a finite map with an expiry, the worker is not
    seen by a restore, a drain takes the expired rows and no others, and the node selected is
    the least loaded of those that are online. *)
From Stdlib Require Import Sorted.
From S2P Require Export BackendRun.

(** * The database at the start *)

Definition fresh_db `{!Box} : gmap (list Z) space := asterisk_init (schema_init ∅).

Section fresh.
Context `{!Box, !BoxLaws}.

Lemma fresh_spaces :
  Forall (fun x => fresh_db !! x.1 = Some (box_create x.2.1 x.2.2)) (schema_spaces ++ asterisk_spaces).
Proof. apply Forall_app. split; unfold schema_spaces, asterisk_spaces; repeat constructor. Qed.

Lemma fresh_calls : calls_db fresh_db ∅.
Proof.
  exists (box_create rtpe_calls_format rtpe_calls_indexes). rewrite rows_create, format_create, indexes_create.
  split; [|by rewrite fmap_empty]. by destruct (Forall_cons_1 _ _ _ fresh_spaces) as [Hs _].
Qed.
End fresh.

(** * The calls *)

Section calls.
Context `{!Box, !BoxLaws}.
Context (table_text : lua -> list Z) (other : list Z -> option (Z -> list lua -> proc lua)).

(** C3: From the empty schema, any sequence of upserts, deletes, gets, restores and turns of
    the worker is answered as a finite map from Call-IDs to calls answers it: an upsert keeps
    the time of creation, one without a payload is refused and changes nothing, a restore gives
    the calls of the node that are not expired, a turn of the worker, with no request in
    between its deletions, removes the expired calls; the table of calls is the map, and the
    counter of purged calls counts the removed ones. *)
Theorem calls_service_refines_map es : Forall sensible es ->
  let '(answers, (w, d)) := happens table_text other es (idle_worker, fresh_db) in
  spec_answers es ∅ answers /\ calls_db d (spec_run es ∅) /\ purged_calls w = spec_purged es ∅.
Proof.
  intros Hes. pose proof (happens_refines table_text other es ∅ (idle_worker, fresh_db) Hes fresh_calls) as Hr.
  destruct (happens _ _ _ _) as [answers [w d]]. cbn [snd fst] in Hr. by destruct Hr as (H1 & H2 & H3).
Qed.

(** The answers to the restores of a sequence. *)
Fixpoint restores (es : list (Z * event)) (answers : list (option lua)) : list (option lua) :=
  match es, answers with
  | (_, Restore _) :: es', a :: answers' => a :: restores es' answers'
  | _ :: es', _ :: answers' => restores es' answers'
  | _, _ => []
  end.

Definition no_sweep (now_e : Z * event) : Prop := match now_e.2 with Sweep => False | _ => True end.
#[export] Instance no_sweep_dec ne : Decision (no_sweep ne).
Proof. unfold no_sweep. destruct ne as [now []]; apply _. Defined.

(** The same records, in any order. *)
Definition same_records (a a' : option lua) : Prop :=
  exists vs vs', a = Some (LArr vs) /\ a' = Some (LArr vs') /\ vs ≡ₚ vs'.

Lemma spec_restores es : forall t m m' answers answers',
  StronglySorted Z.le (t :: es.*1) -> same_live t m m' ->
  spec_answers es m answers -> spec_answers (filter no_sweep es) m' answers' ->
  Forall2 same_records (restores es answers) (restores (filter no_sweep es) answers').
Proof.
  induction es as [|[now e] es IH]; intros t m m' answers answers' Hs Hm Ha Ha'.
  - destruct answers; [|done]. destruct answers'; [|done]. constructor.
  - assert (same_live now m m') as Hmn.
    { apply (same_live_later t); [|done]. apply StronglySorted_inv in Hs as [_ Hs]. by apply Forall_cons in Hs as [Hs _]. }
    apply StronglySorted_inv in Hs as [Hs _]. cbn [fmap list_fmap fst] in Hs.
    pose proof (same_live_next now e m m' Hmn) as Hn.
    destruct answers as [|a answers]; [done|]. cbn [spec_answers] in Ha. destruct Ha as [Ha Has].
    destruct e as [id node payload ttl|id|id|node|]; rewrite filter_cons in Ha' |- *.
    5: { cbn [restores]. rewrite decide_False in Ha' |- * by (intros []).
         eapply IH; [exact Hs| |exact Has|exact Ha']. rewrite <- Hmn. apply same_live_sweep. }
    all: rewrite decide_True in Ha' |- * by exact I; destruct answers' as [|a' answers']; [done|];
      cbn [spec_answers] in Ha'; destruct Ha' as [Ha' Has']; cbn [restores].
    4: constructor.
    4: { destruct Ha as (rs & Hp & ->), Ha' as (rs' & Hp' & ->). eexists _, _. split; [done|split; [done|]].
         rewrite Hp, Hp'. by apply same_live_restored. }
    all: by eapply IH.
Qed.

(** Whole turns of the worker are not observable by a failover: with times that do not go back,
    the restores of any sequence give the same records (in some order) as the restores of the
    sequence without the turns of the worker. This is for turns with no other fiber in between;
    a call refreshed while the worker has it in hand is lost, see [refreshed_call_deleted_by_sweep]. *)
Theorem restores_do_not_see_sweeps es : Forall sensible es -> StronglySorted Z.le es.*1 ->
  let answers := (happens table_text other es (idle_worker, fresh_db)).1 in
  let answers' := (happens table_text other (filter no_sweep es) (idle_worker, fresh_db)).1 in
  Forall2 same_records (restores es answers) (restores (filter no_sweep es) answers').
Proof.
  intros Hes Hs. cbn zeta.
  pose proof (happens_refines table_text other es ∅ (idle_worker, fresh_db) Hes fresh_calls) as H1.
  pose proof (happens_refines table_text other (filter no_sweep es) ∅ (idle_worker, fresh_db)
    ltac:(apply Forall_forall; intros x [_ Hx]%list_elem_of_filter; by eapply Forall_forall in Hes) fresh_calls) as H2.
  destruct (happens _ _ es _) as [answers s], (happens _ _ (filter no_sweep es) _) as [answers' s'].
  destruct H1 as [H1 _], H2 as [H2 _]. cbn [fst].
  assert (exists t, StronglySorted Z.le (t :: es.*1)) as [t Ht].
  { destruct es as [|[t e] es]; [exists 0; by constructor; constructor|]. exists t. constructor; [done|].
    apply StronglySorted_inv in Hs as [_ Hs]. by constructor. }
  by eapply spec_restores.
Qed.
End calls.

(** * Expiry *)

Section expiry.
Context `{!Box, !BoxLaws}.

(** A drain ends, removes exactly the rows whose time of expiry (field [i], which the index
    has) is reached, leaves every other row and every other space as they are, and counts the
    rows it removed; the number of rows plus one turns are enough. *)
Theorem drain_removes_exactly_the_expired n i now d sp : d !! n = Some sp -> expiring i sp ->
  exists k sp', drain_space n now d = (Some k, <[n := sp']> d)
    /\ (forall id t, rows sp' !! id = Some t
                     <-> rows sp !! id = Some t /\ at_most now (nth_value i t) = false)
    /\ k = Z.of_nat (size (rows sp)) - Z.of_nat (size (rows sp'))
    /\ box_format sp' = box_format sp /\ indexes sp' = indexes sp.
Proof.
  intros Hd Hix. destruct (drain_space_ok i n now d sp Hd Hix) as (sp' & E & Hr & Hf & Hi).
  eexists _, sp'. split; [exact E|]. split; [|done]. intros id t. by rewrite Hr, map_lookup_filter_Some.
Qed.

(** One turn of a drain, after which other fibers run, removes at most 500 rows, all of
    them expired; every row that is not expired is as it was. *)
Theorem drain_turn_is_bounded_and_safe n i now d sp : d !! n = Some sp -> expiring i sp ->
  exists k sp', drain_turn n now d = (Some k, <[n := sp']> d)
    /\ 0 <= k <= 500 /\ k = Z.of_nat (size (rows sp)) - Z.of_nat (size (rows sp'))
    /\ (k = 0 -> map_Forall (fun _ t => at_most now (nth_value i t) = false) (rows sp))
    /\ rows sp' ⊆ rows sp
    /\ forall id t, rows sp !! id = Some t -> at_most now (nth_value i t) = false ->
       rows sp' !! id = Some t.
Proof.
  intros Hd Hix.
  destruct (drain_turn_ok i n now d sp Hd Hix) as (ks & sp' & E & Hnd & Hks & Hnone & Hle & Hr & _).
  assert (forall k, k ∈ ks -> is_Some (rows sp !! k)) as Hin.
  { intros k Hk. destruct (Hks k Hk) as (t & Ht & _). by exists t. }
  pose proof (deleted_size ks (rows sp) Hnd Hin) as Hsz. rewrite <- Hr in Hsz.
  exists (len ks), sp'. split; [exact E|]. split; [pose proof (len_nonneg ks); lia|]. split; [lia|]. split.
  - intros Hk0. assert (ks = []) as Hnil.
    { destruct ks as [|k ks]; [done|]. rewrite len_cons in Hk0. pose proof (len_nonneg ks). lia. }
    intros id t Ht. by apply (Hnone Hnil id t).
  - split.
    + apply map_subseteq_spec. intros id t. rewrite Hr, deleted_lookup. by destruct (decide (id ∈ ks)).
    + intros id t Ht Hk. rewrite Hr, deleted_lookup. destruct (decide (id ∈ ks)) as [Hid|]; [|done].
      destruct (Hks id Hid) as (t' & Ht' & Hx). by simplify_eq.
Qed.
End expiry.

(** * The nodes *)

Record heartbeat := Heartbeat { hb_time : Z; hb_node : list Z; hb_address : list Z; hb_calls : Z }.

Definition node_tuple (h : heartbeat) : tuple :=
  [LStr (hb_node h); LStr (hb_address h); text "active"; LNum (hb_calls h); LNum (hb_time h)].

(** The last heartbeat of each node. *)
Definition last_heartbeats (hs : list heartbeat) : gmap (list Z) heartbeat :=
  foldl (fun m h => <[hb_node h := h]> m) ∅ hs.

Definition heartbeat_ok (h : heartbeat) : Prop := 0 <= hb_time h < 2 ^ 64 /\ 0 <= hb_calls h < 2 ^ 64.

Section nodes.
Context `{!Box, !BoxLaws}.
Implicit Types (d : gmap (list Z) space).

Definition heartbeats (hs : list heartbeat) (d : gmap (list Z) space) : gmap (list Z) space :=
  foldl (fun d h => (node_heartbeat (hb_time h)
    [LStr (hb_node h); LStr (hb_address h); LNum (hb_calls h)] d).2) d hs.

Definition nodes_db d (m : gmap (list Z) heartbeat) : Prop :=
  exists sp, d !! nodes_space = Some sp /\ box_format sp = cluster_nodes_format /\ rows sp = node_tuple <$> m.

Lemma heartbeat_refines d m h : nodes_db d m -> heartbeat_ok h ->
  nodes_db (node_heartbeat (hb_time h) [LStr (hb_node h); LStr (hb_address h); LNum (hb_calls h)] d).2
           (<[hb_node h := h]> m).
Proof.
  intros (sp & Hd & Hf & Hr) [Ht Hc]. unfold node_heartbeat.
  change (nth_value 1 [LStr (hb_node h); LStr (hb_address h); LNum (hb_calls h)]) with (LStr (hb_node h)).
  change (nth_value 2 [LStr (hb_node h); LStr (hb_address h); LNum (hb_calls h)]) with (LStr (hb_address h)).
  change (nth_value 3 [LStr (hb_node h); LStr (hb_address h); LNum (hb_calls h)]) with (LNum (hb_calls h)).
  cbv iota zeta. step (eq_refl : space_of nodes_space d = (Some (d !! nodes_space), d)). rewrite Hd.
  assert ((0 <=? hb_calls h) = true) as -> by lia. cbn [string_or].
  pose proof (replace_ok sp (hb_node h) (node_tuple h) eq_refl) as Hrep.
  assert (fits (box_format sp) (node_tuple h) = true) as Hfit.
  { rewrite Hf. cbn. rewrite andb_true_iff. lia. }
  rewrite Hfit in Hrep. destruct Hrep as (sp' & Es & Hr' & Hf' & _).
  assert (space_replace nodes_space sp (node_tuple h) d = (Some tt, <[nodes_space := sp']> d)) as E.
  { unfold space_replace. by rewrite Es. }
  change [LStr (hb_node h); LStr (hb_address h); text "active"; LNum (hb_calls h); LNum (hb_time h)] with (node_tuple h).
  step E. exists sp'. cbn [snd mret proc_ret]. by rewrite lookup_insert_eq, Hf', Hr', Hr, fmap_insert.
Qed.

Lemma heartbeats_refine hs : forall d m, nodes_db d m -> Forall heartbeat_ok hs ->
  nodes_db (heartbeats hs d) (foldl (fun m h => <[hb_node h := h]> m) m hs).
Proof.
  induction hs as [|h hs IH]; intros d m Hd Hhs; [done|]. apply Forall_cons in Hhs as [Hh Hhs]. cbn [foldl].
  apply IH; [|done]. by apply heartbeat_refines.
Qed.

(** The loop finds a least element of those that are online. *)
Definition best_of (now : Z) (ts : list tuple) (best : option Z * lua) : Prop :=
  (best = (None, LNil) /\ Forall (fun t => online now t = false) ts)
  \/ exists t, t ∈ ts /\ online now t = true /\ best = (Some (number (nth_value 4 t)), node_record t)
     /\ Forall (fun t' => online now t' = true -> number (nth_value 4 t) <= number (nth_value 4 t')) ts.

Lemma select_turn_best now ts t best : best_of now ts best -> best_of now (ts ++ [t]) (select_turn now best t).
Proof.
  intros Hb. unfold select_turn. destruct (online now t) eqn:Eo; cbn [andb].
  - destruct Hb as [[-> Hall]|(t0 & Hin & Ho & -> & Hmin)]; cbn [fst below].
    + right. exists t. split; [set_solver|]. split_and!; [done..|]. apply Forall_app. split; [|by repeat constructor].
      eapply Forall_impl; [exact Hall|]. intros t' H1 H2. congruence.
    + destruct (number (nth_value 4 t) <? number (nth_value 4 t0)) eqn:El; right.
      * exists t. split; [set_solver|]. split_and!; [done..|]. apply Forall_app. split; [|by repeat constructor].
        eapply Forall_impl; [exact Hmin|]. intros t' H1 H2. specialize (H1 H2). lia.
      * exists t0. split; [set_solver|]. split_and!; [done..|]. apply Forall_app. split; [done|].
        repeat constructor. lia.
  - destruct Hb as [[-> Hall]|(t0 & Hin & Ho & -> & Hmin)].
    + left. split; [done|]. apply Forall_app. by repeat constructor.
    + right. exists t0. split; [set_solver|]. split_and!; [done..|]. apply Forall_app. split; [done|].
      repeat constructor. congruence.
Qed.

Lemma select_best now ts : best_of now ts (foldl (select_turn now) (None, LNil) ts).
Proof.
  induction ts as [|t ts IH] using rev_ind; [by left|]. rewrite foldl_app. cbn [foldl]. by apply select_turn_best.
Qed.

(** C22: After any sequence of heartbeats, the node that is selected is one whose last heartbeat
    is less than ten seconds old, and none of these has fewer active calls; nothing is selected
    only if there is no such node. *)
Theorem selected_node_is_the_least_loaded hs now : Forall heartbeat_ok hs ->
  exists v, select_optimal_node now (heartbeats hs fresh_db) = (Some v, heartbeats hs fresh_db) /\
  ((v = LNil /\ map_Forall (fun _ h => 10 <= now - hb_time h) (last_heartbeats hs))
   \/ exists node h, last_heartbeats hs !! node = Some h /\ now - hb_time h < 10
      /\ v = tab [("node_id", LStr (hb_node h)); ("address", LStr (hb_address h));
                  ("active_calls", LNum (hb_calls h))]%string
      /\ map_Forall (fun _ h' => now - hb_time h' < 10 -> hb_calls h <= hb_calls h') (last_heartbeats hs)).
Proof.
  intros Hhs. assert (nodes_db fresh_db ∅) as Hfresh.
  { exists (box_create cluster_nodes_format cluster_nodes_indexes). rewrite rows_create, format_create, fmap_empty.
    split; [|done]. pose proof fresh_spaces as Hs. apply Forall_cons in Hs as [_ Hs]. by apply Forall_cons in Hs as [Hs _]. }
  destruct (heartbeats_refine hs fresh_db ∅ Hfresh Hhs) as (sp & Hd & _ & Hr). fold (last_heartbeats hs) in Hr.
  set (d := heartbeats hs fresh_db) in *. set (m := last_heartbeats hs) in *.
  eexists. split.
  - unfold select_optimal_node. step (eq_refl : space_of nodes_space d = (Some (d !! nodes_space), d)).
    by rewrite Hd.
  - pose proof (pairs_ok sp) as Hp. rewrite Hr, map_to_list_fmap in Hp.
    assert (forall t, t ∈ box_pairs sp <-> exists node h, m !! node = Some h /\ t = node_tuple h) as Hin.
    { intros t. rewrite Hp, list_elem_of_fmap. split.
      - intros ([k t'] & -> & Hk). apply list_elem_of_fmap in Hk as ([node h] & [= -> ->] & Hk).
        apply elem_of_map_to_list in Hk. by exists node, h.
      - intros (node & h & Hm & ->). exists (node, node_tuple h). split; [done|]. apply list_elem_of_fmap.
        exists (node, h). split; [done|]. by apply elem_of_map_to_list. }
    assert (forall h, online now (node_tuple h) = (now - hb_time h <? 10)) as Ho by done.
    pose proof (select_best now (box_pairs sp)) as [[-> Hall]|(t & Ht & Hon & -> & Hmin)].
    + left. split; [done|]. intros node h Hm. eapply Forall_forall in Hall; [|apply Hin; by exists node, h].
      rewrite Ho in Hall. lia.
    + right. apply Hin in Ht as (node & h & Hm & ->). rewrite Ho in Hon. exists node, h.
      split; [done|]. split; [lia|]. split; [done|]. intros node' h' Hm' Hlt.
      eapply Forall_forall in Hmin; [|apply Hin; by exists node', h']. rewrite Ho in Hmin. cbn in Hmin. lia.
Qed.
End nodes.

(** * Concrete runs *)

Definition no_text : lua -> list Z := fun _ => [].
Definition no_others : list Z -> option (Z -> list lua -> proc lua) := fun _ => None.

(** Two calls on one node, one of which expires, is swept away and comes again. *)
Definition busy_day : list (Z * event) :=
  [(100, Upsert (lit "a") (text "n1") (text "sdp-a") (LNum 50));
   (110, Upsert (lit "b") (text "n1") (text "sdp-b") LNil);
   (120, Upsert (lit "c") (text "n1") LNil LNil);
   (150, Restore (lit "n1"));
   (150, Sweep);
   (160, Upsert (lit "a") (text "n1") (text "sdp-a2") (LNum 50));
   (165, Get (lit "a"));
   (170, Restore (lit "n1"));
   (180, Delete (lit "b"));
   (190, Restore (lit "n1"))].

Lemma calls_service_refines_map_witness : Forall sensible busy_day /\
  let '(answers, (w, d)) := happens no_text no_others busy_day (idle_worker, fresh_db) in
  spec_answers busy_day ∅ answers /\ calls_db d (spec_run busy_day ∅)
  /\ purged_calls w = spec_purged busy_day ∅.
Proof. assert (Forall sensible busy_day) as Hs by by apply (bool_decide_unpack _). split; [done|]. by apply calls_service_refines_map. Defined.

Lemma restores_do_not_see_sweeps_witness :
  Forall2 same_records (restores busy_day (happens no_text no_others busy_day (idle_worker, fresh_db)).1)
    (restores (filter no_sweep busy_day)
       (happens no_text no_others (filter no_sweep busy_day) (idle_worker, fresh_db)).1).
Proof.
  apply (restores_do_not_see_sweeps no_text no_others busy_day).
  - by apply (bool_decide_unpack _).
  - cbn. repeat constructor; lia.
Defined.

(** A database with the call [a], expired at 150, and [b]. *)
Definition two_calls : gmap (list Z) space := (happens no_text no_others (take 2 busy_day) (idle_worker, fresh_db)).2.2.
Definition two_calls_space : space := default (box_create [] []) (two_calls !! calls_space).

Lemma two_calls_ok : two_calls !! calls_space = Some two_calls_space /\ expiring 6 two_calls_space.
Proof.
  pose proof (happens_refines no_text no_others (take 2 busy_day) ∅ (idle_worker, fresh_db)
    ltac:(by apply (bool_decide_unpack _)) fresh_calls) as Hr.
  unfold two_calls_space, two_calls. destruct (happens _ _ _ _) as [answers s].
  destruct Hr as (_ & (sp & Hd & _ & Hi & _) & _). cbn [snd] in Hd |- *. rewrite Hd. split; [done|]. by apply calls_expiring.
Qed.

Lemma drain_removes_exactly_the_expired_witness :
  exists k sp', drain_space calls_space 150 two_calls = (Some k, <[calls_space := sp']> two_calls)
    /\ (forall id t, rows sp' !! id = Some t
                     <-> rows two_calls_space !! id = Some t /\ at_most 150 (nth_value 6 t) = false)
    /\ k = Z.of_nat (size (rows two_calls_space)) - Z.of_nat (size (rows sp'))
    /\ box_format sp' = box_format two_calls_space /\ indexes sp' = indexes two_calls_space.
Proof.
  apply drain_removes_exactly_the_expired; apply two_calls_ok.
Defined.

Lemma drain_turn_is_bounded_and_safe_witness :
  exists k sp', drain_turn calls_space 150 two_calls = (Some k, <[calls_space := sp']> two_calls)
    /\ 0 <= k <= 500 /\ k = Z.of_nat (size (rows two_calls_space)) - Z.of_nat (size (rows sp'))
    /\ (k = 0 -> map_Forall (fun _ t => at_most 150 (nth_value 6 t) = false) (rows two_calls_space))
    /\ rows sp' ⊆ rows two_calls_space
    /\ forall id t, rows two_calls_space !! id = Some t -> at_most 150 (nth_value 6 t) = false ->
       rows sp' !! id = Some t.
Proof.
  apply drain_turn_is_bounded_and_safe; apply two_calls_ok.
Defined.

Definition three_nodes : list heartbeat :=
  [Heartbeat 100 (lit "n1") (lit "10.0.0.1:22222") 7; Heartbeat 104 (lit "n2") (lit "10.0.0.2:22222") 3;
   Heartbeat 95 (lit "n3") (lit "10.0.0.3:22222") 0; Heartbeat 106 (lit "n1") (lit "10.0.0.1:22222") 2].

Lemma selected_node_is_the_least_loaded_witness :
  exists v, select_optimal_node 108 (heartbeats three_nodes fresh_db) = (Some v, heartbeats three_nodes fresh_db) /\
  ((v = LNil /\ map_Forall (fun _ h => 10 <= 108 - hb_time h) (last_heartbeats three_nodes))
   \/ exists node h, last_heartbeats three_nodes !! node = Some h /\ 108 - hb_time h < 10
      /\ v = tab [("node_id", LStr (hb_node h)); ("address", LStr (hb_address h));
                  ("active_calls", LNum (hb_calls h))]%string
      /\ map_Forall (fun _ h' => 108 - hb_time h' < 10 -> hb_calls h <= hb_calls h') (last_heartbeats three_nodes)).
Proof.
  apply (selected_node_is_the_least_loaded three_nodes 108). unfold three_nodes, heartbeat_ok.
  repeat constructor; cbn; lia.
Defined.

(** ** A refreshed call can be lost

    Each deletion of a turn is written to the log, which lets other fibers run before the next
    one. The keys were collected before; a call that a client refreshes in between, and that
    is live again, is deleted all the same. *)

Definition two_expired : gmap (list Z) space :=
  (happens no_text no_others
     [(100, Upsert (lit "a") (text "n1") (text "sdp-a") (LNum 50));
      (100, Upsert (lit "b") (text "n1") (text "sdp-b") (LNum 50))] (idle_worker, fresh_db)).2.2.

Theorem refreshed_call_deleted_by_sweep :
  let a := lit "a" in let b := lit "b" in
  nth_value 1 <$> box_index_le (default (box_create [] []) (two_expired !! calls_space)) by_expire 150
    = [LStr b; LStr a]
  /\ let d1 := (delete_keys calls_space [LStr b] two_expired).2 in
     let d2 := (call_upsert 150 [LStr a; text "n1"; text "sdp"; LNum 3600] d1).2 in
     (call_upsert 150 [LStr a; text "n1"; text "sdp"; LNum 3600] d1).1 = Some (upsert_response 150 a (LNum 3600))
     /\ (call_restore 150 [text "n1"] d2).1
        = Some (LArr [LTab [(text "call_id", LStr a); (text "node_id", text "n1"); (text "payload", text "sdp")]])
     /\ (call_restore 150 [text "n1"] (delete_keys calls_space [LStr a] d2).2).1 = Some (LArr []).
Proof. cbn zeta. split_and!; by vm_compute. Qed.
