(* ===== verification/RtpePerm.v ===== *)
(** Stored calls whose maps come in any order: the loops of restoring read the same call
    from every permutation of the entries. *)
From S2P Require Export RtpeTrip.

(** * Folds over permuted entries *)

Lemma foldl_foldr {A B} (f : B -> A -> B) (l : list A) : forall b,
  foldl f b l = foldr (fun x b => f b x) b (reverse l).
Proof.
  induction l as [|x l IH]; intros b; [done|]. cbn [foldl]. by rewrite IH, reverse_cons, foldr_app.
Qed.

Lemma foldl_perm {A B} (f : B -> A -> B) (l l' : list A) (b : B) :
  (forall i j x y b, i <> j -> l !! i = Some x -> l !! j = Some y -> f (f b x) y = f (f b y) x) ->
  l ≡ₚ l' -> foldl f b l = foldl f b l'.
Proof.
  intros Hc Hp. rewrite !foldl_foldr.
  assert (reverse l ≡ₚ reverse l') as Hp' by (etrans; [apply reverse_Permutation|]; etrans; [exact Hp|];
    symmetry; apply reverse_Permutation).
  apply (foldr_permutation (=) (fun x b => f b x) b); [|exact Hp'].
  intros i x j y b0 Hne Hi Hj.
  apply reverse_lookup_Some in Hi as [Hi Hil], Hj as [Hj Hjl]. eapply Hc; [|exact Hj|exact Hi]. lia.
Qed.

(** Entries of different names do not disturb each other. *)
Definition distinct_keys (kvs : list (mp * mp)) : Prop := NoDup kvs.*1.

Lemma distinct_lookup kvs i j kv kv' : distinct_keys kvs -> i <> j ->
  kvs !! i = Some kv -> kvs !! j = Some kv' -> kv.1 <> kv'.1.
Proof.
  intros Hd Hne Hi Hj E. apply Hne. eapply (NoDup_lookup _ i j kv.1 Hd); rewrite list_lookup_fmap.
  - by rewrite Hi.
  - rewrite Hj. cbn. by rewrite E.
Qed.

(** The names of the entries are written in one way. *)
Definition short_keys (kvs : list (mp * mp)) : Prop := Forall (fun kv => exists k, kv.1 = mstr k) kvs.

Lemma payload_commute r kv kv' k k' : kv.1 = mstr k -> kv'.1 = mstr k' -> k <> k' ->
  payload_spec (payload_spec r kv) kv' = payload_spec (payload_spec r kv') kv.
Proof.
  intros E E' Hne. unfold payload_spec. rewrite E, E'. cbn [mstr].
  repeat match goal with |- context [decide (?a = ?b)] =>
    match a with k => destruct (decide (a = b)) | k' => destruct (decide (a = b)) end end;
  first [reflexivity|congruence].
Qed.

Lemma keys_distinct kvs i j kv kv' : distinct_keys kvs -> short_keys kvs -> i <> j ->
  kvs !! i = Some kv -> kvs !! j = Some kv' -> exists k k', kv.1 = mstr k /\ kv'.1 = mstr k' /\ k <> k'.
Proof.
  intros Hd Hs Hne Hi Hj. pose proof (distinct_lookup _ _ _ _ _ Hd Hne Hi Hj) as Hk.
  unfold short_keys in Hs. rewrite Forall_forall in Hs.
  destruct (Hs kv) as [k Ek]; [by eapply list_elem_of_lookup_2|].
  destruct (Hs kv') as [k' Ek']; [by eapply list_elem_of_lookup_2|].
  exists k, k'. split_and!; [done..|]. intros ->. congruence.
Qed.

Lemma payload_perm r kvs kvs' : distinct_keys kvs -> short_keys kvs -> kvs ≡ₚ kvs' ->
  foldl payload_spec r kvs = foldl payload_spec r kvs'.
Proof.
  intros Hd Hs. apply foldl_perm. intros i j kv kv' b Hne Hi Hj.
  destruct (keys_distinct _ _ _ _ _ Hd Hs Hne Hi Hj) as (k & k' & E & E' & Hk).
  by eapply payload_commute.
Qed.

(** The payload leaves the identifiers alone. *)
Definition with_ids (cid nid : list Z) (r : restored) : restored :=
  Restored cid nid (c_ip r) (ce_ip r) (suite r) (c_port r) (ce_port r).

Lemma payload_ids cid nid kvs : forall r,
  foldl payload_spec (with_ids cid nid r) kvs = with_ids cid nid (foldl payload_spec r kvs).
Proof.
  induction kvs as [|kv kvs IH]; intros r; [done|]. cbn [foldl]. rewrite <- IH. f_equal.
  unfold payload_spec. destruct (kv.1); try done. by repeat case_decide.
Qed.

Lemma payload_keeps_ids kvs : forall r,
  cid_buf (foldl payload_spec r kvs) = cid_buf r /\ nid_buf (foldl payload_spec r kvs) = nid_buf r.
Proof.
  intros r. assert (r = with_ids (cid_buf r) (nid_buf r) r) as E by by destruct r.
  rewrite E, payload_ids. by split.
Qed.

Lemma entry_commute r kv kv' k k' : kv.1 = mstr k -> kv'.1 = mstr k' -> k <> k' ->
  entry_spec (entry_spec r kv) kv' = entry_spec (entry_spec r kv') kv.
Proof.
  intros E E' Hne. destruct kv as [k0 v], kv' as [k0' v']. cbn [fst] in E, E'. subst k0 k0'.
  assert (forall v cid nid r, match v with MMap FFix kvs => foldl payload_spec (with_ids cid nid r) kvs
      | _ => with_ids cid nid r end
    = with_ids cid nid (match v with MMap FFix kvs => foldl payload_spec r kvs | _ => r end)) as Hp.
  { intros v0 cid nid r0. destruct v0 as [| | | | | | | |[] kvs]; try done. apply payload_ids. }
  assert (forall v r, cid_buf (match v with MMap FFix kvs => foldl payload_spec r kvs | _ => r end) = cid_buf r
    /\ nid_buf (match v with MMap FFix kvs => foldl payload_spec r kvs | _ => r end) = nid_buf r) as Hk.
  { intros v0 r0. destruct v0 as [| | | | | | | |[] kvs]; try done. apply payload_keeps_ids. }
  unfold entry_spec. cbn [mstr fst snd].
  destruct (decide (k = lit "call_id")), (decide (k' = lit "call_id")); try congruence;
  destruct (decide (k = lit "node_id")), (decide (k' = lit "node_id")); try congruence;
  destruct (decide (k = lit "payload")), (decide (k' = lit "payload")); try congruence;
  cbn [cid_buf nid_buf c_ip ce_ip suite c_port ce_port]; try done;
  match goal with |- context [match ?x with _ => _ end] =>
    destruct (Hk x r) as [Hk1 Hk2]; rewrite ?Hk1, ?Hk2; first [apply (Hp x)|symmetry; apply (Hp x)] end.
Qed.

Lemma entry_perm r kvs kvs' : distinct_keys kvs -> short_keys kvs -> kvs ≡ₚ kvs' ->
  foldl entry_spec r kvs = foldl entry_spec r kvs'.
Proof.
  intros Hd Hs. apply foldl_perm. intros i j kv kv' b Hne Hi Hj.
  destruct (keys_distinct _ _ _ _ _ Hd Hs Hne Hi Hj) as (k & k' & E & E' & Hk).
  by eapply entry_commute.
Qed.

(** * A stored call in any order *)

Definition payload_entries (i : rtpe_call_info) : list (mp * mp) :=
  match payload_map i with MMap _ kvs => kvs | _ => [] end.

Definition stored_entries (cid node : list Z) (payload : mp) : list (mp * mp) :=
  [(mstr (lit "call_id"), mstr cid); (mstr (lit "node_id"), mstr node); (mstr (lit "payload"), payload)].

(** [v] is the map of the call [x]. *)
Definition stored_as (x : saved) (v : mp) : Prop := exists kvs pk,
  v = MMap FFix kvs /\ kvs ≡ₚ stored_entries x.1.1 x.1.2 (MMap FFix pk) /\ pk ≡ₚ payload_entries x.2.

Lemma distinct_perm kvs kvs' : kvs ≡ₚ kvs' -> distinct_keys kvs -> distinct_keys kvs'.
Proof. unfold distinct_keys. by intros ->. Qed.
Lemma short_perm kvs kvs' : kvs ≡ₚ kvs' -> short_keys kvs -> short_keys kvs'.
Proof. unfold short_keys. by intros ->. Qed.

Lemma payload_entries_keys i : distinct_keys (payload_entries i) /\ short_keys (payload_entries i).
Proof.
  split.
  - apply (NoDup_fmap_1 (fun k => match k with MStr _ s => s | _ => [] end)). cbn.
    by apply (bool_decide_unpack _).
  - repeat (apply Forall_cons; split); [by eexists..|by apply Forall_nil].
Qed.

Lemma stored_entries_keys cid node v : distinct_keys (stored_entries cid node v) /\ short_keys (stored_entries cid node v).
Proof.
  split.
  - apply (NoDup_fmap_1 (fun k => match k with MStr _ s => s | _ => [] end)). cbn.
    by apply (bool_decide_unpack _).
  - repeat (apply Forall_cons; split); [by eexists..|by apply Forall_nil].
Qed.

(** Maps are well formed entry by entry. *)
Lemma mp_wf_perm f kvs kvs' : kvs ≡ₚ kvs' -> mp_wf (MMap f kvs) -> mp_wf (MMap f kvs').
Proof.
  intros Hp. rewrite !mp_wf_map. assert (len kvs' = len kvs) as -> by (unfold len; by rewrite Hp).
  intros (H1 & H2 & H3). split; [done|]. split; [done|]. by eapply Permutation_Forall.
Qed.

Lemma entries_spec cid node v : foldl entry_spec restored_init (stored_entries cid node v) =
  let r := Restored (chars_of 128 [] (mstr cid)) (chars_of 64 [] (mstr node)) (lit "0.0.0.0") (lit "0.0.0.0") (lit "NONE") 0 0 in
  match v with MMap FFix kvs => foldl payload_spec r kvs | _ => r end.
Proof. unfold stored_entries. rewrite entry_str. names. rewrite entry_str. names. rewrite entry_str. names. reflexivity. Qed.

Lemma stored_wf x v : saved_ok x -> stored_as x v ->
  item_ok v /\ item_spec v = item_spec (stored x).
Proof.
  intros Hx (kvs & pk & -> & Hk & Hp). destruct x as [[cid node] i]. cbn [fst snd] in *.
  destruct (stored_call_ok _ _ _ Hx) as (g0 & kvs0 & E0 & Hwf0 & Hall0).
  injection E0 as <- <-. destruct (payload_map_ok _ _ _ Hx) as (Hpwf & pk0 & Epk & Hpall). cbn [fst snd] in *.
  assert (pk0 = payload_entries i) as -> by (unfold payload_entries; by rewrite Epk).
  pose proof (mp_wf_perm FFix _ pk (symmetry Hp) ltac:(by rewrite <- Epk)) as Hpwf'.
  split.
  - exists FFix, kvs. split; [done|]. split.
    + apply (mp_wf_perm FFix _ _ (symmetry Hk)). unfold stored_call in Hwf0.
      rewrite !mp_wf_map in Hwf0 |- *.
      destruct Hwf0 as (H1 & H2 & H3). split_and!; [done..|]. unfold stored_entries.
      rewrite !Forall_cons in H3 |- *.
      destruct H3 as (H4 & H5 & [H6 _] & H7). split; [exact H4|]. split; [exact H5|]. split; [|exact H7]. by split.
    + rewrite Hk. unfold stored_entries. rewrite !Forall_cons in Hall0 |- *.
      destruct Hall0 as (H1 & H2 & H3 & _). split_and!; [done..| |by apply Forall_nil].
      destruct H3 as (f & k & E & Hf & Hkey & _ & _ & _). exists f, k. cbn [fst snd] in *. split_and!; [done..| |].
      * intros Hb. injection E as <- <-. destruct Hb as [Hb|Hb]; by vm_compute in Hb.
      * intros _. exists FFix, pk. split; [done|]. intros _. by rewrite Hp.
  - unfold stored, stored_call. cbn [item_spec fst snd].
    destruct (stored_entries_keys cid node (MMap FFix pk)) as [Hd Hs].
    rewrite (entry_perm restored_init kvs (stored_entries cid node (MMap FFix pk))).
    + fold (stored_entries cid node (payload_map i)). rewrite !entries_spec, Epk. cbv zeta iota.
      destruct (payload_entries_keys i) as [Hdp Hsp].
      by apply payload_perm; [by eapply distinct_perm|by eapply short_perm|].
    + by eapply distinct_perm.
    + by eapply short_perm.
    + done.
Qed.

Lemma stored_back x v : saved_ok x -> stored_as x v ->
  restored_info (item_spec v) = back x /\ cid_buf (item_spec v) = x.1.1.
Proof.
  intros Hx Hv. destruct (stored_wf x v Hx Hv) as [_ ->]. by apply stored_call_back.
Qed.

Lemma calls_of_stored_as xs vs : Forall saved_ok xs -> Forall2 stored_as xs vs -> calls_of vs = back <$> xs.
Proof.
  intros Hxs Hvs. induction Hvs as [|x v xs vs Hv _ IH]; [done|]. apply Forall_cons in Hxs as [Hx Hxs].
  cbn [calls_of flat_map fmap list_fmap]. fold (calls_of vs).
  destruct (stored_back x v Hx Hv) as [H1 H2]. destruct Hx as (Hne & _).
  rewrite decide_False by (by rewrite H2). by rewrite H1, (IH Hxs).
Qed.
