(* ===== verification/Failover.v ===== *)
(** The failover of rtpengine as a whole: the driver of one node saves and deletes calls, the
    stored procedures of the server handle its requests, and the driver of another node
    restores them from the answer of the server. *)
From S2P Require Export RtpePerm RtpeSpec BackendSpec.

(** * Requests on the wire *)

(** A CALL by its sync, procedure and arguments. *)
Record rpc := Rpc { rpc_sync : Z; rpc_name : list Z; rpc_args : list mp }.
Definition rpc_frame (r : rpc) : list Z := finalize_packet (call_request_of (rpc_sync r) (rpc_name r) (rpc_args r)).

(** * What the driver does *)

(** Calls by the identifier of [cid]. *)
Inductive call_op := SaveCall (i : rtpe_call_info) (cid : list Z) | DeleteCall (id : list Z) (n : Z) (cid : list Z).

Definition run_call_op (o : call_op) : MR Z :=
  match o with
  | SaveCall i _ => rtpe_tarantool_save_call (Some i)
  | DeleteCall id n _ => rtpe_tarantool_delete_call (Some id) n
  end.

Fixpoint run_call_ops (os : list call_op) : MR (list Z) :=
  match os with
  | [] => mret []
  | o :: os' => r ← run_call_op o; rs ← run_call_ops os'; mret (r :: rs)
  end.

(** The node a client saves for. *)
Definition node_of (c : rtpe_tarantool_client) : list Z := cstr (r_node_id (r_config c)).

Definition call_op_ok (c : rtpe_tarantool_client) (o : call_op) : Prop :=
  match o with
  | SaveCall i cid =>
      (exists id, call_id i = Some id /\ ident id (call_id_len i) cid) /\ storable cid (node_of c) i
      /\ 0 <= ttl_sec i < 2 ^ 32
  | DeleteCall id n cid => ident id n cid /\ len cid < 128
  end.

(** The request of an operation. *)
Definition op_rpc (c : rtpe_tarantool_client) (o : call_op) : rpc :=
  match o with
  | SaveCall i cid => Rpc (sync_id c) (lit "rtpe_call_upsert")
                          (upsert_args cid (Some (r_node_id (r_config c))) (with_ttl c i))
  | DeleteCall _ _ cid => Rpc (sync_id c) (lit "rtpe_call_delete") [mstr cid]
  end.

Fixpoint op_rpcs (c : rtpe_tarantool_client) (os : list call_op) : list rpc :=
  match os with [] => [] | o :: os' => op_rpc c o :: op_rpcs (pushed (synced c)) os' end.

Fixpoint after_ops (c : rtpe_tarantool_client) (os : list call_op) : rtpe_tarantool_client :=
  match os with [] => c | _ :: os' => after_ops (pushed (synced c)) os' end.

Lemma storable_small cid c i : storable cid (node_of c) i ->
  info_small cid (Some (r_node_id (r_config c))) i /\ info_bytes cid (Some (r_node_id (r_config c))) i <= 1853.
Proof.
  intros (_ & Hc & Hn & H1 & H2 & H3 & _). unfold node_of in Hn.
  change (cstr (r_node_id (r_config c))) with (or_else (Some (r_node_id (r_config c))) (lit "rtpe-01")) in Hn.
  destruct Hc as (_ & Hc & _), Hn as (_ & Hn & _), H1 as (_ & H1 & _), H2 as (_ & H2 & _), H3 as (_ & H3 & _).
  unfold info_small, info_bytes.
  split; [repeat (apply Forall_cons; split); [lia..|by apply Forall_nil]|lia].
Qed.

Lemma push_all packet c w s : authed c -> socks w !! r_fd c = Some s -> tx s = [] ->
  push_packet packet c w = Ret 0 (pushed c) (with_sock w (r_fd c) (Sock (drained (rx s)) [] (wire s ++ packet))).
Proof.
  intros Ha Hs Htx. unfold push_packet. run (ready_authed c w Ha). cbn [negb]. rewrite bind_get.
  destruct Ha as [_ Hfd]. run (socket_drain_ok (r_fd c) c w s Hs Hfd).
  run (send_all_ok retry_all true (r_fd c) packet c (with_sock w (r_fd c) (set_rx s (drained (rx s))))
         (set_rx s (drained (rx s))) (with_sock_lookup _ _ _) Htx). cbn [negb].
  by rewrite with_sock_twice.
Qed.

Lemma run_call_op_ok c w s o : authed c -> socks w !! r_fd c = Some s -> tx s = [] -> call_op_ok c o ->
  run_call_op o c w
  = Ret 0 (pushed (synced c)) (with_sock w (r_fd c) (Sock (drained (rx s)) [] (wire s ++ rpc_frame (op_rpc c o)))).
Proof.
  intros Ha Hs Htx Ho. destruct o as [i cid|id n cid]; cbn [run_call_op op_rpc call_op_ok] in *.
  - destruct Ho as ((id & Hid & Hcid) & Hst & _). destruct (storable_small _ _ _ Hst) as [Hsm Hb].
    rewrite (save_push c w i id cid) by (try done; by apply upsert_fits).
    by apply (push_all _ (synced c) w s).
  - destruct Ho as (Hcid & Hl). rewrite (delete_push c w id n cid).
    + by apply (push_all _ (synced c) w s).
    + done.
    + unfold delete_call_frame. rewrite <- rdelete_request by lia. rewrite len_finalize. unfold delete_payload. lens.
      pose proof (len_mstr_bounds cid ltac:(lia)). pose proof (len_encode_uint (sync_id c)). len_closed. lia.
    + lia.
Qed.

Lemma run_call_ops_ok os : forall c w s, authed c -> socks w !! r_fd c = Some s -> tx s = [] ->
  Forall (call_op_ok c) os ->
  exists w' rx', run_call_ops os c w = Ret (replicate (length os) 0) (after_ops c os) w'
    /\ socks w' !! r_fd c = Some (Sock rx' [] (wire s ++ flat_map rpc_frame (op_rpcs c os))).
Proof.
  induction os as [|o os IH]; intros c w s Ha Hs Htx Hos.
  - exists w, (rx s). split; [done|]. cbn [op_rpcs flat_map]. rewrite app_nil_r, Hs. by destruct s; cbn in *; subst.
  - apply Forall_cons in Hos as [Ho Hos]. cbn [run_call_ops op_rpcs after_ops flat_map replicate length].
    run (run_call_op_ok c w s o Ha Hs Htx Ho).
    destruct (IH (pushed (synced c)) (with_sock w (r_fd c) (Sock (drained (rx s)) [] (wire s ++ rpc_frame (op_rpc c o))))
      (Sock (drained (rx s)) [] (wire s ++ rpc_frame (op_rpc c o))) Ha (with_sock_lookup _ _ _) eq_refl Hos)
      as (w' & rx' & E & Hw').
    exists w', rx'. run E. split; [done|]. cbn [wire r_fd pushed synced put_errors put_sent put_sync] in Hw'.
    rewrite <- app_assoc in Hw'. exact Hw'.
Qed.

(** * What should be kept *)

Record saved_call := SavedCall {
  sc_cid : list Z; sc_info : rtpe_call_info; sc_created : Z; sc_updated : Z; sc_expires : Z
}.

(** The time to live that is asked for. *)
Definition asked_ttl (c : rtpe_tarantool_client) (i : rtpe_call_info) : Z :=
  if 0 <? ttl_sec (with_ttl c i) then ttl_sec (with_ttl c i) else 3600.

(** Each Call-ID with its last save, unless it was deleted since. *)
Definition keep_op (c : rtpe_tarantool_client) (m : gmap (list Z) saved_call) (top : Z * call_op) : gmap (list Z) saved_call :=
  match top.2 with
  | SaveCall i cid =>
      <[cid := SavedCall cid i (match m !! cid with Some s => sc_created s | None => top.1 end)
                         top.1 (top.1 + asked_ttl c i)]> m
  | DeleteCall _ _ cid => delete cid m
  end.
Definition kept_calls (c : rtpe_tarantool_client) (tops : list (Z * call_op)) : gmap (list Z) saved_call :=
  foldl (keep_op c) ∅ tops.

Definition unexpired_calls (now : Z) (m : gmap (list Z) saved_call) : list saved_call :=
  filter (fun s => now < sc_expires s) (map_to_list m).*2.

(** A call as the driver that restores gets it. *)
Definition delivered (node : list Z) (s : saved_call) : rtpe_call_info := call_back (sc_cid s) node (sc_info s).

(** * What the server does *)

Section server.
Context `{!Box, !BoxLaws, !LuaMsgpack, !LuaMsgpackLaws}.
Context (table_text : lua -> list Z) (other : list Z -> option (Z -> list lua -> proc lua)).

(** A request at a time; the answers to saves and deletes are not read. *)
Definition handle (d : gmap (list Z) space) (tr : Z * rpc) : gmap (list Z) space :=
  (serve table_text other tr.1 0 (rpc_name tr.2) (rpc_args tr.2) d).2.

Definition payload_lua (i : rtpe_call_info) : lua := of_mp (payload_map i).

Definition row_of (node : list Z) (s : saved_call) : call_row :=
  Row (sc_cid s) node (lit "active") (sc_created s) (sc_updated s) (sc_expires s) (payload_lua (sc_info s)).

(** The event that a request is. *)
Definition op_event (c : rtpe_tarantool_client) (o : call_op) : event :=
  match o with
  | SaveCall i cid => Upsert cid (LStr (node_of c)) (payload_lua i) (LNum (asked_ttl c i))
  | DeleteCall _ _ cid => Delete cid
  end.

Lemma asked_ttl_range c i : 0 <= ttl_sec i < 2 ^ 32 -> 0 < asked_ttl c i < 2 ^ 32.
Proof.
  intros Ht. unfold asked_ttl, with_ttl. cbn [ttl_sec].
  pose proof (u32_range (expires_secs (r_config c))). repeat case_match; lia.
Qed.

Lemma ttl_of_mp c i : 0 <= ttl_sec i < 2 ^ 32 ->
  of_mp (uint_mp (if 0 <? ttl_sec (with_ttl c i) then ttl_sec (with_ttl c i) else 3600)) = LNum (asked_ttl c i).
Proof.
  intros Ht. pose proof (asked_ttl_range c i Ht). fold (asked_ttl c i).
  apply (of_mp_uint _ (asked_ttl c i)); [apply uint_val_mp; lia|lia].
Qed.

Lemma handle_op c d t o w : call_op_ok c o ->
  handle d (t, op_rpc c o) = (happen table_text other t (op_event c o) (w, d)).2.2.
Proof.
  intros Ho. destruct o as [i cid|id n cid]; unfold handle; cbn [fst snd op_rpc rpc_name rpc_args op_event].
  - destruct Ho as (_ & _ & Ht).
    assert (of_mp <$> upsert_args cid (Some (r_node_id (r_config c))) (with_ttl c i)
      = [LStr cid; LStr (node_of c); payload_lua i; LNum (asked_ttl c i)]) as E.
    { unfold upsert_args. cbn [fmap list_fmap]. rewrite (ttl_of_mp c i Ht). unfold mstr. by rewrite !of_mp_str. }
    change (serve table_text other t 0 (lit "rtpe_call_upsert") (upsert_args cid (Some (r_node_id (r_config c))) (with_ttl c i)) d)
      with (call_upsert t (of_mp <$> upsert_args cid (Some (r_node_id (r_config c))) (with_ttl c i)) d).
    rewrite E.
    change (happen table_text other t (Upsert cid (LStr (node_of c)) (payload_lua i) (LNum (asked_ttl c i))) (w, d))
      with (let '(a, d') := call_upsert t [LStr cid; LStr (node_of c); payload_lua i; LNum (asked_ttl c i)] d in (a, (w, d'))).
    by destruct (call_upsert _ _ _).
  - change (serve table_text other t 0 (lit "rtpe_call_delete") [mstr cid] d) with (call_delete [of_mp (mstr cid)] d).
    unfold mstr. rewrite of_mp_str.
    change (happen table_text other t (Delete cid) (w, d)) with (let '(a, d') := call_delete [LStr cid] d in (a, (w, d'))).
    by destruct (call_delete _ _).
Qed.

Lemma payload_lua_tab i : exists kvs, payload_lua i = LTab kvs.
Proof.
  unfold payload_lua, payload_map. rewrite of_mp_map; [by eexists|].
  repeat (apply Forall_cons; split); [by eexists _, _..|by apply Forall_nil].
Qed.

Lemma keep_refines c m t o : call_op_ok c o -> 
  spec_next t (op_event c o) (row_of (node_of c) <$> m) = row_of (node_of c) <$> keep_op c m (t, o).
Proof.
  intros Ho. destruct o as [i cid|id n cid]; cbn [op_event spec_next keep_op fst snd].
  - destruct (payload_lua_tab i) as [kvs E]. rewrite E. cbn [is_nil]. rewrite <- E, fmap_insert. f_equal.
    destruct Ho as (_ & _ & Ht). pose proof (asked_ttl_range c i Ht) as Hr.
    unfold upserted, row_of. cbn [string_or sc_cid sc_info sc_created sc_updated sc_expires ttl_or_default].
    rewrite lookup_fmap. destruct (0 <? asked_ttl c i) eqn:E0; [|lia]. by destruct (m !! cid).
  - by rewrite fmap_delete.
Qed.
Lemma call_op_ok_config c c0 o : r_config c = r_config c0 -> call_op_ok c o <-> call_op_ok c0 o.
Proof. intros E. unfold call_op_ok, node_of. by rewrite E. Qed.

Definition op_time_ok (t : Z) : Prop := 0 <= t < 2 ^ 63.

(** The server after the requests of the operations. *)
Definition handled (c : rtpe_tarantool_client) (tos : list (Z * call_op)) (d : gmap (list Z) space) : gmap (list Z) space :=
  foldl handle d (zip tos.*1 (op_rpcs c tos.*2)).

Lemma handled_refines tos : forall c c0 d m, r_config c = r_config c0 ->
  Forall (fun to => op_time_ok to.1 /\ call_op_ok c0 to.2) tos ->
  calls_db d (row_of (node_of c0) <$> m) ->
  calls_db (handled c tos d) (row_of (node_of c0) <$> foldl (keep_op c0) m tos).
Proof.
  induction tos as [|[t o] tos IH]; intros c c0 d m Hc Hall Hd; [done|].
  apply Forall_cons in Hall as [[Ht Ho] Hall]. cbn [fst snd] in Ht, Ho.
  unfold handled. cbn [fmap list_fmap fst snd op_rpcs zip zip_with foldl].
  apply (IH (pushed (synced c)) c0); [done|done|].
  rewrite <- (keep_refines c0 m t o Ho).
  assert (call_op_ok c o) as Hoc by (by apply (call_op_ok_config c c0)).
  rewrite (handle_op c d t o idle_worker Hoc).
  assert (op_event c o = op_event c0 o) as ->.
  { destruct o as [i cid|]; [|done]. unfold op_event, node_of, asked_ttl, with_ttl. by rewrite Hc. }
  assert (sensible (t, op_event c0 o)) as Hse.
  { unfold op_time_ok in Ht. split; cbn [fst snd]; [lia|]. destruct o as [i cid|id n cid]; [|done].
    cbn [op_event ttl_or_default]. split; [done|]. destruct Ho as (_ & _ & Ho). pose proof (asked_ttl_range c0 i Ho).
    destruct (0 <? asked_ttl c0 i); lia. }
  pose proof (happen_refines table_text other t (op_event c0 o) _ (idle_worker, d) Hse Hd) as Hh.
  destruct (happen _ _ _ _ _) as [a s']. by destruct Hh as (_ & Hh & _).
Qed.

(** ** The answer *)

Lemma to_of_payload i : 0 <= caller_port i < 2 ^ 31 -> 0 <= callee_port i < 2 ^ 31 ->
  exists pk, to_mp (payload_lua i) = MMap FFix pk /\ pk ≡ₚ payload_entries i.
Proof.
  intros P1 P2. unfold payload_lua, payload_entries, payload_map.
  rewrite of_mp_map by (repeat (apply Forall_cons; split); [by eexists _, _..|by apply Forall_nil]).
  cbn [fmap list_fmap fst snd]. unfold mstr. rewrite !of_mp_str.
  rewrite !u64_id by lia.
  rewrite (of_mp_uint _ (caller_port i)), (of_mp_uint _ (callee_port i)) by (first [apply uint_val_mp; lia|lia]).
  match goal with |- exists pk, to_mp (LTab ?kvs) = _ /\ _ => destruct (to_mp_tab kvs ltac:(cbn; lia)) as (pk & Hp & ->) end.
  exists pk. split; [done|]. rewrite Hp. cbn [fmap list_fmap fst snd]. rewrite !to_mp_str, !to_mp_num by lia. done.
Qed.

Lemma record_stored node s : 0 <= caller_port (sc_info s) < 2 ^ 31 -> 0 <= callee_port (sc_info s) < 2 ^ 31 ->
  stored_as (sc_cid s, node, sc_info s) (to_mp (restored_record (row_of node s))).
Proof.
  intros P1 P2. destruct (to_of_payload (sc_info s) P1 P2) as (pk & Ep & Hp). unfold restored_record, row_of.
  cbn [row_id row_node row_payload]. destruct (payload_lua_tab (sc_info s)) as [pl El].
  assert (is_nil (payload_lua (sc_info s)) = false) as -> by by rewrite El. cbn [app].
  match goal with |- stored_as _ (to_mp (LTab ?kvs)) => destruct (to_mp_tab kvs ltac:(cbn; lia)) as (kvs' & Hk & ->) end.
  exists kvs', pk. split; [done|]. split; [|done]. rewrite Hk. cbn [fmap list_fmap fst snd]. unfold text.
  by rewrite !to_mp_str, Ep.
Qed.

(** The response to a CALL: the data key with what the returned value becomes. *)
Definition answer_message (fh : mpfmt) (header : list (mp * mp)) (fb fa : mpfmt) (v : lua) : message :=
  Message fh header fb [(uint_mp IPROTO_DATA, MArr fa (call_data 0x06 v))].

Lemma restored_body cb fh header fb fa node ss :
  Forall (fun s => saved_ok (sc_cid s, node, sc_info s)) ss -> (forall cs i, cb cs i = 0) ->
  let m := answer_message fh header fb fa (LArr (restored_record <$> (row_of node <$> ss))) in
  mp_wf (MMap fb (m_body m)) ->
  body_wf cb m /\ message_calls m = delivered node <$> ss.
Proof.
  intros Hss Hcb m Hwf.
  assert (exists vs, Forall2 stored_as ((fun s => (sc_cid s, node, sc_info s)) <$> ss) vs
    /\ call_data 0x06 (LArr (restored_record <$> (row_of node <$> ss)))
       = [MArr (cnt_fmt (len vs)) vs]) as (vs & Hvs & Ed).
  { exists (to_mp <$> (restored_record <$> (row_of node <$> ss))). split.
    - rewrite <- !list_fmap_compose. apply Forall2_fmap, Forall_Forall2_diag. eapply Forall_impl; [exact Hss|].
      intros s (_ & _ & _ & _ & _ & _ & P1 & P2). by apply record_stored.
    - rewrite call_data_16.
      + rewrite to_mp_arr. by rewrite !len_fmap.
      + apply Forall_fmap, Forall_fmap, Forall_true. intros s. by eexists. }
  assert (Forall saved_ok ((fun s => (sc_cid s, node, sc_info s)) <$> ss)) as Hok by by apply Forall_fmap.
  assert (calls_of vs = delivered node <$> ss) as Hcalls.
  { rewrite (calls_of_stored_as _ vs Hok Hvs), <- list_fmap_compose. done. }
  subst m. unfold answer_message in *. rewrite Ed in *. split.
  - split; [done|]. cbn [m_body] in *. apply mp_wf_map in Hwf as (_ & _ & Hwf).
    apply Forall_cons in Hwf as [[_ Hwf] _]. cbn [snd] in Hwf.
    apply Forall_cons. split; [|by apply Forall_nil]. exists IPROTO_DATA. cbn [fst snd].
    split; [by apply uint_val_mp|]. split; [done|]. intros _. eexists _, _. split; [reflexivity|].
    apply mp_wf_arr in Hwf as [_ Hwf]. apply Forall_cons in Hwf as [Hwf _].
    apply Forall_cons. split; [|by apply Forall_nil]. eexists _, _. split; [reflexivity|].
    split; [done|]. split; [|by left].
    clear -Hok Hvs. induction Hvs as [|x v xs vs Hv _ IH]; [by apply Forall_nil|].
    apply Forall_cons in Hok as [Hx Hok]. apply Forall_cons. split; [by apply (stored_wf x v)|by apply IH].
  - unfold message_calls. cbn [m_body foldl]. unfold body_calls. cbn [fst snd].
    rewrite decide_True by by apply uint_val_mp. cbn [array_items app flat_map].
    by rewrite app_nil_r, Hcalls.
Qed.

(** What the server answers to the request of a restore. *)
Definition restore_answer (now : Z) (node : list Z) (d : gmap (list Z) space) : lua :=
  default LNil (serve table_text other now 0 (lit "rtpe_call_restore") [mstr node] d).1.

Lemma restore_answer_ok d m now node : calls_db d (row_of node <$> m) -> node <> [] ->
  exists ss, ss ≡ₚ unexpired_calls now m
    /\ restore_answer now node d = LArr (restored_record <$> (row_of node <$> ss)).
Proof.
  intros Hd Hn. destruct (restore_refines d _ now node Hd Hn) as (rs & Hrs & E).
  assert (live_calls now node (row_of node <$> m) ≡ₚ row_of node <$> unexpired_calls now m) as Hl.
  { unfold live_calls, unexpired_calls. rewrite map_to_list_fmap.
    apply Permutation_refl'. induction (map_to_list m) as [|[k s] l IH]; [done|].
    rewrite !fmap_cons, !filter_cons. cbn [prod_map snd].
    destruct (decide (now < sc_expires s)) as [Hlt|Hge].
    - rewrite (decide_True (P := live_on now node (row_of node s))) by by split.
      f_equal. exact IH.
    - rewrite (decide_False (P := live_on now node (row_of node s))) by (by intros [_ ?]). apply IH. }
  rewrite Hl in Hrs. destruct (Permutation_map_inv _ _ Hrs) as (ss & -> & Hss).
  exists ss. split; [done|]. unfold restore_answer.
  change (serve table_text other now 0 (lit "rtpe_call_restore") [mstr node] d) with (call_restore now [of_mp (mstr node)] d).
  unfold mstr. rewrite of_mp_str, E. done.
Qed.

(** The calls kept satisfy the hypotheses of the operations. *)
Lemma kept_ok c tos : forall m, Forall (fun to => op_time_ok to.1 /\ call_op_ok c to.2) tos ->
  map_Forall (fun _ s => saved_ok (sc_cid s, node_of c, sc_info s)) m ->
  map_Forall (fun _ s => saved_ok (sc_cid s, node_of c, sc_info s)) (foldl (keep_op c) m tos).
Proof.
  induction tos as [|[t o] tos IH]; intros m Hall Hm; [done|]. apply Forall_cons in Hall as [[_ Ho] Hall].
  cbn [foldl]. apply IH; [done|]. destruct o as [i cid|id n cid]; cbn [keep_op fst snd call_op_ok] in *.
  - apply map_Forall_insert_2; [|done]. by destruct Ho as (_ & Ho & _).
  - by apply map_Forall_delete.
Qed.

End server.

(** * The whole *)

Section failover.
Context `{!Box, !BoxLaws, !LuaMsgpack, !LuaMsgpackLaws}.
Context (table_text : lua -> list Z) (other : list Z -> option (Z -> list lua -> proc lua)).

(** What the callback of a restore gets when the table of calls holds those of [m0]. *)
Lemma restore_delivers d m0 c w s node cb others fh header fb fa evs now :
  let m := answer_message fh header fb fa (restore_answer table_text other now (cstr node) d) in
  calls_db d (row_of (cstr node) <$> m0) ->
  map_Forall (fun _ s => saved_ok (sc_cid s, cstr node, sc_info s)) m0 ->
  authed c -> cstr node <> [] -> len (cstr node) <= 450 ->
  replies w c others m evs s -> mp_wf (MMap fb (m_body m)) -> (forall cs i, cb cs i = 0) ->
  len (unexpired_calls now m0) < 2 ^ 31 ->
  exists ss, ss ≡ₚ unexpired_calls now m0 /\
    rtpe_tarantool_restore_calls cb (Some node) c w
    = Ret (len ss, delivered (cstr node) <$> ss) (synced c)
          (with_sock w (r_fd c) (Sock evs [] (wire s ++ restore_frame c node))).
Proof.
  intros m Hd Hsaved Ha Hne Hlen Hrep Hwf Hcb Hcount.
  destruct (restore_answer_ok table_text other d _ now (cstr node) Hd Hne) as (ss & Hss & Ev).
  assert (m = answer_message fh header fb fa (LArr (restored_record <$> (row_of (cstr node) <$> ss)))) as Em.
  { subst m. by rewrite Ev. }
  rewrite Em in Hrep, Hwf.
  assert (Forall (fun s => saved_ok (sc_cid s, cstr node, sc_info s)) ss) as Hok.
  { rewrite Hss. apply Forall_forall. intros x [_ Hx]%list_elem_of_filter.
    apply list_elem_of_fmap in Hx as ([k y] & -> & Hk). apply elem_of_map_to_list in Hk. by apply (Hsaved k y). }
  destruct (restored_body cb fh header fb fa (cstr node) ss Hok Hcb Hwf) as [Hb Hm].
  exists ss. split; [done|].
  rewrite (restore_ok cb c w node others _ evs s Ha Hrep Hb Hlen). rewrite Hm, len_fmap.
  assert (len ss = len (unexpired_calls now m0)) as El by (unfold len; by rewrite Hss).
  rewrite i32_id; [done|]. pose proof (len_nonneg ss). lia.
Qed.

Lemma kept_db c tos : Forall (fun to => op_time_ok to.1 /\ call_op_ok c to.2) tos ->
  calls_db (handled table_text other c tos fresh_db) (row_of (node_of c) <$> kept_calls c tos).
Proof.
  intros Hops. apply (handled_refines table_text other tos c c fresh_db ∅); [done|done|].
  rewrite fmap_empty. apply fresh_calls.
Qed.

(** C1: A failover of rtpengine restores exactly the calls that are live. One client saves and
    deletes calls over a connection that takes what it sends: every operation returns 0, and
    what goes over the wire are the requests, one frame each. The server handles them at their
    times, starting from the empty schema. When later a client asks for the calls of that node
    and the server's answer reaches it (in any cut of the stream, behind any frames for other
    requests), the callback gets, in some order, exactly the calls that were saved, not deleted
    since and not expired, each with the identifier, node, addresses, ports and suite of its
    last save; the result is their number. *)
Theorem failover_restores_live_calls c w s tos c2 w2 node2 cb others fh header fb fa evs s2 now
  (Hauth : authed c) (Hsock : socks w !! r_fd c = Some s) (Htx : tx s = [])
  (Hops : Forall (fun to => op_time_ok to.1 /\ call_op_ok c to.2) tos) :
  let d := handled table_text other c tos fresh_db in
  let m := answer_message fh header fb fa (restore_answer table_text other now (cstr node2) d) in
  (exists w' rx', run_call_ops tos.*2 c w = Ret (replicate (length tos) 0) (after_ops c tos.*2) w'
    /\ socks w' !! r_fd c = Some (Sock rx' [] (wire s ++ flat_map rpc_frame (op_rpcs c tos.*2))))
  /\ (authed c2 -> cstr node2 = node_of c -> cstr node2 <> [] -> len (cstr node2) <= 450 ->
      replies w2 c2 others m evs s2 -> mp_wf (MMap fb (m_body m)) -> (forall cs i, cb cs i = 0) ->
      len (unexpired_calls now (kept_calls c tos)) < 2 ^ 31 ->
      exists ss, ss ≡ₚ unexpired_calls now (kept_calls c tos) /\
        rtpe_tarantool_restore_calls cb (Some node2) c2 w2
        = Ret (len ss, delivered (node_of c) <$> ss) (synced c2)
              (with_sock w2 (r_fd c2) (Sock evs [] (wire s2 ++ restore_frame c2 node2)))).
Proof.
  intros d m. split.
  - destruct (run_call_ops_ok tos.*2 c w s Hauth Hsock Htx) as (w' & rx' & E & Hw').
    + apply Forall_fmap. eapply Forall_impl; [exact Hops|]. by intros to [_ Ho].
    + exists w', rx'. by rewrite E, length_fmap.
  - intros Ha2 Hnode Hne Hlen Hrep Hwf Hcb Hcount. rewrite <- Hnode. subst m d.
    eapply restore_delivers; try done; rewrite Hnode; [by apply kept_db|].
    by apply (kept_ok c tos ∅ Hops (map_Forall_empty _)).
Qed.
End failover.

(** ** A failover *)

Definition fo_info (id : string) (port ttl : Z) : rtpe_call_info :=
  Info (Some (lit id ++ [0])) 0 None (Some (lit "10.0.0.1")) port (Some (lit "10.0.0.2")) (port + 2) None None ttl.
Definition fo_ops : list (Z * call_op) :=
  [(1000, SaveCall (fo_info "call-1" 4000 60) (lit "call-1"));
   (1010, SaveCall (fo_info "call-2" 5000 3600) (lit "call-2"));
   (1020, SaveCall (fo_info "call-3" 6000 3600) (lit "call-3"));
   (1030, DeleteCall (lit "call-2" ++ [0]) 0 (lit "call-2"))].
Definition fo_sock : sock := Sock [] [] [].
Definition fo_world : world := World [1000] {[ 5 := fo_sock ]} [] [] [] [].

(** The client of the other node, which asks for the calls of [node-1] at 1100. *)
Definition fo_answer : message := answer_message FFix (ex_header_of 7) FFix FFix 
  (restore_answer no_text no_others 1100 (cstr (lit "node-1"))
     (handled no_text no_others ex_client fo_ops fresh_db)).
Lemma fo_ops_ok : Forall (fun to => op_time_ok to.1 /\ call_op_ok ex_client to.2) fo_ops.
Proof.
  unfold fo_ops, op_time_ok. repeat (apply Forall_cons; split; [split; [cbn; lia|]|]); [..|by apply Forall_nil].
  1-3: split; [by eexists|split; [|cbn; lia]]; (split; [done|]); split_and!; try (apply ex_fits; reflexivity); cbn; lia.
  split; [done|]. by vm_compute.
Qed.

Lemma fo_replies : replies (ex_rworld (frame_of fo_answer)) ex_client [] fo_answer [] (ex_rsock (frame_of fo_answer)).
Proof.
  split; [apply lookup_insert_eq|]. split; [done|]. split; [done|]. split.
  { change (stream retry_all (drained (rx (ex_rsock (MP_UINT32 :: tail (frame_of fo_answer))))) (MP_UINT32 :: tail (frame_of fo_answer)) []).
    apply ex_stream. }
  split; [|split; [done|by apply Forall_nil]].
  apply ex_header_wf; [lia| |by vm_compute]. by apply bytes_dec; vm_compute.
Qed.

Lemma failover_restores_live_calls_witness :
  (exists w' rx', run_call_ops fo_ops.*2 ex_client fo_world
      = Ret (replicate 4 0) (after_ops ex_client fo_ops.*2) w'
    /\ socks w' !! 5 = Some (Sock rx' [] (flat_map rpc_frame (op_rpcs ex_client fo_ops.*2))))
  /\ exists ss c' w', ss ≡ₚ unexpired_calls 1100 (kept_calls ex_client fo_ops) /\
     rtpe_tarantool_restore_calls (fun _ _ => 0) (Some (lit "node-1")) ex_client (ex_rworld (frame_of fo_answer))
     = Ret (len ss, delivered (lit "node-1") <$> ss) c' w'.
Proof.
  destruct (failover_restores_live_calls no_text no_others ex_client fo_world fo_sock fo_ops ex_client
    (ex_rworld (frame_of fo_answer)) (lit "node-1") (fun _ _ => 0) [] FFix (ex_header_of 7) FFix FFix []
    (ex_rsock (frame_of fo_answer)) 1100) as [H1 H2].
  - apply ex_authed.
  - by apply lookup_insert_eq.
  - done.
  - apply fo_ops_ok.
  - split; [exact H1|]. destruct H2 as (ss & Hss & E).
    + apply ex_authed.
    + done.
    + done.
    + done.
    + exact fo_replies.
    + by vm_compute.
    + done.
    + by vm_compute.
    + exists ss. eexists _, _. split; [exact Hss|]. exact E.
Defined.
