(* ===== verification/KamServer.v ===== *)
(** The Kamailio driver and the stored procedures together: what the server makes of the
    requests for saving calls. *)
From S2P Require Export KamSpec BackendSpec.

Local Notation "'POS'" := MSGPACK_OBJECT_POSITIVE_INTEGER.
Local Notation "'STR'" := MSGPACK_OBJECT_STR.
Local Notation "'ARR'" := MSGPACK_OBJECT_ARRAY.

Section server.
Context `{!Box, !BoxLaws, !LuaMsgpack, !LuaMsgpackLaws}.
Context (table_text : lua -> list Z) (other : list Z -> option (Z -> list lua -> proc lua)).

(** An upsert of a single string raises an error, since the row has no payload. *)
Lemma upsert_needs_payload d m now random f bs : calls_db d m -> 0 <= now < 2 ^ 63 ->
  exists d', serve table_text other now random (lit "rtpe_call_upsert") [MStr f bs] d = (None, d')
    /\ calls_db d' m /\ forall n, n <> calls_space -> d' !! n = d !! n.
Proof.
  intros Hd Hnow. destruct (upsert_refines d m now bs LNil LNil LNil Hd ltac:(lia) eq_refl ltac:(cbn; lia)) as (d' & E & Hd').
  exists d'. split; [|exact Hd'].
  change (serve table_text other now random (lit "rtpe_call_upsert") [MStr f bs] d) with (call_upsert now [of_mp (MStr f bs)] d).
  rewrite of_mp_str. exact E.
Qed.

Section driver.
Context `{mc : !MsgpackC, mcs : !MsgpackCSpec, kc : !KamCore}.

(** C25: Kamailio never saves a call. The driver asks for the procedure [rtpe_call_upsert] with
    one argument, the string of the tuple it packed, instead of the four the procedure has:
    the procedure raises an error for want of a payload and the table of calls stays as it is,
    whatever the call and the table; and the driver returns -1 on every error response. *)
Theorem kamailio_saves_no_call l s w sk cid nid st expires pay fh header fb body evs code d m
  (Hup : kup s) (Hans : kam_answers w s (kam_response fh header fb body) evs sk)
  (Hok : response_ok fh header fb body)
  (Hcode : object_of <$> last_of TNT_IPROTO_REQUEST_TYPE header = Some (POS code)) (Herror : code <> 0)
  (Hlen : len (save_tuple cid nid st expires pay) < 2 ^ 31) (Hd : calls_db d m) :
  (exists req w',
    kam_request req
      [(POS TNT_IPROTO_REQUEST_TYPE, POS TNT_IPROTO_CALL); (POS TNT_IPROTO_SYNC, POS (u64 (sync_id s + 1)))]
      [(POS TNT_IPROTO_FUNCTION_NAME, STR (lit "rtpe_call_upsert"));
       (POS TNT_IPROTO_TUPLE, ARR [STR (save_tuple cid nid st expires pay)])] /\
    wire <$> socks w' !! fd s = Some (wire sk ++ finalize_packet req) /\
    tnt_save_call_sg None (Some cid) (len cid) (Some nid) (len nid) (Some st) (len st) expires (Some pay) (len pay)
      (s :: l) w = Ret (-1) (resynced s :: l) w')
  /\ forall now random f, 0 <= now < 2 ^ 63 -> exists d',
     serve table_text other now random (lit "rtpe_call_upsert") [MStr f (save_tuple cid nid st expires pay)] d
     = (None, d') /\ calls_db d' m.
Proof.
  split.
  - destruct (save_sends_one_argument l s w sk cid nid st expires pay fh header fb body evs code Hup Hans Hok Hcode Hlen)
      as (req & w' & Hreq & Hwire & Hrun).
    exists req, w'. rewrite decide_False in Hrun by done. done.
  - intros now random f Hnow.
    destruct (upsert_needs_payload d m now random f (save_tuple cid nid st expires pay) Hd Hnow) as (d' & E & Hd' & _).
    by exists d'.
Qed.
End driver.
End server.

Lemma kamailio_saves_no_call_witness :
  (exists req w',
    kam_request req [(POS 0, POS 0x0a); (POS 1, POS 8)]
      [(POS 0x22, STR (lit "rtpe_call_upsert")); (POS 0x21, ARR [STR (@save_tuple Ref.ops (lit "c") (lit "n") (lit "active") 60 (lit "sdp"))])] /\
    wire <$> socks w' !! 5 = Some ([] ++ finalize_packet req) /\
    @tnt_save_call_sg Ref.ops ex_core None (Some (lit "c")) 1 (Some (lit "n")) 1 (Some (lit "active")) 6 60 (Some (lit "sdp")) 3
      [ex_srv] (ex_kworld (ex_kevs 0x8014)) = Ret (-1) [resynced ex_srv] w')
  /\ forall now random f, 0 <= now < 2 ^ 63 -> exists d',
     serve no_text no_others now random (lit "rtpe_call_upsert") [MStr f (@save_tuple Ref.ops (lit "c") (lit "n") (lit "active") 60 (lit "sdp"))] fresh_db
     = (None, d') /\ calls_db d' ∅.
Proof.
  apply (kamailio_saves_no_call no_text no_others (mc := Ref.ops) (mcs := Ref.ops_spec) (kc := ex_core)
    [] ex_srv (ex_kworld (ex_kevs 0x8014)) (Sock (ex_kevs 0x8014) [] []) (lit "c") (lit "n") (lit "active") 60 (lit "sdp")
    FFix (ex_kheader 0x8014) FFix ex_kbody [] 0x8014).
  - apply ex_kup.
  - apply ex_kanswers.
  - split; [vm_compute; repeat split; discriminate|]. split; [vm_compute; repeat split; discriminate|].
    split; [by apply bytes_dec|vm_compute; discriminate].
  - reflexivity.
  - discriminate.
  - by vm_compute.
  - apply fresh_calls.
Defined.
