(* ===== verification/AstServer.v ===== *)
(** The Asterisk modules and the stored procedures together: what the server makes of the
    requests of the realtime engine and of the call records. *)
From S2P Require Export AstSpec BackendSpec.

(** * The requests that change records *)

Inductive change :=
| Update (keyfield entity : list Z) (fields : list variable)
| Update2 (lookup_fields update_fields : list variable)
| Store (fields : list variable)
| Destroy (keyfield entity : list Z).

Definition change_wf (c : change) : Prop :=
  match c with
  | Update _ _ fs | Store fs => fs <> []
  | Update2 ls us => ls <> [] /\ us <> []
  | Destroy _ _ => True
  end.

Definition run_change (db : option (list Z)) (table : list Z) (c : change) : PA Z :=
  match c with
  | Update k e fs => update_tarantool db (Some table) (Some k) (Some e) fs
  | Update2 ls us => update2_tarantool db (Some table) ls us
  | Store fs => store_tarantool db (Some table) fs
  | Destroy k e => destroy_tarantool db (Some table) (Some k) (Some e)
  end.

(** The procedure and the text of the arguments. *)
Definition change_name (c : change) : string :=
  match c with
  | Update _ _ _ => "ast_realtime_update" | Update2 _ _ => "ast_realtime_update2"
  | Store _ => "ast_realtime_store" | Destroy _ _ => "ast_realtime_destroy"
  end.
Definition change_text (table : list Z) (c : change) : option (list Z) :=
  match c with
  | Update k e fs => update_args table k e fs
  | Update2 ls us => update2_args table ls us
  | Store fs => store_args table fs
  | Destroy k e => Some (destroy_args table k e)
  end.

Lemma run_change_call db table c : change_wf c ->
  run_change db table c = call_args db (change_name c) (change_text table c).
Proof. by destruct c as [k e [|]|[|] [|]|[|]|k e]; cbn; intros Hwf; try done; destruct Hwf. Qed.

(** The text begins with a bracket. *)
Definition bracketed (s : list Z) : Prop := exists r, s = 91 :: r.

Lemma snprintf_at_bracket cap s off text s' : bracketed s -> 1 <= off ->
  snprintf_at cap s off text = Some s' -> bracketed s'.
Proof.
  intros [r ->] Ho. unfold snprintf_at. destruct (cap <? off); [done|]. destruct (cap =? off); intros [= <-]; [by exists r|].
  unfold ztake. destruct (Z.to_nat off) eqn:E; [lia|]. cbn. by eexists.
Qed.

Lemma json_fields_bracket cap fs : forall s off s' off', bracketed s -> 1 <= off ->
  json_fields cap fs s off = Some (s', off') -> bracketed s' /\ 1 <= off'.
Proof.
  induction fs as [|f fs IH]; intros s off s' off' Hs Ho; cbn [json_fields]; [by intros [= <- <-]|].
  destruct (snprintf_at cap s off (json_field f fs)) as [s1|] eqn:E; [|done].
  pose proof (snprintf_at_bracket _ _ _ _ _ Hs Ho E) as Hs1.
  destruct (_ <=? _); [by intros [= <- <-]|]. apply IH; [done|]. pose proof (len_nonneg (json_field f fs)). lia.
Qed.

Lemma snprintf_bracket n r : 1 < n -> bracketed (snprintf n (91 :: r)).
Proof.
  intros Hn. unfold snprintf, ztake. destruct (Z.to_nat (n - 1)) eqn:E; [lia|]. cbn. by eexists.
Qed.

Lemma head_length r : 1 <= len (lit "[" ++ r).
Proof. rewrite len_app. change (len (lit "[")) with 1. pose proof (len_nonneg r). lia. Qed.

(** The fields behind a head, and what closes them. *)
Lemma fields_bracket fs r s off : json_fields 2048 fs (snprintf 2048 (lit "[" ++ r)) (len (lit "[" ++ r)) = Some (s, off) ->
  bracketed s /\ 1 <= off.
Proof. apply json_fields_bracket; [by apply snprintf_bracket|apply head_length]. Qed.

Lemma change_text_bracket table c text : change_text table c = Some text -> bracketed text.
Proof.
  destruct c as [k e fs|ls us|fs|k e]; cbn [change_text].
  - unfold update_args. destruct (json_fields _ _ _ _) as [[s off]|] eqn:E; [|done].
    apply fields_bracket in E as [Hs Ho]. by apply snprintf_at_bracket.
  - unfold update2_args. destruct (json_fields _ _ _ _) as [[s off]|] eqn:E; [|done].
    apply fields_bracket in E as [Hs Ho]. cbn [mbind option_bind].
    destruct (snprintf_at 2048 s off (lit "}, {")) as [s1|] eqn:E1; [|done].
    pose proof (snprintf_at_bracket _ _ _ _ _ Hs Ho E1) as Hs1. cbn [mbind option_bind].
    destruct (json_fields _ us s1 _) as [[s2 off2]|] eqn:E2; [|done].
    apply json_fields_bracket in E2 as [Hs2 Ho2]; [|done|pose proof (len_nonneg (lit "}, {")); lia].
    by apply snprintf_at_bracket.
  - unfold store_args. destruct (json_fields _ _ _ _) as [[s off]|] eqn:E; [|done].
    apply fields_bracket in E as [Hs Ho]. by apply snprintf_at_bracket.
  - intros [= <-]. by apply snprintf_bracket.
Qed.

(** * What the server makes of them *)

(** No space has a name that begins with a bracket. *)
Definition plain_names `{!Box} (d : gmap (list Z) space) : Prop := forall s, bracketed s -> d !! s = None.

Lemma fresh_plain `{!Box} : plain_names fresh_db.
Proof.
  assert (forall xs (d : gmap (list Z) space), Forall (fun x : list Z * (list field * list index_def) => x.1 !! 0%nat <> Some 91) xs ->
    plain_names d -> plain_names (foldl create_space d xs)) as Hl.
  { induction xs as [|x xs IH]; intros d Hxs Hd; [done|]. apply Forall_cons in Hxs as [Hx Hxs]. cbn [foldl].
    apply IH; [done|]. unfold create_space. destruct (d !! x.1); [done|]. intros s [r ->].
    rewrite lookup_insert_ne; [by apply Hd; exists r|]. intros E. by rewrite E in Hx. }
  unfold fresh_db, asterisk_init, schema_init. apply Hl; [by apply (bool_decide_unpack _)|].
  apply Hl; [by apply (bool_decide_unpack _)|]. intros s _. apply lookup_empty.
Qed.

Section server.
Context `{!Box, !BoxLaws, !LuaMsgpack, !LuaMsgpackLaws}.
Context (table_text : lua -> list Z) (other : list Z -> option (Z -> list lua -> proc lua)).

Lemma no_such_space d s : plain_names d -> bracketed s -> space_by (LStr s) d = (Some None, d).
Proof. intros Hd Hs. unfold space_by, space_of. by rewrite Hd. Qed.

(** A procedure that gets the text alone takes it for the name of a table. *)
Lemma change_refused d now random c f text : plain_names d -> bracketed text ->
  serve table_text other now random (lit (change_name c)) [MStr f text] d = (Some (LNum (-1)), d).
Proof.
  intros Hd Hs. pose proof (no_such_space d text Hd Hs) as E.
  assert (forall f text, [of_mp (MStr f text)] = [LStr text]) as Hof by (intros; by rewrite of_mp_str).
  destruct c as [k e fs|ls us|fs|k e]; cbn [change_name].
  - change (serve table_text other now random (lit "ast_realtime_update") [MStr f text] d)
      with (ast_realtime_update [of_mp (MStr f text)] d).
    rewrite Hof. unfold ast_realtime_update. change (nth_value 1 [LStr text]) with (LStr text). by step E.
  - change (serve table_text other now random (lit "ast_realtime_update2") [MStr f text] d)
      with (ast_realtime_update2 [of_mp (MStr f text)] d).
    rewrite Hof. unfold ast_realtime_update2. change (nth_value 1 [LStr text]) with (LStr text). by step E.
  - change (serve table_text other now random (lit "ast_realtime_store") [MStr f text] d)
      with (ast_realtime_store [of_mp (MStr f text)] d).
    rewrite Hof. unfold ast_realtime_store. change (nth_value 1 [LStr text]) with (LStr text). by step E.
  - change (serve table_text other now random (lit "ast_realtime_destroy") [MStr f text] d)
      with (ast_realtime_destroy [of_mp (MStr f text)] d).
    rewrite Hof. unfold ast_realtime_destroy. change (nth_value 1 [LStr text]) with (LStr text). by step E.
Qed.

Lemma lookup_refused d now random f text : plain_names d -> bracketed text ->
  serve table_text other now random (lit "ast_realtime_get") [MStr f text] d = (Some (LArr []), d).
Proof.
  intros Hd Hs. pose proof (no_such_space d text Hd Hs) as E.
  change (serve table_text other now random (lit "ast_realtime_get") [MStr f text] d)
    with (ast_realtime_get table_text [of_mp (MStr f text)] d).
  rewrite of_mp_str. unfold ast_realtime_get. change (nth_value 1 [LStr text]) with (LStr text). by step E.
Qed.

Section driver.
Context (recursive : bool) (me : nat).

(** C26: The realtime engine of Asterisk changes nothing. On every connection that can be
    acquired, an update, store or destroy sends its arguments as one text; a Tarantool server
    runs the procedure, which takes the text for the name of a table, finds no such space and
    leaves the whole database as it is; and whatever the server answers, the engine reports
    success. *)
Theorem realtime_changes_nothing a h h' w db table c text j i f sk code sync schema rest evs d
  (Hacq : acquires recursive me a h db j i f h') (Hwf : change_wf c) (Htext : change_text table c = Some text)
  (Hc : 0 <= code < 2 ^ 32) (Hs : 0 <= sync < 2 ^ 48)
  (Hans : ast_answers w f (mp_bytes (MMap FFix (server_header code sync schema)) ++ rest) evs sk)
  (Hl : len rest < 2 ^ 30) (Hlen : len (lit (change_name c)) + len text <= 2034) (Hd : plain_names d) :
  (exists sync, alone recursive me (run_change db table c) (Shared a h) w =
    Ret 0 (Shared (requested a j i) h)
      (exchanged w f sk evs (request (request_header IPROTO_CALL sync)
         [(uint_mp IPROTO_FUNCTION_NAME, mstr (lit (change_name c))); (uint_mp IPROTO_TUPLE, MArr FFix [mstr text])])))
  /\ forall now random,
     serve table_text other now random (lit (change_name c)) [mstr text] d = (Some (LNum (-1)), d).
Proof.
  pose proof (change_text_bracket table c text Htext) as Hb. split.
  - destruct (server_result code sync schema rest 512 Hc Hs Hl) as (r & Hr0 & Hr).
    assert (len (mp_bytes (MMap FFix (server_header code sync schema))) = 23) as Hn by reflexivity.
    destruct (call_run recursive me a h h' w db (lit (change_name c)) (Some text) 512 j i f sk _ evs _ _ Hacq Hans
      ltac:(rewrite len_app; lia) Hlen Hr) as (s & _ & He).
    exists s. rewrite run_change_call, Htext by done. unfold call_args.
    rewrite (alone_atomic _ _ _ _ _ _ _ _ text a w) by done. rewrite alone_bind, (bind_ret _ _ _ _ _ _ _ He).
    rewrite (proj2 (Z.leb_le 0 r)) by done. destruct Hb as [b ->]. reflexivity.
  - intros now random. by apply change_refused.
Qed.

End driver.

(** * Call records *)

(** The row that a call of [ast_cdr_save] with the text alone leaves. *)
Definition text_row (now : Z) (text : list Z) : tuple :=
  LStr text :: replicate 11 (LStr []) ++ [LStr (fmt_ld now); LNum 0; LNum 0; LNum 0; LStr []; LNum now].

Lemma cdr_saved_as_text d sp now random f text : d !! asterisk_cdrs = Some sp ->
  box_format sp = asterisk_cdrs_format -> text <> [] ->
  exists sp', serve table_text other now random (lit "ast_cdr_save") [MStr f text] d
    = (Some (LNum 0), <[asterisk_cdrs := sp']> d) /\ rows sp' = <[text := text_row now text]> (rows sp).
Proof.
  intros Hd Hf Hne.
  change (serve table_text other now random (lit "ast_cdr_save") [MStr f text] d)
    with (ast_cdr_save now random [of_mp (MStr f text)] d).
  rewrite of_mp_str. unfold ast_cdr_save.
  change (or_value (nth_value 17 [LStr text]) (LStr asterisk_cdrs)) with (LStr asterisk_cdrs).
  step (eq_refl : space_by (LStr asterisk_cdrs) d = (Some (d !! asterisk_cdrs), d)).
  step (eq_refl : space_of asterisk_cdrs d = (Some (d !! asterisk_cdrs), d)). rewrite Hd. cbv iota zeta.
  change (nth_value 1 [LStr text]) with (LStr text).
  pose proof (replace_ok sp text (text_row now text) eq_refl) as Hrep.
  assert (fits (box_format sp) (text_row now text) = true) as Hfit by by rewrite Hf.
  rewrite Hfit in Hrep. destruct Hrep as (sp' & Es & Hr & _). exists sp'. split; [|done].
  assert (space_replace asterisk_cdrs sp (text_row now text) d = (Some tt, <[asterisk_cdrs := sp']> d)) as E.
  { unfold space_replace. by rewrite Es. }
  destruct text as [|b bs]; [done|].
  exact (proc_step _ (fun _ => mret (LNum 0)) _ _ _ E).
Qed.

End server.

Section records.
Context `{!Box, !BoxLaws, !LuaMsgpack, !LuaMsgpackLaws}.
Context (table_text : lua -> list Z) (other : list Z -> option (Z -> list lua -> proc lua)).
Context (recursive : bool) (me : nat).

(** C27: A call record is stored as its text, of at most 2022 bytes. Logging a record makes one
    call of [ast_cdr_save] with the record's whole text as the only argument, while the mutex
    of the settings is held, and gives the mutex back, whatever a Tarantool server answers up
    to the 2^48th request of the connection; the server then puts a row whose key is this text,
    whose end and creation times are the time of the server, and whose other fields (caller,
    destination, start and answer times, duration, disposition) are empty or zero, and changes
    no other row. *)
Theorem cdr_is_stored_as_its_text a h h' w cdr j i f sk code sync schema rest evs d sp
  (Hfree : h !! cdr_lock = None)
  (Hacq : acquires recursive me a (<[cdr_lock := (me, 1%nat)]> h) (Some (connection_profile a)) j i f h')
  (Hc : 0 <= code < 2 ^ 32) (Hs : 0 <= sync < 2 ^ 48) (Hl : len rest < 2 ^ 30)
  (Hans : ast_answers w f (mp_bytes (MMap FFix (server_header code sync schema)) ++ rest) evs sk)
  (Hlen : len (cdr_args a cdr) <= 2022)
  (Hd : d !! asterisk_cdrs = Some sp) (Hf : box_format sp = asterisk_cdrs_format) :
  (exists sync, 0 <= sync < 2 ^ 64 /\
   alone recursive me (tarantool_cdr_log (Some cdr)) (Shared a h) w =
    Ret 0 (Shared (requested a j i) h)
      (exchanged w f sk evs (request (request_header IPROTO_CALL sync)
         [(uint_mp IPROTO_FUNCTION_NAME, mstr (lit "ast_cdr_save"));
          (uint_mp IPROTO_TUPLE, MArr FFix [mstr (cdr_args a cdr)])])))
  /\ forall now random, exists sp',
     serve table_text other now random (lit "ast_cdr_save") [mstr (cdr_args a cdr)] d
     = (Some (LNum 0), <[asterisk_cdrs := sp']> d)
     /\ rows sp' = <[cdr_args a cdr := text_row now (cdr_args a cdr)]> (rows sp).
Proof.
  split; [|intros now random; by apply cdr_saved_as_text].
  destruct (server_result code sync schema rest 256 Hc Hs Hl) as (r & _ & Hr).
  assert (len (mp_bytes (MMap FFix (server_header code sync schema))) = 23) as Hn by reflexivity.
  eapply cdr_log_calls_save; [exact Hfree|exact Hacq|exact Hans| |exact Hr|exact Hlen].
  rewrite len_app. lia.
Qed.
End records.

(** ** Examples *)

Definition store_change : change := Store [(lit "id", lit "1001"); (lit "context", lit "default")].
Definition store_text : list Z := default [] (change_text (lit "ps_endpoints") store_change).
Definition refused_answer : list Z := mp_bytes (MMap FFix (server_header 0 8 80)) ++ mp_bytes (MMap FFix ex_abody).

Lemma realtime_changes_nothing_witness :
  (exists sync, alone true 0 (run_change None (lit "ps_endpoints") store_change) (Shared ex_ast ∅)
     (ex_aworld (ex_aevs refused_answer) []) =
    Ret 0 (Shared (requested ex_ast 0 0) ∅)
      (exchanged (ex_aworld (ex_aevs refused_answer) []) 3 (Sock (ex_aevs refused_answer) [] []) []
         (request (request_header IPROTO_CALL sync)
         [(uint_mp IPROTO_FUNCTION_NAME, mstr (lit (change_name store_change))); (uint_mp IPROTO_TUPLE, MArr FFix [mstr store_text])])))
  /\ forall now random,
     serve no_text no_others now random (lit (change_name store_change)) [mstr store_text] fresh_db = (Some (LNum (-1)), fresh_db).
Proof.
  apply (realtime_changes_nothing no_text no_others true 0 ex_ast ∅ (ex_held 1)
    (ex_aworld (ex_aevs refused_answer) []) None (lit "ps_endpoints") store_change store_text 0 0 3
    (Sock (ex_aevs refused_answer) [] []) 0 8 80 (mp_bytes (MMap FFix ex_abody)) []).
  - by apply ex_acquires.
  - done.
  - reflexivity.
  - lia.
  - lia.
  - apply ex_aanswers.
  - reflexivity.
  - vm_compute. discriminate.
  - apply fresh_plain.
Defined.

Lemma fresh_cdrs : fresh_db !! asterisk_cdrs = Some (box_create asterisk_cdrs_format (primary ++ [Index (lit "by_src") 3])).
Proof. by pose proof fresh_spaces as Hs; rewrite Forall_forall in Hs; apply (Hs (asterisk_cdrs, (asterisk_cdrs_format, primary ++ [Index (lit "by_src") 3]))); do 10 right; left. Qed.

Definition ex_record : ast_cdr :=
  Cdr [] (lit "100") (lit "200") [] [] [] [] [] [] (5, 6) (7, 8) (9, 0) 4 2 8 (lit "u") [].
Lemma cdr_is_stored_as_its_text_witness :
  (exists sync, 0 <= sync < 2 ^ 64 /\
   alone true 0 (tarantool_cdr_log (Some ex_record)) (Shared ex_ast ∅) (ex_aworld (ex_aevs refused_answer) []) =
    Ret 0 (Shared (requested ex_ast 0 0) ∅)
      (exchanged (ex_aworld (ex_aevs refused_answer) []) 3 (Sock (ex_aevs refused_answer) [] []) []
        (request (request_header IPROTO_CALL sync)
         [(uint_mp IPROTO_FUNCTION_NAME, mstr (lit "ast_cdr_save"));
          (uint_mp IPROTO_TUPLE, MArr FFix [mstr (cdr_args ex_ast ex_record)])])))
  /\ forall now random, exists sp',
     serve no_text no_others now random (lit "ast_cdr_save") [mstr (cdr_args ex_ast ex_record)] fresh_db
     = (Some (LNum 0), <[asterisk_cdrs := sp']> fresh_db)
     /\ rows sp' = <[cdr_args ex_ast ex_record := text_row now (cdr_args ex_ast ex_record)]>
                     (rows (box_create asterisk_cdrs_format (primary ++ [Index (lit "by_src") 3]))).
Proof.
  apply (cdr_is_stored_as_its_text no_text no_others true 0 ex_ast ∅
    (<[cdr_lock := (0%nat, 1%nat)]> (ex_held 1))
    (ex_aworld (ex_aevs refused_answer) []) ex_record 0 0 3 (Sock (ex_aevs refused_answer) [] [])
    0 8 80 (mp_bytes (MMap FFix ex_abody)) []).
  - reflexivity.
  - split; try done; [by exists ex_prof|apply ex_up|intros; lia].
  - lia.
  - lia.
  - by vm_compute.
  - apply ex_aanswers.
  - vm_compute. discriminate.
  - apply fresh_cdrs.
  - done.
Defined.
