(* ===== verification/OsServer.v ===== *)
(** The OpenSIPS driver and the database together: a value that was set is got, by way of the
    row of the space of calls. *)
From S2P Require Export OpenSipsSpec BackendSpec.

Section server.
Context `{!Box, !BoxLaws, !LuaMsgpack, !LuaMsgpackLaws}.
Implicit Types (d : gmap (list Z) space).

(** What a request has under a key. *)
Definition body_field (n : Z) (body : list (mp * mp)) : option mp :=
  kv ← list_find (fun kv => uint_val kv.1 = Some n) body; Some kv.2.2.
Definition number_of (n : Z) (body : list (mp * mp)) : option Z := body_field n body ≫= uint_val.
Definition array_of (n : Z) (body : list (mp * mp)) : option (list mp) :=
  match body_field n body with Some (MArr _ vs) => Some vs | _ => None end.

(** The space a request names by its number: [names] gives the name of each number. *)
Definition named_space (names : Z -> option (list Z)) (body : list (mp * mp)) d : option (list Z * space) :=
  sid ← number_of IPROTO_SPACE_ID body; n ← names sid; sp ← d !! n; Some (n, sp).

(** The server on a REPLACE and on a SELECT by the primary key: nothing stands for an error. *)
Definition serve_replace (names : Z -> option (list Z)) (body : list (mp * mp)) d : option (gmap (list Z) space) :=
  '(n, sp) ← named_space names body d;
  t ← array_of IPROTO_TUPLE body;
  sp' ← box_replace sp (of_mp <$> t);
  Some (<[n := sp']> d).
Definition serve_select (names : Z -> option (list Z)) (body : list (mp * mp)) d : option (list mp) :=
  '(_, sp) ← named_space names body d;
  index ← number_of IPROTO_INDEX_ID body;
  iterator ← number_of IPROTO_ITERATOR body;
  limit ← number_of IPROTO_LIMIT body;
  offset ← number_of IPROTO_OFFSET body;
  key ← array_of IPROTO_KEY body;
  match key with
  | [k] =>
      if (index =? 0) && (iterator =? 0) then
        r ← box_get sp (of_mp k);
        let rows := match r with Some t => [MArr (cnt_fmt (len t)) (to_mp <$> t)] | None => [] end in
        Some (ztake limit (zdrop offset rows))
      else None
  | _ => None
  end.

(** The bodies of the requests of the driver. *)
Definition set_body (t : tnt_cluster_con) (attr val : list Z) (now exp : Z) : list (mp * mp) :=
  [(uint_mp IPROTO_SPACE_ID, uint_mp (space_id t));
   (uint_mp IPROTO_TUPLE, MArr FFix (call_tuple attr now exp val))].
Definition get_body (t : tnt_cluster_con) (attr : list Z) : list (mp * mp) :=
  [(uint_mp IPROTO_SPACE_ID, uint_mp (space_id t)); (uint_mp IPROTO_INDEX_ID, uint_mp 0);
   (uint_mp IPROTO_LIMIT, uint_mp 1); (uint_mp IPROTO_OFFSET, uint_mp 0);
   (uint_mp IPROTO_ITERATOR, uint_mp 0); (uint_mp IPROTO_KEY, MArr FFix [mstr attr])].
Definition request_of (type sync : Z) (body : list (mp * mp)) : list Z :=
  finalize_packet (request [(uint_mp IPROTO_REQUEST_TYPE, uint_mp type); (uint_mp IPROTO_SYNC, uint_mp sync)] body).

(** The number of the driver's space is that of the space of calls. *)
Definition calls_number (names : Z -> option (list Z)) (t : tnt_cluster_con) : Prop :=
  0 <= space_id t < 2 ^ 32 /\ names (space_id t) = Some calls_space.

Lemma named_calls names t k v body d sp : calls_number names t -> d !! calls_space = Some sp ->
  k = uint_mp IPROTO_SPACE_ID -> v = uint_mp (space_id t) ->
  named_space names ((k, v) :: body) d = Some (calls_space, sp).
Proof.
  intros [Hid Hn] Hd -> ->. unfold named_space, number_of.
  change (body_field IPROTO_SPACE_ID ((uint_mp IPROTO_SPACE_ID, ?v) :: body)) with (Some v).
  cbn [mbind option_bind]. rewrite uint_val_mp by lia. cbn [mbind option_bind]. rewrite Hn. cbn [mbind option_bind].
  by rewrite Hd.
Qed.

(** The call that a set stores. *)
Definition set_row (attr val : list Z) (now exp : Z) : call_row :=
  Row attr (lit "opensips") (lit "active") now now exp (LStr val).

Lemma call_tuple_row attr val now exp : 0 <= now < 2 ^ 53 -> 0 <= exp < 2 ^ 53 ->
  of_mp <$> call_tuple attr now exp val = row_tuple (set_row attr val now exp).
Proof.
  intros Hn He. unfold call_tuple. cbn [fmap list_fmap]. unfold mstr. rewrite !of_mp_str.
  rewrite u64_id by lia. rewrite (of_mp_uint _ now), (of_mp_uint _ exp) by (first [apply uint_val_mp; lia|lia]). done.
Qed.

Lemma row_call_tuple attr val now exp : 0 <= now < 2 ^ 53 -> 0 <= exp < 2 ^ 53 ->
  to_mp <$> row_tuple (set_row attr val now exp) = call_tuple attr now exp val.
Proof.
  intros Hn He. unfold row_tuple, set_row, call_tuple.
  cbn [fmap list_fmap row_id row_node row_state row_created row_updated row_expires row_payload].
  rewrite !to_mp_str, !to_mp_num by done. by rewrite u64_id by lia.
Qed.

Lemma replace_refines names t d m attr val now exp : calls_number names t ->
  calls_db d m -> 0 <= now < 2 ^ 53 -> 0 <= exp < 2 ^ 53 ->
  exists d', serve_replace names (set_body t attr val now exp) d = Some d'
    /\ calls_db d' (<[attr := set_row attr val now exp]> m).
Proof.
  intros Hnum (sp & Hd & Hf & Hi & Hr) Hn He. unfold serve_replace, set_body.
  rewrite (named_calls names t _ _ _ d sp) by done. cbn [mbind option_bind].
  change (array_of IPROTO_TUPLE _) with (Some (call_tuple attr now exp val)).
  cbn [mbind option_bind]. rewrite call_tuple_row by done. pose proof (replace_ok sp attr (row_tuple (set_row attr val now exp)) eq_refl) as Hrep.
  assert (fits (box_format sp) (row_tuple (set_row attr val now exp)) = true) as Hfit.
  { rewrite Hf, fits_row. cbn [row_created row_updated row_expires row_payload set_row is_nil negb].
    unfold in_u64. rewrite !andb_true_iff. lia. }
  rewrite Hfit in Hrep. destruct Hrep as (sp' & -> & Hr' & Hf' & Hi'). eexists. split; [done|].
  by apply (calls_put d m sp sp' (set_row attr val now exp)).
Qed.

Lemma select_refines names t d m attr val now exp : calls_number names t -> 0 <= now < 2 ^ 53 -> 0 <= exp < 2 ^ 53 ->
  calls_db d m -> m !! attr = Some (set_row attr val now exp) ->
  serve_select names (get_body t attr) d = Some [MArr FFix (call_tuple attr now exp val)].
Proof.
  intros Hnum Hn He (sp & Hd & _ & _ & Hr) Hm. unfold serve_select, get_body.
  rewrite (named_calls names t _ _ _ d sp) by done. cbn [mbind option_bind].
  change (number_of IPROTO_INDEX_ID _) with (Some 0). change (number_of IPROTO_ITERATOR _) with (Some 0).
  change (number_of IPROTO_LIMIT _) with (Some 1). change (number_of IPROTO_OFFSET _) with (Some 0).
  change (array_of IPROTO_KEY _) with (Some [mstr attr]). cbn [mbind option_bind].
  change ((0 =? 0) && (0 =? 0)) with true. cbv iota.
  unfold mstr at 1. rewrite of_mp_str, get_ok, (lookup_calls sp m) by done. rewrite Hm. cbn [fmap option_fmap option_map mbind option_bind].
  by rewrite row_call_tuple.
Qed.

(** C23: What OpenSIPS sets, OpenSIPS gets, for a key and a value of at most 178 bytes together.
    A set on a connected driver sends one REPLACE that names the driver's space and carries the
    row; a server that has the space of calls under this number puts the row into it under the
    key, over whatever row was there; and as long as that row is the one under the key, a get by
    the same or another driver whose space is that of the calls sends one SELECT, for which the
    server selects the row, and given the answer the get returns the value byte for byte. *)
Theorem cachedb_value_comes_back names t c w attr val expires now fh header body evs t2 c2 w2 fh2 header2 fb others dk evs2 d m
  (Hready : ready t c) (Hresp : answers w (sock_fd c) (response fh header body) evs)
  (Hclock : clock w = [now]) (Hsize : len attr + len val <= 178)
  (Hok : success fh header body (sync_of c))
  (Hnow : 0 <= now < 2 ^ 52) (Hexpires : expires < 2 ^ 31) (Hd : calls_db d m)
  (Hspace : calls_number names t) (Hspace2 : calls_number names t2) :
  let exp := expiry now expires in
  tarantool_set (Some (str_of attr)) (Some (str_of val)) expires t w
    = Ret 0 (used t c) (exchanged w (sock_fd c) evs
        (request_of IPROTO_REPLACE (sync_of c) (set_body t attr val now exp)))
  /\ exists d', serve_replace names (set_body t attr val now exp) d = Some d'
     /\ calls_db d' (<[attr := set_row attr val now exp]> m)
     /\ forall d2 m2, calls_db d2 m2 -> m2 !! attr = Some (set_row attr val now exp) ->
        exists data, serve_select names (get_body t2 attr) d2 = Some data /\
        let body2 := MMap fb (others ++ [(dk, MArr FFix data)]) in
        (ready t2 c2 -> answers w2 (sock_fd c2) (response fh2 header2 (mp_bytes body2)) evs2 ->
         success fh2 header2 (mp_bytes body2) (sync_of c2) -> mp_wf body2 -> others_ok others ->
         uint_val dk = Some IPROTO_DATA ->
         tarantool_get (Some (str_of attr)) t2 w2
         = Ret (0, Some (str_of val)) (used t2 c2) (exchanged w2 (sock_fd c2) evs2
             (request_of IPROTO_SELECT (sync_of c2) (get_body t2 attr)))).
Proof.
  intros exp. pose proof (len_nonneg attr). pose proof (len_nonneg val).
  assert (0 <= exp < 2 ^ 53) as He.
  { subst exp. unfold expiry. destruct (0 <? expires) eqn:E0; rewrite u64_id; lia. }
  split; [by apply (set_ok t c w attr val expires now fh header body evs)|].
  destruct (replace_refines names t d m attr val now exp Hspace Hd ltac:(lia) He) as (d' & E & Hd'). exists d'.
  split; [done|]. split; [done|]. intros d2 m2 Hd2 Hm2. eexists.
  split; [by apply (select_refines names t2 d2 m2 attr val now exp Hspace2 ltac:(lia) He Hd2 Hm2)|].
  intros body2 Hr2 Ha2 Hs2 Hwf Hoth Hdk.
  apply (get_found t2 c2 w2 attr fh2 header2 fb FFix FFix others dk (call_tuple attr now exp val) [] val evs2); try done.
  - lia.
  - split; [done|]. split; [done|]. split; [done|]. unfold call_tuple, mstr.
    apply tuple7; (eexists; apply uint_val_mp; first [apply u64_range|lia]).
Qed.
End server.

(** The numbers of a server whose space of calls is the first one created. *)
Definition ex_names (n : Z) : option (list Z) := if n =? 512 then Some calls_space else None.
Lemma ex_calls_number n : calls_number ex_names (ex_tcon n).
Proof. by split. Qed.

Definition ex_select : list mp := call_tuple (lit "id") 1000 1060 (lit "value").
Definition ex_got : mp := MMap FFix ([] ++ [(MFix 0x30, MArr FFix [MArr FFix ex_select])]).

Lemma cachedb_value_comes_back_witness : exists t1 w1 d' t2 w2,
  tarantool_set (Some (str_of (lit "id"))) (Some (str_of (lit "value"))) 60 (ex_tcon 1)
    (ex_world (response FFix ex_header [0x80])) = Ret 0 t1 w1
  /\ serve_replace ex_names (set_body (ex_tcon 1) (lit "id") (lit "value") 1000 1060) fresh_db = Some d'
  /\ serve_select ex_names (get_body (ex_tcon 2) (lit "id")) d' = Some [MArr FFix ex_select]
  /\ tarantool_get (Some (str_of (lit "id"))) (ex_tcon 2) (ex_world (response FFix ex_header (mp_bytes ex_got)))
     = Ret (0, Some (str_of (lit "value"))) t2 w2.
Proof.
  destruct (cachedb_value_comes_back ex_names (ex_tcon 1) ex_conn (ex_world (response FFix ex_header [0x80])) (lit "id") (lit "value")
    60 1000 FFix ex_header [0x80] [] (ex_tcon 2) ex_conn (ex_world (response FFix ex_header (mp_bytes ex_got)))
    FFix ex_header FFix [] (MFix 0x30) [] fresh_db ∅) as [H1 (d' & H2 & H3 & H4)].
  - apply ex_ready. reflexivity.
  - apply ex_answers. vm_compute. split; [reflexivity|discriminate].
  - reflexivity.
  - vm_compute. discriminate.
  - apply ex_success, bytes_dec. vm_compute. reflexivity.
  - lia.
  - lia.
  - apply fresh_calls.
  - apply ex_calls_number.
  - apply ex_calls_number.
  - destruct (H4 d' _ H3 (lookup_insert_eq _ _ _)) as (data & H5 & H6).
    assert (data = [MArr FFix ex_select]) as Ed.
    { pose proof (select_refines ex_names (ex_tcon 2) d' _ (lit "id") (lit "value") 1000 1060 (ex_calls_number 2) ltac:(lia) ltac:(lia) H3 (lookup_insert_eq _ _ _)) as H7.
      unfold ex_select. congruence. }
    rewrite Ed in H5, H6.
    eexists _, _, d', _, _. split; [exact H1|]. split; [exact H2|]. split; [exact H5|]. apply H6.
    + apply ex_ready. reflexivity.
    + apply ex_answers. vm_compute. split; [reflexivity|discriminate].
    + apply ex_success, bytes_dec. vm_compute. reflexivity.
    + vm_compute. repeat split; discriminate.
    + split; constructor.
    + reflexivity.
Defined.
