(* ===== verification/Bench.v ===== *)
(** The benchmark [docker/benchmark_tarantool_c_vs_custom.c]: the two loops it times, with its
    count of allocations, and the allocations its conclusion states. Times and prints are left
    out; the three counts it prints of each loop are the loop's result. *)
From S2P Require Export RtpeRun.

(** [malloc_count] and [malloc_bytes]. *)
Record counters := Counters { malloc_count : Z; malloc_bytes : Z }.
Abbreviation MC := (M counters).

Definition bench_malloc (size : Z) : MC bool :=
  _ ← modify (fun c => Counters (u64 (malloc_count c + 1)) (u64 (malloc_bytes c + size)));
  malloc.

Definition NUM_CALLS : Z := 100000.

(** [snprintf] of a name and the number, into [call_id]. *)
Definition numbered (name : string) (i : Z) : list Z := ztake (64 - 1) (lit name ++ fmt_06ld i).

(** The turns from [i] on, [k] of them. *)
Fixpoint turns (k : nat) (i : Z) (turn : Z -> MC unit) : MC unit :=
  match k with O => mret tt | S k' => _ ← turn i; turns k' (i + 1) turn end.

(** What a loop counts. *)
Definition counted (n : Z) (turn : Z -> MC unit) : MC (Z * Z) :=
  c0 ← get;
  _ ← turns (Z.to_nat n) 0 turn;
  c1 ← get;
  mret (u64 (malloc_count c1 - malloc_count c0), u64 (malloc_bytes c1 - malloc_bytes c0)).

Definition custom_info (i : Z) : rtpe_call_info :=
  let call_id := numbered "call-bench-custom-" i in
  Info (Some (call_id ++ [0])) (len call_id) (Some (lit "rtpe-node-01"))
       (Some (lit "192.168.10.50")) (30000 + i mod 10000) (Some (lit "192.168.20.60")) (40000 + i mod 10000)
       (Some (lit "AES_CM_128_HMAC_SHA1_80")) (Some (lit "M2ZkM2Y0YTVjNmI3ZTg5MDEyMzQ1Njc4OTAxMjM0")) 3600.

Definition custom_turn (i : Z) : MC unit :=
  _ ← rtpe_tarantool_pack_call_upsert 1024 (i + 1) (Some (lit "rtpe-node-01")) (custom_info i); mret tt.

Definition benchmark_custom_driver (n : Z) : MC (Z * Z) := counted n custom_turn.

(** Allocated memory is written at once: a null pointer is not survived. *)
Definition allocated (size : Z) : MC unit :=
  ok ← bench_malloc size; if (ok : bool) then mret tt else undef.

Definition sizeof_request_sim : Z := 40.
Definition sizeof_stream_sim : Z := 24.

Definition stream_bytes (i : Z) : list Z :=
  mp_encode_array 4 ++ mp_str (numbered "call-bench-tntc-" i)
  ++ mp_encode_str (Some (lit "rtpe-node-01")) 12 ++ mp_encode_map 2
  ++ mp_encode_str (Some (lit "ip")) 2 ++ mp_encode_str (Some (lit "192.168.10.50")) 13
  ++ mp_encode_str (Some (lit "port")) 4 ++ mp_encode_uint (30000 + i mod 10000) ++ mp_encode_uint 3600.

Definition tarantool_c_turn (i : Z) : MC unit :=
  _ ← allocated sizeof_request_sim;
  _ ← allocated 17;
  _ ← allocated sizeof_stream_sim;
  _ ← allocated 512;
  _ ← in_buffer 512 (stream_bytes i);
  allocated (len (stream_bytes i) + 64).

Definition benchmark_tarantool_c_model (n : Z) : MC (Z * Z) := counted n tarantool_c_turn.

(** The numbers of allocations that the conclusion prints for the two loops. *)
Definition printed_conclusion : Z * Z := (0, 400000).

(** * What they count *)

Lemma len_numbered name i : len (numbered name i) <= 63.
Proof. unfold numbered. rewrite len_take. pose proof (len_nonneg (lit name ++ fmt_06ld i)). lia. Qed.

Lemma custom_turn_ok i c w : 0 <= i < 2 ^ 31 -> custom_turn i c w = Ret tt c w.
Proof.
  intros Hi. unfold custom_turn, rtpe_tarantool_pack_call_upsert. change (1024 <? 512) with false. cbv iota.
  cbn [call_id call_id_len custom_info]. set (cid := numbered "call-bench-custom-" i).
  pose proof (len_numbered "call-bench-custom-" i) as Hc. fold cid in Hc.
  assert (ident (cid ++ [0]) (len cid) cid) as Hid.
  { unfold ident. destruct (0 <? len cid) eqn:E; [by split; [|exists [0]]|].
    assert (cid = []) as -> by (apply len_zero; pose proof (len_nonneg cid); lia). done. }
  rewrite bind_assoc. run (id_bytes_ok _ _ _ c w Hid ltac:(lia)).
  assert (info_small cid (Some (lit "rtpe-node-01")) (custom_info i)) as Hs.
  { unfold info_small. repeat (apply Forall_cons; split); [lia|by vm_compute..|by apply Forall_nil]. }
  pose proof (len_upsert_payload (i + 1) cid (Some (lit "rtpe-node-01")) (custom_info i) Hs) as Hl.
  assert (info_bytes cid (Some (lit "rtpe-node-01")) (custom_info i) = len cid + 61) as Hb.
  { unfold info_bytes. rewrite <- !Z.add_assoc. reflexivity. }
  rewrite bind_assoc, bind_buffer; [done|]. rewrite len_finalize. lia.
Qed.

Lemma turns_still k turn c w : (forall i, 0 <= i < 2 ^ 31 -> turn i c w = Ret tt c w) ->
  forall i, 0 <= i -> i + Z.of_nat k <= 2 ^ 31 -> turns k i turn c w = Ret tt c w.
Proof.
  intros Ht. induction k as [|k IH]; intros i Hi Hk; [done|]. cbn [turns].
  run (Ht i ltac:(lia)). apply IH; lia.
Qed.

(** The loop over the driver's packing allocates nothing and stays in its buffer of 1024
    bytes, whatever the number of turns an int can hold: it returns with both counters as they
    were. *)
Theorem custom_driver_allocates_nothing n c w : 0 <= n < 2 ^ 31 ->
  benchmark_custom_driver n c w = Ret (printed_conclusion.1, 0) c w.
Proof.
  intros Hn. unfold benchmark_custom_driver, counted. rewrite bind_get.
  run (turns_still (Z.to_nat n) custom_turn c w (fun i Hi => custom_turn_ok i c w Hi) 0 ltac:(lia) ltac:(lia)).
  rewrite bind_get, !Z.sub_diag. done.
Qed.

Lemma custom_driver_allocates_nothing_witness :
  benchmark_custom_driver NUM_CALLS (Counters 7 900) (World [0] ∅ [] [] [] []) =
    Ret (0, 0) (Counters 7 900) (World [0] ∅ [] [] [] []).
Proof. apply custom_driver_allocates_nothing. unfold NUM_CALLS. lia. Defined.

(** The counter after [k] allocations, as a number of any size. *)
Definition counts (k : Z) (c c' : counters) : Prop := exists q, malloc_count c' = malloc_count c + k + q * 2 ^ 64.

Lemma allocated_ok size c w : w_malloc w = [] -> exists c', allocated size c w = Ret tt c' w /\ counts 1 c c'.
Proof.
  intros Hm. set (c' := Counters (u64 (malloc_count c + 1)) (u64 (malloc_bytes c + size))). exists c'. split.
  - unfold allocated, bench_malloc. rewrite bind_assoc, bind_modify. fold c'. by run (malloc_free c' w Hm).
  - unfold counts. subst c'. cbn [malloc_count]. unfold u64. exists (- ((malloc_count c + 1) / 2 ^ 64)).
    rewrite Z.mod_eq by lia. lia.
Qed.

Lemma counts_trans k k' c1 c2 c3 : counts k c1 c2 -> counts k' c2 c3 -> counts (k + k') c1 c3.
Proof. intros [q H1] [q' H2]. exists (q + q'). rewrite H2, H1. lia. Qed.

Lemma len_stream_bytes i : len (stream_bytes i) <= 512.
Proof.
  unfold stream_bytes. lens. pose proof (len_numbered "call-bench-tntc-" i). pose proof (len_encode_uint (30000 + i mod 10000)).
  pose proof (len_mstr_bounds (numbered "call-bench-tntc-" i) ltac:(lia)). len_closed. lia.
Qed.

Lemma tarantool_c_turn_ok i c w : w_malloc w = [] -> exists c', tarantool_c_turn i c w = Ret tt c' w /\ counts 5 c c'.
Proof.
  intros Hm. unfold tarantool_c_turn.
  destruct (allocated_ok sizeof_request_sim c w Hm) as (c1 & E1 & H1). run E1.
  destruct (allocated_ok 17 c1 w Hm) as (c2 & E2 & H2). run E2.
  destruct (allocated_ok sizeof_stream_sim c2 w Hm) as (c3 & E3 & H3). run E3.
  destruct (allocated_ok 512 c3 w Hm) as (c4 & E4 & H4). run E4.
  rewrite bind_buffer by apply len_stream_bytes.
  destruct (allocated_ok (len (stream_bytes i) + 64) c4 w Hm) as (c5 & E5 & H5). exists c5. split; [exact E5|].
  exact (counts_trans 4 1 _ _ _ (counts_trans 3 1 _ _ _ (counts_trans 2 1 _ _ _ (counts_trans 1 1 _ _ _ H1 H2) H3) H4) H5).
Qed.

Lemma tarantool_c_turns_ok k : forall i c w, w_malloc w = [] ->
  exists c', turns k i tarantool_c_turn c w = Ret tt c' w /\ counts (5 * Z.of_nat k) c c'.
Proof.
  induction k as [|k IH]; intros i c w Hm; [exists c; split; [done|by exists 0; lia]|]. cbn [turns].
  destruct (tarantool_c_turn_ok i c w Hm) as (c1 & E1 & H1). run E1.
  destruct (IH (i + 1) c1 w Hm) as (c2 & E2 & H2). exists c2. split; [exact E2|].
  replace (5 * Z.of_nat (S k)) with (5 + 5 * Z.of_nat k) by lia. by eapply counts_trans.
Qed.

(** The loop over the model of tarantool-c makes five allocations a turn, whatever the
    counters were: 500,000 in the benchmark's 100,000 turns, where its conclusion prints
    400,000. *)
Theorem tarantool_c_model_allocates_five n c w : 0 <= n < 2 ^ 31 -> w_malloc w = [] ->
  exists bytes c', benchmark_tarantool_c_model n c w = Ret (5 * n, bytes) c' w.
Proof.
  intros Hn Hm. unfold benchmark_tarantool_c_model, counted. rewrite bind_get.
  destruct (tarantool_c_turns_ok (Z.to_nat n) 0 c w Hm) as (c1 & E & q & H1). run E. rewrite bind_get.
  eexists _, c1. assert (u64 (malloc_count c1 - malloc_count c) = 5 * n) as ->; [|reflexivity].
  rewrite H1, Z2Nat.id by lia. unfold u64.
  replace (malloc_count c + 5 * n + q * 2 ^ 64 - malloc_count c) with (5 * n + q * 2 ^ 64) by lia.
  rewrite Z.mod_add by lia. apply Z.mod_small. lia.
Qed.

Lemma tarantool_c_model_allocates_five_witness :
  exists bytes c', benchmark_tarantool_c_model NUM_CALLS (Counters 7 900) (World [0] ∅ [] [] [] []) =
    Ret (500000, bytes) c' (World [0] ∅ [] [] [] []).
Proof.
  destruct (tarantool_c_model_allocates_five NUM_CALLS (Counters 7 900) (World [0] ∅ [] [] [] [])) as (bytes & c' & E).
  - unfold NUM_CALLS. lia.
  - reflexivity.
  - exists bytes, c'. exact E.
Defined.

Example conclusion_differs : 5 * NUM_CALLS = printed_conclusion.2 + 100000.
Proof. reflexivity. Qed.
