(* ===== verification/Fibers.v ===== *)
(** The worker and the clients as fibers of one server. Each deletion of the worker is written
    to the log, and the fibers of other clients can run until it is; between two batches the
    worker yields. So the worker is a machine of small steps, with the requests of clients, each
    of which writes once and is one step, in between. *)
From S2P Require Export BackendSpec.

(** Where the worker is: asleep, about to look for expired rows of a space, or deleting the
    keys it found. [now] is the time of the turn, [purged] the rows taken from the space so
    far, [batch] the number of keys found, [rest] the spaces still to do. *)
Inductive place :=
| Sleeping
| Collecting (now purged : Z) (n : string) (rest : list string)
| Deleting (now purged : Z) (n : string) (batch : Z) (keys : list lua) (rest : list string).

Definition swept_spaces : list string := ["rtpe_calls"; "kam_dialogs"; "kam_usrloc"]%string.

Section fibers.
Context `{!Box} (table_text : lua -> list Z) (other : list Z -> option (Z -> list lua -> proc lua)).

Record fibers := Fibers {
  clock : Z; stats : worker; place_of : place; store : gmap (list Z) space
}.

(** The counter of a space. *)
Definition count_purged (n : string) (k : Z) (w : worker) : worker :=
  Worker (purged_calls w + if String.eqb n "rtpe_calls" then k else 0)
         (purged_dialogs w + if String.eqb n "kam_dialogs" then k else 0)
         (purged_usrloc w + if String.eqb n "kam_usrloc" then k else 0) (last_sweep w) (sweeps_count w).

Definition go (f : fibers) (p : place) : fibers := Fibers (clock f) (stats f) p (store f).

Definition next_place (now : Z) (rest : list string) : place :=
  match rest with [] => Sleeping | n :: rest' => Collecting now 0 n rest' end.

(** The end of [drain_space]. *)
Definition leave (f : fibers) (now purged : Z) (n : string) (rest : list string) : fibers :=
  Fibers (clock f) (count_purged n purged (stats f)) (next_place now rest) (store f).

Definition worker_step (f : fibers) : fibers :=
  match place_of f with
  | Sleeping =>
      let w := stats f in
      Fibers (clock f) (Worker (purged_calls w) (purged_dialogs w) (purged_usrloc w) (clock f) (sweeps_count w + 1))
             (next_place (clock f) swept_spaces) (store f)
  | Collecting now purged n rest =>
      match store f !! lit n with
      | Some sp =>
          if box_has_index sp by_expire then
            match take (Z.to_nat 500) (nth_value 1 <$> box_index_le sp by_expire now) with
            | [] => leave f now purged n rest
            | keys => go f (Deleting now purged n (len keys) keys rest)
            end
          else leave f now purged n rest
      | None => leave f now purged n rest
      end
  | Deleting now purged n batch [] rest => go f (Collecting now (purged + batch) n rest)
  | Deleting now purged n batch (key :: keys) rest =>
      match delete_keys (lit n) [key] (store f) with
      | (Some _, d) => Fibers (clock f) (stats f) (Deleting now purged n batch keys rest) d
      | (None, d) => leave (Fibers (clock f) (stats f) (place_of f) d) now 0 n rest
      end
  end.

(** A request, with the answer. *)
Definition client_step (e : event) (f : fibers) : option lua * fibers :=
  let '(a, (w, d)) := happen table_text other (clock f) e (stats f, store f) in
  (a, Fibers (clock f) w (place_of f) d).

Definition at_time (t : Z) (f : fibers) : fibers := Fibers t (stats f) (place_of f) (store f).

(** The fibers in any order: the requests made, with their times and answers. [P] holds of
    every state on the way. *)
Inductive runs (P : fibers -> Prop) : fibers -> list (Z * event) -> list (option lua) -> fibers -> Prop :=
| runs_nil f : P f -> runs P f [] [] f
| runs_worker f es answers f' : P f -> runs P (worker_step f) es answers f' -> runs P f es answers f'
| runs_tick t f es answers f' : P f -> clock f <= t -> runs P (at_time t f) es answers f' ->
    runs P f es answers f'
| runs_client e f es answers f' : P f -> e <> Sweep -> sensible (clock f, e) ->
    runs P (client_step e f).2 es answers f' ->
    runs P f ((clock f, e) :: es) ((client_step e f).1 :: answers) f'.

End fibers.

(** * What the worker takes *)

Section safety.
Context `{!Box, !BoxLaws} (table_text : lua -> list Z) (other : list Z -> option (Z -> list lua -> proc lua)).
Implicit Types (f : fibers) (d : gmap (list Z) space) (m : gmap (list Z) call_row).

(** The call is not expired, if there is one. *)
Definition live (id : list Z) (f : fibers) : bool :=
  match store f !! calls_space with
  | Some sp => match rows sp !! id with
               | Some t => negb (at_most (clock f) (nth_value 6 t))
               | None => true
               end
  | None => true
  end.

(** The worker does not have the call in hand. *)
Definition spared (id : list Z) f : Prop :=
  match place_of f with
  | Sleeping => True
  | Collecting now _ _ _ => now <= clock f
  | Deleting now _ n _ keys _ => now <= clock f
      /\ (lit n = calls_space -> exists ks, keys = LStr <$> ks /\ id ∉ ks)
  end.

Lemma calls_db_other d d' m : d' !! calls_space = d !! calls_space -> calls_db d m -> calls_db d' m.
Proof. intros E (sp & Hd & H'). exists sp. by rewrite E. Qed.

(** Deleting a key of the table of calls. *)
Lemma delete_one_call d m id : calls_db d m -> calls_db (delete_keys calls_space [LStr id] d).2 (delete id m).
Proof.
  intros (sp & Hd & Hf & Hi & Hr).
  destruct (delete_keys_ok calls_space [id] d sp Hd) as (sp' & E & Hr' & Hf' & Hi').
  cbn [fmap list_fmap] in E. rewrite E. exists sp'. cbn [snd]. cbn [foldl] in Hr'.
  by rewrite lookup_insert_eq, Hf', Hi', Hr', Hr, fmap_delete.
Qed.

(** What is found in the table of calls are the identifiers of expired calls. *)
Lemma collected_keys id f m now sp : calls_db (store f) m -> store f !! calls_space = Some sp ->
  live id f = true -> now <= clock f ->
  exists ks, take (Z.to_nat 500) (nth_value 1 <$> box_index_le sp by_expire now) = LStr <$> ks /\ id ∉ ks.
Proof.
  intros (sp' & Hd & _ & Hi & _) Hsp Hl Hnow. rewrite Hd in Hsp. injection Hsp as ->.
  destruct (expired_rows 6 sp now (calls_expiring sp Hi)) as (kts & Hk & _ & Hin).
  exists (take (Z.to_nat 500) kts.*1). split.
  - rewrite fmap_take. f_equal. rewrite <- Hk, <- !list_fmap_compose. apply list_fmap_ext.
    intros j [k t] Hj. cbn. apply list_elem_of_lookup_2, Hin in Hj as [Hj _]. by apply (rows_key sp k).
  - intros Hid. apply elem_of_take in Hid as (j & Hj & _).
    rewrite list_lookup_fmap in Hj. destruct (kts !! j) as [[k t]|] eqn:Ej; [|done]. cbn in Hj. simplify_eq.
    apply list_elem_of_lookup_2, Hin in Ej as [Ht Hx]. unfold live in Hl. rewrite Hd, Ht in Hl.
    unfold kept in Hx. cbn [snd] in Hx. destruct (nth_value 6 t) as [| |n| | | |]; cbn in Hl, Hx; try done. lia.
Qed.

Lemma placed_next id f now rest w d : now <= clock f -> spared id (Fibers (clock f) w (next_place now rest) d).
Proof. intros Hn. unfold spared, next_place. by destruct rest. Qed.

Lemma worker_spares id f m : calls_db (store f) m -> live id f = true -> spared id f ->
  exists m', calls_db (store (worker_step f)) m' /\ m' !! id = m !! id /\ spared id (worker_step f).
Proof.
  intros Hm Hl Hs. unfold worker_step, spared in *. destruct (place_of f) as [|now purged n rest|now purged n batch keys rest].
  - exists m. split_and!; [done..|]. cbn. lia.
  - assert (exists m', calls_db (store (leave f now purged n rest)) m' /\ m' !! id = m !! id
                       /\ spared id (leave f now purged n rest)) as Hleave.
    { exists m. split_and!; [done..|]. by apply placed_next. }
    destruct (store f !! lit n) as [sp|] eqn:Esp; [|exact Hleave].
    destruct (box_has_index sp by_expire); [|exact Hleave].
    destruct (take _ _) as [|key keys] eqn:Ek; [exact Hleave|]. exists m. split_and!; [done..|].
    split; [done|]. intros Hn. rewrite Hn in Esp. destruct (collected_keys id f m now sp Hm Esp Hl Hs) as (ks & E & Hid).
    exists ks. by rewrite Ek in E.
  - destruct Hs as [Hnow Hkeys]. destruct keys as [|key keys]; [by exists m|].
    destruct (decide (lit n = calls_space)) as [Hn|Hn].
    + destruct (Hkeys Hn) as (ks & E & Hid). destruct ks as [|k ks]; [done|]. cbn in E. injection E as -> ->.
      apply not_elem_of_cons in Hid as [Hk Hid]. rewrite Hn.
      pose proof (delete_one_call (store f) m k Hm) as Hm'. exists (delete k m).
      destruct (delete_keys calls_space [LStr k] (store f)) as [[u|] d]; cbn [snd] in Hm'.
      * split_and!; [done|by rewrite lookup_delete_ne|]. split; [done|]. intros _. by exists ks.
      * split_and!; [done|by rewrite lookup_delete_ne|]. by apply placed_next.
    + assert (calls_db (delete_keys (lit n) [key] (store f)).2 m) as Hm'.
      { apply (calls_db_other (store f)); [|done]. by apply only_delete_keys. }
      exists m. destruct (delete_keys (lit n) [key] (store f)) as [[u|] d]; cbn [snd] in Hm'.
      * split_and!; [done..|]. by split.
      * split_and!; [done..|]. by apply placed_next.
Qed.

(** What an event does to a call depends on that call alone. *)
Lemma spec_next_local now e m m' id : e <> Sweep -> m !! id = m' !! id ->
  spec_next now e m !! id = spec_next now e m' !! id.
Proof.
  intros He Hid. destruct e as [id' node payload ttl|id'|id'|node|]; cbn [spec_next]; try done.
  - destruct (is_nil payload); [done|]. destruct (decide (id' = id)) as [->|Hne].
    + rewrite !lookup_insert_eq. unfold upserted. by rewrite Hid.
    + by rewrite !lookup_insert_ne.
  - destruct (decide (id' = id)) as [->|Hne]; [by rewrite !lookup_delete_eq|by rewrite !lookup_delete_ne].
Qed.

Lemma client_spares id e f m : e <> Sweep -> sensible (clock f, e) -> calls_db (store f) m -> spared id f ->
  calls_db (store (client_step table_text other e f).2) (spec_next (clock f) e m)
  /\ spared id (client_step table_text other e f).2 /\ spec_answer (clock f) e m (client_step table_text other e f).1.
Proof.
  intros He Hse Hm Hs. unfold client_step.
  pose proof (happen_refines table_text other (clock f) e m (stats f, store f) Hse Hm) as Hh.
  destruct (happen table_text other (clock f) e (stats f, store f)) as [a [w d]]. by destruct Hh as (Ha & Hd & _).
Qed.

(** What a get says of a call. *)
Definition shown_call (r : option call_row) : lua :=
  match r with None => LNil | Some r => call_record (row_tuple r) end.

Lemma runs_refine id P f es answers f' :
  runs table_text other P f es answers f' -> (forall f, P f -> live id f = true) ->
  forall m m0, calls_db (store f) m -> spared id f -> m !! id = m0 !! id ->
  (exists m', calls_db (store f') m' /\ m' !! id = spec_run es m0 !! id)
  /\ forall i now, es !! i = Some (now, Get id) ->
     answers !! i = Some (Some (shown_call (spec_run (take i es) m0 !! id))).
Proof.
  intros Hr HP.
  induction Hr as [f Hl|f es answers f' Hl Hr IH|t' f es answers f' Hl Ht Hr IH|e f es answers f' Hl He Hse Hr IH];
    intros m m0 Hm Hs Hid.
  - split; [by exists m|done].
  - destruct (worker_spares id f m Hm (HP f Hl) Hs) as (m1 & Hm1 & Hid1 & Hs1).
    apply (IH m1 m0 Hm1 Hs1). by rewrite Hid1.
  - apply (IH m m0); [done| |done]. unfold spared, at_time in *. cbn [place_of clock].
    destruct (place_of f); [done|lia|]. destruct Hs as [Hn Hk]. split; [lia|done].
  - destruct (client_spares id e f m He Hse Hm Hs) as (Hm1 & Hs1 & Ha).
    destruct (IH _ (spec_next (clock f) e m0) Hm1 Hs1 (spec_next_local _ _ _ _ id He Hid)) as [Hend Hget].
    split; [exact Hend|]. intros [|i] now Hi.
    + injection Hi as _ ->. cbn [lookup list_lookup]. rewrite Ha. cbn [take spec_run]. by rewrite Hid.
    + by apply (Hget i now).
Qed.

(** C16: A call that never expires is never lost. In every interleaving of the requests of clients
    with the small steps of the worker, if the call [id] is live in each state on the way
    (clients refresh it in time or end it), then at the end the table has for it exactly what
    the requests alone make of it, as if there were no worker; and so says every get of it on
    the way. *)
Theorem refreshed_calls_survive id t f' es answers :
  runs table_text other (fun f => live id f = true) (Fibers t idle_worker Sleeping fresh_db) es answers f' ->
  (exists m, calls_db (store f') m /\ m !! id = spec_run es ∅ !! id)
  /\ forall i now, es !! i = Some (now, Get id) ->
     answers !! i = Some (Some (shown_call (spec_run (take i es) ∅ !! id))).
Proof. intros Hr. by apply (runs_refine id _ _ _ _ _ Hr (fun f Hl => Hl) ∅ ∅ fresh_calls). Qed.

End safety.

(** * The worker alone *)

Section alone.
Context `{!Box, !BoxLaws}.
Implicit Types (f : fibers) (d : gmap (list Z) space).

(** Some steps of the worker. *)
Inductive steps : fibers -> fibers -> Prop :=
| steps_here f : steps f f
| steps_more f f' : steps (worker_step f) f' -> steps f f'.

Lemma steps_trans f1 f2 f3 : steps f1 f2 -> steps f2 f3 -> steps f1 f3.
Proof. intros H12 H23. induction H12 as [f|f f2 _ IH]; [done|]. by apply steps_more, IH. Qed.

Lemma steps_once f f' : worker_step f = f' -> steps f f'.
Proof. intros <-. apply steps_more, steps_here. Qed.

Lemma expired_keys i sp now : expiring i sp ->
  exists ks, take (Z.to_nat 500) (nth_value 1 <$> box_index_le sp by_expire now) = LStr <$> ks.
Proof.
  intros Hix. destruct (expired_rows i sp now Hix) as (kts & Hk & _ & Hin).
  exists (take (Z.to_nat 500) kts.*1). rewrite fmap_take. f_equal.
  rewrite <- Hk, <- !list_fmap_compose. apply list_fmap_ext.
  intros j [k t] Hj. cbn. apply list_elem_of_lookup_2, Hin in Hj as [Hj _]. by apply (rows_key sp k).
Qed.

Lemma delete_keys_cons n k ks d : delete_keys n (k :: ks) d
  = match delete_keys n [k] d with (Some _, d1) => delete_keys n ks d1 | (None, d1) => (None, d1) end.
Proof.
  cbn [delete_keys]. unfold mbind, proc_bind. cbn. destruct (d !! n) as [sp|]; [|done].
  by destruct (space_delete n sp k d) as [[old|] d1].
Qed.

Lemma steps_delete c w now p n b rest ks : forall d sp, d !! lit n = Some sp ->
  steps (Fibers c w (Deleting now p n b (LStr <$> ks) rest) d)
        (Fibers c w (Deleting now p n b [] rest) (delete_keys (lit n) (LStr <$> ks) d).2).
Proof.
  induction ks as [|k ks IH]; intros d sp Hd; [apply steps_here|].
  destruct (delete_keys_ok (lit n) [k] d sp Hd) as (sp1 & E & _). cbn [fmap list_fmap] in E.
  cbn [fmap list_fmap]. rewrite delete_keys_cons, E.
  apply steps_more. unfold worker_step. cbn [place_of store]. rewrite E. cbn [clock stats].
  apply (IH _ sp1). by rewrite lookup_insert_eq.
Qed.

Lemma steps_turn i c w now p n rest d sp : d !! lit n = Some sp -> expiring i sp ->
  exists k d1, drain_turn (lit n) now d = (Some k, d1) /\
    steps (Fibers c w (Collecting now p n rest) d)
          (if k =? 0 then leave (Fibers c w Sleeping d1) now p n rest
           else Fibers c w (Collecting now (p + k) n rest) d1).
Proof.
  intros Hd Hix. destruct (expired_keys i sp now Hix) as [ks Ek].
  exists (len ks), (delete_keys (lit n) (LStr <$> ks) d).2. split.
  - unfold drain_turn. step (eq_refl : space_of (lit n) d = (Some (d !! lit n), d)). rewrite Hd, Ek.
    destruct (delete_keys_ok (lit n) ks d sp Hd) as (sp' & E & _). step E. rewrite E. by rewrite len_fmap.
  - assert (box_has_index sp by_expire = true) as Hhas.
    { rewrite has_index_ok. apply bool_decide_true, Exists_exists. exists (Index by_expire i). by destruct Hix. }
    destruct ks as [|k ks].
    + apply steps_once. unfold worker_step. cbn [place_of store]. by rewrite Hd, Hhas, Ek.
    + apply steps_more. unfold worker_step at 1. cbn [place_of store]. rewrite Hd, Hhas, Ek. cbn [fmap list_fmap].
      unfold go. cbn [clock stats store]. change (LStr k :: (LStr <$> ks)) with (LStr <$> k :: ks).
      eapply steps_trans; [by apply (steps_delete c w now p n _ rest (k :: ks) d sp)|].
      apply steps_once. unfold worker_step. cbn [place_of]. unfold go. cbn [clock stats store].
      destruct (len (k :: ks) =? 0) eqn:E0; [rewrite len_cons in E0; pose proof (len_nonneg ks); lia|].
      by rewrite len_fmap.
Qed.

Lemma steps_drain i c w now n rest fuel : forall d sp p q d', d !! lit n = Some sp -> expiring i sp ->
  drain_loop fuel (lit n) now p d = (Some q, d') ->
  steps (Fibers c w (Collecting now p n rest) d) (leave (Fibers c w Sleeping d') now q n rest).
Proof.
  induction fuel as [|fuel IH]; intros d sp p q d' Hd Hix E; [done|]. cbn [drain_loop] in E.
  destruct (steps_turn i c w now p n rest d sp Hd Hix) as (k & d1 & Et & Hs).
  destruct (drain_turn_ok i (lit n) now d sp Hd Hix) as (ks & sp1 & Et' & _ & _ & _ & _ & _ & _ & Hi).
  rewrite Et in Et'. injection Et' as -> ->. rewrite (proc_step _ _ _ _ _ Et) in E. revert E Hs.
  destruct (len ks =? 0); intros E Hs; [by injection E as <- <-|]. eapply steps_trans; [exact Hs|].
  apply (IH _ sp1); [by rewrite lookup_insert_eq| |exact E]. unfold expiring. by rewrite Hi.
Qed.

(** A space with its index by expiry. *)
Definition sweepable d (n : string) : Prop := exists i sp, d !! lit n = Some sp /\ expiring i sp.

Lemma steps_purge c w now n rest d : sweepable d n ->
  steps (Fibers c w (Collecting now 0 n rest) d)
        (leave (Fibers c w Sleeping (purge n now d).2) now (purge n now d).1 n rest).
Proof.
  intros (i & sp & Hd & Hix). unfold purge.
  destruct (drain_space_ok i (lit n) now d sp Hd Hix) as (sp' & E & _). rewrite E. cbn [fst snd default from_option].
  eapply steps_drain; [done..|]. unfold drain_space in E. rewrite Hd in E.
  destruct (box_has_index sp by_expire) eqn:Hhas; [exact E|]. rewrite has_index_ok in Hhas.
  rewrite bool_decide_true in Hhas; [done|]. apply Exists_exists. exists (Index by_expire i). by destruct Hix.
Qed.

Lemma sweepable_by d n ixs i : indexes <$> d !! lit n = Some ixs ->
  Exists (fun ix => ix_name ix = by_expire /\ ix_field ix = i) ixs -> NoDup (ix_name <$> ixs) -> sweepable d n.
Proof.
  intros E Hin Hnd. apply fmap_Some in E as (sp & Hd & ->). apply Exists_exists in Hin as ([nm j] & Hin & Hn & Hj).
  cbn in Hn, Hj. subst. by exists i, sp.
Qed.

Lemma sweepable_purge n n' now d : lit n' <> lit n -> sweepable d n' -> sweepable (purge n now d).2 n'.
Proof. intros Hn (i & sp & Hd & Hix). exists i, sp. by rewrite purge_other. Qed.

(** C17: A turn of the worker ends. Woken in a database whose three swept spaces have their
    indexes, and with no other fiber in between, the worker comes back to sleep after finitely
    many of its small steps, and then the database and its counters are those of one call of
    [sweep]. *)
Theorem worker_alone_sweeps c w d : Forall (sweepable d) swept_spaces ->
  steps (Fibers c w Sleeping d) (Fibers c (sweep c w d).1 Sleeping (sweep c w d).2).
Proof.
  intros Hall. unfold swept_spaces in Hall. rewrite !Forall_cons in Hall. destruct Hall as (H1 & H2 & H3 & _).
  apply steps_more. unfold worker_step. cbn [place_of clock stats store next_place swept_spaces].
  eapply steps_trans; [by apply steps_purge|].
  apply (sweepable_purge "rtpe_calls" _ c) in H2, H3; [|done..].
  unfold leave, next_place. cbn [clock stats store].
  eapply steps_trans; [by apply steps_purge|].
  apply (sweepable_purge "kam_dialogs" _ c) in H3; [|done].
  unfold leave, next_place. cbn [clock stats store].
  eapply steps_trans; [by apply steps_purge|].
  unfold leave, next_place. cbn [clock stats store]. unfold sweep.
  destruct (purge "rtpe_calls" c d) as [n1 d1]. cbn [fst snd]. destruct (purge "kam_dialogs" c d1) as [n2 d2].
  cbn [fst snd]. destruct (purge "kam_usrloc" c d2) as [n3 d3]. cbn [fst snd].
  unfold count_purged. cbn [purged_calls purged_dialogs purged_usrloc last_sweep sweeps_count String.eqb Ascii.eqb Bool.eqb].
  rewrite !Z.add_0_r. apply steps_here.
Qed.

End alone.

(** * Concrete interleavings *)

Inductive action := TheWorker | Later (t : Z) | Request (e : event).

Section actions.
Context `{!Box, !BoxLaws} (table_text : lua -> list Z) (other : list Z -> option (Z -> list lua -> proc lua)).

Definition is_request (e : event) : bool := match e with Sweep => false | _ => true end.

(** A list of actions run: the requests, the answers and the end, if the call is live all along. *)
Fixpoint act (id : list Z) (acts : list action) (f : fibers)
  : option (list (Z * event) * list (option lua) * fibers) :=
  if negb (live id f) then None else
  match acts with
  | [] => Some ([], [], f)
  | TheWorker :: acts' => act id acts' (worker_step f)
  | Later t :: acts' => if clock f <=? t then act id acts' (at_time t f) else None
  | Request e :: acts' =>
      if is_request e && bool_decide (sensible (clock f, e)) then
        '(es, answers, f') ← act id acts' (client_step table_text other e f).2;
        Some ((clock f, e) :: es, (client_step table_text other e f).1 :: answers, f')
      else None
  end.

Lemma act_runs id acts : forall f es answers f', act id acts f = Some (es, answers, f') ->
  runs table_text other (fun f => live id f = true) f es answers f'.
Proof.
  induction acts as [|[|t|e] acts IH]; intros f es answers f'; cbn [act];
    (destruct (live id f) eqn:El; cbn [negb]; [|done]).
  - intros [= <- <- <-]. by apply runs_nil.
  - intros E. apply runs_worker; [done|]. by apply IH.
  - destruct (clock f <=? t) eqn:Et; [|done]. intros E. apply (runs_tick _ _ _ t); [done|lia|]. by apply IH.
  - destruct (is_request e) eqn:Er; cbn [andb]; [|done]. case_bool_decide as Hs; [|done].
    destruct (act id acts _) as [[[es1 answers1] f1]|] eqn:Ea; [|done]. cbn. intros [= <- <- <-].
    apply runs_client; [done| |done|by apply IH]. by destruct e.
Qed.

End actions.

(** The call [b] is refreshed while the worker deletes [a]. *)
Definition busy_sweep : list action :=
  [Request (Upsert (lit "a") (text "n1") (text "sdp-a") (LNum 50));
   Request (Upsert (lit "b") (text "n1") (text "sdp-b") (LNum 60));
   Later 155; TheWorker; TheWorker;
   Request (Upsert (lit "b") (text "n1") (text "sdp-b2") (LNum 60)); Later 170; TheWorker; TheWorker; TheWorker;
   Request (Get (lit "b"))].

Definition busy_requests : list (Z * event) :=
  [(100, Upsert (lit "a") (text "n1") (text "sdp-a") (LNum 50));
   (100, Upsert (lit "b") (text "n1") (text "sdp-b") (LNum 60));
   (155, Upsert (lit "b") (text "n1") (text "sdp-b2") (LNum 60)); (170, Get (lit "b"))].

Definition busy_start : fibers := Fibers 100 idle_worker Sleeping fresh_db.

Lemma refreshed_calls_survive_witness : exists answers f',
  (exists m, calls_db (store f') m /\ m !! lit "b" = spec_run busy_requests ∅ !! lit "b")
  /\ answers !! 3%nat = Some (Some (shown_call (spec_run (take 3 busy_requests) ∅ !! lit "b")))
  /\ last answers = Some (Some (LTab [(text "call_id", text "b"); (text "node_id", text "n1");
       (text "state", text "active"); (text "created_at", LNum 100); (text "updated_at", LNum 155);
       (text "expires_at", LNum 215); (text "payload", text "sdp-b2")])).
Proof.
  destruct (act no_text no_others (lit "b") busy_sweep busy_start) as [[[es answers] f']|] eqn:E.
  - assert (es = busy_requests /\ last answers = Some (Some (LTab [(text "call_id", text "b"); (text "node_id", text "n1");
       (text "state", text "active"); (text "created_at", LNum 100); (text "updated_at", LNum 155);
       (text "expires_at", LNum 215); (text "payload", text "sdp-b2")]))) as [-> Hl].
    { pose proof (f_equal (fmap (M := option) fst) E) as E'. vm_compute in E'. injection E' as <- <-. by split. }
    exists answers, f'. apply act_runs in E.
    destruct (refreshed_calls_survive no_text no_others (lit "b") 100 f' busy_requests answers E) as [H1 H2].
    split; [exact H1|]. split; [|exact Hl]. by apply (H2 3%nat 170).
  - exfalso. pose proof (f_equal (fmap (M := option) fst) E) as E'. vm_compute in E'. discriminate.
Defined.

Lemma worker_alone_sweeps_witness :
  steps (Fibers 155 idle_worker Sleeping two_expired)
    (Fibers 155 (sweep 155 idle_worker two_expired).1 Sleeping (sweep 155 idle_worker two_expired).2)
  /\ purged_calls (sweep 155 idle_worker two_expired).1 = 2.
Proof.
  split; [|by vm_compute]. apply worker_alone_sweeps.
  unfold swept_spaces. rewrite !Forall_cons, Forall_nil. split_and!; [| | |done].
  - by apply (sweepable_by two_expired "rtpe_calls" rtpe_calls_indexes 6); [vm_compute|apply (bool_decide_unpack _)..].
  - by apply (sweepable_by two_expired "kam_dialogs" kam_dialogs_indexes 5); [vm_compute|apply (bool_decide_unpack _)..].
  - by apply (sweepable_by two_expired "kam_usrloc" kam_usrloc_indexes 6); [vm_compute|apply (bool_decide_unpack _)..].
Defined.
