(* ===== verification/BillingSpec.v ===== *)
(** What the rating of calls keeps, with charges in parts, the worker and requests interleaved: no
    subscriber has more calls than it was allowed, and no balance is below zero that no request
    put there; which tariff a number has; and what an authorized call is charged. First, rules
    for what holds after a procedure. *)
From S2P Require Export Billing Fibers.

(** * Procedures that keep an invariant *)

Section after.
Context `{!Box}.
Implicit Types (d : gmap (list Z) space) (I : gmap (list Z) space -> Prop).

(** What holds after [p] on [d]: [Q] of the result, or [I] after an error. *)
Definition after {A} (p : proc A) d I (Q : A -> gmap (list Z) space -> Prop) : Prop :=
  match p d with (Some a, d') => Q a d' | (None, d') => I d' end.

Lemma after_bind {A B} (p : proc A) (k : A -> proc B) d I Q :
  after p d I (fun a d' => after (k a) d' I Q) -> after (p ≫= k) d I Q.
Proof. unfold after, mbind, proc_bind. by destruct (p d) as [[a|] d']. Qed.

Lemma after_ret {A} (a : A) d I (Q : A -> gmap (list Z) space -> Prop) : Q a d -> after (mret a) d I Q.
Proof. done. Qed.

Lemma after_space (n : list Z) d I (Q : option space -> gmap (list Z) space -> Prop) : Q (d !! n) d ->
  after (space_of n) d I Q.
Proof. done. Qed.

Lemma after_the_space (n : list Z) d I (Q : space -> gmap (list Z) space -> Prop) sp : d !! n = Some sp ->
  Q sp d -> after (the_space n) d I Q.
Proof. intros Hd HQ. unfold after, the_space, mbind, proc_bind. cbn. by rewrite Hd. Qed.

Lemma the_space_ok (n : list Z) d (sp : space) : d !! n = Some sp -> the_space n d = (Some sp, d).
Proof. intros Hd. unfold the_space, mbind, proc_bind. cbn. by rewrite Hd. Qed.

Lemma after_num (v : lua) d I (Q : dbl -> gmap (list Z) space -> Prop) : I d -> (forall x, Q x d) ->
  after (num v) d I Q.
Proof. intros Hd HQ. unfold after. destruct v; cbn; auto. Qed.

Lemma after_of_box {A} (o : option A) d I (Q : A -> gmap (list Z) space -> Prop) : I d ->
  (forall a, o = Some a -> Q a d) -> after (of_box o) d I Q.
Proof. intros Hd HQ. unfold after. destruct o; cbn; auto. Qed.

Lemma after_run {A} (p : proc A) d I (Q : A -> gmap (list Z) space -> Prop) a d' :
  p d = (Some a, d') -> Q a d' -> after p d I Q.
Proof. intros E HQ. unfold after. by rewrite E. Qed.

(** A procedure of which an error is excluded. *)
Lemma after_returns {A} (p : proc A) d (Q : A -> gmap (list Z) space -> Prop) :
  after p d (fun _ => False) Q -> exists a d', p d = (Some a, d') /\ Q a d'.
Proof. unfold after. destruct (p d) as [[a|] d']; [|done]. intros H'. by exists a, d'. Qed.

Lemma after_put (n : list Z) (sp : space) d I (Q : unit -> gmap (list Z) space -> Prop) :
  Q tt (<[n := sp]> d) -> after (put_space n sp) d I Q.
Proof. done. Qed.

Lemma after_weaken {A} (p : proc A) d I (Q Q' : A -> gmap (list Z) space -> Prop) :
  after p d I Q -> (forall a d', Q a d' -> Q' a d') -> after p d I Q'.
Proof. unfold after. destruct (p d) as [[a|] d']; auto. Qed.

(** A procedure that only reads. *)
Definition reads {A} (p : proc A) : Prop := forall d, (p d).2 = d.

Lemma after_reads {A} (p : proc A) d I (Q : A -> gmap (list Z) space -> Prop) : reads p -> I d ->
  (forall a, Q a d) -> after p d I Q.
Proof. intros Hp Hd HQ. unfold after. pose proof (Hp d) as E.
destruct (p d) as [[a|] d']; cbn in E; subst; auto. Qed.

Lemma after_reads_eq {A} (p : proc A) d I (Q : A -> gmap (list Z) space -> Prop) :
  reads p -> I d -> (forall a, p d = (Some a, d) -> Q a d) -> after p d I Q.
Proof. intros Hp Hd HQ. unfold after. pose proof (Hp d) as E.
destruct (p d) as [[a|] d']; cbn in E; subst; auto. Qed.

Lemma reads_bind {A B} (p : proc A) (k : A -> proc B) : reads p -> (forall a, reads (k a)) -> reads (p ≫= k).
Proof.
  intros Hp Hk d. unfold mbind, proc_bind. pose proof (Hp d) as E.
  destruct (p d) as [[a|] d']; cbn in E; subst; [apply Hk|done].
Qed.
Lemma reads_ret {A} (a : A) : reads (mret a).
Proof. by intros d. Qed.
Lemma reads_raise {A} : reads (raise : proc A).
Proof. by intros d. Qed.
Lemma reads_of_box {A} (o : option A) : reads (of_box o).
Proof. intros d. by destruct o. Qed.
Lemma reads_space n : reads (space_of n).
Proof. by intros d. Qed.

Lemma reads_the_space n : reads (the_space n).
Proof. apply reads_bind; [apply reads_space|]. intros [sp|]; [apply reads_ret|apply reads_raise]. Qed.
Lemma reads_num v : reads (num v).
Proof. by destruct v. Qed.

Lemma reads_longest sp dest k : reads (longest_match sp dest k).
Proof.
  induction k as [|k IH]; cbn [longest_match]; [apply reads_ret|]. apply reads_bind; [apply reads_of_box|].
  intros [t|]; [apply reads_ret|done].
Qed.

Lemma reads_match_tariff v : reads (match_tariff v).
Proof.
  apply reads_bind; [apply reads_space|]. intros [sp|]; [|apply reads_ret]. apply reads_bind.
  { destruct v as [| | | |[]| |]; apply reads_ret || apply reads_raise. }
  intros dest. apply reads_bind; [apply reads_longest|]. intros [t|]; [apply reads_ret|].
  apply reads_bind; [apply reads_of_box|]. intros def. apply reads_ret.
Qed.

Lemma reads_field fields n : reads (field_of fields n).
Proof. by destruct fields. Qed.
Lemma reads_format x : reads (format_d x).
Proof. unfold format_d. intros d. by destruct (to_int x). Qed.
End after.

(** * Tariffs *)

Section tariffs.
Context `{!Box, !BoxLaws}.

(** The row of the longest prefix of [dest] that has at most [k] digits and at least one. *)
Fixpoint longest (m : gmap (list Z) tuple) (dest : list Z) (k : nat) : option tuple :=
  match k with
  | O => None
  | S k' => match m !! take k dest with Some t => Some t | None => longest m dest k' end
  end.

Lemma longest_match_ok (sp : space) (dest : list Z) (k : nat) (d : gmap (list Z) space) : longest_match sp dest k d = (Some (longest (rows sp) dest k), d).
Proof.
  induction k as [|k IH]; [done|]. cbn [longest_match longest]. rewrite get_ok.
  unfold mbind, proc_bind. cbn [of_box]. unfold mret, proc_ret. by destruct (rows sp !! take (S k) dest).
Qed.

Lemma longest_spec m dest k t : longest m dest k = Some t ->
  exists j, (0 < j <= k)%nat /\ m !! take j dest = Some t /\ forall i, (j < i <= k)%nat ->
    m !! take i dest = None.
Proof.
  induction k as [|k IH]; [done|]. cbn [longest]. destruct (m !! take (S k) dest) as [t'|] eqn:E.
  - intros [= <-]. exists (S k). split; [lia|]. split; [done|lia].
  - intros H'. destruct (IH H') as (j & Hj & Ht & Hno). exists j. split; [lia|]. split; [done|].
    intros i Hi. destruct (decide (i = S k)) as [->|]; [done|]. apply Hno. lia.
Qed.

Lemma longest_none m dest k : longest m dest k = None -> forall i, (0 < i <= k)%nat -> m !! take i dest = None.
Proof.
  induction k as [|k IH]; [lia|]. cbn [longest]. destruct (m !! take (S k) dest) eqn:E; [done|].
  intros H' i Hi. destruct (decide (i = S k)) as [->|]; [done|]. apply IH; [done|lia].
Qed.

(** C21: The tariff of a number is that of its longest prefix. With the table of tariffs [m], a
    number gets the price, the fee and the description of the longest of its non-empty prefixes
    that the table has; if it has none, those of the row [default], or five cents a minute
    without it; and nothing is written. *)
Theorem tariff_of_longest_prefix (d : gmap (list Z) space) (sp : space) (dest : list Z) : d !! tariffs = Some sp ->
  exists tariff, match_tariff (LStr dest) d = (Some tariff, d) /\
  ((exists j t, (0 < j <= length dest)%nat /\ rows sp !! take j dest = Some t /\ tariff = tariff_of t
      /\ forall i, (j < i <= length dest)%nat -> rows sp !! take i dest = None)
   \/ ((forall i, (0 < i <= length dest)%nat -> rows sp !! take i dest = None)
       /\ tariff = match rows sp !! lit "default" with
                   | Some t => tariff_of t | None => no_tariff "Default Fallback" end)).
Proof.
  intros Hd. unfold match_tariff. step (eq_refl : space_of tariffs d = (Some (d !! tariffs), d)). rewrite Hd.
  step (eq_refl : digits_of (LStr dest) d = (Some dest, d)).
  step (longest_match_ok sp dest (length dest) d).
  destruct (longest (rows sp) dest (length dest)) as [t|] eqn:E.
  - eexists. split; [done|]. left. destruct (longest_spec _ _ _ _ E) as (j & Hj & Ht & Hno). by exists j, t.
  - assert (of_box (box_get sp (text "default")) d = (Some (rows sp !! lit "default"), d)) as Eg.
    { unfold text. by rewrite get_ok. }
    step Eg. eexists. split; [done|]. right. split; [by apply longest_none|done].
Qed.

End tariffs.

(** * Limits *)

Section limits.
Context `{!Box, !BoxLaws}.
Implicit Types (d : gmap (list Z) space) (I : gmap (list Z) space -> Prop) (S D : gmap (list Z) tuple).

(** The dialogs of a caller. *)
Definition calls_of (s : list Z) (t : tuple) : Prop := is_str s (nth_value 2 t) = true.
#[local] Instance calls_of_dec s t : Decision (calls_of s t).
Proof. unfold calls_of. apply _. Defined.
Definition dialogs_of (s : list Z) D : gmap (list Z) tuple := filter (fun kt => calls_of s kt.2) D.
Definition held (s : list Z) D : Z := Z.of_nat (size (dialogs_of s D)).

(** A number that is not below zero. *)
Definition nonneg (v : lua) : bool :=
  match v with LNum n => 0 <=? n | LDbl x => dle (dbl_of 0) x | _ => false end.

(** The table of subscribers and that of dialogs. *)
Definition billing_db d S D : Prop := exists ssp dsp,
  d !! subscribers = Some ssp /\ rows ssp = S /\ box_format ssp = subscribers_format
  /\ d !! kam_dialogs = Some dsp /\ rows dsp = D /\ box_format dsp = kam_dialogs_format
  /\ indexes dsp = kam_dialogs_indexes.

(** What subscribers were given by requests that were answered with [ok]: a row, with a balance
    and a limit of calls, or an amount. *)
Inductive grant := Row (s : list Z) (balance limit : lua) | Amount (s : list Z) (v : lua).

(** The subscriber was given something below zero. *)
Definition indebted (given : list grant) (s : list Z) : Prop :=
  (exists balance limit, Row s balance limit ∈ given /\ nonneg balance = false)
  \/ exists v, Amount s v ∈ given /\ nonneg v = false.

(** A subscriber has no dialogs, or was given a limit that they are within. *)
Definition within (given : list grant) D (s : list Z) : Prop :=
  held s D <= 0 \/ exists balance limit, Row s balance limit ∈ given /\ held s D <= number limit.

(** The limit of a row was given, and its balance is not below zero but after a gift that was. *)
Definition solvent (given : list grant) (s : list Z) (t : tuple) : Prop :=
  (exists balance, Row s balance (nth_value 5 t) ∈ given)
  /\ (nonneg (nth_value 2 t) = true \/ indebted given s).

Definition limits (given : list grant) d : Prop := exists S D,
  billing_db d S D /\ (forall s, within given D s) /\ map_Forall (solvent given) S.

(** ** Counting *)

Lemma held_mono s D1 D2 : D1 ⊆ D2 -> held s D1 <= held s D2.
Proof.
  intros Hs. unfold held, dialogs_of. apply inj_le. rewrite <- !(size_dom (D := gset (list Z))).
  apply subseteq_size, subseteq_dom, map_subseteq_spec. intros k t. rewrite !map_lookup_filter_Some.
  intros [Hk Ht]. split; [|done]. by apply (lookup_weaken D1).
Qed.

Lemma held_put s k t D : held s (<[k := t]> D) <= held s D + if is_str s (nth_value 2 t) then 1 else 0.
Proof.
  destruct (is_str s (nth_value 2 t)) eqn:E; unfold held, dialogs_of.
  - rewrite map_filter_insert_True by done. rewrite map_size_insert.
    destruct (filter _ D !! k); unfold id; lia.
  - rewrite map_filter_insert_False by (unfold calls_of; cbn; congruence). rewrite Z.add_0_r.
    apply (held_mono s (delete k D) D), delete_subseteq.
Qed.

Lemma held_change s k old t D : D !! k = Some old -> nth_value 2 t = nth_value 2 old ->
  held s (<[k := t]> D) <= held s D.
Proof.
  intros Hk E. destruct (is_str s (nth_value 2 t)) eqn:Es.
  - unfold held, dialogs_of. rewrite map_filter_insert_True by done.
    rewrite map_size_insert_Some; [done|]. exists old. apply map_lookup_filter_Some. split; [done|].
    unfold calls_of. cbn. by rewrite <- E.
  - pose proof (held_put s k t D) as H'. rewrite Es in H'. lia.
Qed.

Lemma held_fresh s k t D : D !! k = None ->
  held s (<[k := t]> D) = held s D + if is_str s (nth_value 2 t) then 1 else 0.
Proof.
  intros Hk. unfold held, dialogs_of. destruct (is_str s (nth_value 2 t)) eqn:E.
  - rewrite map_filter_insert_True by done. rewrite map_size_insert_None; [lia|].
    apply map_lookup_filter_None. by left.
  - rewrite map_filter_insert_False by (unfold calls_of; cbn; congruence). rewrite delete_id by done. lia.
Qed.

#[local] Instance len_perm {A} : Proper (Permutation ==> eq) (len (A := A)).
Proof. intros l l' E. unfold len. by rewrite E. Qed.

Lemma held_count s D : len (filter (fun t => is_str s (nth_value 2 t)) (map_to_list D).*2) = held s D.
Proof.
  induction D as [|k t D Hk IH] using map_ind; [done|].
  rewrite map_to_list_insert by done. rewrite fmap_cons, filter_cons, held_fresh, <- IH by done. cbn [snd].
  destruct (is_str s (nth_value 2 t)); (case_decide; [|done]) || (case_decide; [done|]); lens; lia.
Qed.
(** ** The steps *)

Lemma fits_cons f fs t : fits (f :: fs) t = true -> f_nullable f = false ->
  exists v t', t = v :: t' /\ fits_type (f_type f) v = true /\ fits fs t' = true.
Proof.
  cbn [fits]. unfold fits_field. intros Hf Hn. rewrite Hn in Hf. cbn [andb orb] in Hf.
  apply andb_true_iff in Hf as [Hv Hfs]. destruct t as [|v t']; [by destruct (f_type f)|]. by exists v, t'.
Qed.

Lemma fits_string n fs t : fits (fld n FString :: fs) t = true ->
  exists s t', t = LStr s :: t' /\ fits fs t' = true.
Proof. intros (v & t' & -> & Hv & Hfs)%fits_cons; [|done]. destruct v; try done. by eexists _, _. Qed.

Lemma fits_unsigned n fs t : fits (fld n FUnsigned :: fs) t = true ->
  exists k t', t = LNum k :: t' /\ 0 <= k < 2 ^ 64 /\ fits fs t' = true.
Proof. intros (v & t' & -> & Hv & Hfs)%fits_cons; [|done]. destruct v; try done. cbn in Hv. eexists _, _.
split_and!; [done|lia..|done]. Qed.

Lemma dialog_shape t : fits kam_dialogs_format t = true -> exists id from to st ex rest,
  t = LStr id :: LStr from :: LStr to :: LNum st :: LNum ex :: rest.
Proof.
  intros (id & ? & -> & (from & ? & -> & (to & ? & -> & (st & ? & -> & _ & (ex & rest & -> & _)%fits_unsigned)%fits_unsigned)%fits_string)%fits_string)%fits_string.
  by do 6 eexists.
Qed.

Lemma subscriber_shape t : fits subscribers_format t = true -> exists id bal cur st max tid upd rest,
  t = LStr id :: bal :: LStr cur :: LStr st :: LNum max :: LStr tid :: LNum upd :: rest /\ 0 <= max.
Proof.
  intros (id & ? & -> & (bal & ? & -> & _ & Hf)%fits_cons)%fits_string; [|done].
  apply fits_string in Hf as (cur & ? & -> & (st & ? & -> & (max & ? & -> & Hmax & Hf)%fits_unsigned)%fits_string).
  apply fits_string in Hf as (tid & ? & -> & (upd & rest & -> & _)%fits_unsigned).
  do 8 eexists. split; [done|]. by destruct Hmax.
Qed.

Lemma count_ok s d S D : billing_db d S D -> count_active_calls (LStr s) d = (Some (held s D), d).
Proof.
  intros (ssp & dsp & _ & _ & _ & Hd & <- & _ & Hi). unfold count_active_calls.
  step (eq_refl : space_of kam_dialogs d = (Some (d !! kam_dialogs), d)). rewrite Hd. unfold mret, proc_ret.
  do 2 f_equal.
  assert (box_has_index dsp by_caller = true) as ->.
  { rewrite has_index_ok, Hi. by apply bool_decide_true, (bool_decide_unpack _). }
  rewrite (index_eq_ok dsp by_caller (Index by_caller 2) s); [apply held_count| |done|].
  - rewrite Hi. by right; right; left.
  - rewrite Hi. by apply (bool_decide_unpack _).
Qed.

Lemma billing_put_dialogs d S D sp sp' : billing_db d S D -> d !! kam_dialogs = Some sp ->
  box_format sp' = box_format sp -> indexes sp' = indexes sp ->
  billing_db (<[kam_dialogs := sp']> d) S (rows sp').
Proof.
  intros (ssp & dsp & Hs & Hr & Hf & Hd & _ & Hfd & Hi) Hd' Ef Ei. assert (sp = dsp) as -> by congruence.
  exists ssp, sp'. rewrite lookup_insert_ne, lookup_insert_eq by done. rewrite Ef, Ei. by repeat split.
Qed.

Lemma billing_put_subscribers d S D sp sp' : billing_db d S D -> d !! subscribers = Some sp ->
  box_format sp' = box_format sp -> billing_db (<[subscribers := sp']> d) (rows sp') D.
Proof.
  intros (ssp & dsp & Hs & Hr & Hf & Hd & Hrd & Hfd & Hi) Hs' Ef. assert (sp = ssp) as -> by congruence.
  exists sp', dsp. rewrite lookup_insert_eq, lookup_insert_ne by done. rewrite Ef. by repeat split.
Qed.

Lemma billing_put_other n sp d S D : n <> subscribers -> n <> kam_dialogs -> billing_db d S D ->
  billing_db (<[n := sp]> d) S D.
Proof.
  intros Hn1 Hn2 (ssp & dsp & Hdb). exists ssp, dsp. by rewrite !lookup_insert_ne.
Qed.

(** What the upsert of a dialog does when it works. *)
Lemma upsert_dialog sp sp' id caller callee (v extra : lua) D : box_format sp = kam_dialogs_format ->
  rows sp = D ->
  box_upsert sp [LStr id; LStr caller; callee; LNum 1; v; extra] [(4%nat, LNum 1); (5%nat, v)] = Some sp' ->
  box_format sp' = box_format sp /\ indexes sp' = indexes sp
  /\ forall s, held s (rows sp') <= held s D + if decide (s = caller) then 1 else 0.
Proof.
  intros Hf <- E. pose proof (upsert_ok sp id _ [(4%nat, LNum 1); (5%nat, v)]
    (eq_refl : nth_value 1 [LStr id; LStr caller; callee; LNum 1; v; extra] = LStr id)) as Hu.
  rewrite Hf in *. destruct (fits _ [_; _; _; _; _; _]) eqn:Hfit; cbn [negb] in Hu; [|congruence].
  destruct (dialog_shape _ Hfit) as (? & ? & ? & ? & n & ? & Et). injection Et as <- <- -> <- -> <-.
  destruct (rows sp !! id) as [old|] eqn:Ho.
  - pose proof (rows_fit sp id old Ho) as Hfo. rewrite Hf in Hfo.
    destruct (dialog_shape _ Hfo) as (oid & from & to & st & ex & rest & ->).
    destruct Hu as (sp1 & E1 & Hr & Hf' & Hi').
    + rewrite !Forall_cons, Forall_nil. cbn. lia.
    + cbn [assign foldl fst snd pred]. cbn in Hfo, Hfit |- *. rewrite !andb_true_iff in *. tauto.
    + assert (sp1 = sp') as -> by congruence. split_and!; [congruence|done|]. intros s. rewrite Hr.
      etransitivity; [by eapply held_change|]. case_decide; lia.
  - destruct Hu as (sp1 & E1 & Hr & Hf' & Hi'). assert (sp1 = sp') as -> by congruence.
    split_and!; [congruence|done|]. intros s. rewrite Hr, held_fresh by done.
    change (is_str s (nth_value 2 _)) with (bool_decide (caller = s)).
    case_bool_decide; case_decide; subst; lia || done.
Qed.

(** What a procedure leaves, whatever becomes of it. *)
Definition keeps {A} (p : proc A) d (I : gmap (list Z) space -> Prop) : Prop := after p d I (fun _ => I).

Lemma keeps_ends {A} (p : proc A) d I : keeps p d I -> I (p d).2.
Proof. unfold keeps, after. by destruct (p d) as [[a|] d']. Qed.

Lemma authorize_keeps given time caller callee id args d : limits given d ->
  keeps (authorize_call time (LStr caller :: callee :: LStr id :: args)) d (limits given).
Proof.
  intros Hl. pose proof Hl as (S & D & Hdb & Hw & HS).
  pose proof Hdb as (ssp & dsp & Hs & Hr & _ & Hd & Hrd & Hfd & _).
  unfold keeps, authorize_call. set (sent := LStr caller :: callee :: LStr id :: args).
  change (nth_value 1 sent) with (LStr caller). change (nth_value 2 sent) with callee.
  change (nth_value 3 sent) with (LStr id). clear sent.
  apply after_bind, after_space. rewrite Hs. apply after_bind, after_space. rewrite Hd.
  apply after_bind. rewrite get_ok. apply after_of_box; [done|]. intros sub [= <-].
  destruct (rows ssp !! caller) as [sub|] eqn:Esub; [|by apply after_ret].
  destruct (negb _); [by apply after_ret|]. apply after_bind.
  eapply after_run; [by eapply count_ok|]. destruct (number _ <=? _) eqn:Emax; [by apply after_ret|].
  apply after_bind, after_reads; [apply reads_match_tariff|done|]. intros [[rate_v fee_v] name].
  do 3 (apply after_bind, after_num; [done|]; intros ?). destruct (dlt _ _); [by apply after_ret|].
  apply after_bind. unfold space_upsert. apply after_bind, after_of_box; [done|]. intros sp' Eu.
  destruct (upsert_dialog dsp sp' _ _ _ _ _ D Hfd Hrd Eu) as (Hf' & Hi' & Hh).
  apply after_put, after_ret. exists S, (rows sp'). split; [by eapply billing_put_dialogs|]. split; [|done].
  intros s. specialize (Hh s). case_decide as E.
  - subst s S. destruct (HS caller sub Esub) as [[balance Hg] _]. right. exists balance, (nth_value 5 sub).
    split; [done|lia].
  - destruct (Hw s) as [|(balance & limit & Hg & Hle)]; [left; lia|right]. exists balance, limit. split; [done|lia].
Qed.

(** *** Doubles that are not below zero *)

Definition not_below (x : dbl) : bool :=
  match x with
  | SpecFloat.S754_nan => false
  | SpecFloat.S754_zero _ => true
  | SpecFloat.S754_infinity s | SpecFloat.S754_finite s _ _ => negb s
  end.

Lemma dle_not_below x : dle (dbl_of 0) x = not_below x.
Proof. by destruct x as [[]|[]| |[] m e]. Qed.

Lemma nonneg_lua_of x : not_below x = true -> nonneg (lua_of x) = true.
Proof.
  intros Hx. unfold lua_of. destruct (to_int x) as [n|] eqn:E; cbn [nonneg]; [|by rewrite dle_not_below].
  apply Z.leb_le. destruct x as [[]|[]| |[] m e]; try done; cbn [to_int] in E; simplify_eq; try lia.
  unfold signed in E. destruct (0 <=? e) eqn:Ee; [|destruct (_ =? 0); [|done]]; simplify_eq;
    [apply Z.mul_nonneg_nonneg|apply Z.div_pos]; lia.
Qed.

Lemma nonneg_dmax (x : dbl) : nonneg (lua_of (dmax (dbl_of 0) x)) = true.
Proof.
  apply nonneg_lua_of. unfold dmax. destruct (dlt (dbl_of 0) x) eqn:E; [|done].
  by destruct x as [[]|[]| |[] m e].
Qed.

(** Rounding a number that is not below zero. *)
Lemma shr_1_nonneg r : 0 <= SpecFloat.shr_m r -> 0 <= SpecFloat.shr_m (SpecFloat.shr_1 r).
Proof. destruct r as [[|[]|[]] r s]; cbn; lia. Qed.

Lemma iter_shr_nonneg p : forall r, 0 <= SpecFloat.shr_m r ->
  0 <= SpecFloat.shr_m (SpecFloat.iter_pos SpecFloat.shr_1 p r).
Proof.
  induction p as [p IH|p IH|]; intros r Hr; cbn [SpecFloat.iter_pos]; [by apply IH, IH, shr_1_nonneg|by apply IH, IH|].
  by apply shr_1_nonneg.
Qed.

Lemma shr_fexp_nonneg m e l : 0 <= m -> 0 <= SpecFloat.shr_m (SpecFloat.shr_fexp 53 1024 m e l).1.
Proof.
  intros Hm. unfold SpecFloat.shr_fexp, SpecFloat.shr.
  assert (0 <= SpecFloat.shr_m (SpecFloat.shr_record_of_loc m l)) by (destruct l as [|[]]; done).
  case_match; try done. by apply iter_shr_nonneg.
Qed.

Lemma round_nonneg m l : 0 <= m -> 0 <= SpecFloat.round_nearest_even m l.
Proof. intros Hm. destruct l as [|[]]; cbn [SpecFloat.round_nearest_even]; [lia| |lia|lia]. case_match; lia. Qed.

Lemma normalize_not_below m e : 0 <= m -> not_below (SpecFloat.binary_normalize 53 1024 m e false) = true.
Proof.
  intros Hm. destruct m as [|m|m]; [done| |lia]. cbn [SpecFloat.binary_normalize]. unfold SpecFloat.binary_round.
  destruct (SpecFloat.shl_align _ _ _) as [mz ez]. unfold SpecFloat.binary_round_aux.
  pose proof (shr_fexp_nonneg (Z.pos mz) ez SpecFloat.loc_Exact ltac:(lia)) as H1.
  destruct (SpecFloat.shr_fexp _ _ (Z.pos mz) _ _) as [r1 e1]. cbn [fst] in H1.
  pose proof (shr_fexp_nonneg _ e1 SpecFloat.loc_Exact (round_nonneg _ (SpecFloat.loc_of_shr_record r1) H1)) as H2.
  destruct (SpecFloat.shr_fexp _ _ (SpecFloat.round_nearest_even _ _) _ _) as [r2 e2]. cbn [fst] in H2.
  destruct (SpecFloat.shr_m r2); [done|by case_match|lia].
Qed.

Lemma dadd_not_below x y : not_below x = true -> not_below y = true -> not_below (dadd x y) = true.
Proof.
  destruct x as [sx|[]| |[] mx ex], y as [sy|[]| |[] my ey]; try done; intros _ _; unfold dadd, SpecFloat.SFadd.
  - by destruct sx, sy.
  - apply normalize_not_below. cbn [SpecFloat.cond_Zopp]. lia.
Qed.

Lemma plus_nonneg v w sum : nonneg v = true -> nonneg w = true -> Box.plus v w = Some sum -> nonneg sum = true.
Proof.
  assert (forall n, 0 <= n -> not_below (dbl_of n) = true) as Hof by (intros; by apply normalize_not_below).
  destruct v as [| |m| |x| |], w as [| |n| |y| |]; try done; cbn [nonneg Box.plus]; rewrite ?dle_not_below;
    intros Hv Hw E.
  - case_match; simplify_eq. cbn [nonneg]. lia.
  - injection E as <-. apply nonneg_lua_of, dadd_not_below; [apply Hof; lia|done].
  - injection E as <-. apply nonneg_lua_of, dadd_not_below; [done|apply Hof; lia].
  - injection E as <-. by apply nonneg_lua_of, dadd_not_below.
Qed.

(** A time the clock can show: a whole number of 64 bits and a fraction. *)
Definition time_ok (time : dbl) : Prop := exists n, to_int (dfloor time) = Some n /\ 0 <= n < 2 ^ 64.

Lemma number_lua_of x : fits_type FNumber (lua_of x) = true.
Proof. unfold lua_of. by destruct (to_int x). Qed.

Lemma charge_row d S D ssp caller sub (left : dbl) (e : Z) : billing_db d S D -> d !! subscribers = Some ssp ->
  S !! caller = Some sub ->
  0 <= e < 2 ^ 64 ->
  exists ssp', box_update ssp (LStr caller) [(2%nat, lua_of left); (7%nat, LNum e)] = Some ssp'
    /\ billing_db (<[subscribers := ssp']> d) (<[caller := assign [(2%nat, lua_of left); (7%nat, LNum e)] sub]> S) D.
Proof.
  intros Hdb Hs Hsub He. pose proof Hdb as (ssp0 & dsp & Hs0 & Hr & Hf & _).
  assert (ssp0 = ssp) as -> by congruence.
  rewrite <- Hr in Hsub. pose proof (rows_fit ssp caller sub Hsub) as Hfo. rewrite Hf in Hfo.
  destruct (subscriber_shape _ Hfo) as (sid & bal & cur & st & max & tid & upd & rest & -> & _).
  pose proof (number_lua_of left) as Hn.
  destruct (update_ok ssp caller _ [(2%nat, lua_of left); (7%nat, LNum e)] Hsub) as (ssp' & E & Hr' & Hf' & _).
  { rewrite !Forall_cons, Forall_nil. cbn. lia. }
  { rewrite Hf. cbn [assign foldl fst snd pred]. cbn in Hfo |- *. rewrite !andb_true_iff in *.
    destruct (lua_of left); try discriminate Hn; cbn; split_and!; try tauto; lia. }
  exists ssp'. split; [done|]. rewrite <- Hr, <- Hr'. by eapply billing_put_subscribers.
Qed.

Lemma charge_subscriber given time (balance : dbl) caller d S D ssp old : time_ok time ->
  billing_db d S D -> (forall s, within given D s) -> map_Forall (solvent given) S ->
  d !! subscribers = Some ssp -> rows ssp !! caller = Some old ->
  exists ssp', box_update ssp (LStr caller) [(2%nat, lua_of (dmax (dbl_of 0) balance)); (7%nat, lua_of (dfloor time))] = Some ssp'
    /\ limits given (<[subscribers := ssp']> d).
Proof.
  intros (e & He & Hre) Hdb Hw HS Hd Hold. pose proof Hdb as (ssp1 & _ & Hs & Hr & Hf & _).
  assert (ssp1 = ssp) as -> by congruence.
  subst S. destruct (charge_row d _ D ssp caller old (dmax (dbl_of 0) balance) e Hdb Hd Hold Hre) as (ssp' & E & Hdb').
  unfold lua_of at 2. rewrite He. exists ssp'. split; [done|]. eexists _, D. split; [exact Hdb'|]. split; [done|].
  apply map_Forall_insert_2; [|done]. pose proof (rows_fit ssp caller old Hold) as Hfo. rewrite Hf in Hfo.
  destruct (subscriber_shape _ Hfo) as (id & bal & cur & st & max & tid & upd & rest & -> & _).
  split; [by destruct (HS caller _ Hold)|left; apply nonneg_dmax].
Qed.

(** The invariant is about two tables. *)
Lemma limits_same given d d' : d' !! subscribers = d !! subscribers -> d' !! kam_dialogs = d !! kam_dialogs ->
  limits given d -> limits given d'.
Proof.
  intros E1 E2 (S & D & (ssp & dsp & Hdb) & H'). exists S, D. split; [|done]. exists ssp, dsp. by rewrite E1, E2.
Qed.

Lemma limits_other given n sp d : n <> subscribers -> n <> kam_dialogs -> limits given d ->
  limits given (<[n := sp]> d).
Proof. intros H1 H2. by apply limits_same; rewrite lookup_insert_ne. Qed.

(** Fewer dialogs. *)
Lemma limits_fewer given dsp dsp' d : limits given d -> d !! kam_dialogs = Some dsp -> rows dsp' ⊆ rows dsp ->
  box_format dsp' = box_format dsp -> indexes dsp' = indexes dsp -> limits given (<[kam_dialogs := dsp']> d).
Proof.
  intros (S & D & Hdb & Hw & HS) Hd Hsub Hf Hi. exists S, (rows dsp').
  pose proof Hdb as (ssp & dsp0 & _ & _ & _ & Hd0 & Hr & _). assert (dsp0 = dsp) as -> by congruence. subst D.
  split_and!; [by eapply billing_put_dialogs| |done]. intros s. pose proof (held_mono s _ _ Hsub).
  destruct (Hw s) as [|(balance & limit & Hg & Hle)]; [left; lia|right]. exists balance, limit. split; [done|lia].
Qed.

(** *** The parts of [finalize_cdr] *)

Lemma charge_keeps given time id args d : time_ok time -> limits given d ->
  keeps (charge_call time (LStr id :: args)) d (limits given).
Proof.
  intros Ht Hl. pose proof Hl as (S & D & Hdb & Hw & HS).
  pose proof Hdb as (ssp & dsp & Hs & Hr & _ & Hd & Hrd & Hfd & _).
  unfold keeps, charge_call. change (nth_value 1 (LStr id :: args)) with (LStr id). cbv zeta.
  apply after_bind. eapply after_the_space; [done|]. apply after_bind. rewrite get_ok.
  apply after_of_box; [done|]. intros dlg [= <-].
  assert (exists caller, match rows dsp !! id with Some t => or_value (nth_value 2 t) (text "unknown")
                         | None => text "unknown" end = LStr caller) as [caller ->].
  { destruct (rows dsp !! id) as [t|] eqn:Et; [|by eexists]. pose proof (rows_fit dsp id t Et) as Hf. rewrite Hfd in Hf.
    destruct (dialog_shape _ Hf) as (? & from & ? & ? & ? & ? & ->). by exists from. }
  do 3 (apply after_bind, after_reads; [apply reads_field|done|]; intros ?).
  do 3 (apply after_bind, after_num; [done|]; intros ?).
  apply after_bind. eapply after_the_space; [done|]. apply after_bind. rewrite get_ok.
  apply after_of_box; [done|]. intros sub [= <-].
  apply after_bind. apply (after_weaken _ _ _ (fun _ => limits given)); [|intros; by apply after_ret].
  destruct (rows ssp !! caller) as [sub|] eqn:Esub; [|by apply after_ret].
  apply after_bind, after_num; [done|]. intros balance. cbv zeta.
  match goal with |- context [dmax _ ?b] =>
    destruct (charge_subscriber given time b caller d S D ssp sub Ht Hdb Hw HS Hs Esub) as (ssp' & -> & Hl') end.
  apply after_bind, after_of_box; [done|]. intros ? [= <-]. by apply after_bind, after_put, after_ret.
Qed.

Lemma write_keeps given args c d : limits given d -> keeps (write_cdr args c) d (limits given).
Proof.
  intros Hl. unfold keeps, write_cdr. apply after_bind, after_reads; [apply reads_format|done|]. intros x.
  apply after_bind, after_reads; [apply reads_the_space|done|]. intros records.
  apply after_bind, after_bind, after_of_box; [done|]. intros records' _. apply after_put, after_ret.
  by apply limits_other.
Qed.

Lemma end_dialog_keeps given id d : limits given d -> keeps (end_dialog (LStr id)) d (limits given).
Proof.
  intros Hl. pose proof Hl as (S & D & (ssp & dsp & _ & _ & _ & Hd & _) & _).
  unfold keeps, end_dialog. apply after_bind. eapply after_the_space; [done|].
  destruct (delete_ok dsp id) as (dsp' & E & Hr & Hf & Hi).
  apply after_bind, after_bind, after_of_box; [done|]. intros [old sp'] Eo. rewrite E in Eo. injection Eo as <- <-.
  apply after_bind, after_put, after_ret, after_ret.
  apply (limits_fewer given dsp); [done|done| |done|done]. rewrite Hr. apply delete_subseteq.
Qed.

Lemma end_media_keeps given id d : limits given d -> keeps (end_media id) d (limits given).
Proof.
  intros Hl. unfold keeps, end_media. apply after_bind, after_space.
  destruct (d !! calls_space) as [calls|]; [|by apply after_ret].
  apply after_bind, after_bind, after_of_box; [done|]. intros [old calls'] _.
  apply after_bind, after_put, after_ret, after_ret. by apply limits_other.
Qed.

(** *** Provisioning *)

(** A field of an answer. *)
Definition answered (answer : option lua) (n : string) : option lua :=
  match answer with Some v => (field_of v (lit n) ∅).1 | None => None end.

(** What a request gives if it is answered with [ok]. *)
Definition granted (answer : option lua) (g : grant) : list grant :=
  match answered answer "ok" with Some (LBool true) => [g] | _ => [] end.

(** More was given. *)
Lemma indebted_more given g s : indebted given s -> indebted (g :: given) s.
Proof.
  intros [(balance & limit & Hg & Hn)|(v & Hg & Hn)]; [left; exists balance, limit|right; exists v];
    (split; [by apply list_elem_of_further|done]).
Qed.

Lemma within_more given g D s : within given D s -> within (g :: given) D s.
Proof.
  intros [|(balance & limit & Hg & Hle)]; [by left|right]. exists balance, limit. split; [|done].
  by apply list_elem_of_further.
Qed.

Lemma solvent_more given g s t : solvent given s t -> solvent (g :: given) s t.
Proof.
  intros [[balance Hg] Hn]. split; [exists balance; by apply list_elem_of_further|].
  destruct Hn; [by left|right; by apply indebted_more].
Qed.

(** A subscriber gets a row that fits what was given. *)
Lemma limits_row given g d ssp ssp' s t : limits given d -> d !! subscribers = Some ssp ->
  rows ssp' = <[s := t]> (rows ssp) -> box_format ssp' = box_format ssp ->
  (map_Forall (solvent given) (rows ssp) -> solvent (g :: given) s t) ->
  limits (g :: given) (<[subscribers := ssp']> d).
Proof.
  intros (S & D & Hdb & Hw & HS) Hs Hr Hf Ht.
  pose proof Hdb as (ssp0 & _ & Hs0 & Hr0 & _). assert (ssp0 = ssp) as -> by congruence. subst S.
  exists (rows ssp'), D. split_and!; [by eapply billing_put_subscribers|intros; by apply within_more|].
  rewrite Hr. apply map_Forall_insert_2; [by apply Ht|]. eapply map_Forall_impl; [exact HS|].
  intros. by apply solvent_more.
Qed.

(** A provisioning request: [g] is given if the answer is [ok]. *)
Definition gives (given : list grant) (g : grant) (p : proc lua) d : Prop :=
  after p d (limits given) (fun a => limits (granted (Some a) g ++ given)).

Lemma gives_ends given g p d : gives given g p d -> limits (granted (p d).1 g ++ given) (p d).2.
Proof. unfold gives, after. by destruct (p d) as [[a|] d']. Qed.

Lemma add_subscriber_gives given now s balance currency limit args d : limits given d ->
  gives given (Row s (or_value balance (LNum 0)) (or_value limit (LNum 5)))
    (add_subscriber now (LStr s :: balance :: currency :: limit :: args)) d.
Proof.
  intros Hl. pose proof Hl as (S & D & (ssp & dsp & Hs & _) & _).
  unfold gives, add_subscriber. apply after_bind, after_space. rewrite Hs.
  apply after_bind. unfold space_replace. apply after_bind, after_of_box; [done|]. intros ssp' E.
  match type of E with box_replace _ ?t = _ => set (row := t) in * end. apply after_put, after_ret.
  assert (granted (Some (tab [("ok", LBool true); ("subscriber_id", LStr s); ("balance", balance)]%string))
    (Row s (or_value balance (LNum 0)) (or_value limit (LNum 5))) = [Row s (or_value balance (LNum 0)) (or_value limit (LNum 5))]) as Eg.
  { by destruct balance. }
  change (nth_value 1 (LStr s :: balance :: currency :: limit :: args)) with (LStr s).
  change (nth_value 2 (LStr s :: balance :: currency :: limit :: args)) with balance. rewrite Eg. clear Eg.
  pose proof (replace_ok ssp s row eq_refl) as Hp.
  destruct (fits _ row) in Hp; [|rewrite Hp in E; discriminate].
  destruct Hp as (ssp1 & E1 & Hr1 & Hf1 & _). rewrite E in E1. injection E1 as <-.
  eapply (limits_row given _ d ssp ssp' s row Hl Hs Hr1 Hf1). intros _. split.
  - exists (or_value balance (LNum 0)). apply list_elem_of_here.
  - change (nth_value 2 row) with (or_value balance (LNum 0)).
    destruct (nonneg (or_value balance (LNum 0))) eqn:En; [by left|right; left].
    eexists _, _. split; [apply list_elem_of_here|done].
Qed.

Lemma plus_number v w sum : Box.plus v w = Some sum -> fits_type FNumber sum = true.
Proof.
  destruct v, w; try done; cbn [Box.plus]; [by case_match; intros [= <-]|intros [= <-]; apply number_lua_of..].
Qed.

Lemma update_balance_gives given now s amount args d : limits given d -> 0 <= now < 2 ^ 64 ->
  gives given (Amount s amount) (update_balance now (LStr s :: amount :: args)) d.
Proof.
  intros Hl Hnow. pose proof Hl as (S & D & (ssp & dsp & Hs & Hr & Hf & _) & _).
  unfold gives, update_balance. change (nth_value 1 (LStr s :: amount :: args)) with (LStr s).
  change (nth_value 2 (LStr s :: amount :: args)) with amount.
  apply after_bind, after_space. rewrite Hs. apply after_bind. rewrite get_ok. apply after_of_box; [done|].
  intros sub [= <-]. destruct (rows ssp !! s) as [old|] eqn:Hold; [|by apply after_ret].
  apply after_bind. destruct (Box.plus (nth_value 2 old) amount) as [sum|] eqn:Es;
    [|by rewrite (add_fails ssp s old 2 amount _ Hold Es)].
  pose proof (rows_fit ssp s old Hold) as Hfo. rewrite Hf in Hfo. pose proof (plus_number _ _ _ Es) as Hn.
  destruct (subscriber_shape _ Hfo) as (id & bal & cur & st & max & tid & upd & rest & -> & _).
  destruct (add_ok ssp s _ 2 amount sum [(7%nat, LNum now)] Hold Es) as (ssp' & E & Hr' & Hf' & _).
  { rewrite !Forall_cons, Forall_nil. cbn. lia. }
  { rewrite Hf. cbn [assign foldl fst snd pred]. cbn in Hfo |- *. rewrite !andb_true_iff in *.
    destruct sum; try discriminate Hn; cbn; split_and!; try tauto; lia. }
  rewrite E. apply after_of_box; [done|]. intros [? ?] [= <- <-]. apply after_bind, after_put, after_ret.
  change (nth_value 2 (LStr id :: sum :: _)) with sum.
  assert (granted (Some (tab [("ok", LBool true); ("subscriber_id", LStr s); ("balance", sum)]%string)) (Amount s amount)
          = [Amount s amount]) as -> by by destruct sum.
  eapply (limits_row given _ d ssp ssp' s _ Hl Hs Hr' Hf'). intros HS. destruct (HS s _ Hold) as [[balance Hg] Hb].
  split; [exists balance; by apply list_elem_of_further|]. change (nth_value 2 (assign _ _)) with sum.
  destruct Hb as [Hb|Hb]; [|right; by apply indebted_more].
  destruct (nonneg amount) eqn:Ea; [left; exact (plus_nonneg _ _ _ Hb Ea Es)|right; right].
  exists amount. split; [apply list_elem_of_here|done].
Qed.

Lemma set_tariff_keeps given args d : limits given d -> keeps (set_tariff args) d (limits given).
Proof.
  intros Hl. unfold keeps, set_tariff. apply after_bind, after_space.
  destruct (d !! tariffs); [|by apply after_ret].
  apply after_bind. unfold space_replace. apply after_bind, after_of_box; [done|]. intros sp' _.
  apply after_put, after_ret. by apply limits_other.
Qed.

Lemma limits_fresh : limits [] fresh_db.
Proof.
  pose proof fresh_spaces as Hf. rewrite Forall_app in Hf. destruct Hf as [Hf _]. unfold schema_spaces in Hf.
  rewrite !Forall_cons in Hf. destruct Hf as (_ & _ & Hd & _ & Hs & _). cbn [fst snd] in Hd, Hs.
  exists ∅, ∅. split_and!; [|by left|by apply map_Forall_empty].
  eexists _, _. split_and!; [exact Hs|apply rows_create|apply format_create|exact Hd|apply rows_create|apply format_create|apply indexes_create].
Qed.

(** *** The worker *)

(** The limits hold, and what the worker is about to delete are the keys of dialogs. *)
Definition tidy (given : list grant) (f : fibers) : Prop := limits given (store f) /\
  match place_of f with
  | Sleeping => True
  | Collecting _ _ n rest => Forall (fun n => lit n <> subscribers) (n :: rest)
  | Deleting _ _ n _ keys rest => Forall (fun n => lit n <> subscribers) (n :: rest)
      /\ (lit n = kam_dialogs -> exists ks, keys = LStr <$> ks)
  end.

Lemma tidy_next given c w now rest d : limits given d -> Forall (fun n => lit n <> subscribers) rest ->
  tidy given (Fibers c w (next_place now rest) d).
Proof. intros Hl Hr. split; [done|]. by destruct rest. Qed.

(** One deletion of the worker. *)
Lemma delete_keys_keeps given n k d : lit n <> subscribers -> (lit n = kam_dialogs -> exists id, k = LStr id) ->
  limits given d -> limits given (delete_keys (lit n) [k] d).2.
Proof.
  intros Hn Hk Hl. destruct (decide (lit n = kam_dialogs)) as [E|E].
  - destruct (Hk E) as [id ->]. rewrite E. pose proof Hl as (S & D & (ssp & dsp & _ & _ & _ & Hd & _) & _).
    destruct (delete_keys_ok kam_dialogs [id] d dsp Hd) as (dsp' & Ed & Hr & Hf & Hi).
    cbn [fmap list_fmap] in Ed. rewrite Ed. apply (limits_fewer given dsp); [done|done| |done|done].
    rewrite Hr. apply delete_subseteq.
  - eapply limits_same; [| |exact Hl]; apply only_delete_keys; congruence.
Qed.

Lemma worker_step_tidy given f : tidy given f -> tidy given (worker_step f).
Proof.
  intros [Hl Hp]. unfold worker_step. destruct (place_of f) as [|now p n rest|now p n b [|key keys] rest].
  - apply tidy_next; [done|]. by apply (bool_decide_unpack _).
  - assert (tidy given (leave f now p n rest)) as Hleave by (apply tidy_next; [done|by inversion Hp]).
    destruct (store f !! lit n) as [sp|] eqn:Esp; [|done]. destruct (box_has_index sp by_expire); [|done].
    destruct (take _ _) as [|key keys] eqn:Ek; [done|]. split; [done|]. split; [done|]. intros E.
    destruct Hl as (S & D & (ssp & dsp & _ & _ & _ & Hd & _ & _ & Hi) & _).
    assert (sp = dsp) as -> by congruence. rewrite <- Ek. apply (expired_keys 5). unfold expiring. rewrite Hi.
    split; [by right; left|by apply (bool_decide_unpack _)].
  - split; [done|]. by destruct Hp.
  - destruct Hp as [Hn Hk]. inversion Hn as [|? ? Hn1 Hrest]; subst.
    assert (limits given (delete_keys (lit n) [key] (store f)).2) as Hl'.
    { apply delete_keys_keeps; [done| |done]. intros E. destruct (Hk E) as [[|k ks] Eks]; [done|].
      injection Eks as -> _. by eexists. }
    destruct (delete_keys _ _ _) as [[u|] d]; [|by apply tidy_next]. split; [done|]. split; [done|]. intros E.
    destruct (Hk E) as [[|k ks] Eks]; [done|]. injection Eks as _ ->. by eexists.
Qed.

(** ** Service *)

(** What is left of a [finalize_cdr] that has charged the call: the record, the end of the
    dialog, the end of the media session. *)
Inductive ending := ToRecord (args : list lua) (c : charge) | ToEnd (call_id : lua) | ToFree (call_id : lua).

Definition end_step (e : ending) : proc (option ending) :=
  match e with
  | ToRecord args c => _ ← write_cdr args c; mret (Some (ToEnd (nth_value 1 args)))
  | ToEnd call_id => _ ← end_dialog call_id; mret (Some (ToFree call_id))
  | ToFree call_id => _ ← end_media call_id; mret None
  end.

(** The server; the finalizations that are not at their end; what subscribers were given. *)
Record billing := Billing { server : fibers; endings : list ending; gifts : list grant }.

Definition data (b : billing) : gmap (list Z) space := store (server b).
Definition with_data (b : billing) d : fibers :=
  Fibers (clock (server b)) (stats (server b)) (place_of (server b)) d.

(** What a charge leaves to do; nothing after an error. *)
Definition begun (args : list lua) (c : option charge) : list ending :=
  match c with Some c => [ToRecord args c] | None => [] end.
Definition next_ending (e : option (option ending)) : list ending :=
  match e with Some (Some e) => [e] | _ => [] end.

(** One step: a request that writes at most once; the charge of a call; the next part of any
    finalization under way; a small step of the worker; or time that passes. *)
Inductive bills : billing -> billing -> Prop :=
| bill_add now s balance currency limit args b :
    let r := add_subscriber now (LStr s :: balance :: currency :: limit :: args) (data b) in
    bills b (Billing (with_data b r.2) (endings b)
               (granted r.1 (Row s (or_value balance (LNum 0)) (or_value limit (LNum 5))) ++ gifts b))
| bill_top_up now s amount args b : 0 <= now < 2 ^ 64 ->
    let r := update_balance now (LStr s :: amount :: args) (data b) in
    bills b (Billing (with_data b r.2) (endings b) (granted r.1 (Amount s amount) ++ gifts b))
| bill_tariff args b : bills b (Billing (with_data b (set_tariff args (data b)).2) (endings b) (gifts b))
| bill_authorize time caller callee id args b :
    bills b (Billing (with_data b (authorize_call time (LStr caller :: callee :: LStr id :: args) (data b)).2)
               (endings b) (gifts b))
| bill_charge time id args b : time_ok time ->
    let r := charge_call time (LStr id :: args) (data b) in
    bills b (Billing (with_data b r.2) (begun (LStr id :: args) r.1 ++ endings b) (gifts b))
| bill_part e es1 es2 b : endings b = es1 ++ e :: es2 ->
    let r := end_step e (data b) in
    bills b (Billing (with_data b r.2) (es1 ++ next_ending r.1 ++ es2) (gifts b))
| bill_worker b : bills b (Billing (worker_step (server b)) (endings b) (gifts b))
| bill_tick t b : clock (server b) <= t -> bills b (Billing (at_time t (server b)) (endings b) (gifts b)).

(** An ending of a call with a name. *)
Definition named_ending (e : ending) : Prop :=
  match e with
  | ToRecord args _ => exists id args', args = LStr id :: args'
  | ToEnd call_id | ToFree call_id => exists id, call_id = LStr id
  end.

Definition in_order (b : billing) : Prop := tidy (gifts b) (server b) /\ Forall named_ending (endings b).

Lemma end_step_keeps given e d : named_ending e -> limits given d ->
  after (end_step e) d (limits given) (fun e' d' => limits given d' /\ Forall named_ending (next_ending (Some e'))).
Proof.
  intros He Hl. destruct e as [args c|call_id|call_id].
  - destruct He as (id & args' & ->). apply after_bind. eapply after_weaken; [by apply write_keeps|].
    intros a d' Hl'. apply after_ret. split; [done|]. repeat constructor. by exists id.
  - destruct He as [id ->]. apply after_bind. eapply after_weaken; [by apply end_dialog_keeps|].
    intros a d' Hl'. apply after_ret. split; [done|]. repeat constructor. by exists id.
  - destruct He as [id ->]. apply after_bind. eapply after_weaken; [by apply end_media_keeps|].
    intros a d' Hl'. by apply after_ret.
Qed.

Lemma bills_in_order b b' : bills b b' -> in_order b -> in_order b'.
Proof.
  intros Hb [[Hl Hp] He]. destruct Hb as [now s balance currency limit args b r|now s amount args b Hnow r|args b
    |time caller callee id args b|time id args b Ht r|e es1 es2 b Ee r|b|t b Ht].
  - split; [|done]. split; [|done]. by apply gives_ends, add_subscriber_gives.
  - split; [|done]. split; [|done]. by apply gives_ends, update_balance_gives.
  - split; [|done]. split; [|done]. by apply (keeps_ends _ _ (limits (gifts b))), set_tariff_keeps.
  - split; [|done]. split; [|done]. by apply (keeps_ends _ _ (limits (gifts b))), authorize_keeps.
  - split; [split; [by apply (keeps_ends _ _ (limits (gifts b))), charge_keeps|done]|]. apply Forall_app. split; [|done].
    destruct r.1; repeat constructor. by exists id, args.
  - rewrite Ee, Forall_app, Forall_cons in He. destruct He as (He1 & He0 & He2).
    pose proof (end_step_keeps (gifts b) e (data b) He0 Hl) as Hs. unfold in_order, tidy, after in *.
    subst r. cbn [server endings gifts with_data store place_of]. rewrite !Forall_app.
    destruct (end_step e (data b)) as [[e'|] d']; cbn [fst snd next_ending]; [|by repeat split].
    destruct Hs as [Hs Hn]. by split_and!.
  - split; [by apply worker_step_tidy|done].
  - done.
Qed.

(** The service begins: a fresh schema, the worker asleep. *)
Definition open_billing (t : Z) : billing := Billing (Fibers t idle_worker Sleeping fresh_db) [] [].

(** C19: No subscriber ever has more calls than allowed, nor a debt nobody gave it. From the fresh
    schema, take any sequence of subscribers added, amounts added, tariffs set and calls
    authorized, of charges, records and ends of calls in which the parts of several
    [finalize_cdr] interleave, and of small steps of the worker that deletes expired dialogs,
    with whatever amounts, limits and errors on the way; subscribers and calls are named by
    strings, and times have 64 bits. Then a subscriber that has dialogs has
    at most as many as the highest limit a row of it was added with; the limit in its row is
    one of those; and its balance is not below zero, unless it was itself given a balance or an
    amount below zero. So a subscriber with one limit never has more calls than that limit,
    and no charge makes a debt. *)
Theorem billing_limits_hold t b : rtc bills (open_billing t) b ->
  exists S D, billing_db (data b) S D
  /\ (forall s, 0 < held s D ->
      exists balance limit, Row s balance limit ∈ gifts b /\ held s D <= number limit)
  /\ forall s row, S !! s = Some row ->
      (exists balance, Row s balance (nth_value 5 row) ∈ gifts b)
      /\ (nonneg (nth_value 2 row) = true \/ indebted (gifts b) s).
Proof.
  intros Hrun. enough (in_order b) as [[(S & D & Hdb & Hw & HS) _] _].
  { exists S, D. split_and!; [done| |done]. intros s Hs. destruct (Hw s); [lia|done]. }
  revert b Hrun. refine (rtc_ind_r in_order _ _ _); [|intros; by eapply bills_in_order].
  split; [|done]. split; [apply limits_fresh|done].
Qed.

(** The next part of the first ending. *)
Lemma bill_first b e es g d :
  bills (Billing (with_data b d) (e :: es) g)
        (Billing (with_data b (end_step e d).2) (next_ending (end_step e d).1 ++ es) g).
Proof. exact (bill_part e [] es (Billing (with_data b d) (e :: es) g) eq_refl). Qed.

(** A [finalize_cdr] without interruption is its charge and then its parts. *)
Lemma finalize_by_parts time id args b : time_ok time ->
  rtc bills b (Billing (with_data b (finalize_cdr time (LStr id :: args) (data b)).2) (endings b) (gifts b)).
Proof.
  intros Ht. eapply rtc_l; [by apply (bill_charge time id args)|]. cbv zeta. unfold finalize_cdr.
  set (args0 := LStr id :: args). unfold mbind, proc_bind.
  destruct (charge_call time args0 (data b)) as [[c|] d1]; [|done]. cbn [fst snd begun app].
  eapply rtc_l; [apply bill_first|]. cbn [end_step]. unfold mbind, proc_bind.
  destruct (write_cdr args0 c d1) as [[k|] d2]; [|done]. cbn [fst snd next_ending app].
  unfold mret, proc_ret. cbn [fst snd next_ending app].
  eapply rtc_l; [apply bill_first|]. cbn [end_step]. unfold mbind, proc_bind.
  destruct (end_dialog (nth_value 1 args0) d2) as [[u|] d3]; [|done].
  unfold mret, proc_ret. cbn [fst snd next_ending app].
  eapply rtc_l; [apply bill_first|]. cbn [end_step]. unfold mbind, proc_bind.
  by destruct (end_media (nth_value 1 args0) d3) as [[v|] d4].
Qed.
End limits.

(** * The charge *)

Section charge.
Context `{!Box, !BoxLaws}.
Implicit Types (d : gmap (list Z) space) (I : gmap (list Z) space -> Prop) (S D : gmap (list Z) tuple).

Definition value_of (v : lua) : option dbl :=
  match v with LNum n => Some (dbl_of n) | LDbl x => Some x | _ => None end.

Lemma num_value v d : num v d = (value_of v, d).
Proof. by destruct v. Qed.

(** What [n] seconds cost. *)
Definition cost (rate fee : dbl) (n : Z) : dbl := dadd fee (dmul (billable_minutes (dbl_of n)) rate).

(** The dialog of an authorized call, with its price. *)
Definition dialog_row (id caller callee : list Z) (expires name rate fee start : lua) : tuple :=
  [LStr id; LStr caller; LStr callee; LNum 1; expires;
   tab [("tariff", name); ("rate", rate); ("connect_fee", fee); ("start_epoch", start)]%string].

Lemma authorize_registers d S D time caller callee id answer d1 : billing_db d S D -> D !! id = None ->
  authorize_call time [LStr caller; LStr callee; LStr id] d = (Some answer, d1) ->
  answered (Some answer) "allowed" = Some (LBool true) ->
  exists rate_v fee_v name rate fee expires,
    match_tariff (LStr callee) d = (Some (rate_v, fee_v, name), d)
    /\ value_of rate_v = Some rate /\ value_of fee_v = Some fee /\ is_Some (S !! caller)
    /\ billing_db d1 S (<[id := dialog_row id caller callee expires name rate_v fee_v (lua_of (dfloor time))]> D).
Proof.
  intros Hdb Hnew E Hall. pose proof Hdb as (ssp & dsp & Hs & Hr & _ & Hd & Hrd & Hfd & _).
  enough (after (authorize_call time [LStr caller; LStr callee; LStr id]) d (fun _ => True) (fun answer d1 =>
    answered (Some answer) "allowed" = Some (LBool true) -> exists rate_v fee_v name rate fee expires,
    match_tariff (LStr callee) d = (Some (rate_v, fee_v, name), d)
    /\ value_of rate_v = Some rate /\ value_of fee_v = Some fee /\ is_Some (S !! caller)
    /\ billing_db d1 S (<[id := dialog_row id caller callee expires name rate_v fee_v (lua_of (dfloor time))]> D))) as Ha.
  { unfold after in Ha. rewrite E in Ha. by apply Ha. }
  clear E Hall answer d1. unfold authorize_call. set (sent := [LStr caller; LStr callee; LStr id]).
  change (nth_value 1 sent) with (LStr caller). change (nth_value 2 sent) with (LStr callee).
  change (nth_value 3 sent) with (LStr id). clear sent.
  apply after_bind, after_space. rewrite Hs. apply after_bind, after_space. rewrite Hd.
  apply after_bind. rewrite get_ok. apply after_of_box; [done|]. intros sub [= <-].
  destruct (rows ssp !! caller) as [sub|] eqn:Esub; [|by apply after_ret].
  destruct (negb _); [by apply after_ret|]. apply after_bind.
  eapply after_run; [by eapply count_ok|]. destruct (number _ <=? _); [by apply after_ret|].
  apply after_bind, after_reads_eq; [apply reads_match_tariff|done|]. intros [[rate_v fee_v] name] Em.
  apply after_bind, after_reads_eq; [apply reads_num|done|]. intros rate Erate. rewrite num_value in Erate.
  apply after_bind, after_reads_eq; [apply reads_num|done|]. intros fee Efee. rewrite num_value in Efee.
  apply after_bind, after_num; [done|]. intros balance. destruct (dlt _ _); [by apply after_ret|].
  apply after_bind. unfold space_upsert. apply after_bind, after_of_box; [done|]. intros sp' Eu.
  apply after_put, after_ret. intros _. injection Erate as Erate. injection Efee as Efee.
  eexists rate_v, fee_v, name, rate, fee, _. split_and!; [done..|by rewrite <- Hr, Esub|].
  match type of Eu with box_upsert _ ?t ?o = _ => pose proof (upsert_ok dsp id t o eq_refl) as Hu end.
  rewrite Hrd, Hnew in Hu. destruct (fits _ _) in Hu; cbn [negb] in Hu; [|congruence].
  destruct Hu as (sp1 & E1 & Hr1 & Hf1 & Hi1). assert (sp1 = sp') as -> by congruence.
  unfold dialog_row. rewrite <- Hr1. by eapply billing_put_dialogs.
Qed.

Lemma value_kinds v x : value_of v = Some x ->
  is_nil v = false /\ truthy v = true /\ fits_type FNumber v = true.
Proof. by destruct v. Qed.

Lemma or_number v w x : value_of v = Some x -> or_value v w = v.
Proof. by destruct v. Qed.

Lemma value_fits v : fits_type FNumber v = true -> exists x, value_of v = Some x.
Proof. destruct v; try done; intros _; by eexists. Qed.

(** The price is read back from a dialog. *)
Lemma dialog_fields id caller callee expires name rate_v fee_v start rate fee d :
  value_of rate_v = Some rate -> value_of fee_v = Some fee -> is_nil start = false ->
  let extra := match nth_value 6 (dialog_row id caller callee expires name rate_v fee_v start) with
               | (LTab _ | LArr _) as x => x | _ => LTab [] end in
  field_of extra (lit "rate") d = (Some rate_v, d) /\ field_of extra (lit "connect_fee") d = (Some fee_v, d)
  /\ field_of extra (lit "start_epoch") d = (Some start, d).
Proof. intros Hr Hf Hs. by destruct name, rate_v, fee_v, start. Qed.

(** The record of a call. *)
Definition cdr_row (record id caller callee : list Z) (start stop : lua) (n : Z) (billed mos jitter loss : lua) (node : list Z) : tuple :=
  [LStr record; LStr id; LStr caller; LStr callee; start; stop; LNum n; billed; mos; jitter; loss; LStr node].

Lemma cdr_fits record id caller callee s e n billed mos jitter loss node :
  0 <= s < 2 ^ 64 -> 0 <= e < 2 ^ 64 -> 0 <= n < 2 ^ 64 ->
  Forall (fun v => fits_type FNumber v = true) [billed; mos; jitter; loss] ->
  fits cdrs_format (cdr_row record id caller callee (LNum s) (LNum e) n billed mos jitter loss node) = true.
Proof.
  intros Hs He Hn. rewrite !Forall_cons. intros (Hb & Hm & Hj & Hl & _). unfold cdr_row, cdrs_format.
  assert (forall f fs v t, fits_type (f_type f) v = true -> fits fs t = true -> fits (f :: fs) (v :: t) = true) as Hcons.
  { intros f fs v t Hv Hfs. cbn [fits]. unfold fits_field. apply andb_true_iff. split; [|done].
    change (nth_value 1 (v :: t)) with v. by rewrite Hv, orb_true_r. }
  repeat (apply Hcons; [try done; cbn; apply andb_true_iff; lia|]). done.
Qed.

(** Without the media session of a call. *)
Definition without_media (id : list Z) d : gmap (list Z) space :=
  match d !! calls_space with
  | Some calls => <[calls_space := match box_delete calls (LStr id) with Some (_, c) => c | None => calls end]> d
  | None => d
  end.

Lemma end_dialog_ok dsp dsp' old id d : d !! kam_dialogs = Some dsp -> box_delete dsp (LStr id) = Some (old, dsp') ->
  end_dialog (LStr id) d = (Some tt, <[kam_dialogs := dsp']> d).
Proof.
  intros Hd Ed. unfold end_dialog. step (the_space_ok _ _ _ Hd).
  assert (space_delete kam_dialogs dsp (LStr id) d = (Some old, <[kam_dialogs := dsp']> d)) as E.
  { unfold space_delete. by rewrite Ed. }
  by step E.
Qed.

Lemma end_media_ok id d : end_media (LStr id) d = (Some tt, without_media id d).
Proof.
  unfold end_media. step (eq_refl : space_of calls_space d = (Some (d !! calls_space), d)). unfold without_media.
  destruct (d !! calls_space) as [calls|]; [|done]. destruct (delete_ok calls id) as (calls' & E & _).
  rewrite E. unfold space_delete. by rewrite E.
Qed.

Lemma without_media_ok id d S D : billing_db d S D ->
  billing_db (without_media id d) S D /\ without_media id d !! cdrs = d !! cdrs
  /\ forall calls, d !! calls_space = Some calls ->
     exists calls', without_media id d !! calls_space = Some calls' /\ rows calls' = delete id (rows calls).
Proof.
  intros Hdb. unfold without_media. destruct (d !! calls_space) as [calls|]; [|done].
  destruct (delete_ok calls id) as (calls' & -> & Hr & _).
  split_and!; [by apply billing_put_other|by rewrite lookup_insert_ne|].
  intros ? [= <-]. exists calls'. by rewrite lookup_insert_eq.
Qed.

Lemma subscriber_balance d S D caller sub : billing_db d S D -> S !! caller = Some sub ->
  exists balance, value_of (nth_value 2 sub) = Some balance.
Proof.
  intros (ssp & dsp & _ & <- & Hf & _) Hsub. pose proof (rows_fit ssp caller sub Hsub) as Hfo.
  rewrite Hf in Hfo.
  apply fits_string in Hfo as (? & ? & -> & (bal & ? & -> & Hv & _)%fits_cons); [|done]. by apply value_fits.
Qed.

Lemma charge_run d ssp ssp' dsp sub id caller callee expires name rate_v fee_v s rate fee balance time e n rx tx jitter loss mos node :
  let billed := cost rate fee n in let left := dmax (dbl_of 0) (dsub balance billed) in
  d !! kam_dialogs = Some dsp -> rows dsp !! id = Some (dialog_row id caller callee expires name rate_v fee_v (LNum s)) ->
  d !! subscribers = Some ssp -> rows ssp !! caller = Some sub -> value_of (nth_value 2 sub) = Some balance ->
  value_of rate_v = Some rate -> value_of fee_v = Some fee -> to_int (dfloor time) = Some e ->
  box_update ssp (LStr caller) [(2%nat, lua_of left); (7%nat, LNum e)] = Some ssp' ->
  charge_call time [LStr id; LNum n; rx; tx; jitter; loss; mos; LStr node] d
  = (Some (Charge (LStr caller) (LStr callee) (LNum s) (dfloor time) (LNum n) billed left), <[subscribers := ssp']> d).
Proof.
  intros billed left Hd Hdlg Hss Hsub Hbal Hrate Hfee He Eu.
  unfold charge_call. set (sent := [LStr id; LNum n; rx; tx; jitter; loss; mos; LStr node]). cbv zeta.
  destruct (dialog_fields id caller callee expires name rate_v fee_v (LNum s) rate fee d Hrate Hfee eq_refl) as (F1 & F2 & F3).
  change (nth_value 1 sent) with (LStr id). change (nth_value 2 sent) with (LNum n).
  clear sent.
  assert (lua_of (dfloor time) = LNum e) as -> by (unfold lua_of; by rewrite He).
  set (dlg := dialog_row id caller callee expires name rate_v fee_v (LNum s)) in *.
  step (the_space_ok _ _ _ Hd). rewrite get_ok, Hdlg.
  step (eq_refl : of_box (Some (Some dlg)) d = (Some (Some dlg), d)).
  step F1. step F2. step F3.
  rewrite (or_number rate_v _ rate), (or_number fee_v _ fee) by done.
  assert (forall y v, value_of v = Some y -> num v d = (Some y, d)) as Hval by (intros y v Hv; by rewrite num_value, Hv).
  step (Hval (dbl_of n) (LNum n) eq_refl). step (Hval _ _ Hrate). step (Hval _ _ Hfee).
  step (the_space_ok _ _ _ Hss).
  change (or_value (nth_value 2 dlg) (text "unknown")) with (LStr caller).
  change (or_value (nth_value 3 dlg) (text "unknown")) with (LStr callee).
  rewrite get_ok, Hsub. step (eq_refl : of_box (Some (Some sub)) d = (Some (Some sub), d)).
  fold (cost rate fee n).
  match goal with |- (?p ≫= _) d = _ => assert (p d = (Some left, <[subscribers := ssp']> d)) as Ep end.
  { step (Hval _ _ Hbal). fold billed left. by rewrite Eu. }
  by step Ep.
Qed.

Lemma write_run csp csp' id caller callee s e time n billed left rx tx jitter loss mos node d :
  let record := lit "cdr-" ++ id ++ lit "-" ++ fmt_ld e in
  d !! cdrs = Some csp -> to_int (dfloor time) = Some e ->
  Forall (fun v => fits_type FNumber v = true) [mos; jitter; loss] ->
  box_replace csp (cdr_row record id caller callee (LNum s) (LNum e) n (lua_of billed) mos jitter loss node) = Some csp' ->
  write_cdr [LStr id; LNum n; rx; tx; jitter; loss; mos; LStr node]
    (Charge (LStr caller) (LStr callee) (LNum s) (dfloor time) (LNum n) billed left) d
  = (Some (LStr record), <[cdrs := csp']> d).
Proof.
  intros record Hc He Hnum Ec. rewrite !Forall_cons in Hnum. destruct Hnum as (Hm & Hj & Hl & _).
  destruct (value_fits mos Hm) as [? Em]. destruct (value_fits jitter Hj) as [? Ej].
  destruct (value_fits loss Hl) as [? El].
  unfold write_cdr. set (sent := [LStr id; LNum n; rx; tx; jitter; loss; mos; LStr node]).
  change (nth_value 1 sent) with (LStr id). change (nth_value 5 sent) with jitter.
  change (nth_value 6 sent) with loss. change (nth_value 7 sent) with mos.
  change (nth_value 8 sent) with (LStr node). clear sent.
  cbn [ch_caller ch_callee ch_start ch_end ch_dur ch_billed].
  rewrite (or_number mos _ _ Em), (or_number jitter _ _ Ej), (or_number loss _ _ El).
  assert (format_d (dfloor time) d = (Some (fmt_ld e), d)) as E1 by (unfold format_d; by rewrite He). step E1.
  step (the_space_ok _ _ _ Hc). fold record.
  assert (lua_of (dfloor time) = LNum e) as -> by (unfold lua_of; by rewrite He).
  change (or_value (LStr node) (text "rtpe-node-01")) with (LStr node). unfold space_replace.
  fold (cdr_row record id caller callee (LNum s) (LNum e) n (lua_of billed) mos jitter loss node). by rewrite Ec.
Qed.

Lemma finalize_charges d S D csp sub id caller callee expires name rate_v fee_v start s rate fee time n rx tx jitter loss mos node :
  billing_db d S D -> D !! id = Some (dialog_row id caller callee expires name rate_v fee_v start) ->
  start = LNum s -> 0 <= s < 2 ^ 64 -> value_of rate_v = Some rate -> value_of fee_v = Some fee ->
  S !! caller = Some sub -> d !! cdrs = Some csp -> box_format csp = cdrs_format -> time_ok time ->
    0 <= n < 2 ^ 64 ->
  Forall (fun v => fits_type FNumber v = true) [mos; jitter; loss] ->
  exists balance record d' csp', value_of (nth_value 2 sub) = Some balance
    /\ let billed := lua_of (cost rate fee n) in
       let left := lua_of (dmax (dbl_of 0) (dsub balance (cost rate fee n))) in
       finalize_cdr time [LStr id; LNum n; rx; tx; jitter; loss; mos; LStr node] d
       = (Some (tab [("status", text "ok"); ("cdr_id", LStr record); ("duration_sec", LNum n);
                     ("billed_amount", billed); ("remaining_balance", left)]%string), d')
       /\ billing_db d' (<[caller := assign [(2%nat, left); (7%nat, lua_of (dfloor time))] sub]> S) (delete id D)
       /\ d' !! cdrs = Some csp'
       /\ rows csp' = <[record := cdr_row record id caller callee start (lua_of (dfloor time)) n billed mos jitter loss node]> (rows csp)
       /\ forall calls, d !! calls_space = Some calls ->
         exists calls', d' !! calls_space = Some calls' /\ rows calls' = delete id (rows calls).
Proof.
  intros Hdb Hdlg -> Hs Hrate Hfee Hsub Hc Hfc (e & He & Hre) Hn Hnum.
  pose proof Hdb as (ssp & dsp & Hss & Hr & _ & Hd & Hrd & _).
  destruct (subscriber_balance d S D caller sub Hdb Hsub) as [balance Hbal].
  set (left := dmax (dbl_of 0) (dsub balance (cost rate fee n))).
  set (record := lit "cdr-" ++ id ++ lit "-" ++ fmt_ld e).
  destruct (charge_row d S D ssp caller sub left e Hdb Hss Hsub Hre) as (ssp' & Eu & Hdb1).
  set (d1 := <[subscribers := ssp']> d) in *.
  rewrite !Forall_cons in Hnum. destruct Hnum as (Hm & Hj & Hl & _).
  pose proof (replace_ok csp record (cdr_row record id caller callee (LNum s) (LNum e) n (lua_of (cost rate fee n)) mos jitter loss node) eq_refl) as Hrep.
  rewrite Hfc, cdr_fits in Hrep; [|done..|rewrite !Forall_cons; by split_and!; [apply number_lua_of|..]].
  destruct Hrep as (csp' & Ec & Hrc & _). destruct (delete_ok dsp id) as (dsp' & Ed & Hrd' & Hfd' & Hi').
  assert (d1 !! cdrs = Some csp) as Hc1 by (unfold d1; by rewrite lookup_insert_ne).
  assert (lua_of (dfloor time) = LNum e) as -> by (unfold lua_of; by rewrite He).
  set (d2 := <[kam_dialogs := dsp']> (<[cdrs := csp']> d1)).
  destruct (without_media_ok id d2 (<[caller := assign [(2%nat, lua_of left); (7%nat, LNum e)] sub]> S) (delete id D)) as (Hdb2 & Hc2 & Hcalls).
  { rewrite <- Hrd, <- Hrd'. eapply (billing_put_dialogs _ _ D dsp); [by apply billing_put_other| |done..].
    unfold d1. by rewrite !lookup_insert_ne. }
  exists balance, record, (without_media id d2), csp'. split; [done|]. cbv zeta. fold left.
  split_and!; [|done| |done|].
  - unfold finalize_cdr. assert (Hd1 : d1 !! kam_dialogs = Some dsp) by (unfold d1; by rewrite lookup_insert_ne).
    step (charge_run d ssp ssp' dsp sub id caller callee expires name rate_v fee_v s rate fee balance time e n rx tx
            jitter loss mos node Hd ltac:(by rewrite Hrd) Hss ltac:(by rewrite Hr) Hbal Hrate Hfee He Eu).
    step (write_run csp csp' id caller callee s e time n (cost rate fee n) left rx tx jitter loss mos node d1
            Hc1 He ltac:(by rewrite !Forall_cons) Ec).
    change (nth_value 1 _) with (LStr id).
    step (end_dialog_ok dsp dsp' _ id (<[cdrs := csp']> d1) ltac:(by rewrite lookup_insert_ne) Ed).
    by step (end_media_ok id d2).
  - rewrite Hc2. unfold d2. by rewrite lookup_insert_ne, lookup_insert_eq.
  - intros calls Ecalls. apply Hcalls. unfold d2, d1. by rewrite !lookup_insert_ne.
Qed.
(** C20: A call is charged at the price of its authorization. When a new call is authorized, the
    tariff of its number is what [match_tariff] says then; and whatever the database has become
    by the time the call ends, as long as it keeps the dialog, the subscriber and a table of
    records: finalizing it after [n] seconds, with no other request between the parts, charges the fee and the price of the whole minutes
    of that tariff, leaves the rest of the balance or nothing, writes the record of the call,
    and ends the dialog and its media session, and no other. *)
Theorem authorized_call_is_charged d S D time caller callee id answer d1 :
  billing_db d S D -> D !! id = None -> time_ok time ->
  authorize_call time [LStr caller; LStr callee; LStr id] d = (Some answer, d1) ->
  answered (Some answer) "allowed" = Some (LBool true) ->
  exists rate_v fee_v name rate fee dialog,
    match_tariff (LStr callee) d = (Some (rate_v, fee_v, name), d)
    /\ value_of rate_v = Some rate /\ value_of fee_v = Some fee /\ billing_db d1 S (<[id := dialog]> D)
    /\ forall d2 S2 D2 sub csp time2 n rx tx jitter loss mos node,
       billing_db d2 S2 D2 -> D2 !! id = Some dialog -> S2 !! caller = Some sub ->
       d2 !! cdrs = Some csp -> box_format csp = cdrs_format -> time_ok time2 -> 0 <= n < 2 ^ 64 ->
       Forall (fun v => fits_type FNumber v = true) [mos; jitter; loss] ->
       exists balance record d3 csp', value_of (nth_value 2 sub) = Some balance
         /\ let billed := lua_of (cost rate fee n) in
            let left := lua_of (dmax (dbl_of 0) (dsub balance (cost rate fee n))) in
            finalize_cdr time2 [LStr id; LNum n; rx; tx; jitter; loss; mos; LStr node] d2
            = (Some (tab [("status", text "ok"); ("cdr_id", LStr record); ("duration_sec", LNum n);
                          ("billed_amount", billed); ("remaining_balance", left)]%string), d3)
            /\ billing_db d3 (<[caller := assign [(2%nat, left); (7%nat, lua_of (dfloor time2))] sub]> S2) (delete id D2)
            /\ d3 !! cdrs = Some csp'
            /\ rows csp' = <[record := cdr_row record id caller callee (lua_of (dfloor time)) (lua_of (dfloor time2)) n
                                         billed mos jitter loss node]> (rows csp)
            /\ forall calls, d2 !! calls_space = Some calls ->
               exists calls', d3 !! calls_space = Some calls' /\ rows calls' = delete id (rows calls).
Proof.
  intros Hdb Hnew (s & Hs & Hrs) E Hall.
  destruct (authorize_registers d S D time caller callee id answer d1 Hdb Hnew E Hall)
    as (rate_v & fee_v & name & rate & fee & expires & Em & Hr & Hf & _ & Hdb1).
  exists rate_v, fee_v, name, rate, fee. eexists. split_and!; [done..|exact Hdb1|]. intros.
  eapply finalize_charges; [done|done| |exact Hrs|done..]. unfold lua_of. by rewrite Hs.
Qed.

End charge.
(** * Concrete days *)

(** A subscriber with a balance of 1.5 and one call at a time, a tariff of 1 a minute. *)
Definition one_subscriber : gmap (list Z) space :=
  (add_subscriber 100 [text "alice"; LDbl (decimal 15 1); text "EUR"; LNum 1] fresh_db).2.
Definition one_tariff : gmap (list Z) space :=
  (set_tariff [text "44"; text "UK"; LNum 1; LNum 0] one_subscriber).2.
Definition noon : dbl := decimal 10005 1.
Lemma noon_ok : time_ok noon.
Proof. exists 1000. by split; [vm_compute|]. Qed.
Definition try_call (id : string) (d : gmap (list Z) space) : option lua * gmap (list Z) space :=
  authorize_call noon [text "alice"; text "4420"; text id] d.

(** The day of the subscriber: a call is authorized, and charged after 90 seconds; before its
    record is written the worker wakes, and a second call is asked for. *)
Definition added : billing :=
  let b := open_billing 100 in
  let r := add_subscriber 100 [text "alice"; LDbl (decimal 15 1); text "EUR"; LNum 1] (data b) in
  Billing (with_data b r.2) (endings b) (granted r.1 (Row (lit "alice") (LDbl (decimal 15 1)) (LNum 1)) ++ gifts b).
Definition priced : billing :=
  Billing (with_data added (set_tariff [text "44"; text "UK"; LNum 1; LNum 0] (data added)).2) (endings added) (gifts added).
Definition tried (id : string) (b : billing) : billing :=
  Billing (with_data b (try_call id (data b)).2) (endings b) (gifts b).
Definition charged (id : string) (b : billing) : billing :=
  let r := charge_call noon [text id; LNum 90] (data b) in
  Billing (with_data b r.2) (begun [text id; LNum 90] r.1 ++ endings b) (gifts b).
Definition woken (b : billing) : billing := Billing (worker_step (server b)) (endings b) (gifts b).

(** The second call is refused, as the dialog of the first is there until the record is. *)
Lemma billing_limits_hold_witness :
  let b1 := tried "c1" priced in let b2 := woken (charged "c1" b1) in let b3 := tried "c2" b2 in
  (exists S D, billing_db (data b3) S D
   /\ (forall s, 0 < held s D ->
       exists balance limit, Row s balance limit ∈ gifts b3 /\ held s D <= number limit)
   /\ forall s row, S !! s = Some row ->
       (exists balance, Row s balance (nth_value 5 row) ∈ gifts b3)
       /\ (nonneg (nth_value 2 row) = true \/ indebted (gifts b3) s))
  /\ gifts b3 = [Row (lit "alice") (LDbl (decimal 15 1)) (LNum 1)] /\ length (endings b3) = 1%nat
  /\ (try_call "c1" (data priced)).1
     = Some (tab [("allowed", LBool true); ("max_duration_sec", LNum 90); ("rate_per_min", LNum 1);
                  ("tariff", text "UK"); ("currency", text "EUR")]%string)
  /\ (try_call "c2" (data b2)).1 = Some (refused "MAX_CONCURRENT_CALLS_EXCEEDED").
Proof.
  cbv zeta. split; [|by split_and!; vm_compute]. apply (billing_limits_hold 100).
  eapply rtc_r; [|exact (bill_authorize noon (lit "alice") (text "4420") (lit "c2") [] (woken (charged "c1" (tried "c1" priced))))].
  eapply rtc_r; [|exact (bill_worker (charged "c1" (tried "c1" priced)))].
  eapply rtc_r; [|exact (bill_charge noon (lit "c1") [LNum 90] (tried "c1" priced) noon_ok)].
  eapply rtc_r; [|exact (bill_authorize noon (lit "alice") (text "4420") (lit "c1") [] priced)].
  eapply rtc_r; [|exact (bill_tariff [text "44"; text "UK"; LNum 1; LNum 0] added)].
  apply rtc_once.
  exact (bill_add 100 (lit "alice") (LDbl (decimal 15 1)) (text "EUR") (LNum 1) [] (open_billing 100)).
Defined.

Definition table `{!Box, !BoxLaws} (n : list Z) (d : gmap (list Z) space) : gmap (list Z) tuple :=
  default ∅ (rows <$> d !! n).

Lemma billing_tables `{!Box, !BoxLaws} (d : gmap (list Z) space) :
  box_format <$> d !! subscribers = Some subscribers_format ->
  (fun sp => (box_format sp, indexes sp)) <$> d !! kam_dialogs = Some (kam_dialogs_format, kam_dialogs_indexes) ->
  billing_db d (table subscribers d) (table kam_dialogs d).
Proof.
  intros (ssp & Hs & Hf)%fmap_Some (dsp & Hd & E)%fmap_Some. injection E as Hfd Hi.
  exists ssp, dsp. unfold table. by rewrite Hs, Hd.
Qed.

(** A minute at the price of 44, although the tariffs are gone when the call ends. *)
Lemma authorized_call_is_charged_witness : exists record d3,
  finalize_cdr noon [text "c1"; LNum 60; LNum 3000; LNum 2999; LNum 2; LNum 0; LNum 4; text "n1"]
    (<[tariffs := box_create tariffs_format primary]> (try_call "c1" one_tariff).2)
  = (Some (tab [("status", text "ok"); ("cdr_id", LStr record); ("duration_sec", LNum 60);
                ("billed_amount", LNum 1); ("remaining_balance", LDbl (decimal 5 1))]%string), d3).
Proof.
  assert (billing_db one_tariff (table subscribers one_tariff) (table kam_dialogs one_tariff)) as Hdb.
  { by apply billing_tables; vm_compute. }
  assert (box_format <$> (try_call "c1" one_tariff).2 !! cdrs = Some cdrs_format) as Hc by by vm_compute.
  destruct (try_call "c1" one_tariff) as [o d1] eqn:E. pose proof (f_equal fst E) as Eo. vm_compute in Eo.
  subst o.
  apply fmap_Some in Hc as (csp & Hc & Hfc). cbn [snd] in Hc |- *.
  assert (table kam_dialogs one_tariff !! lit "c1" = None) as Hnew by by vm_compute.
  pose proof noon_ok as Ht.
  assert (table subscribers one_tariff !! lit "alice"
          = Some [text "alice"; LDbl (decimal 15 1); text "EUR"; text "active"; LNum 1; text "1"; LNum 100]) as Hsub by by vm_compute.
  destruct (authorized_call_is_charged one_tariff _ _ noon (lit "alice") (lit "4420") (lit "c1") _ d1 Hdb Hnew Ht E eq_refl)
    as (rate_v & fee_v & name & rate & fee & dialog & Em & Hr & Hf & Hdb1 & Hend).
  pose proof (f_equal fst Em) as Em'. vm_compute in Em'. injection Em' as <- <- <-.
  injection Hr as <-. injection Hf as <-. set (d2 := <[tariffs := box_create tariffs_format primary]> d1).
  assert (d2 !! cdrs = Some csp) as Hc2 by (unfold d2; by rewrite lookup_insert_ne).
  assert (Forall (fun v => fits_type FNumber v = true) [LNum 4; LNum 2; LNum 0]) as Hnum by by repeat constructor.
  destruct (Hend d2 _ _ _ csp noon 60 (LNum 3000) (LNum 2999) (LNum 2) (LNum 0) (LNum 4) (lit "n1")
      (billing_put_other tariffs _ d1 _ _ ltac:(done) ltac:(done) Hdb1) (lookup_insert_eq _ _ _) Hsub Hc2 (eq_sym Hfc) Ht ltac:(lia) Hnum)
    as (balance & record & d3 & csp' & Hb & Efin & _).
  exists record, d3. injection Hb as <-.
  match type of Efin with context [("billed_amount"%string, ?b)] => assert (b = LNum 1) as Eb by by vm_compute end.
  match type of Efin with context [("remaining_balance"%string, ?b)] => assert (b = LDbl (decimal 5 1)) as El by by vm_compute end.
  rewrite Eb, El in Efin. exact Efin.
Defined.

(** The tariff of a number is that of 44. *)
Lemma tariff_of_longest_prefix_witness : exists sp tariff, one_tariff !! tariffs = Some sp
  /\ match_tariff (LStr (lit "4420")) one_tariff = (Some tariff, one_tariff) /\ tariff.2 = text "UK".
Proof.
  destruct (one_tariff !! tariffs) as [sp|] eqn:E;
    [|by apply (f_equal (fmap (M := option) rows)) in E; vm_compute in E].
  destruct (tariff_of_longest_prefix one_tariff sp (lit "4420") E) as (tariff & Em & _).
  exists sp, tariff. split_and!; [done..|]. pose proof (f_equal fst Em) as Ef. vm_compute in Ef.
  by injection Ef as <-.
Defined.

(** A balance of 1.5 is enough for the 90 seconds granted, and not for the two minutes they
    are charged as. *)
Lemma granted_call_costs_more :
  let '(granted, d) := try_call "c1" one_tariff in
  let charged := (finalize_cdr noon [text "c1"; LNum 90] d).1 in
  answered granted "max_duration_sec" = Some (LNum 90)
  /\ answered charged "billed_amount" = Some (LNum 2) /\ answered charged "remaining_balance" = Some (LNum 0).
Proof. by vm_compute. Qed.

(** Two calls at once are each granted all of the balance. *)
Lemma balance_granted_twice :
  let d := (set_tariff [text "44"; text "UK"; LNum 1; LNum 0]
    (add_subscriber 100 [text "alice"; LDbl (decimal 15 1); text "EUR"; LNum 2] fresh_db).2).2 in
  let '(first, d1) := try_call "c1" d in let '(second, _) := try_call "c2" d1 in
  answered first "max_duration_sec" = Some (LNum 90) /\ answered second "max_duration_sec" = Some (LNum 90).
Proof. by vm_compute. Qed.

(** A second [finalize_cdr] of a call, that comes while the first waits for the log, finds the
    dialog and charges the call again: 0.5 of the 1.5 are left by the first, and nothing by the
    second. *)
Lemma call_charged_twice :
  let d := (try_call "c1" one_tariff).2 in
  let '(first, d1) := charge_call noon [text "c1"; LNum 60] d in
  let '(second, _) := charge_call noon [text "c1"; LNum 60] d1 in
  (lua_of ∘ ch_left <$> first) = Some (LDbl (decimal 5 1)) /\ (lua_of ∘ ch_billed <$> second) = Some (LNum 1)
  /\ (lua_of ∘ ch_left <$> second) = Some (LNum 0).
Proof. by vm_compute. Qed.
