(* ===== verification/CallPath.v ===== *)
(** A call through the whole system: a SIP proxy, the daemon of rtpengine with its driver, the
    stored procedures, and the driver of another node that restores the calls. *)
From S2P Require Import OpenSipsSpec.
From S2P Require Export ProxySpec RtpeRun RtpeSpec Failover.

(** * From the INVITE to the database *)

(** What the daemon stores of a call is small, whatever the Call-ID. *)
Lemma daemon_info_small node cid name :
  len cid <= 127 -> len (cstr name) <= 1024 ->
  info_small cid (Some name) (daemon_info node cid)
  /\ info_bytes cid (Some name) (daemon_info node cid) <= 1853.
Proof.
  intros Hid Hn. unfold info_small, info_bytes, or_else, daemon_info.
  cbn [default from_option caller_ip callee_ip srtp_suite]. unfold id.
  assert (len (cstr (lit "172.28.0.100")) = 12) as -> by reflexivity.
  assert (len (cstr (lit "172.28.0.101")) = 12) as -> by reflexivity.
  assert (len (cstr (lit "AES_CM_128_HMAC_SHA1_80")) = 23) as -> by reflexivity.
  split; [|lia]. rewrite !Forall_cons, Forall_nil. 
  change (len (cstr (lit "172.28.0.100"))) with 12. change (len (cstr (lit "172.28.0.101"))) with 12.
  change (len (cstr (lit "AES_CM_128_HMAC_SHA1_80"))) with 23. lia.
Qed.

Lemma daemon_ident id : id <> [] -> ident id (len id) id.
Proof.
  intros Hid. unfold ident. destruct (0 <? len id) eqn:E.
  - split; [done|]. exists []. by rewrite app_nil_r.
  - destruct id; [done|]. rewrite len_cons in E. pose proof (len_nonneg id). lia.
Qed.

(** C29: the path of an INVITE to the database, for a Call-ID that is not empty and holds no
    quotation mark: a proxy that receives it, and whose own request to the database for a node
    is answered, whatever the answer, sends the daemon an offer; the daemon, connected and
    authenticated, drops the stale bytes of its socket, and
    then either the whole [rtpe_call_upsert] request for the Call-ID of the INVITE goes out, or
    only a beginning of it and the connection is closed; it answers the proxy either way. *)
Theorem invite_reaches_database {D} e node (P : proxy) (select_node : M D unit) t inv a n b k d w c w0 s :
  P = kam_proxy e \/ P = os_proxy e -> serves select_node 1 d w ->
  is_invite inv = true -> len inv < BUFFER_SIZE -> id_of inv <> [] -> 34 ∉ id_of inv ->
  authed c -> socks w0 !! r_fd c = Some s -> len (cstr (r_node_id (r_config c))) <= 1024 ->
  exists t' offer d' w' done_ rest evs' c1 w1,
    proxy_turn P select_node t (packet inv a n) d w = Ret (t', [offer; to_uas P inv]) d' w'
    /\ upsert_frame c (id_of inv) (daemon_info node (id_of inv)) = done_ ++ rest
    /\ ng_turn node (Some (offer.1, b, k)) c w0
       = Ret [(offer_cookie P ++ media_answer, (b, k))] c1 w1
    /\ let w2 := with_sock w0 (r_fd c) (sent (set_rx s (drained (rx s))) evs' done_) in
       if decide (rest = []) then c1 = pushed (synced c) /\ w1 = w2
       else r_fd c1 = -1 /\ socks w1 = delete (r_fd c) (socks w2).
Proof.
  intros HP Hsel Hi Li Hid Hq Ha Hs Hn.
  destruct (turn_invite P select_node t inv a n _ d w Hi Li Hsel) as (d' & w' & E & _).
  destruct (extract_call_id_wf inv) as [Hz Hl]. fold (id_of inv) in Hz, Hl.
  destruct (daemon_info_small node (id_of inv) _ Hl Hn) as [Hsm Hby].
  destruct (push_total (upsert_frame c (id_of inv) (daemon_info node (id_of inv))) (synced c) w0 s
              Ha Hs) as (dn & rest & evs & Ef & Hp).
  rewrite <- (save_push c w0 (daemon_info node (id_of inv)) (id_of inv) (id_of inv) eq_refl
              (daemon_ident _ Hid) Hsm (upsert_fits _ _ _ Hsm Hby)) in Hp.
  pose proof (daemon_saves P node (offer_cookie P) (id_of inv) b k c w0
                (offer_cookie_known e P HP) Hz Hl Hid Hq) as Hng.
  cbv zeta in *. destruct (decide (rest = [])) as [Hr|Hr].
  - exists (store_session (MAX_SESSIONS P) (id_of inv) a n t).
    eexists _, d', w', dn, rest, evs, _, _. split; [exact E|]. split; [done|].
    rewrite Hng. run Hp. split; [done|]. by rewrite decide_True by done.
  - destruct Hp as (now & w2 & Hp & Hw2).
    exists (store_session (MAX_SESSIONS P) (id_of inv) a n t).
    eexists _, d', w', dn, rest, evs, _, _. split; [exact E|]. split; [done|].
    rewrite Hng. run Hp. split; [done|]. rewrite decide_False by done. split; [|done].
    unfold unsent. cbn. by case_match.
Qed.

(** A server that answers the calls of [rtpe_select_node] of an OpenSIPS proxy: a node, in a
    response with the header of a Tarantool server. *)
Definition select_answer : list Z :=
  finalize_packet (mp_bytes (MMap FFix [(MFix 0, MUint W32 0); (MFix 1, MUint W64 1); (MFix 5, MUint W32 80)])
                   ++ mp_bytes (MMap FFix [(MFix 0x30, MArr FFix [MArr FFix [MStr FFix (lit "rtpe-1"); MStr FFix (lit "172.28.0.20")]])])).
Definition select_world (n : nat) : world :=
  World [1000] {[ 5 := Sock (concat (repeat [RxErr EAGAIN; RxData MP_UINT32 (tail select_answer)] n)) [] [] ]}
    [] [] [] [].

(** The call goes over the connection and succeeds. *)
Example select_succeeds : exists t' w',
  tarantool_call_proc (Some (Str (Some (lit "rtpe_select_node")) 16)) (Some (Str (Some (lit "[]")) 2)) true
    (ex_tcon 2) (select_world 1)
  = Ret (0, Some (Str None 0)) t' w'.
Proof. eexists _, _. vm_compute. reflexivity. Qed.

Lemma select_serves : serves (os_select_node true) 1 (ex_tcon 2) (select_world 1).
Proof. eexists _, _. split; [by vm_compute|done]. Qed.

Lemma invite_reaches_database_witness :
  exists t' offer d' w' done_ rest evs' c1 w1,
    proxy_turn (os_proxy ex_env) (os_select_node true) ∅ (packet ex_inv ex_uac 16) (ex_tcon 2)
      (select_world 1) = Ret (t', [offer; to_uas (os_proxy ex_env) ex_inv]) d' w'
    /\ upsert_frame ex_client (id_of ex_inv) (daemon_info (lit "n1") (id_of ex_inv)) = done_ ++ rest
    /\ ng_turn (lit "n1") (Some (offer.1, ex_uac, 16)) ex_client (ex_rworld [])
       = Ret [(offer_cookie (os_proxy ex_env) ++ media_answer, (ex_uac, 16))] c1 w1
    /\ let w2 := with_sock (ex_rworld []) (r_fd ex_client)
                   (sent (set_rx (ex_rsock []) (drained (rx (ex_rsock [])))) evs' done_) in
       if decide (rest = []) then c1 = pushed (synced ex_client) /\ w1 = w2
       else r_fd c1 = -1 /\ socks w1 = delete (r_fd ex_client) (socks w2).
Proof.
  apply (invite_reaches_database ex_env).
  - by right.
  - exact select_serves.
  - by vm_compute.
  - by vm_compute.
  - by vm_compute.
  - vm_compute. set_solver.
  - apply ex_authed.
  - reflexivity.
  - by vm_compute.
Defined.

(** * From the proxy to the restore *)

(** What happens to a call at the proxy: its INVITE, or the BYE that ends it. *)
Inductive sip_event := Invite (buf : list Z) | Bye (buf : list Z).
Definition sip_packet (x : sip_event) : list Z := match x with Invite buf | Bye buf => buf end.

Definition sip_ok (x : sip_event) : Prop :=
  let buf := sip_packet x in
  len buf < BUFFER_SIZE /\ id_of buf <> [] /\ 34 ∉ id_of buf /\ bytes_ok (id_of buf) /\ id_of buf <> sample_call_id
  /\ match x with Invite _ => is_invite buf = true | Bye _ => is_bye buf = true end.

Section path.
Context (P : proxy) (node : list Z).

(** The command for the daemon, and what the daemon makes of it: the operation of the driver,
    and the answer. *)
Definition command_of (x : sip_event) : list Z :=
  match x with
  | Invite buf => (to_rtpe P (ng_command (offer_cookie P) (lit "offer") (id_of buf))).1
  | Bye buf => (to_rtpe P (ng_command (delete_cookie P) (lit "delete") (id_of buf))).1
  end.
Definition daemon_op (x : sip_event) : call_op :=
  match x with
  | Invite buf => SaveCall (daemon_info node (id_of buf)) (id_of buf)
  | Bye _ => DeleteCall sample_call_id 20 sample_call_id
  end.
Definition answer_of (x : sip_event) : list Z :=
  match x with Invite _ => offer_cookie P ++ media_answer | Bye _ => delete_cookie P ++ ok_answer end.

(** The packets as they arrive, each from its own address. *)
Definition arrivals (src : sip_event -> sockaddr_in * Z) (xs : list sip_event) : list received :=
  (fun x => packet (sip_packet x) (src x).1 (src x).2) <$> xs.

(** What a proxy sends for an event starts with the command for the daemon. *)
Definition led_by_command (x : sip_event) (out : list datagram) : Prop :=
  exists rest, out = (command_of x, (rtpe_addr P, sizeof_sockaddr_in)) :: rest.

Lemma proxy_forwards {D} (select_node : M D unit) x t a n m d w :
  sip_ok x -> serves select_node (requests [packet (sip_packet x) a n] + m) d w ->
  exists t' out d' w', proxy_turn P select_node t (packet (sip_packet x) a n) d w = Ret (t', out) d' w'
    /\ led_by_command x out /\ serves select_node m d' w'.
Proof.
  intros (Hl & _ & _ & _ & _ & Hx). unfold requests. cbn [fmap list_fmap sum_list sum_list_with is_invite_event packet].
  pose proof (len_nonneg (sip_packet x)). rewrite ztake_all by lia.
  destruct x as [buf|buf]; cbn [sip_packet] in *; intros Hsel.
  - rewrite Hx in Hsel.
    destruct (turn_invite P select_node t buf a n _ d w Hx Hl Hsel) as (d' & w' & E & Hs).
    do 4 eexists. split; [exact E|]. split; [by eexists|done].
  - destruct (bye_only buf Hx) as (Hi & _). rewrite Hi in Hsel.
    destruct (turn_bye P select_node t buf a n d w Hx Hl) as (t' & rest & E).
    do 4 eexists. split; [exact E|]. split; [by eexists|done].
Qed.

Lemma proxy_forwards_all {D} (select_node : M D unit) src xs : Forall sip_ok xs -> forall t d w,
  serves select_node (requests (arrivals src xs)) d w ->
  exists t' outs d' w', proxy_loop P select_node t (arrivals src xs) d w = Ret (t', concat outs) d' w'
    /\ Forall2 led_by_command xs outs.
Proof.
  induction 1 as [|x xs Hx _ IH]; intros t d w Hs.
  { exists t, [], d, w. by split. }
  change (arrivals src (x :: xs)) with (packet (sip_packet x) (src x).1 (src x).2 :: arrivals src xs) in *.
  cbn [proxy_loop]. rewrite requests_cons in Hs.
  destruct (proxy_forwards select_node x t (src x).1 (src x).2 (requests (arrivals src xs)) d w Hx) as (t1 & o & d1 & w1 & E & Ho & Hs1).
  { rewrite requests_cons. change (requests []) with 0%nat. rewrite Nat.add_0_r. exact Hs. }
  destruct (IH t1 d1 w1 Hs1) as (t2 & outs & d2 & w2 & E2 & F).
  run E. run E2. exists t2, (o :: outs), d2, w2. split; [done|by constructor].
Qed.

Context (Hoffer : offer_cookie P ∈ cookies) (Hdelete : delete_cookie P ∈ cookies).

Lemma daemon_turn x b k c w : sip_ok x ->
  ng_turn node (Some (command_of x, b, k)) c w
  = (_ ← run_call_op (daemon_op x); mret [(answer_of x, (b, k))]) c w.
Proof.
  intros (Hl & Hid & Hq & _ & _ & Hx). destruct (extract_call_id_wf (sip_packet x)) as [Hz Hlen].
  fold (id_of (sip_packet x)) in Hz, Hlen. destruct x as [buf|buf]; cbn [sip_packet] in *.
  - by apply daemon_saves.
  - by apply (daemon_deletes P node (delete_cookie P) (id_of buf)).
Qed.

Lemma daemon_loop xs b k : Forall sip_ok xs -> forall c w rs c' w',
  run_call_ops (daemon_op <$> xs) c w = Ret rs c' w' ->
  ng_loop node ((fun x => Some (command_of x, b, k)) <$> xs) c w
  = Ret ((fun x => (answer_of x, (b, k))) <$> xs) c' w'.
Proof.
  induction 1 as [|x xs Hx _ IH]; intros c w rs c' w' E; [by injection E as <- <- <-|].
  cbn [fmap list_fmap run_call_ops ng_loop] in *.
  apply bind_inv in E as (r & c1 & w1 & E1 & E). apply bind_inv in E as (rs1 & c2 & w2 & E2 & [= _ <- <-]).
  assert (ng_turn node (Some (command_of x, b, k)) c w = Ret [(answer_of x, (b, k))] c1 w1) as Et.
  { rewrite (daemon_turn x b k c w Hx). by run E1. }
  run Et. by run (IH _ _ _ _ _ E2).
Qed.

(** ** What is kept *)

Context (c : rtpe_tarantool_client) (Hnode : RtpeTrip.fits 64 (node_of c)).

Lemma daemon_op_ok x : sip_ok x -> call_op_ok c (daemon_op x).
Proof.
  intros (_ & Hid & _ & Hby & _ & _). destruct x as [buf|buf]; [|split; [split; [done|by exists []]|by vm_compute]].
  cbn [sip_packet daemon_op call_op_ok] in *. destruct (extract_call_id_wf buf) as [Hz Hlen].
  fold (id_of buf) in Hz, Hlen. split; [exists (id_of buf); split; [done|by apply daemon_ident]|].
  split; [|by vm_compute]. unfold storable. split; [done|]. split; [split; [done|]; split; [lia|done]|].
  split; [done|]. split_and!; try (by vm_compute); by apply ex_fits.
Qed.

(** The Call-IDs that rang, with the time of their last INVITE; a BYE takes none away. *)
Definition rung (txs : list (Z * sip_event)) : gmap (list Z) Z :=
  foldl (fun m tx => match tx.2 with Invite buf => <[id_of buf := tx.1]> m | Bye _ => m end) ∅ txs.

Definition op_at (tx : Z * sip_event) : Z * call_op := (tx.1, daemon_op tx.2).

(** A call of the daemon as it is kept. *)
Definition kept_as (id : list Z) (t : option Z) (s : option saved_call) : Prop :=
  match t, s with
  | Some t, Some s => sc_cid s = id /\ sc_info s = daemon_info node id /\ sc_expires s = t + 120
  | None, None => True
  | _, _ => False
  end.

Lemma kept_rung txs : Forall (fun tx => sip_ok tx.2) txs ->
  forall id, kept_as id (rung txs !! id) (kept_calls c (op_at <$> txs) !! id).
Proof.
  intros Htxs id. unfold rung, kept_calls.
  assert (kept_as id ((∅ : gmap (list Z) Z) !! id) ((∅ : gmap (list Z) saved_call) !! id)) as H0 by by rewrite !lookup_empty.
  assert ((∅ : gmap (list Z) Z) !! sample_call_id = None) as Hs by done. revert H0 Hs.
  generalize (∅ : gmap (list Z) Z) as m, (∅ : gmap (list Z) saved_call) as k.
  induction Htxs as [|[t x] txs Hx _ IH]; intros m k H0 Hs; [exact H0|]. cbn [fmap list_fmap foldl].
  destruct Hx as (_ & _ & _ & _ & Hne & _). destruct x as [buf|buf]; cbn [fst snd op_at daemon_op keep_op sip_packet] in *.
  - apply IH; [|by rewrite lookup_insert_ne]. destruct (decide (id_of buf = id)) as [->|Hne'].
    + rewrite !lookup_insert_eq. by split_and!.
    + by rewrite !lookup_insert_ne.
  - apply IH; [|done]. destruct (decide (id = sample_call_id)) as [->|].
    + by rewrite Hs, lookup_delete_eq.
    + by rewrite lookup_delete_ne.
Qed.

(** The calls that rang less than 120 seconds ago. *)
Definition recent (now : Z) (txs : list (Z * sip_event)) : list (list Z) :=
  (filter (fun it => now < it.2 + 120) (map_to_list (rung txs))).*1.

Lemma kept_recent now txs : Forall (fun tx => sip_ok tx.2) txs ->
  sc_cid <$> unexpired_calls now (kept_calls c (op_at <$> txs)) ≡ₚ recent now txs
  /\ Forall (fun s => sc_info s = daemon_info node (sc_cid s)) (unexpired_calls now (kept_calls c (op_at <$> txs))).
Proof.
  intros Htxs. pose proof (kept_rung txs Htxs) as Hk. unfold unexpired_calls, recent.
  set (k := kept_calls c (op_at <$> txs)) in *. clearbody k. set (r := rung txs) in *. clearbody r.
  assert (forall id s, (id, s) ∈ map_to_list k -> sc_cid s = id /\ sc_info s = daemon_info node id) as Hin.
  { intros id s E%elem_of_map_to_list. pose proof (Hk id) as Hid. rewrite E in Hid. destruct (r !! id); [|done].
    by destruct Hid as (H1 & H2 & _). }
  split.
  - assert (sc_expires <$> k = (fun t => t + 120) <$> r) as E.
    { apply map_eq. intros id. rewrite !lookup_fmap. pose proof (Hk id) as Hid.
      destruct (k !! id), (r !! id); try done. destruct Hid as (_ & _ & Ex); cbn; by rewrite Ex. }
    assert (sc_cid <$> filter (fun s => now < sc_expires s) (map_to_list k).*2
            = (filter (fun ie => now < ie.2) (map_to_list (sc_expires <$> k))).*1) as ->.
    { rewrite map_to_list_fmap. induction (map_to_list k) as [|[id s] l IH]; [done|]. 
      rewrite !fmap_cons, !filter_cons. cbn [prod_map snd fst].
      case_decide as Hd; rewrite ?fmap_cons, IH by (intros; apply Hin; by right); [|done].
      by destruct (Hin id s (list_elem_of_here _ _)) as [-> _]. }
    rewrite E, map_to_list_fmap. induction (map_to_list r) as [|[id t] l IH]; [done|].
    rewrite !fmap_cons, !filter_cons. cbn [prod_map snd fst]. case_decide; [|done]. rewrite !fmap_cons. by f_equiv.
  - apply Forall_forall. intros s [_ Hs]%list_elem_of_filter.
    apply list_elem_of_fmap in Hs as ([id s'] & -> & Hs). cbn [snd]. by destruct (Hin id s' Hs) as [-> ?].
Qed.

End path.

(** * The whole *)

Section whole.
Context `{!Box, !BoxLaws, !LuaMsgpack, !LuaMsgpackLaws}.
Context (table_text : lua -> list Z) (other : list Z -> option (Z -> list lua -> proc lua)).

(** C2: A call that was hung up comes back. INVITEs and BYEs arrive at either proxy, with
    Call-IDs that are not empty, hold no quotation mark and are not the daemon's sample; the
    proxy's own requests to the database for a node, one for each INVITE, are answered. Its loop
    goes through all of them, and what it sends for each starts with a command for the daemon. The
    daemon, over a connection that takes what it sends, answers every command and puts one
    request per command on the wire. When the server has handled the requests at their times and
    another authenticated client gets its answer to a restore of the calls of the node, the
    callback gets, in some order, every call whose last INVITE was less than 120 seconds ago,
    whether it was hung up since or not, with the constant media addresses of the daemon. *)
Theorem hung_up_calls_come_back {D} e P (select_node : M D unit) src t d0 w0 node c w s txs b k c2 w2 node2 cb others fh header fb fa evs s2 now
  (HP : P = kam_proxy e \/ P = os_proxy e)
  (Hsel : serves select_node (requests (arrivals src txs.*2)) d0 w0)
  (Hauth : authed c) (Hsock : socks w !! r_fd c = Some s) (Htx : tx s = []) (Hname : RtpeTrip.fits 64 (node_of c))
  (Htxs : Forall (fun tx => op_time_ok tx.1 /\ sip_ok tx.2) txs) :
  let ops := op_at node <$> txs in
  let m := answer_message fh header fb fa
             (restore_answer table_text other now (cstr node2) (handled table_text other c ops fresh_db)) in
  (exists t' outs d' w',
    proxy_loop P select_node t (arrivals src txs.*2) d0 w0 = Ret (t', concat outs) d' w'
    /\ Forall2 (led_by_command P) txs.*2 outs)
  /\ (exists w' rx',
      ng_loop node ((fun x => Some (command_of P x, b, k)) <$> txs.*2) c w
      = Ret ((fun x => (answer_of P x, (b, k))) <$> txs.*2) (after_ops c ops.*2) w'
      /\ socks w' !! r_fd c = Some (Sock rx' [] (wire s ++ flat_map rpc_frame (op_rpcs c ops.*2))))
  /\ (authed c2 -> cstr node2 = node_of c -> node_of c <> [] -> len (node_of c) <= 450 ->
      replies w2 c2 others m evs s2 -> mp_wf (MMap fb (m_body m)) -> (forall cs i, cb cs i = 0) ->
      len (recent now txs) < 2 ^ 31 ->
      exists ids, ids ≡ₚ recent now txs /\
        rtpe_tarantool_restore_calls cb (Some node2) c2 w2
        = Ret (len ids, (fun id => call_back id (node_of c) (daemon_info node id)) <$> ids) (synced c2)
              (with_sock w2 (r_fd c2) (Sock evs [] (wire s2 ++ restore_frame c2 node2)))).
Proof.
  intros ops m. assert (offer_cookie P ∈ cookies /\ delete_cookie P ∈ cookies) as [Ho Hd].
  { destruct HP; subst P; cbn; set_solver. }
  assert (Forall (fun tx => sip_ok tx.2) txs) as Hsip by (eapply Forall_impl; [exact Htxs|]; by intros tx [_ ?]).
  assert (Forall (fun to => op_time_ok to.1 /\ call_op_ok c to.2) ops) as Hops.
  { subst ops. apply Forall_fmap. eapply Forall_impl; [exact Htxs|]. intros tx [Ht Hs]. split; [done|].
    by apply daemon_op_ok. }
  split; [|split].
  - apply proxy_forwards_all; [by apply Forall_fmap|done].
  - destruct (run_call_ops_ok ops.*2 c w s Hauth Hsock Htx) as (w' & rx' & E & Hw').
    { apply Forall_fmap. eapply Forall_impl; [exact Hops|]. by intros to [_ ?]. }
    exists w', rx'. split; [|exact Hw'].
    assert (ops.*2 = daemon_op node <$> txs.*2) as Eops by (subst ops; by rewrite <- !list_fmap_compose).
    rewrite Eops in E |- *. apply (daemon_loop P node Ho Hd txs.*2 b k) in E; [|by apply Forall_fmap].
    exact E.
  - intros Ha2 Hn Hne Hlen Hrep Hwf Hcb Hcount.
    destruct (kept_recent node c now txs Hsip) as [Hids Hinfo]. fold ops in Hids, Hinfo.
    destruct (restore_delivers table_text other (handled table_text other c ops fresh_db) (kept_calls c ops)
      c2 w2 s2 node2 cb others fh header fb fa evs now) as (ss & Hss & E); try done; try (by rewrite Hn).
    + rewrite Hn. by apply kept_db.
    + rewrite Hn. by apply (kept_ok c ops ∅ Hops (map_Forall_empty _)).
    + assert (len (unexpired_calls now (kept_calls c ops)) = len (recent now txs)) as ->; [|done].
      unfold len. by rewrite <- Hids, length_fmap.
    + exists (sc_cid <$> ss). split; [by rewrite Hss|]. rewrite E, Hn.
      assert (delivered (node_of c) <$> ss = (fun id => call_back id (node_of c) (daemon_info node id)) <$> (sc_cid <$> ss)) as ->.
      { rewrite <- list_fmap_compose. rewrite <- Hss in Hinfo. clear -Hinfo. induction Hinfo as [|x xs Hx _ IH]; [done|].
        cbn [fmap list_fmap]. rewrite IH. f_equal. unfold delivered. by rewrite Hx. }
      by rewrite len_fmap.
Qed.

End whole.

(** ** A call that is hung up after ten seconds *)

Definition day : list (Z * sip_event) := [(1000, Invite ex_inv); (1010, Bye ex_bye)].

Lemma day_ok : Forall (fun tx => op_time_ok tx.1 /\ sip_ok tx.2) day.
Proof.
  unfold day, op_time_ok. repeat (apply Forall_cons; split; [split; [cbn; lia|]|]); [..|by apply Forall_nil].
  all: split_and!; try (by vm_compute); [by apply (bool_decide_unpack _); vm_compute|by apply bytes_dec; vm_compute].
Qed.

Definition day_answer : message := answer_message FFix (ex_header_of 7) FFix FFix
  (restore_answer no_text no_others 1050 (cstr (lit "node-1"))
     (handled no_text no_others ex_client (op_at (lit "node-1") <$> day) fresh_db)).

Lemma day_replies : replies (ex_rworld (frame_of day_answer)) ex_client [] day_answer [] (ex_rsock (frame_of day_answer)).
Proof.
  split; [apply lookup_insert_eq|]. split; [done|]. split; [done|]. split.
  { change (stream retry_all (drained (rx (ex_rsock (MP_UINT32 :: tail (frame_of day_answer))))) (MP_UINT32 :: tail (frame_of day_answer)) []).
    apply ex_stream. }
  split; [|split; [done|by apply Forall_nil]].
  apply ex_header_wf; [lia| |by vm_compute]. by apply bytes_dec; vm_compute.
Qed.

Definition day_src (x : sip_event) : sockaddr_in * Z := (ex_uac, 16).

Lemma hung_up_calls_come_back_witness : exists ids t' outs d' w1 c' w',
  recent 1050 day = [lit "a1"] /\ ids ≡ₚ recent 1050 day /\
  proxy_loop (os_proxy ex_env) (os_select_node true) ∅ (arrivals day_src day.*2) (ex_tcon 2) (select_world 1)
  = Ret (t', concat outs) d' w1 /\
  Forall2 (led_by_command (os_proxy ex_env)) day.*2 outs /\
  rtpe_tarantool_restore_calls (fun _ _ => 0) (Some (lit "node-1")) ex_client (ex_rworld (frame_of day_answer))
  = Ret (len ids, (fun id => call_back id (lit "node-1") (daemon_info (lit "node-1") id)) <$> ids) c' w'.
Proof.
  destruct (hung_up_calls_come_back no_text no_others ex_env (os_proxy ex_env)
    (os_select_node true) day_src ∅ (ex_tcon 2) (select_world 1)
    (lit "node-1") ex_client fo_world fo_sock day ex_uac 16 ex_client
    (ex_rworld (frame_of day_answer)) (lit "node-1") (fun _ _ => 0) [] FFix (ex_header_of 7) FFix FFix []
    (ex_rsock (frame_of day_answer)) 1050) as ((t' & outs & d' & w1 & El & Fl) & _ & H).
  - by right.
  - exact select_serves.
  - apply ex_authed.
  - by apply lookup_insert_eq.
  - done.
  - by apply ex_fits.
  - apply day_ok.
  - destruct H as (ids & Hids & E).
    + apply ex_authed.
    + done.
    + done.
    + by vm_compute.
    + exact day_replies.
    + vm_compute. repeat split; (reflexivity || discriminate).
    + done.
    + by vm_compute.
    + exists ids, t', outs, d', w1. eexists _, _. split; [by vm_compute|]. split; [exact Hids|].
      split; [exact El|]. split; [exact Fl|]. exact E.
Defined.
