(* ===== verification/KamSettings.v ===== *)
(** The settings of the Kamailio module: the lines [modparam("ndb_tarantool", name, value)] of a
    configuration, in their order. *)
From S2P Require Export KamModule KamConfig.

(** How the core of Kamailio sets a parameter of a table. *)
Inductive param_value := PInt (n : Z) | PString (s : list Z).

Definition param_named (table : list (list Z * param_export)) (n : list Z) : option param_export :=
  snd ∘ snd <$> list_find (fun e => e.1 = n) table.

Class ModparamCore `{!KamModuleCore} := {
  set_mod_param : list (list Z * param_export) -> list Z -> param_value -> kam_params -> ML (Z * kam_params)
}.

(** A number goes to an int parameter; a string goes, with its kind, to the function of a
    string parameter. *)
Class ModparamLaws `{!KamModuleCore, !ModparamCore} := {
  set_int_param table n set v p : param_named table n = Some (ParamInt set) ->
    set_mod_param table n (PInt v) p = mret (0, set v p);
  set_string_param table n f s p : param_named table n = Some (ParamFunc PARAM_STRING f) ->
    set_mod_param table n (PString s) p = (rc ← f p PARAM_STRING (Some s); mret (rc, p))
}.

(** The parameters of a whole number, in the order of [kam_params]. *)
Inductive int_param := InitWithout | ConnectTimeout | CmdTimeout | DisableTime | AllowedTimeouts.
#[export] Instance int_param_dec : EqDecision int_param.
Proof. solve_decision. Defined.

Definition int_name (k : int_param) : string :=
  match k with
  | InitWithout => "init_without_tarantool" | ConnectTimeout => "connect_timeout"
  | CmdTimeout => "cmd_timeout" | DisableTime => "disable_time" | AllowedTimeouts => "allowed_timeouts"
  end.

(** The fields of a server, numbers as they are written. *)
Record server_fields := Fields {
  f_name : list Z; f_addr : list Z; f_port : list Z; f_user : list Z; f_pass : list Z;
  f_disable : list Z; f_allowed : list Z
}.

Definition number_of (v : list Z) : Z := digits v 0.
Definition number_ok (v : list Z) : Prop := num_ok v (number_of v) /\ len v < 2 ^ 31.

Definition fields_ok (s : server_fields) : Prop :=
  val_ok (f_name s) /\ f_name s <> [] /\ (0 ∉ f_name s) /\ val_ok (f_addr s) /\ val_ok (f_user s) /\ val_ok (f_pass s)
  /\ number_ok (f_port s) /\ 0 < number_of (f_port s) <= 65535 /\ number_ok (f_disable s) /\ number_ok (f_allowed s).

Definition fields_text (s : server_fields) : list Z :=
  spec_bytes [field "name" (f_name s); field "addr" (f_addr s); field "port" (f_port s); field "user" (f_user s);
              field "pass" (f_pass s); field "disable_time" (f_disable s); field "allowed_timeouts" (f_allowed s)].

(** A line of the configuration. *)
Inductive line := IntLine (k : int_param) (n : Z) | ServerLine (s : server_fields).

Definition line_ok (x : line) : Prop := match x with IntLine _ _ => True | ServerLine s => fields_ok s end.
Definition line_name (x : line) : string := match x with IntLine k _ => int_name k | ServerLine _ => "server" end.
Definition line_value (x : line) : param_value :=
  match x with IntLine _ n => PInt n | ServerLine s => PString (fields_text s) end.

(** ** What they should set *)

(** The last value a line gives to a parameter. *)
Fixpoint last_set (k : int_param) (n : Z) (xs : list line) : Z :=
  match xs with
  | [] => n
  | IntLine k' n' :: xs' => last_set k (if decide (k' = k) then n' else n) xs'
  | ServerLine _ :: xs' => last_set k n xs'
  end.

Definition params_after (xs : list line) : kam_params :=
  KParams (negb (last_set InitWithout 0 xs =? 0)) (last_set ConnectTimeout 1000 xs) (last_set CmdTimeout 1000 xs)
          (last_set DisableTime 10 xs) (last_set AllowedTimeouts 3 xs).

Definition server_of (p : kam_params) (s : server_fields) : tnt_server :=
  Server (str_of (f_name s)) (str_of (f_addr s)) (number_of (f_port s)) (str_of (f_user s)) (str_of (f_pass s))
         (tnt_connect_timeout_param p) (tnt_cmd_timeout_param p) (number_of (f_disable s)) (number_of (f_allowed s))
         false 0 0 (-1) false 0.

(** The servers, the last one first, each with the time-outs of the lines before it. *)
Fixpoint servers_from (before : list line) (xs : list line) : list tnt_server :=
  match xs with
  | [] => []
  | x :: xs' => servers_from (before ++ [x]) xs'
                ++ match x with ServerLine s => [server_of (params_after before) s] | IntLine _ _ => [] end
  end.

Section settings.
Context `{!KamModuleCore, !ModparamCore, !ModparamLaws}.

(** The core stops at the first line that fails. *)
Fixpoint modparams (xs : list (list Z * param_value)) (p : kam_params) : ML (Z * kam_params) :=
  match xs with
  | [] => mret (0, p)
  | (n, v) :: xs' => '(rc, p') ← set_mod_param mod_params n v p;
                     if rc <? 0 then mret (rc, p') else modparams xs' p'
  end.

Lemma last_set_snoc k xs : forall n x, last_set k n (xs ++ [x])
  = match x with IntLine k' n' => if decide (k' = k) then n' else last_set k n xs | ServerLine _ => last_set k n xs end.
Proof.
  induction xs as [|[k0 n0|s0] xs IH]; intros n x; cbn [app last_set]; [by destruct x|apply IH..].
Qed.

Lemma fields_added p s l w : w_malloc w = [] -> fields_ok s ->
  tnt_add_server p (Some (fields_text s)) l w = Ret 0 (server_of p s :: l) w.
Proof.
  intros Hm (Hn & Hne & Hz & Ha & Hu & Hp & [Hpo Hlpo] & Hport & [Hdt Hldt] & [Hal Hlal]).
  by destruct (add_server_reads_spec p l w _ _ _ _ _ _ _ _ _ _ Hm Hn Hne Hz Ha Hu Hp Hpo Hport Hlpo Hdt Hldt Hal Hlal) as (E & _).
Qed.

Lemma set_line x before l w : w_malloc w = [] -> line_ok x ->
  set_mod_param mod_params (lit (line_name x)) (line_value x) (params_after before) l w
  = Ret (0, params_after (before ++ [x])) (servers_from before [x] ++ l) w.
Proof.
  intros Hm Hx. unfold params_after at 2. rewrite !last_set_snoc. destruct x as [k n|s]; cbn [line_name line_value servers_from app].
  - destruct k; cbn [int_name]; erewrite set_int_param by reflexivity; reflexivity.
  - erewrite set_string_param by reflexivity. unfold tnt_srv_param. rewrite Z.eqb_refl. by run (fields_added (params_after before) s l w Hm Hx).
Qed.

(** C24: The lines of a configuration take effect in their order. After any lines whose servers
    are well formed, every parameter has the last value it was given, or its documented
    default, and the list has the servers, the last one first, each with its own fields; but
    the time-outs of connecting and of commands, which these fields leave open, are those of the
    lines before the server: a line after it does not change it. *)
Theorem settings_take_effect_in_order xs w : w_malloc w = [] -> Forall line_ok xs ->
  modparams ((fun x => (lit (line_name x), line_value x)) <$> xs) default_kam_params [] w
  = Ret (0, params_after xs) (servers_from [] xs) w.
Proof.
  intros Hm Hxs. change default_kam_params with (params_after []).
  assert (forall before l, modparams ((fun x => (lit (line_name x), line_value x)) <$> xs) (params_after before) l w
    = Ret (0, params_after (before ++ xs)) (servers_from before xs ++ l) w) as Hrun; [|by rewrite Hrun, app_nil_r].
  induction Hxs as [|x xs Hx _ IH]; intros before l; [by rewrite app_nil_r|]. cbn [fmap list_fmap modparams].
  run (set_line x before l w Hm Hx). cbn [Z.ltb Z.compare]. rewrite IH, <- app_assoc. cbn [servers_from app].
  by rewrite <- app_assoc.
Qed.

End settings.

(** ** A core for the examples *)

#[export] Instance plain_core : KamModuleCore :=
  {| sip_msg := unit; gparam := unit; fixup_get_svalue _ _ := None;
     PARAM_STRING := 1; PROC_INIT := -127; PROC_MAIN := 0; PROC_TCP_MAIN := -4 |}.

#[export] Instance plain_modparam : ModparamCore :=
  {| set_mod_param table n v p :=
       match param_named table n, v with
       | Some (ParamInt set), PInt v => mret (0, set v p)
       | Some (ParamFunc type f), PString s => if type =? 1 then rc ← f p 1 (Some s); mret (rc, p) else mret (-1, p)
       | _, _ => mret (-1, p)
       end |}.

#[export] Instance plain_modparam_laws : ModparamLaws.
Proof. by split; intros table n f v p E; cbn; rewrite E. Qed.

Definition ex_fields : server_fields :=
  Fields (lit "srv1") (lit "127.0.0.1") (lit "3301") (lit "rtpe_user") (lit "secret") (lit "10") (lit "3").

Definition ex_settings : list line :=
  [IntLine ConnectTimeout 250; ServerLine ex_fields; IntLine CmdTimeout 500; IntLine InitWithout 1].

Lemma settings_take_effect_in_order_witness :
  modparams ((fun x => (lit (line_name x), line_value x)) <$> ex_settings) default_kam_params [] (World [] ∅ [] [] [] [])
  = Ret (0, KParams true 250 500 10 3) [server_of (KParams false 250 1000 10 3) ex_fields] (World [] ∅ [] [] [] []).
Proof.
  apply (settings_take_effect_in_order ex_settings (World [] ∅ [] [] [] [])); [done|].
  repeat constructor; try done; by apply (bool_decide_unpack _).
Defined.

(** The server of [examples/production_cluster/kamailio.cfg], whose lines set the time-out of
    commands to 500 after the server: it keeps 1000, and the field [pool] is passed over. *)
Example production_cluster_settings : exists srv p,
  modparams
    [(lit "server", PString (lit "addr=127.0.0.1;port=3301;user=rtpe_user;pass=rtpe_secret_password;pool=8"));
     (lit "connect_timeout", PInt 1000); (lit "cmd_timeout", PInt 500); (lit "disable_time", PInt 10);
     (lit "allowed_timeouts", PInt 3); (lit "init_without_tarantool", PInt 1)]
    default_kam_params [] (World [] ∅ [] [] [] []) = Ret (0, p) [srv] (World [] ∅ [] [] [] [])
  /\ tnt_cmd_timeout_param p = 500 /\ cmd_timeout srv = 1000 /\ chars (sname srv) = Some (lit "default").
Proof. eexists _, _. by vm_compute. Qed.
